(* ===== verification/_CoqProject ===== *)
-Q . S2P
Prelude.v
CMem.v
CString.v
Pmm.v
Paging.v
PageSource.v
Heap.v
Vfs.v
Process.v
Ds.v
BinLoader.v
Ports.v
Input.v
Irq.v
Tables.v
Framebuffer.v
ShellState.v
ShellLex.v
ShellParse.v
ShellExec.v
ShellBuiltins.v
ShellMeaning.v
Windows.v
Text.v
Widgets.v
Safemode.v
Screen.v
Kernel.v
