(* ===== verification/Prelude.v ===== *)
(** * MiraOS: a verification library (root file)

    MiraOS is a small 64-bit kernel with a desktop.  This library models its C code and states
    what the parts do, alone and together.  A file here stands for one part of the program and
    names the files under src/ it translates; definitions keep the names of the C functions.

    ** How the program is modelled

    A C function that changes state is a program of the monad [M S A] below: from a state it
    gives a result and a new state ([Ret]), halts in [panic] ([Panic]), does something the C
    standard leaves undefined - an access outside of an array, a freed object, a NULL pointer -
    ([Stuck]), or waits for more input than there is ([NoFuel]).  Integers are [Z], wrapped
    where the C type wraps ([u8] to [u64], [s8] to [s64] below); an int that overflows is
    taken to wrap at 32 bits.  Arrays are lists
    read and written by [aget] and [aset], which fail out of range.  Memory that is used as
    bytes (page tables, heap headers, the frame buffer, copies) is a map from addresses to
    bytes ([CMem.mem]); objects that are only used through their fields (processes, vfs nodes,
    widgets, syntax trees) are maps from addresses to records, and an address that is not in
    the map is a dangling pointer.  A loop with no structural bound takes fuel; each theorem
    says how much is enough (the length of a list, the size of the tree, 200 for the lines and
    circles of the desktop) or the fuel is computed from the state, and is enough by proof.

    ** The parts and how they call each other

    - Prelude (this file): the monad, machine integers, arrays, bit lemmas, tactics.
    - CMem: lib/common/mem.c.  CString: lib/common/string.c and the strings of ds.c.
      Ds: array, list and map of lib/common/ds.c.
    - Pmm: kernel/mem.c, the page bitmap and its start from the boot information.
      Paging: arch/x86_64/paging.c, the four levels over byte memory.  PageSource states what
      the heap needs of these two, as a class, and proves that they give it.  Heap:
      kernel/heap.c, slabs and blocks, on that class.
    - Vfs: fs/vfs.c and fs/backend/ramfs.c.  Process: kernel/process.c, the process list, the
      switch of the registers, the round-robin queue, and the exit system call.  BinLoader:
      kernel/bin/*.c and kernel/elf.c, on the class [PageMapper], which Paging implements.
    - Ports: in and out instructions; the answers of the devices are an input.  Input: keyboard,
      mouse and line input.  Irq: drivers/*.c, isr.c, the disk and the network stub.  Tables:
      the descriptor tables.
    - Framebuffer: drivers/framebuffer.c and ui/layout/gfx.c.  Text: ui/layout/text.c with its
      font, ui/widgets/widget.c, and the drawing of windows.  Windows: ui/widgets/window.c.
      Widgets: the tree of ui/ui.c.  Screen: the drawing of ui/shell.c, the pointer and
      [ui_render].  Safemode: kernel/safemode.c.
    - ShellState, ShellLex, ShellParse, ShellExec, ShellBuiltins: ui/shell.c, from its tables
      of variables, aliases and jobs over the tokenizer and the parser to the execution of
      lines and the builtins, which call the execution again.
    - Kernel: kernel/main.c, kernel/syscall.c, kernel/panic.c and [ui_tick]: the system as one
      state, the system calls and the main loop.

    Interfaces.  [Vfs.Allocator] states what [kmalloc] and [kfree] promise: a result that is 0 or
    fresh, and what is live.  The parts that allocate are proved against it.  It is the
    intended contract: Heap proves it of the block allocator and shows where the slabs break
    it (see the findings).  [ShellState.NeverOut] adds that memory does not run out.
    [Process.PageAllocator] is the part of the page allocator that processes use.  Parts that
    share the heap have allocator states of their own.  Handlers stored in the program's
    data (drivers, interrupt handlers, painters and event handlers of widgets, builtins that
    need a device) are arguments, with what is asked of them as hypotheses.

    ** What the theorems show

    - Memory: a page is never given out twice; after the start exactly the usable pages are
      free; mapping sets one translation and no other; [kmalloc] and [kfree] keep the heap a
      chain of blocks that tile it, and live blocks do not overlap; the copy loops are right
      for every overlap they claim.
    - Files and programs: paths, creation, reading back what was written; an image with a wrong
      checksum is refused, and a good one is mapped page by page.
    - Processes: the scheduler is a queue, every ready process gets its turn within a round, a
      process that is switched away and back has its registers.
    - Shell: the tokenizer and the parser end on every line and return the tree of the grammar;
      running a tree is equivalent to a big-step meaning; [ast_free] frees exactly the tree.
      Executing any line frees its arguments twice.
    - Screen: each drawing primitive changes exactly its pixels; text is its glyphs bit by bit;
      the window array is a stack; the widget tree stays a tree under every operation;
      [ui_render] and safe mode write nothing outside of the screen.
    - The whole: a file system call pair moves bytes from address to address; for every
      sequence of interrupts the main loop gets back to [hlt] with all parts well formed.

    Theorems whose name or comment says so prove a defect: they show, for the code as it is,
    the state it goes wrong in.

    ** Not modelled

    - Assembly (boot sectors, interrupt and system call entry stubs) and the inline assembly of
      cpu.h but for the port instructions, the model specific registers and the registers of
      the process switch; paging is modelled as the table walk, without a TLB.
    - The order of the calls in [kernel_main]: each call is modelled where it belongs.
    - The builtins read, clear, sleep, date, uptime and timeout, which need the clock, the
      screen or the line buffer: an argument of the shell.  [shell_register_builtins_extended]
      is never called.
    - The drawing of what a command prints: the shell has the characters as a list in its
      state, and Screen shows where the console puts them.
    - Interrupts inside of a round of the main loop: they are taken at [hlt].
    - lib/common/cxxrt.c, the build files, scripts and assets. *)

From Stdlib Require Export ZArith Lia.
From stdpp Require Export base numbers gmap strings option.
From stdpp Require Export list.

Open Scope Z_scope.

(** ** Machine integers

    A w-bit integer is a [Z]; every operation that can leave the range is
    followed by the wrap of its C type. *)

Definition wrap (w x : Z) : Z := x mod 2 ^ w.

Abbreviation u8 := (wrap 8).
Abbreviation u16 := (wrap 16).
Abbreviation u32 := (wrap 32).
Abbreviation u64 := (wrap 64).

(** Two's complement reading of a w-bit value. *)
Definition signed (w x : Z) : Z :=
  let y := wrap w x in if y <? 2 ^ (w - 1) then y else y - 2 ^ w.

Abbreviation s8 := (signed 8).
Abbreviation s32 := (signed 32).
Abbreviation s64 := (signed 64).

Lemma signed_small w x : 0 < w -> - 2 ^ (w - 1) <= x < 2 ^ (w - 1) -> signed w x = x.
Proof.
  intros Hw Hx. unfold signed, wrap.
  assert (2 ^ w = 2 * 2 ^ (w - 1)) as -> by (rewrite <- Z.pow_succ_r by lia; f_equal; lia).
  destruct (decide (0 <= x)).
  - rewrite Z.mod_small by lia. by destruct (Z.ltb_spec x (2 ^ (w - 1))); [|lia].
  - rewrite <- (Z.mod_add _ 1), Z.mod_small by lia. destruct (Z.ltb_spec (x + 1 * (2 * 2 ^ (w - 1))) (2 ^ (w - 1))); lia.
Qed.

Lemma signed_bound w x : 0 < w -> - 2 ^ (w - 1) <= signed w x < 2 ^ (w - 1).
Proof.
  intros Hw. unfold signed. assert (2 ^ w = 2 * 2 ^ (w - 1)) as E by (rewrite <- Z.pow_succ_r by lia; f_equal; lia).
  pose proof (Z.mod_pos_bound x (2 ^ w) ltac:(lia)). unfold wrap. destruct (Z.ltb_spec (x mod 2 ^ w) (2 ^ (w - 1))); lia.
Qed.

(** C truth of an integer. *)
Definition truth (x : Z) : bool := negb (x =? 0).

Lemma wrap_bound w x : 0 <= w -> 0 <= wrap w x < 2 ^ w.
Proof. intros. apply Z.mod_pos_bound. lia. Qed.

Lemma wrap_small w x : 0 <= x < 2 ^ w -> wrap w x = x.
Proof. intros. by apply Z.mod_small. Qed.

Lemma wrap_wrap w x : 0 <= w -> wrap w (wrap w x) = wrap w x.
Proof. intros. apply wrap_small, wrap_bound; lia. Qed.

Lemma testbit_wrap w x i :
  0 <= w -> Z.testbit (wrap w x) i = Z.testbit x i && (i <? w).
Proof.
  intros. unfold wrap. destruct (Z.ltb_spec i w).
  - rewrite andb_true_r. destruct (decide (0 <= i)).
    + by apply Z.mod_pow2_bits_low.
    + by rewrite !Z.testbit_neg_r by lia.
  - rewrite andb_false_r. apply Z.mod_pow2_bits_high. lia.
Qed.

Lemma testbit_above w x i : 0 <= x < 2 ^ w -> w <= i -> Z.testbit x i = false.
Proof.
  intros Hx Hi. rewrite <- (wrap_small w x) by done.
  rewrite testbit_wrap by (destruct (decide (0 <= w)); [lia|];
    rewrite Z.pow_neg_r in Hx by lia; lia).
  destruct (Z.ltb_spec i w); [lia|apply andb_false_r].
Qed.

(** ** The outcome of running C code

    [Ret a s]: the code returned [a] in state [s].
    [Panic m s]: it called [panic(m)] (kernel/panic.c), which halts forever.
    [Stuck]: undefined behaviour, for example an access outside an object.
    [NoFuel]: the bound given to a recursion of the model was too small. *)

Inductive outcome (S A : Type) : Type :=
  | Ret (a : A) (s : S)
  | Panic (msg : string) (s : S)
  | Stuck
  | NoFuel.
Arguments Ret {S A} _ _.
Arguments Panic {S A} _ _.
Arguments Stuck {S A}.
Arguments NoFuel {S A}.

(** Code over a state [S]. *)
Definition M (S A : Type) : Type := S -> outcome S A.

Definition ret {S A} (a : A) : M S A := λ s, Ret a s.
Definition bind {S A B} (m : M S A) (k : A -> M S B) : M S B := λ s,
  match m s with
  | Ret a s' => k a s'
  | Panic msg s' => Panic msg s'
  | Stuck => Stuck
  | NoFuel => NoFuel
  end.
Definition get {S} : M S S := λ s, Ret s s.
Definition put {S} (s : S) : M S unit := λ _, Ret tt s.
Definition gets {S A} (f : S -> A) : M S A := λ s, Ret (f s) s.
Definition modify {S} (f : S -> S) : M S unit := λ s, Ret tt (f s).
Definition panic {S A} (msg : string) : M S A := λ s, Panic msg s.
Definition stuck {S A} : M S A := λ _, Stuck.
Definition nofuel {S A} : M S A := λ _, NoFuel.

(** A partial read or write: out of range is undefined behaviour. *)
Definition of_option {S A} (o : option A) : M S A := λ s,
  match o with Some a => Ret a s | None => Stuck end.

Declare Scope c_scope.
Delimit Scope c_scope with c.
Notation "x <-- m ;; k" := (bind m (λ x, k))
  (at level 100, m at next level, right associativity) : c_scope.
Notation "m ;;; k" := (bind m (λ _, k))
  (at level 100, right associativity) : c_scope.
Open Scope c_scope.

(** Run code of a component on its part of a larger state. *)
Definition zoom {S T A} (g : S -> T) (p : T -> S -> S) (m : M T A) : M S A := λ s,
  match m (g s) with
  | Ret a t => Ret a (p t s)
  | Panic msg t => Panic msg (p t s)
  | Stuck => Stuck
  | NoFuel => NoFuel
  end.

Definition returned {S A} (o : outcome S A) : bool := match o with Ret _ _ => true | _ => false end.

Lemma bind_Ret {S A B} (m : M S A) (k : A -> M S B) s a s' :
  m s = Ret a s' -> bind m k s = k a s'.
Proof. unfold bind. by intros ->. Qed.

Lemma bind_Panic {S A B} (m : M S A) (k : A -> M S B) s msg s' :
  m s = Panic msg s' -> bind m k s = Panic msg s'.
Proof. unfold bind. by intros ->. Qed.

Lemma bind_Ret_inv {S A B} (m : M S A) (k : A -> M S B) s b s'' :
  bind m k s = Ret b s'' -> exists a s', m s = Ret a s' /\ k a s' = Ret b s''.
Proof. unfold bind. destruct (m s); naive_solver. Qed.

Lemma bind_get {S B} (k : S -> M S B) s : bind get k s = k s s.
Proof. done. Qed.
Lemma bind_gets {S A B} (f : S -> A) (k : A -> M S B) s : bind (gets f) k s = k (f s) s.
Proof. done. Qed.
Lemma bind_put {S B} s' (k : unit -> M S B) s : bind (put s') k s = k tt s'.
Proof. done. Qed.
Lemma bind_modify {S B} (f : S -> S) (k : unit -> M S B) s : bind (modify f) k s = k tt (f s).
Proof. done. Qed.
Lemma bind_ret {S A B} (a : A) (k : A -> M S B) s : bind (ret a) k s = k a s.
Proof. done. Qed.
Lemma bind_cong {S A B} (m : M S A) (k k' : A -> M S B) s : (forall a t, k a t = k' a t) -> bind m k s = bind m k' s.
Proof. intros E. unfold bind. destruct (m s); by rewrite ?E. Qed.
Lemma bind_option {S A B} (a : A) (k : A -> M S B) s : bind (of_option (Some a)) k s = k a s.
Proof. done. Qed.

Create Rewrite HintDb run.
#[export] Hint Rewrite @bind_get @bind_gets @bind_put @bind_modify @bind_ret @bind_option : run.

Lemma bind_assoc {S A B C} (m : M S A) (f : A -> M S B) (g : B -> M S C) s :
  bind (bind m f) g s = bind m (λ a, bind (f a) g) s.
Proof. unfold bind. by destruct (m s). Qed.

(** [m'] agrees with [m] on every run for which [m] had enough fuel. *)
Definition approx {S A} (m m' : M S A) : Prop := forall s, m s <> NoFuel -> m' s = m s.

Lemma approx_refl {S A} (m : M S A) : approx m m.
Proof. done. Qed.

Lemma approx_nofuel {S A} (m : M S A) : approx nofuel m.
Proof. by intros s []. Qed.

Lemma approx_bind {S A B} (m m' : M S A) (k k' : A -> M S B) :
  approx m m' -> (forall a, approx (k a) (k' a)) -> approx (bind m k) (bind m' k').
Proof.
  intros Hm Hk s Hn. unfold bind in *. rewrite Hm by (by intros E; rewrite E in Hn).
  destruct (m s); try done. by apply Hk.
Qed.

Lemma approx_if {S A} (b : bool) (m1 m1' m2 m2' : M S A) :
  approx m1 m1' -> approx m2 m2' -> approx (if b then m1 else m2) (if b then m1' else m2').
Proof. by destruct b. Qed.

Create HintDb approx.
#[export] Hint Resolve approx_refl approx_nofuel approx_bind approx_if : approx.

(** Inversion of a run that returned: one equation per step of the code. *)
Ltac inv_ret :=
  repeat match goal with
  | H : bind _ _ _ = Ret _ _ |- _ =>
      let a := fresh "a" in let s := fresh "s" in
      let H1 := fresh "Hrun" in let H2 := fresh "Hrun" in
      apply bind_Ret_inv in H as (a & s & H1 & H2); simpl in H1, H2
  | H : Ret _ _ = Ret _ _ |- _ => injection H as ?; subst
  | H : ret _ _ = Ret _ _ |- _ => unfold ret in H
  | H : get _ = Ret _ _ |- _ => unfold get in H
  | H : gets _ _ = Ret _ _ |- _ => unfold gets in H
  | H : put _ _ = Ret _ _ |- _ => unfold put in H
  | H : modify _ _ = Ret _ _ |- _ => unfold modify in H
  | H : panic _ _ = Ret _ _ |- _ => discriminate H
  | H : stuck _ = Ret _ _ |- _ => discriminate H
  | H : nofuel _ = Ret _ _ |- _ => discriminate H
  | H : Stuck = Ret _ _ |- _ => discriminate H
  | H : NoFuel = Ret _ _ |- _ => discriminate H
  | H : Panic _ _ = Ret _ _ |- _ => discriminate H
  end.

(** ** Arrays

    A C array is a list; an access outside it is undefined behaviour. *)

Definition aget {A} (l : list A) (i : Z) : option A :=
  if i <? 0 then None else l !! Z.to_nat i.

Definition aset {A} (l : list A) (i : Z) (x : A) : option (list A) :=
  if (0 <=? i) && (i <? Z.of_nat (length l)) then Some (<[Z.to_nat i := x]> l) else None.

Section arrays.
Context {A : Type}.
Implicit Types (l : list A) (i j : Z).

Lemma aget_Some l i x : aget l i = Some x <-> 0 <= i /\ l !! Z.to_nat i = Some x.
Proof. unfold aget. destruct (Z.ltb_spec i 0); naive_solver lia. Qed.

Lemma aget_is_Some l i : 0 <= i < Z.of_nat (length l) -> is_Some (aget l i).
Proof.
  intros. unfold aget. destruct (Z.ltb_spec i 0); [lia|].
  apply lookup_lt_is_Some_2. lia.
Qed.

Lemma aget_bound l i x : aget l i = Some x -> 0 <= i < Z.of_nat (length l).
Proof. intros [? ?%lookup_lt_Some]%aget_Some. lia. Qed.

Lemma aset_Some l i x l' :
  aset l i x = Some l' <->
  0 <= i < Z.of_nat (length l) /\ l' = <[Z.to_nat i := x]> l.
Proof.
  unfold aset. destruct (Z.leb_spec 0 i), (Z.ltb_spec i (Z.of_nat (length l)));
    simpl; naive_solver lia.
Qed.

Lemma aset_in l i x :
  0 <= i < Z.of_nat (length l) -> aset l i x = Some (<[Z.to_nat i := x]> l).
Proof. intros. by apply aset_Some. Qed.

Lemma aget_insert l i j x :
  0 <= i < Z.of_nat (length l) -> 0 <= j ->
  aget (<[Z.to_nat i := x]> l) j = if decide (i = j) then Some x else aget l j.
Proof.
  intros Hi Hj. unfold aget. destruct (Z.ltb_spec j 0); [lia|].
  case_decide as E.
  - subst. apply list_lookup_insert_eq. lia.
  - apply list_lookup_insert_ne. lia.
Qed.
End arrays.

(** ** Loops

    [for_n n i body] runs [body i], [body (i+1)], ... [n] times;
    [for_range lo hi body] is [for (i = lo; i < hi; i++) body(i)]. *)

Fixpoint for_n {S} (n : nat) (i : Z) (body : Z -> M S unit) : M S unit :=
  match n with
  | O => ret tt
  | Datatypes.S n' => body i ;;; for_n n' (i + 1) body
  end.

Definition for_range {S} (lo hi : Z) (body : Z -> M S unit) : M S unit :=
  for_n (Z.to_nat (hi - lo)) lo body.

(** A loop whose body always returns keeps an invariant indexed by the counter. *)
Lemma for_n_ind {S} (P : Z -> S -> Prop) (body : Z -> M S unit) n i s :
  P i s ->
  (forall j t, i <= j < i + Z.of_nat n -> P j t ->
     exists t', body j t = Ret tt t' /\ P (j + 1) t') ->
  exists s', for_n n i body s = Ret tt s' /\ P (i + Z.of_nat n) s'.
Proof.
  revert i s. induction n as [|n IH]; intros i s HP Hb; simpl.
  - exists s. by rewrite Z.add_0_r.
  - destruct (Hb i s) as (t & Ht & HP'); [lia|done|].
    destruct (IH (i + 1) t) as (s' & Hs' & HP''); [done| |].
    { intros j u ? ?. apply Hb; [lia|done]. }
    exists s'. rewrite (bind_Ret _ _ _ _ _ Ht). split; [done|].
    by replace (i + Z.of_nat (Datatypes.S n)) with (i + 1 + Z.of_nat n) by lia.
Qed.

Lemma for_range_ind {S} (P : Z -> S -> Prop) (body : Z -> M S unit) lo hi s :
  lo <= hi -> P lo s ->
  (forall j t, lo <= j < hi -> P j t -> exists t', body j t = Ret tt t' /\ P (j + 1) t') ->
  exists s', for_range lo hi body s = Ret tt s' /\ P hi s'.
Proof.
  intros Hle HP Hb. destruct (for_n_ind P body (Z.to_nat (hi - lo)) lo s HP) as (s' & Hs & HP').
  { intros j t ? ?. apply Hb; [lia|done]. }
  exists s'. split; [done|]. by replace hi with (lo + Z.of_nat (Z.to_nat (hi - lo))) by lia.
Qed.

(** A loop that reaches an undefined access is undefined. *)
Lemma for_n_stuck {S} (P : Z -> S -> Prop) (body : Z -> M S unit) n i j s :
  P i s -> i <= j < i + Z.of_nat n ->
  (forall k t, i <= k < j -> P k t -> exists t', body k t = Ret tt t' /\ P (k + 1) t') ->
  (forall t, P j t -> body j t = Stuck) ->
  for_n n i body s = Stuck.
Proof.
  revert i s. induction n as [|n IH]; intros i s HP Hj Hb Hst; simpl; [lia|].
  destruct (decide (i = j)) as [->|].
  - unfold bind. by rewrite Hst.
  - destruct (Hb i s) as (t & Ht & HP'); [lia|done|].
    rewrite (bind_Ret _ _ _ _ _ Ht). apply IH; [done|lia| |done].
    intros k u ? ?. apply Hb; [lia|done].
Qed.

(** ** Bits of machine words *)

Lemma testbit_pow2 k i : 0 <= k -> Z.testbit (Z.shiftl 1 k) i = (k =? i).
Proof.
  intros. rewrite Z.shiftl_1_l. destruct (Z.eqb_spec k i) as [->|].
  - apply Z.pow2_bits_true. lia.
  - by apply Z.pow2_bits_false.
Qed.

(** [x & (1 << k)] is non-zero exactly when bit [k] of [x] is set. *)
Lemma land_pow2_truth x k :
  0 <= k -> truth (Z.land x (Z.shiftl 1 k)) = Z.testbit x k.
Proof.
  intros. unfold truth. destruct (Z.testbit x k) eqn:E.
  - destruct (Z.eqb_spec (Z.land x (Z.shiftl 1 k)) 0) as [H0|]; [|done].
    apply (f_equal (λ z, Z.testbit z k)) in H0.
    by rewrite Z.land_spec, E, testbit_pow2, Z.eqb_refl, Z.bits_0 in H0 by lia.
  - assert (Z.land x (Z.shiftl 1 k) = 0) as ->; [|done].
    apply Z.bits_inj'. intros i ?.
    rewrite Z.land_spec, testbit_pow2, Z.bits_0 by lia.
    destruct (Z.eqb_spec k i) as [->|]; [by rewrite E|apply andb_false_r].
Qed.

Lemma lor_bound w a b : 0 <= w -> 0 <= a < 2 ^ w -> 0 <= b < 2 ^ w -> 0 <= Z.lor a b < 2 ^ w.
Proof.
  intros Hw Ha Hb. assert (Z.lor a b = wrap w (Z.lor a b)) as ->; [|by apply wrap_bound].
  apply Z.bits_inj'. intros i Hi. rewrite testbit_wrap, Z.lor_spec by lia.
  destruct (Z.ltb_spec i w); [by rewrite andb_true_r|].
  by rewrite (testbit_above w a), (testbit_above w b) by done.
Qed.

Lemma land_bound w a b : 0 <= w -> 0 <= a < 2 ^ w -> 0 <= Z.land a b < 2 ^ w.
Proof.
  intros Hw Ha. assert (Z.land a b = wrap w (Z.land a b)) as ->; [|by apply wrap_bound].
  apply Z.bits_inj'. intros i Hi. rewrite testbit_wrap, Z.land_spec by lia.
  destruct (Z.ltb_spec i w); [by rewrite andb_true_r|].
  by rewrite (testbit_above w a) by done.
Qed.

Ltac zbits :=
  apply Z.bits_inj'; intros ? ?;
  repeat (rewrite ?Z.lor_spec, ?Z.land_spec, ?Z.lxor_spec, ?Z.bits_0,
            ?Z.lnot_spec, ?testbit_wrap, ?testbit_pow2 by lia).

(** One step of evaluating code on a known state. *)
Ltac run_step :=
  rewrite ?bind_assoc;
  first [rewrite bind_get | rewrite bind_gets | rewrite bind_put | rewrite bind_modify
        | rewrite bind_ret | rewrite bind_option].

(** ** Counting *)

Lemma filter_length_mono {A} (P Q : A -> Prop) `{!forall x, Decision (P x), !forall x, Decision (Q x)} (l : list A) :
  (forall x, x ∈ l -> P x -> Q x) -> (length (filter P l) <= length (filter Q l))%nat.
Proof.
  induction l as [|x l IH]; intros HPQ; [done|]. rewrite !filter_cons.
  assert (length (filter P l) <= length (filter Q l))%nat by (apply IH; set_solver).
  pose proof (HPQ x ltac:(set_solver)). repeat case_decide; simpl; tauto || lia.
Qed.

Lemma filter_length_lt {A} (P Q : A -> Prop) `{!forall x, Decision (P x), !forall x, Decision (Q x)} (l : list A) y :
  (forall x, x ∈ l -> P x -> Q x) -> y ∈ l -> Q y -> ~ P y ->
  (length (filter P l) < length (filter Q l))%nat.
Proof.
  induction l as [|x l IH]; intros HPQ Hy HQ HP; [set_solver|]. rewrite !filter_cons.
  pose proof (filter_length_mono P Q l ltac:(set_solver)).
  apply elem_of_cons in Hy as [->|Hy].
  - rewrite decide_False, decide_True by done. simpl. lia.
  - specialize (IH ltac:(set_solver) Hy HQ HP). pose proof (HPQ x ltac:(set_solver)).
    repeat case_decide; simpl; tauto || lia.
Qed.

Lemma Forall2_impl_in {A B} (P Q : A -> B -> Prop) l k :
  Forall2 P l k -> (forall x y, x ∈ l -> y ∈ k -> P x y -> Q x y) -> Forall2 Q l k.
Proof. induction 1; intros HPQ; constructor; [apply HPQ; [set_solver..|done]|]. apply IHForall2. set_solver. Qed.

(** ** Hint databases shared by the components *)

Create HintDb mira.
#[export] Hint Resolve wrap_bound wrap_small : mira.
Create Rewrite HintDb cwrap.
#[export] Hint Rewrite @wrap_wrap using lia : cwrap.
