(* ===== verification/CMem.v ===== *)
(** * Byte memory, and the routines of lib/common/mem.c

    [mem] is a byte-addressed memory: the addresses of its domain are the bytes
    the code may access, an access elsewhere is undefined behaviour ([None]).
    [load]/[store] are little-endian accesses of n bytes.  [memset], [memcpy],
    [memmove] and [memcmp] are the loops of lib/common/mem.c. *)

From S2P Require Import Prelude.

Abbreviation mem := (gmap Z Z).

(** ** Accesses *)

Definition put8 (m : mem) (a v : Z) : option mem :=
  match m !! a with Some _ => Some (<[a := u8 v]> m) | None => None end.

Fixpoint load (n : nat) (m : mem) (a : Z) : option Z :=
  match n with
  | O => Some 0
  | S k => match m !! a, load k m (a + 1) with
           | Some b, Some r => Some (b + 256 * r)
           | _, _ => None
           end
  end.

Fixpoint store (n : nat) (m : mem) (a v : Z) : option mem :=
  match n with
  | O => Some m
  | S k => match put8 m a v with
           | Some m' => store k m' (a + 1) (v / 256)
           | None => None
           end
  end.

(** The [n] bytes from [a] are accessible. *)
Definition mapped (m : mem) (a n : Z) : Prop :=
  forall i, a <= i < a + n -> is_Some (m !! i).

(** ** Lemmas on accesses *)

Lemma put8_Some m a v m' :
  put8 m a v = Some m' <-> is_Some (m !! a) /\ m' = <[a := u8 v]> m.
Proof. unfold put8. destruct (m !! a) eqn:E; naive_solver. Qed.

Lemma put8_in m a v : is_Some (m !! a) -> put8 m a v = Some (<[a := u8 v]> m).
Proof. intros. by apply put8_Some. Qed.

Lemma mapped_insert m a n b v : mapped m a n -> mapped (<[b := v]> m) a n.
Proof. intros H i Hi. rewrite lookup_insert. case_decide; [done|by apply H]. Qed.

Lemma mapped_sub m a n b k : mapped m a n -> a <= b -> b + k <= a + n -> mapped m b k.
Proof. intros H ? ? i ?. apply H. lia. Qed.

#[export] Hint Resolve mapped_insert : mira.

Lemma store_lookup n m a v m' :
  store n m a v = Some m' ->
  forall b, m' !! b = if decide (a <= b < a + Z.of_nat n)
                      then Some (v / 256 ^ (b - a) mod 256) else m !! b.
Proof.
  revert m a v. induction n as [|n IH]; intros m a v H b; simpl in H.
  { injection H as <-. case_decide; [lia|done]. }
  destruct (put8 m a v) as [m1|] eqn:E; [|done].
  apply put8_Some in E as [Ha ->]. rewrite (IH _ _ _ H b).
  destruct (decide (b = a)) as [->|Hne].
  - rewrite decide_False by lia. rewrite decide_True by lia.
    rewrite lookup_insert_eq, Z.sub_diag, Z.pow_0_r, Z.div_1_r. done.
  - destruct (decide (a <= b < a + Z.of_nat (S n))).
    + rewrite decide_True by lia. f_equal.
      rewrite Z.div_div by lia. f_equal. f_equal.
      rewrite <- (Z.pow_succ_r 256) by lia. f_equal. lia.
    + rewrite decide_False by lia. by rewrite lookup_insert_ne.
Qed.

Lemma store_mapped n m a v : mapped m a (Z.of_nat n) -> is_Some (store n m a v).
Proof.
  revert m a v. induction n as [|n IH]; intros m a v H; simpl; [done|].
  rewrite put8_in by (apply H; lia). apply IH.
  apply mapped_insert, (mapped_sub m a (Z.of_nat (S n))); [done|lia|lia].
Qed.

Lemma store_Some_mapped n m a v m' : store n m a v = Some m' -> mapped m a (Z.of_nat n).
Proof.
  revert m a v. induction n as [|n IH]; intros m a v H i Hi; simpl in *; [lia|].
  destruct (put8 m a v) as [m1|] eqn:E; [|done]. apply put8_Some in E as [Ha ->].
  destruct (decide (i = a)) as [->|Hne]; [done|]. specialize (IH _ _ _ H i ltac:(lia)). by rewrite lookup_insert_ne in IH.
Qed.

Lemma store_keeps_mapped n m a v m' b k :
  store n m a v = Some m' -> mapped m b k -> mapped m' b k.
Proof.
  intros H Hm i Hi. rewrite (store_lookup _ _ _ _ _ H). case_decide; [done|by apply Hm].
Qed.

Lemma load_ext n m m' a :
  (forall b, a <= b < a + Z.of_nat n -> m !! b = m' !! b) -> load n m a = load n m' a.
Proof.
  revert a. induction n as [|n IH]; intros a H; simpl; [done|].
  rewrite (H a) by lia. rewrite (IH (a + 1)); [done|]. intros. apply H. lia.
Qed.

Lemma load_shift n m m' a b :
  (forall i, 0 <= i < Z.of_nat n -> m' !! (a + i) = m !! (b + i)) -> load n m' a = load n m b.
Proof.
  revert a b. induction n as [|n IH]; intros a b H; simpl; [done|].
  pose proof (H 0 ltac:(lia)) as E. rewrite !Z.add_0_r in E. rewrite E, (IH (a + 1) (b + 1)); [done|].
  intros i Hi. rewrite <- !Z.add_assoc. apply H. lia.
Qed.

Lemma load_mapped n m a : mapped m a (Z.of_nat n) -> is_Some (load n m a).
Proof.
  revert a. induction n as [|n IH]; intros a H; simpl; [done|].
  destruct (H a) as [b ->]; [lia|].
  destruct (IH (a + 1)) as [r ->]; [|done].
  apply (mapped_sub m a (Z.of_nat (S n))); [done|lia|lia].
Qed.

Lemma load_store_other n k m a v m' b :
  store n m a v = Some m' -> a + Z.of_nat n <= b \/ b + Z.of_nat k <= a ->
  load k m' b = load k m b.
Proof.
  intros H Hd. apply load_ext. intros c ?.
  rewrite (store_lookup _ _ _ _ _ H). rewrite decide_False by lia. done.
Qed.

Lemma load_bytes n m a v :
  0 <= v -> (forall b, a <= b < a + Z.of_nat n -> m !! b = Some (v / 256 ^ (b - a) mod 256)) ->
  load n m a = Some (v mod 256 ^ Z.of_nat n).
Proof.
  revert a v. induction n as [|n IH]; intros a v Hv H; simpl.
  { by rewrite Z.mod_1_r. }
  rewrite (H a) by lia. rewrite Z.sub_diag, Z.pow_0_r, Z.div_1_r.
  rewrite (IH (a + 1) (v / 256)).
  - f_equal. replace (Z.of_nat (S n)) with (Z.succ (Z.of_nat n)) by lia.
    rewrite Z.pow_succ_r by lia.
    rewrite Z.rem_mul_r by lia. done.
  - apply Z.div_pos; lia.
  - intros b Hb. rewrite H by lia. f_equal.
    rewrite Z.div_div by lia. f_equal. f_equal.
    rewrite <- (Z.pow_succ_r 256) by lia. f_equal. lia.
Qed.

Lemma load_store_same n m a v m' :
  0 <= v -> store n m a v = Some m' -> load n m' a = Some (v mod 256 ^ Z.of_nat n).
Proof.
  intros Hv H. apply load_bytes; [done|]. intros b ?.
  rewrite (store_lookup _ _ _ _ _ H). by rewrite decide_True by lia.
Qed.

Lemma load8_same m a v m' : 0 <= v < 2 ^ 64 -> store 8 m a v = Some m' -> load 8 m' a = Some v.
Proof.
  intros Hv H. rewrite (load_store_same _ _ _ _ _ (proj1 Hv) H). f_equal.
  change (256 ^ Z.of_nat 8) with (2 ^ 64). by apply Z.mod_small.
Qed.

Lemma load4_same m a v m' : 0 <= v < 2 ^ 32 -> store 4 m a v = Some m' -> load 4 m' a = Some v.
Proof.
  intros Hv H. rewrite (load_store_same _ _ _ _ _ (proj1 Hv) H). f_equal.
  change (256 ^ Z.of_nat 4) with (2 ^ 32). by apply Z.mod_small.
Qed.

Lemma store_frame n m a v m' x :
  store n m a v = Some m' -> ~ (a <= x < a + Z.of_nat n) -> m' !! x = m !! x.
Proof. intros H Hx. rewrite (store_lookup _ _ _ _ _ H). by rewrite decide_False. Qed.

(** Evaluate a load through the stores in the context, newest first. *)
Ltac mem_ld :=
  repeat match goal with
  | H : store ?n ?m ?a ?v = Some ?m' |- load ?k ?m' ?b = _ =>
      first [ rewrite (load_store_other n k m a v m' b H) by lia
            | replace b with a by lia;
              first [rewrite (load8_same m a v m' ltac:(lia) H) | rewrite (load4_same m a v m' ltac:(lia) H)];
              try (f_equal; lia) ]
  end.

(** Bytes the stores in the context did not touch. *)
Ltac mem_frame :=
  repeat match goal with
  | H : store ?n ?m ?a ?v = Some ?m' |- ?m' !! ?x = _ => rewrite (store_frame n m a v m' x H) by lia
  end.

#[global] Arguments load : simpl never.
#[global] Arguments store : simpl never.

(** ** lib/common/mem.c *)

(** [for (i = 0; i < count; i++) dst[i] = (uint8_t)val;] *)
Fixpoint memset_loop (n : nat) (m : mem) (dst val i : Z) : option mem :=
  match n with
  | O => Some m
  | S k => match put8 m (dst + i) (u8 val) with
           | Some m' => memset_loop k m' dst val (i + 1)
           | None => None
           end
  end.

Definition memset (m : mem) (dest val : Z) (count : nat) : option mem :=
  memset_loop count m dest val 0.

(** [for (i = 0; i < count; i++) dst[i] = src[i];] *)
Fixpoint copy_up (n : nat) (m : mem) (dst src i : Z) : option mem :=
  match n with
  | O => Some m
  | S k => match m !! (src + i) with
           | Some b => match put8 m (dst + i) b with
                       | Some m' => copy_up k m' dst src (i + 1)
                       | None => None
                       end
           | None => None
           end
  end.

(** [for (i = count; i > 0; i--) dst[i - 1] = src[i - 1];] *)
Fixpoint copy_down (i : nat) (m : mem) (dst src : Z) : option mem :=
  match i with
  | O => Some m
  | S k => match m !! (src + Z.of_nat k) with
           | Some b => match put8 m (dst + Z.of_nat k) b with
                       | Some m' => copy_down k m' dst src
                       | None => None
                       end
           | None => None
           end
  end.

Definition memcpy (m : mem) (dest src : Z) (count : nat) : option mem :=
  copy_up count m dest src 0.

Definition memmove (m : mem) (dest src : Z) (count : nat) : option mem :=
  if dest <? src then copy_up count m dest src 0
  else if src <? dest then copy_down count m dest src
  else Some m.

Fixpoint memcmp_loop (n : nat) (m : mem) (a b i : Z) : option Z :=
  match n with
  | O => Some 0
  | S k => match m !! (a + i), m !! (b + i) with
           | Some x, Some y => if x =? y then memcmp_loop k m a b (i + 1) else Some (x - y)
           | _, _ => None
           end
  end.

Definition memcmp (m : mem) (a b : Z) (count : nat) : option Z := memcmp_loop count m a b 0.

(** All the bytes of a memory are bytes. *)
Definition byte_mem (m : mem) : Prop := forall a b, m !! a = Some b -> 0 <= b < 256.

(** The memory after [n] bytes were moved from [src] to [dst]. *)
Definition moved (m m' : mem) (dst src n : Z) : Prop :=
  forall a, m' !! a = if decide (dst <= a < dst + n) then m !! (src + (a - dst)) else m !! a.

(** ** Lemmas on the loops *)

Lemma memset_loop_spec n m dst val i :
  mapped m (dst + i) (Z.of_nat n) ->
  exists m', memset_loop n m dst val i = Some m' /\
    forall a, m' !! a = if decide (dst + i <= a < dst + i + Z.of_nat n)
                        then Some (u8 val) else m !! a.
Proof.
  revert m i. induction n as [|n IH]; intros m i Hm; simpl.
  { exists m. split; [done|]. intros a. by rewrite decide_False by lia. }
  rewrite put8_in by (apply Hm; lia).
  destruct (IH (<[dst + i := u8 (u8 val)]> m) (i + 1)) as (m' & -> & H').
  { apply mapped_insert, (mapped_sub _ _ _ _ _ Hm); lia. }
  exists m'. split; [done|]. intros a. rewrite H', lookup_insert, wrap_wrap by lia.
  repeat case_decide; try done; lia.
Qed.

Lemma copy_up_spec n m dst src i :
  byte_mem m -> mapped m (src + i) (Z.of_nat n) -> mapped m (dst + i) (Z.of_nat n) ->
  dst <= src \/ src + i + Z.of_nat n <= dst + i ->
  exists m', copy_up n m dst src i = Some m' /\
    moved m m' (dst + i) (src + i) (Z.of_nat n).
Proof.
  revert m i. induction n as [|n IH]; intros m i Hb Hs Hd Ho; simpl.
  { exists m. split; [done|]. intros a. by rewrite decide_False by lia. }
  destruct (Hs (src + i)) as [b Eb]; [lia|]. rewrite Eb.
  rewrite put8_in by (apply Hd; lia). rewrite wrap_small by (by apply (Hb _ _ Eb)).
  destruct (IH (<[dst + i := b]> m) (i + 1)) as (m' & -> & H').
  - intros a c Hc. rewrite lookup_insert in Hc. case_decide; [simplify_eq; by apply (Hb _ _ Eb)|eauto].
  - apply mapped_insert, (mapped_sub _ _ _ _ _ Hs); lia.
  - apply mapped_insert, (mapped_sub _ _ _ _ _ Hd); lia.
  - lia.
  - exists m'. split; [done|]. intros a. rewrite H'. rewrite !lookup_insert.
    destruct (decide (a = dst + i)) as [->|].
    + rewrite decide_False by lia. rewrite decide_True by done. rewrite decide_True by lia.
      by replace (src + i + (dst + i - (dst + i))) with (src + i) by lia.
    + destruct (decide (dst + i <= a < dst + i + Z.of_nat (S n))).
      * rewrite decide_True by lia. rewrite decide_False by lia.
        f_equal. lia.
      * rewrite decide_False by lia. by rewrite decide_False by done.
Qed.

(** Between disjoint ranges, whatever the cells hold. *)
Lemma copy_up_apart n m dst src i :
  mapped m (src + i) (Z.of_nat n) -> mapped m (dst + i) (Z.of_nat n) ->
  dst + i + Z.of_nat n <= src + i \/ src + i + Z.of_nat n <= dst + i ->
  exists m', copy_up n m dst src i = Some m' /\
    forall a, m' !! a = if decide (dst + i <= a < dst + i + Z.of_nat n) then u8 <$> m !! (src + (a - dst)) else m !! a.
Proof.
  revert m i. induction n as [|n IH]; intros m i Hs Hd Ho; simpl.
  { exists m. split; [done|]. intros a. by rewrite decide_False by lia. }
  destruct (Hs (src + i)) as [b Eb]; [lia|]. rewrite Eb. rewrite put8_in by (apply Hd; lia).
  destruct (IH (<[dst + i := u8 b]> m) (i + 1)) as (m' & E & Hm'); [..|lia|].
  - intros a Ha. rewrite lookup_insert_ne by lia. apply Hs. lia.
  - intros a Ha. rewrite lookup_insert_ne by lia. apply Hd. lia.
  - exists m'. split; [done|]. intros a. rewrite Hm'. destruct (decide (a = dst + i)) as [->|Hne].
    + rewrite decide_False, lookup_insert_eq, decide_True by lia. replace (src + (dst + i - dst)) with (src + i) by lia. by rewrite Eb.
    + case_decide as H1; [rewrite (decide_True (P := dst + i <= a < _)) by lia|rewrite (decide_False (P := dst + i <= a < _)) by lia];
        by rewrite lookup_insert_ne by lia.
Qed.

Lemma copy_down_spec n m dst src :
  byte_mem m -> mapped m src (Z.of_nat n) -> mapped m dst (Z.of_nat n) -> src <= dst ->
  exists m', copy_down n m dst src = Some m' /\ moved m m' dst src (Z.of_nat n).
Proof.
  revert m. induction n as [|n IH]; intros m Hb Hs Hd Ho; simpl.
  { exists m. split; [done|]. intros a. by rewrite decide_False by lia. }
  destruct (Hs (src + Z.of_nat n)) as [b Eb]; [lia|]. rewrite Eb.
  rewrite put8_in by (apply Hd; lia). rewrite wrap_small by (by apply (Hb _ _ Eb)).
  destruct (IH (<[dst + Z.of_nat n := b]> m)) as (m' & -> & H').
  - intros a c Hc. rewrite lookup_insert in Hc. case_decide; [simplify_eq; by apply (Hb _ _ Eb)|eauto].
  - apply mapped_insert, (mapped_sub _ _ _ _ _ Hs); lia.
  - apply mapped_insert, (mapped_sub _ _ _ _ _ Hd); lia.
  - lia.
  - exists m'. split; [done|]. intros a. rewrite H'. rewrite !lookup_insert.
    destruct (decide (a = dst + Z.of_nat n)) as [->|].
    + rewrite decide_False by lia. rewrite decide_True by done. rewrite decide_True by lia.
      by replace (src + (dst + Z.of_nat n - dst)) with (src + Z.of_nat n) by lia.
    + destruct (decide (dst <= a < dst + Z.of_nat (S n))).
      * rewrite decide_True by lia. by rewrite decide_False by lia.
      * rewrite decide_False by lia. by rewrite decide_False by done.
Qed.

Lemma memcmp_loop_spec n m a b i :
  mapped m (a + i) (Z.of_nat n) -> mapped m (b + i) (Z.of_nat n) ->
  (memcmp_loop n m a b i = Some 0 /\
     forall j, i <= j < i + Z.of_nat n -> m !! (a + j) = m !! (b + j)) \/
  (exists j x y, i <= j < i + Z.of_nat n /\ m !! (a + j) = Some x /\ m !! (b + j) = Some y /\
     x <> y /\ memcmp_loop n m a b i = Some (x - y) /\
     forall k, i <= k < j -> m !! (a + k) = m !! (b + k)).
Proof.
  revert i. induction n as [|n IH]; intros i Ha Hb; simpl.
  { left. split; [done|]. lia. }
  destruct (Ha (a + i)) as [x Ex]; [lia|]. destruct (Hb (b + i)) as [y Ey]; [lia|].
  rewrite Ex, Ey. destruct (Z.eqb_spec x y) as [->|Hne].
  2:{ right. exists i, x, y. repeat split; try done; lia. }
  destruct (IH (i + 1)) as [[-> Hall]|(j & x' & y' & Hj & Hx & Hy & Hne & -> & Hall)].
  - apply (mapped_sub _ _ _ _ _ Ha); lia.
  - apply (mapped_sub _ _ _ _ _ Hb); lia.
  - left. split; [done|]. intros j ?. destruct (decide (j = i)) as [->|]; [congruence|].
    apply Hall. lia.
  - right. exists j, x', y'. repeat split; try done; [lia|lia|].
    intros k ?. destruct (decide (k = i)) as [->|]; [congruence|]. apply Hall. lia.
Qed.

(** ** Properties of lib/common/mem.c *)

(** [memmove] is correct for every placement of the two ranges, overlapping
    or not: when both ranges are accessible it returns, the destination holds
    the source range as it was before the call, and no other byte changes. *)
Theorem memmove_correct m dest src (n : nat) :
  byte_mem m -> mapped m src (Z.of_nat n) -> mapped m dest (Z.of_nat n) ->
  exists m', memmove m dest src n = Some m' /\ moved m m' dest src (Z.of_nat n).
Proof.
  intros Hb Hs Hd. unfold memmove.
  destruct (Z.ltb_spec dest src); [|destruct (Z.ltb_spec src dest)].
  - destruct (copy_up_spec n m dest src 0) as (m' & ? & H'); rewrite ?Z.add_0_r; auto; [lia|].
    exists m'. by rewrite !Z.add_0_r in H'.
  - apply copy_down_spec; auto; lia.
  - exists m. split; [done|]. intros a. case_decide; [|done].
    assert (dest = src) as -> by lia. f_equal. lia.
Qed.

(** [memcpy] copies forwards: it is correct whenever the destination starts
    at or below the source or the ranges are disjoint, which covers every call
    of the shell that shifts an array down over itself. *)
Theorem memcpy_correct m dest src (n : nat) :
  byte_mem m -> mapped m src (Z.of_nat n) -> mapped m dest (Z.of_nat n) ->
  dest <= src \/ src + Z.of_nat n <= dest ->
  exists m', memcpy m dest src n = Some m' /\ moved m m' dest src (Z.of_nat n).
Proof.
  intros Hb Hs Hd Ho. unfold memcpy.
  destruct (copy_up_spec n m dest src 0) as (m' & ? & H'); rewrite ?Z.add_0_r; auto.
  exists m'. by rewrite !Z.add_0_r in H'.
Qed.

(** [memcmp] returns 0 exactly when the two ranges hold the same bytes, and
    otherwise the difference of the first pair of bytes that differ. *)
Theorem memcmp_correct m a b (n : nat) :
  mapped m a (Z.of_nat n) -> mapped m b (Z.of_nat n) ->
  (memcmp m a b n = Some 0 /\ forall j, 0 <= j < Z.of_nat n -> m !! (a + j) = m !! (b + j)) \/
  (exists j x y, 0 <= j < Z.of_nat n /\ m !! (a + j) = Some x /\ m !! (b + j) = Some y /\
     x <> y /\ memcmp m a b n = Some (x - y) /\
     forall k, 0 <= k < j -> m !! (a + k) = m !! (b + k)).
Proof.
  intros Ha Hb. apply (memcmp_loop_spec n m a b 0); by rewrite ?Z.add_0_r.
Qed.

(** ** Witnesses *)

(** The [n] little-endian bytes of [v]. *)
Fixpoint le_bytes (n : nat) (v : Z) : list Z :=
  match n with O => [] | S k => v mod 256 :: le_bytes k (v / 256) end.

Definition bytes_at (a : Z) (l : list Z) : mem :=
  list_to_map (zip (seqZ a (Z.of_nat (length l))) l).

Definition byte_memb (m : mem) : bool :=
  forallb (λ p, (0 <=? p.2) && (p.2 <? 256)) (map_to_list m).

Lemma byte_memb_spec m : byte_memb m = true -> byte_mem m.
Proof.
  intros H a b Hab. unfold byte_memb in H. rewrite forallb_forall in H.
  specialize (H (a, b)). simpl in H.
  assert (In (a, b) (map_to_list m)) as Hin by (by apply list_elem_of_In, elem_of_map_to_list).
  apply H in Hin. lia.
Qed.

Definition mappedb (m : mem) (a n : Z) : bool :=
  forallb (λ i, bool_decide (is_Some (m !! i))) (seqZ a n).

Lemma mappedb_spec m a n : mappedb m a n = true -> mapped m a n.
Proof.
  intros H i Hi. unfold mappedb in H. rewrite forallb_forall in H.
  specialize (H i). apply (bool_decide_eq_true_1 _), H, list_elem_of_In, elem_of_seqZ. lia.
Qed.

Lemma memmove_correct_witness :
  exists m', memmove (bytes_at 100 [1; 2; 3; 4; 5; 6]) 102 100 4 = Some m' /\
    moved (bytes_at 100 [1; 2; 3; 4; 5; 6]) m' 102 100 4.
Proof.
  apply (memmove_correct _ 102 100 4);
    [by apply byte_memb_spec|by apply mappedb_spec|by apply mappedb_spec].
Defined.

Lemma memcpy_correct_witness :
  exists m', memcpy (bytes_at 100 [1; 2; 3; 4; 5; 6]) 100 102 4 = Some m' /\
    moved (bytes_at 100 [1; 2; 3; 4; 5; 6]) m' 100 102 4.
Proof.
  apply (memcpy_correct _ 100 102 4);
    [by apply byte_memb_spec|by apply mappedb_spec|by apply mappedb_spec|left; lia].
Defined.

Definition cmp_mem : mem := bytes_at 0 [7; 8; 9; 7; 8; 1].

Lemma memcmp_correct_witness :
  (memcmp cmp_mem 0 3 3 = Some 0 /\ forall j, 0 <= j < 3 -> cmp_mem !! (0 + j) = cmp_mem !! (3 + j)) \/
  (exists j x y, 0 <= j < 3 /\ cmp_mem !! (0 + j) = Some x /\ cmp_mem !! (3 + j) = Some y /\
     x <> y /\ memcmp cmp_mem 0 3 3 = Some (x - y) /\
     forall k, 0 <= k < j -> cmp_mem !! (0 + k) = cmp_mem !! (3 + k)).
Proof. apply (memcmp_correct cmp_mem 0 3 3); by apply mappedb_spec. Defined.
