(* ===== verification/CString.v ===== *)
(** * C strings: lib/common/string.c and the string part of lib/common/ds.c

    A [char *] is the list of the bytes from the pointer to the end of the object
    it points into: moving the pointer is taking the tail, reading at the end of
    the list is an access outside the object ([None]).  A destination buffer is
    the list of its bytes, and writing past its end is [None].  Source and
    destination are distinct objects, as in every call of the kernel. *)

From S2P Require Import Prelude.

(** ** lib/common/string.c *)

Fixpoint strlen_loop (str : list Z) (len : Z) : option Z :=
  match str with
  | [] => None
  | c :: str' => if truth c then strlen_loop str' (len + 1) else Some len
  end.

Definition strlen (str : list Z) : option Z := strlen_loop str 0.

(** The result is a pointer: [Some None] is NULL, [Some (Some i)] is [str + i]. *)
Fixpoint strchr_loop (str : list Z) (c i : Z) : option (option Z) :=
  match str with
  | [] => None
  | x :: str' => if truth x then
                   if s8 x =? s8 c then Some (Some i) else strchr_loop str' c (i + 1)
                 else if c =? 0 then Some (Some i) else Some None
  end.

Definition strchr (str : list Z) (c : Z) : option (option Z) := strchr_loop str c 0.

(** The inner loop [while ( *h && *n && *h == *n)] followed by the test [!*n]. *)
Fixpoint strstr_match (h n : list Z) : option bool :=
  match h, n with
  | x :: h', y :: n' =>
      if truth x && truth y && (x =? y) then strstr_match h' n' else Some (negb (truth y))
  | _, _ => None
  end.

Fixpoint strstr_loop (haystack needle : list Z) (i : Z) : option (option Z) :=
  match haystack with
  | [] => None
  | x :: haystack' =>
      if truth x then
        match strstr_match haystack needle with
        | None => None
        | Some true => Some (Some i)
        | Some false => strstr_loop haystack' needle (i + 1)
        end
      else Some None
  end.

Definition strstr (haystack needle : list Z) : option (option Z) :=
  match needle with
  | [] => None
  | y :: _ => if truth y then strstr_loop haystack needle 0 else Some (Some 0)
  end.

Fixpoint strcmp (a b : list Z) : option Z :=
  match a, b with
  | x :: a', y :: b' =>
      if truth x && truth y then
        if negb (x =? y) then Some (s8 x - s8 y) else strcmp a' b'
      else Some (s8 x - s8 y)
  | _, _ => None
  end.

Fixpoint strncmp (a b : list Z) (n : nat) : option Z :=
  match n with
  | O => Some 0
  | S n' => match a, b with
            | x :: a', y :: b' =>
                if negb (x =? y) then Some (s8 x - s8 y)
                else if x =? 0 then Some 0 else strncmp a' b' n'
            | _, _ => None
            end
  end.

Fixpoint strcpy (dst src : list Z) : option (list Z) :=
  match src, dst with
  | c :: src', _ :: dst' =>
      if truth c then cons c <$> strcpy dst' src' else Some (0 :: dst')
  | _, _ => None
  end.

(** [for (; i < n; i++) dst[i] = 0;] *)
Fixpoint pad_zero (dst : list Z) (n : nat) : option (list Z) :=
  match n with
  | O => Some dst
  | S n' => match dst with
            | [] => None
            | _ :: dst' => cons 0 <$> pad_zero dst' n'
            end
  end.

Fixpoint strncpy (dst src : list Z) (n : nat) : option (list Z) :=
  match n with
  | O => Some dst
  | S n' => match src, dst with
            | c :: src', _ :: dst' =>
                if truth c then cons c <$> strncpy dst' src' n' else pad_zero dst n
            | _, _ => None
            end
  end.

Fixpoint strcat (dst src : list Z) : option (list Z) :=
  match dst with
  | [] => None
  | d :: dst' => if truth d then cons d <$> strcat dst' src else strcpy dst src
  end.

(** [for (i = 0; i < n && src[i]; i++) *dst++ = src[i]; *dst = 0;] *)
Fixpoint strncat_tail (dst src : list Z) (n : nat) : option (list Z) :=
  match dst with
  | [] => None
  | _ :: dst' =>
      match n with
      | O => Some (0 :: dst')
      | S n' => match src with
                | [] => None
                | c :: src' => if truth c then cons c <$> strncat_tail dst' src' n'
                               else Some (0 :: dst')
                end
      end
  end.

Fixpoint strncat (dst src : list Z) (n : nat) : option (list Z) :=
  match dst with
  | [] => None
  | d :: dst' => if truth d then cons d <$> strncat dst' src n else strncat_tail dst src n
  end.

(** ** lib/common/ds.c: the same loops under other names *)

Definition ds_strlen : list Z -> option Z := strlen.
Definition ds_strcmp : list Z -> list Z -> option Z := strcmp.
Definition ds_strcpy : list Z -> list Z -> option (list Z) := strcpy.
Definition ds_strcat : list Z -> list Z -> option (list Z) := strcat.

(** ** Specification *)

(** A string: its characters are non-zero bytes. *)
Definition chars (s : list Z) : Prop := Forall (λ c, 0 < c < 256) s.

(** The buffer holds the string [s], terminated. *)
Definition cstr (buf s : list Z) : Prop := chars s /\ exists rest, buf = s ++ 0 :: rest.

(** [n] occurs in [h] at [i]. *)
Definition occurs (n h : list Z) (i : Z) : Prop :=
  0 <= i /\ n `prefix_of` drop (Z.to_nat i) h.

(** Lexicographic order on strings. *)
Inductive lex_lt : list Z -> list Z -> Prop :=
  | lex_nil y t : lex_lt [] (y :: t)
  | lex_head x y s t : x < y -> lex_lt (x :: s) (y :: t)
  | lex_tail x s t : lex_lt s t -> lex_lt (x :: s) (x :: t).

(** ** Lemmas *)

Lemma truth_char c : 0 < c < 256 -> truth c = true.
Proof. intros. unfold truth. by rewrite (proj2 (Z.eqb_neq c 0)) by lia. Qed.

Lemma chars_cons c s : chars (c :: s) <-> 0 < c < 256 /\ chars s.
Proof. unfold chars. by rewrite Forall_cons. Qed.

Lemma cstr_app s rest : chars s -> cstr (s ++ 0 :: rest) s.
Proof. split; eauto. Qed.

#[export] Hint Resolve cstr_app : mira.


Lemma s8_inj x y : 0 <= x < 256 -> 0 <= y < 256 -> s8 x = s8 y -> x = y.
Proof.
  intros Hx Hy. unfold signed. rewrite !wrap_small by (simpl; lia).
  change (2 ^ (8 - 1)) with 128. change (2 ^ 8) with 256.
  destruct (Z.ltb_spec x 128), (Z.ltb_spec y 128); lia.
Qed.

Lemma s8_ascii x : 0 <= x < 128 -> s8 x = x.
Proof.
  intros Hx. unfold signed. rewrite !wrap_small by (simpl; lia).
  change (2 ^ (8 - 1)) with 128. destruct (Z.ltb_spec x 128); lia.
Qed.

Lemma strlen_loop_spec s rest n :
  chars s -> strlen_loop (s ++ 0 :: rest) n = Some (n + Z.of_nat (length s)).
Proof.
  revert n. induction s as [|c s IH]; intros n Hs; simpl.
  - f_equal. lia.
  - apply chars_cons in Hs as [Hc Hs]. rewrite truth_char by done.
    rewrite IH by done. f_equal. lia.
Qed.

Lemma strlen_spec buf s : cstr buf s -> strlen buf = Some (Z.of_nat (length s)).
Proof. intros [Hs [rest ->]]. unfold strlen. by rewrite strlen_loop_spec. Qed.

Lemma strcpy_spec dst buf s :
  cstr buf s ->
  strcpy dst buf = if decide (length s < length dst)%nat
                   then Some (s ++ 0 :: drop (S (length s)) dst) else None.
Proof.
  intros [Hs [rest ->]]. revert dst.
  induction s as [|c s IH]; intros [|d dst]; simpl; try done.
  apply chars_cons in Hs as [Hc Hs]. rewrite truth_char by done. rewrite IH by done.
  repeat case_decide; simpl; try done; lia.
Qed.

Lemma pad_zero_spec dst n :
  (n <= length dst)%nat -> pad_zero dst n = Some (replicate n 0 ++ drop n dst).
Proof.
  revert dst. induction n as [|n IH]; intros [|d dst] H; simpl in *; try done; [lia|].
  by rewrite IH by lia.
Qed.

Lemma strstr_match_spec h n hr nr :
  chars h -> chars n ->
  strstr_match (h ++ 0 :: hr) (n ++ 0 :: nr) = Some (bool_decide (n `prefix_of` h)).
Proof.
  intros Hh Hn. revert h Hh.
  induction n as [|y n IH]; intros [|x h] Hh; cbn [app strstr_match].
  - by rewrite bool_decide_eq_true_2 by done.
  - rewrite andb_false_r. cbv iota. change (truth 0) with false. cbn [negb].
    rewrite bool_decide_eq_true_2 by apply prefix_nil. done.
  - apply chars_cons in Hn as [Hy Hn]. rewrite (truth_char y) by done. cbn [andb]. change (truth 0) with false. cbn [andb negb].
    rewrite bool_decide_eq_false_2; [done|apply prefix_nil_not].
  - apply chars_cons in Hn as [Hy Hn]. apply chars_cons in Hh as [Hx Hh].
    rewrite !truth_char by done. cbn [andb negb]. destruct (Z.eqb_spec x y) as [->|Hne].
    + rewrite IH by done. f_equal. apply bool_decide_ext.
      split; [by apply prefix_cons|by apply prefix_cons_inv_2].
    + rewrite bool_decide_eq_false_2; [done|]. intros ?%prefix_cons_inv_1. congruence.
Qed.

Lemma occurs_cons n x h i : 0 <= i -> occurs n (x :: h) (i + 1) <-> occurs n h i.
Proof.
  intros Hi. unfold occurs. replace (Z.to_nat (i + 1)) with (S (Z.to_nat i)) by lia.
  simpl. intuition lia.
Qed.

Lemma occurs_0 n h : occurs n h 0 <-> n `prefix_of` h.
Proof. unfold occurs. simpl. rewrite drop_0. intuition lia. Qed.

Lemma occurs_nil n i : occurs n [] i -> n = [].
Proof. intros [_ H]. rewrite drop_nil in H. by apply prefix_nil_inv in H. Qed.

Lemma strstr_loop_spec h n hr nr i :
  chars h -> chars n -> n <> [] ->
  (exists j, strstr_loop (h ++ 0 :: hr) (n ++ 0 :: nr) i = Some (Some (i + j)) /\
     occurs n h j /\ forall k, occurs n h k -> j <= k) \/
  (strstr_loop (h ++ 0 :: hr) (n ++ 0 :: nr) i = Some None /\ forall k, ~ occurs n h k).
Proof.
  intros Hh Hn Hne. revert i. induction h as [|x h IH]; intros i.
  { right. split; [done|]. by intros k ?%occurs_nil. }
  pose proof Hh as [Hx Hh']%chars_cons.
  change ((x :: h) ++ 0 :: hr) with (x :: (h ++ 0 :: hr)). cbn [strstr_loop].
  rewrite truth_char by done.
  change (x :: h ++ 0 :: hr) with ((x :: h) ++ 0 :: hr).
  rewrite strstr_match_spec by done.
  destruct (decide (n `prefix_of` x :: h)) as [Hp|Hp].
  - rewrite bool_decide_eq_true_2 by done. left. exists 0. rewrite Z.add_0_r.
    split; [done|]. split; [by apply occurs_0|]. by intros k [? _].
  - rewrite bool_decide_eq_false_2 by done.
    assert (forall k, occurs n (x :: h) k -> exists k', k = k' + 1 /\ occurs n h k') as Hshift.
    { intros k Hk. assert (k <> 0).
      { intros ->. destruct Hp. by apply occurs_0 in Hk. }
      pose proof Hk as [? _]. exists (k - 1). split; [lia|].
      apply (occurs_cons n x); [lia|]. by replace (k - 1 + 1) with k by lia. }
    destruct (IH Hh' (i + 1)) as [(j & -> & Ho & Hmin)|[-> Hno]].
    + left. exists (j + 1). split; [do 2 f_equal; lia|]. split.
      * apply occurs_cons; [apply Ho|done].
      * intros k (k' & -> & Hk')%Hshift. specialize (Hmin _ Hk'). lia.
    + right. split; [done|]. intros k (k' & -> & Hk')%Hshift. by eapply Hno.
Qed.

(** The first position where two strings differ decides [strcmp]. *)
Lemma strcmp_app s t sr tr :
  chars s -> chars t ->
  exists r, strcmp (s ++ 0 :: sr) (t ++ 0 :: tr) = Some r /\
    strcmp (t ++ 0 :: tr) (s ++ 0 :: sr) = Some (- r) /\
    (r = 0 <-> s = t) /\
    (Forall (λ c, c < 128) (s ++ t) -> (r < 0 <-> lex_lt s t)).
Proof.
  intros Hs. revert t. induction s as [|x s IH]; intros [|y t] Ht.
  - exists 0. split_and!; try done. intros _. split; [lia|inversion 1].
  - apply chars_cons in Ht as [Hy Ht]. simpl. rewrite truth_char by done.
    exists (s8 0 - s8 y). split; [done|]. split; [simpl; f_equal; lia|]. split.
    + split; [|done]. intros E. assert (y = 0); [|lia]. apply s8_inj; lia.
    + intros [Ha _]%Forall_cons. simpl in Ha. rewrite !s8_ascii by lia.
      split; [constructor|lia].
  - apply chars_cons in Hs as [Hx Hs]. simpl. rewrite truth_char by done.
    exists (s8 x - s8 0). split; [done|]. split; [simpl; f_equal; lia|]. split.
    + split; [|done]. intros E. assert (x = 0); [|lia]. apply s8_inj; lia.
    + intros [Ha _]%Forall_cons. simpl in Ha. rewrite !s8_ascii by lia.
      split; [lia|inversion 1].
  - apply chars_cons in Ht as [Hy Ht]. apply chars_cons in Hs as [Hx Hs]. simpl.
    rewrite !truth_char by done. simpl. rewrite (Z.eqb_sym y x).
    destruct (Z.eqb_spec x y) as [->|Hne]; simpl.
    + destruct (IH Hs t Ht) as (r & -> & -> & Hr & Hl). exists r. do 2 (split; [done|]). split.
      * rewrite Hr. naive_solver.
      * intros Ha. rewrite Hl; [|apply Forall_cons in Ha as [_ Ha];
          apply Forall_app in Ha as [? [_ ?]%Forall_cons]; by apply Forall_app].
        split; [by constructor|]. inversion 1; subst; [lia|done].
    + exists (s8 x - s8 y). split; [done|]. split; [f_equal; lia|]. split.
      * split; [|congruence]. intros E. destruct Hne. apply s8_inj; lia.
      * intros [Ha [_ [Hb _]%Forall_cons]%Forall_app]%Forall_cons.
        rewrite !s8_ascii by lia. split; [intros; constructor; lia|].
        inversion 1; subst; [lia|done].
Qed.

(** ** Properties *)

(** [strlen] and [ds_strlen] return the length of the string the buffer holds. *)
Theorem strlen_correct buf s :
  cstr buf s ->
  strlen buf = Some (Z.of_nat (length s)) /\ ds_strlen buf = Some (Z.of_nat (length s)).
Proof. intros H. unfold ds_strlen. by rewrite (strlen_spec _ _ H). Qed.

(** [strcmp] (and [ds_strcmp]) always returns on two C strings, is
    antisymmetric, returns 0 exactly on equal strings, and on ASCII strings its
    sign is the lexicographic order. *)
Theorem strcmp_correct a b s t :
  cstr a s -> cstr b t ->
  exists r, strcmp a b = Some r /\ ds_strcmp a b = Some r /\ strcmp b a = Some (- r) /\
    (r = 0 <-> s = t) /\
    (Forall (λ c, c < 128) (s ++ t) -> (r < 0 <-> lex_lt s t)).
Proof.
  intros [Hs [sr ->]] [Ht [tr ->]].
  destruct (strcmp_app s t sr tr Hs Ht) as (r & H1 & H2 & H3 & H4). exists r. by split_and!.
Qed.

(** [strstr] returns the first occurrence of the needle, and NULL exactly
    when there is none. *)
Theorem strstr_correct hb nb h n :
  cstr hb h -> cstr nb n ->
  (exists i, strstr hb nb = Some (Some i) /\ occurs n h i /\ forall k, occurs n h k -> i <= k) \/
  (strstr hb nb = Some None /\ forall k, ~ occurs n h k).
Proof.
  intros [Hh [hr ->]] [Hn [nr ->]]. destruct n as [|y n].
  - left. exists 0. split; [done|]. split; [apply occurs_0, prefix_nil|]. by intros k [? _].
  - pose proof Hn as [Hy _]%chars_cons.
    assert (strstr (h ++ 0 :: hr) ((y :: n) ++ 0 :: nr) =
            strstr_loop (h ++ 0 :: hr) ((y :: n) ++ 0 :: nr) 0) as ->.
    { simpl. by rewrite truth_char. }
    destruct (strstr_loop_spec h (y :: n) hr nr 0 Hh Hn) as [(j & -> & ? & ?)|[-> ?]];
      [done|left; by exists j|by right].
Qed.

(** [strcat] leaves the concatenation, terminated, in the destination when
    it has room for it, and otherwise writes past the end of the buffer: there is
    no other bound in the code. *)
Theorem strcat_correct dst src s t :
  cstr dst s -> cstr src t ->
  strcat dst src =
    if decide (length s + length t < length dst)%nat
    then Some (s ++ t ++ 0 :: drop (S (length s + length t)) dst) else None.
Proof.
  intros [Hs [sr ->]] Ht. revert Hs. induction s as [|c s IH]; intros Hs.
  - simpl app. cbn [strcat]. change (truth 0) with false. cbv iota.
    by rewrite (strcpy_spec _ _ _ Ht).
  - apply chars_cons in Hs as [Hc Hs].
    change ((c :: s) ++ 0 :: sr) with (c :: (s ++ 0 :: sr)).
    cbn [strcat]. rewrite truth_char, (IH Hs) by done. simpl length.
    repeat case_decide; simpl; try done; lia.
Qed.

(** [strncpy] writes exactly [n] bytes: the string, cut at [n] and padded
    with zeros; the result is not terminated when the string has [n] characters
    or more. *)
Theorem strncpy_correct dst src s n :
  cstr src s -> (n <= length dst)%nat ->
  strncpy dst src n = Some (take n (s ++ replicate n 0) ++ drop n dst).
Proof.
  intros [Hs [sr ->]]. revert dst s Hs.
  induction n as [|n IH]; intros [|d dst] s Hs Hn; simpl in Hn; try done; [lia|].
  destruct s as [|c s].
  - change (strncpy (d :: dst) ([] ++ 0 :: sr) (S n)) with (pad_zero (d :: dst) (S n)).
    rewrite pad_zero_spec by (simpl; lia). rewrite app_nil_l, take_ge; [done|].
    rewrite length_replicate. lia.
  - apply chars_cons in Hs as [Hc Hs]. simpl. rewrite truth_char, IH by (done || lia).
    simpl. do 3 f_equal. rewrite !take_app. f_equal.
    change (0 :: replicate n 0) with (replicate (S n) 0).
    rewrite !take_replicate. f_equal. lia.
Qed.

(** ** Witnesses *)

Definition str (l : list Z) : list Z := l ++ [0].

Ltac cstr_tac :=
  split; [unfold chars; repeat constructor; lia|]; first [by exists []|by eexists].

Lemma strlen_correct_witness :
  strlen (str [72; 105]) = Some 2 /\ ds_strlen (str [72; 105]) = Some 2.
Proof. apply (strlen_correct _ [72; 105]). cstr_tac. Defined.

Lemma strcmp_correct_witness :
  exists r, strcmp (str [97; 98]) (str [97; 99]) = Some r /\
    ds_strcmp (str [97; 98]) (str [97; 99]) = Some r /\
    strcmp (str [97; 99]) (str [97; 98]) = Some (- r) /\
    (r = 0 <-> [97; 98] = [97; 99]) /\
    (Forall (λ c, c < 128) ([97; 98] ++ [97; 99]) -> (r < 0 <-> lex_lt [97; 98] [97; 99])).
Proof. apply strcmp_correct; cstr_tac. Defined.

Lemma strstr_correct_witness :
  (exists i, strstr (str [97; 98; 97; 98]) (str [98]) = Some (Some i) /\
     occurs [98] [97; 98; 97; 98] i /\ forall k, occurs [98] [97; 98; 97; 98] k -> i <= k) \/
  (strstr (str [97; 98; 97; 98]) (str [98]) = Some None /\
     forall k, ~ occurs [98] [97; 98; 97; 98] k).
Proof. apply strstr_correct; cstr_tac. Defined.

Lemma strcat_correct_witness :
  strcat [97; 0; 5; 5; 5] (str [98; 99]) = Some [97; 98; 99; 0; 5].
Proof.
  etrans; [apply (strcat_correct [97; 0; 5; 5; 5] (str [98; 99]) [97] [98; 99]); cstr_tac|].
  reflexivity.
Defined.

Lemma strncpy_correct_witness :
  strncpy [9; 9; 9; 9; 9] (str [98; 99]) 4 = Some [98; 99; 0; 0; 9].
Proof.
  etrans; [apply (strncpy_correct [9; 9; 9; 9; 9] (str [98; 99]) [98; 99] 4);
    [cstr_tac|simpl; lia]|].
  reflexivity.
Defined.
