(* ===== verification/Pmm.v ===== *)
(** * The physical page allocator (kernel/mem.c)

    State [pmm]: the bitmap and the four counters of kernel/mem.c.  A set bit is a
    page in use.  [pmm_init] reads the multiboot tags from memory [m]; the address
    of [page_bitmap], which the linker chooses, is the parameter [bitmap_addr]. *)

From S2P Require Import Prelude CMem.

Definition MAX_PHYS_PAGES : Z := 131072.
Definition BITMAP_SIZE : Z := (MAX_PHYS_PAGES + 7) / 8.

Record pmm := mkPmm {
  page_bitmap : list Z;
  total_pages : Z;
  free_pages : Z;
  mem_start : Z;
  mem_end : Z
}.

Definition set_bitmap (b : list Z) (s : pmm) : pmm :=
  mkPmm b (total_pages s) (free_pages s) (mem_start s) (mem_end s).
Definition set_total (n : Z) (s : pmm) : pmm :=
  mkPmm (page_bitmap s) n (free_pages s) (mem_start s) (mem_end s).
Definition set_free (n : Z) (s : pmm) : pmm :=
  mkPmm (page_bitmap s) (total_pages s) n (mem_start s) (mem_end s).
Definition set_end (e : Z) (s : pmm) : pmm :=
  mkPmm (page_bitmap s) (total_pages s) (free_pages s) (mem_start s) e.

(** ** The bitmap *)

(** [page_bitmap[page / 8] = f(page_bitmap[page / 8])] *)
Definition bitmap_update (page : Z) (f : Z -> Z) : M pmm unit :=
  s <-- get ;;
  b <-- of_option (aget (page_bitmap s) (page / 8)) ;;
  l <-- of_option (aset (page_bitmap s) (page / 8) (f b)) ;;
  put (set_bitmap l s).

Definition bitmap_set (page : Z) : M pmm unit :=
  bitmap_update page (λ b, u8 (Z.lor b (Z.shiftl 1 (page mod 8)))).

Definition bitmap_clear (page : Z) : M pmm unit :=
  bitmap_update page (λ b, u8 (Z.land b (Z.lnot (Z.shiftl 1 (page mod 8))))).

Definition bitmap_test (page : Z) : M pmm Z :=
  s <-- get ;;
  b <-- of_option (aget (page_bitmap s) (page / 8)) ;;
  ret (Z.land b (Z.shiftl 1 (page mod 8))).

Definition reserve_region (base length : Z) : M pmm unit :=
  let start_page := base / 4096 in
  let end_page := u64 (base + length + 4095) / 4096 in
  for_range start_page end_page bitmap_set.

(** ** Reading the multiboot information *)

Definition mbi_next (tag size : Z) : Z :=
  u64 (tag + Z.land (u32 (size + 7)) (u32 (Z.lnot 7))).

(** The body of the [for (p = start_page; ...)] loop of [pmm_init]. *)
Definition release_page (p : Z) : M pmm unit :=
  bitmap_clear p ;;;
  modify (λ s, set_total (u64 (total_pages s + 1)) s) ;;;
  modify (λ s, set_free (u64 (free_pages s + 1)) s).

(** One available memory map entry. *)
Definition add_region (base length : Z) : M pmm unit :=
  let end_ := u64 (base + length) in
  modify (λ s, if mem_end s <? end_ then set_end end_ s else s) ;;;
  for_range (base / 4096) (end_ / 4096) release_page.

(** The loop over the entries of a memory map tag. *)
Fixpoint mmap_loop (fuel : nat) (m : mem) (entry limit entry_size : Z) : M pmm unit :=
  match fuel with
  | O => nofuel
  | S fuel' =>
      if entry <? limit then
        type <-- of_option (load 4 m (entry + 16)) ;;
        (if negb (type =? 1) then ret tt
         else
           base <-- of_option (load 8 m entry) ;;
           length <-- of_option (load 8 m (entry + 8)) ;;
           add_region base length) ;;;
        mmap_loop fuel' m (entry + entry_size) limit entry_size
      else ret tt
  end.

(** The loop over the tags. *)
Fixpoint tag_loop (fuel : nat) (m : mem) (tag : Z) : M pmm unit :=
  match fuel with
  | O => nofuel
  | S fuel' =>
      type <-- of_option (load 4 m tag) ;;
      if type =? 0 then ret tt
      else
        size <-- of_option (load 4 m (tag + 4)) ;;
        (if type =? 6 then
           entry_size <-- of_option (load 4 m (tag + 8)) ;;
           mmap_loop fuel' m (tag + 16) (tag + size) entry_size
         else ret tt) ;;;
        tag_loop fuel' m (mbi_next tag size)
  end.

(** [for (i = 0; i < BITMAP_SIZE; i++) page_bitmap[i] = 0xFF;] *)
Definition full_bitmap : list Z := replicate (Z.to_nat BITMAP_SIZE) 0xFF.
#[global] Opaque full_bitmap.

Definition pmm_init (fuel : nat) (m : mem) (bitmap_addr mbi : Z) : M pmm unit :=
  modify (set_bitmap full_bitmap) ;;;
  modify (λ s, mkPmm (page_bitmap s) 0 0 0x100000 0) ;;;
  tag_loop fuel m (mbi + 8) ;;;
  reserve_region 0 0x100000 ;;;
  reserve_region bitmap_addr BITMAP_SIZE.

(** ** Allocation *)

(** [for (p = mem_start / 4096; p < mem_end / 4096; p++) if (!bitmap_test(p)) ...] *)
Fixpoint alloc_scan (n : nat) (p : Z) : M pmm Z :=
  match n with
  | O => ret 0
  | S n' =>
      t <-- bitmap_test p ;;
      if negb (truth t) then
        bitmap_set p ;;;
        modify (λ s, set_free (u64 (free_pages s - 1)) s) ;;;
        ret (p * 4096)
      else alloc_scan n' (p + 1)
  end.

Definition pmm_alloc_page : M pmm Z :=
  s <-- get ;;
  alloc_scan (Z.to_nat (mem_end s / 4096 - mem_start s / 4096)) (mem_start s / 4096).

Definition pmm_free_page (page : Z) : M pmm unit :=
  let p := page / 4096 in
  t <-- bitmap_test p ;;
  if negb (truth t) then ret tt
  else
    bitmap_clear p ;;;
    modify (λ s, set_free (u64 (free_pages s + 1)) s).

Definition pmm_total_pages : M pmm Z := gets total_pages.
Definition pmm_free_count : M pmm Z := gets free_pages.

(** ** Abstract view and invariant *)

(** The page is marked in use. *)
Definition page_used (s : pmm) (p : Z) : bool :=
  match aget (page_bitmap s) (p / 8) with
  | Some b => Z.testbit b (p mod 8)
  | None => true
  end.

Record pmm_wf (s : pmm) : Prop := {
  wf_len : Z.of_nat (length (page_bitmap s)) = BITMAP_SIZE;
  wf_bytes : Forall (λ b, 0 <= b < 256) (page_bitmap s);
  wf_free : 0 <= free_pages s < 2 ^ 64;
  wf_start : 4096 <= mem_start s;
  wf_end : mem_end s / 4096 <= MAX_PHYS_PAGES
}.

(** The pages [pmm_alloc_page] may hand out. *)
Definition in_range (s : pmm) (p : Z) : Prop :=
  mem_start s / 4096 <= p < mem_end s / 4096.

(** [t] is [s] with the page [p] marked [b] and the free count changed by [d]. *)
Record marked (s t : pmm) (p : Z) (b : bool) (d : Z) : Prop := {
  mk_used : forall q, 0 <= q -> page_used t q = if decide (q = p) then b else page_used s q;
  mk_total : total_pages t = total_pages s;
  mk_free : free_pages t = u64 (free_pages s + d);
  mk_start : mem_start t = mem_start s;
  mk_end : mem_end t = mem_end s
}.

Lemma wf_byte s i b : pmm_wf s -> aget (page_bitmap s) i = Some b -> 0 <= b < 256.
Proof.
  intros Hs [_ H]%aget_Some. pose proof (wf_bytes _ Hs) as Hb.
  by apply (Forall_lookup_1 _ _ _ _ Hb H).
Qed.

Lemma div8_range p : 0 <= p < MAX_PHYS_PAGES -> 0 <= p / 8 < BITMAP_SIZE.
Proof.
  unfold MAX_PHYS_PAGES, BITMAP_SIZE. change ((MAX_PHYS_PAGES + 7) / 8) with 16384.
  intros. split; [apply Z.div_pos; lia|apply Z.div_lt_upper_bound; lia].
Qed.

Lemma page_byte s p :
  pmm_wf s -> 0 <= p < MAX_PHYS_PAGES -> exists b, aget (page_bitmap s) (p / 8) = Some b.
Proof.
  intros Hs Hp. destruct (aget_is_Some (page_bitmap s) (p / 8)) as [b Hb]; [|by exists b].
  rewrite (wf_len _ Hs). by apply div8_range.
Qed.

Lemma bitmap_test_spec s p :
  pmm_wf s -> 0 <= p < MAX_PHYS_PAGES ->
  exists t, bitmap_test p s = Ret t s /\ truth t = page_used s p.
Proof.
  intros Hs Hp. destruct (page_byte s p Hs Hp) as [b Hb].
  exists (Z.land b (Z.shiftl 1 (p mod 8))). split.
  - unfold bitmap_test, bind, get, of_option. by rewrite Hb.
  - unfold page_used. rewrite Hb. apply land_pow2_truth, Z.mod_pos_bound. lia.
Qed.

(** Updating the byte of [p] changes the view of [p] only, when the new byte
    differs from the old one in the bit of [p] alone. *)
Lemma bitmap_update_spec s p (f : Z -> Z) (v : bool) :
  pmm_wf s -> 0 <= p < MAX_PHYS_PAGES ->
  (forall b, 0 <= b < 256 -> 0 <= f b < 256 /\
     forall i, 0 <= i < 8 -> Z.testbit (f b) i = if decide (i = p mod 8) then v else Z.testbit b i) ->
  exists b,
    aget (page_bitmap s) (p / 8) = Some b /\
    let t := set_bitmap (<[Z.to_nat (p / 8) := f b]> (page_bitmap s)) s in
    bitmap_update p f s = Ret tt t /\ pmm_wf t /\
    (forall q, 0 <= q -> page_used t q = if decide (q = p) then v else page_used s q).
Proof.
  intros Hs Hp Hf. destruct (page_byte s p Hs Hp) as [b Hb].
  pose proof (div8_range p Hp) as Hi. rewrite <- (wf_len _ Hs) in Hi.
  destruct (Hf b (wf_byte _ _ _ Hs Hb)) as [Hfb Hbit].
  exists b. split; [done|]. intros t. split_and!.
  - unfold bitmap_update, bind, get, of_option. rewrite Hb.
    by rewrite aset_in by done.
  - destruct Hs. split; try done; simpl.
    + by rewrite length_insert.
    + by apply Forall_insert.
  - intros q Hq. unfold page_used. simpl page_bitmap.
    rewrite aget_insert by (done || apply Z.div_pos; lia).
    pose proof (Z.mod_pos_bound q 8). pose proof (Z.div_mod p 8). pose proof (Z.div_mod q 8).
    destruct (decide (p / 8 = q / 8)) as [E|E].
    + rewrite Hbit, <- E, Hb by lia.
      repeat case_decide; try done; exfalso; lia.
    + rewrite decide_False; [done|]. congruence.
Qed.

Lemma bitmap_set_spec s p :
  pmm_wf s -> 0 <= p < MAX_PHYS_PAGES ->
  exists t, bitmap_set p s = Ret tt t /\ pmm_wf t /\
    (forall q, 0 <= q -> page_used t q = if decide (q = p) then true else page_used s q) /\
    (exists bm, t = set_bitmap bm s).
Proof.
  intros Hs Hp. pose proof (Z.mod_pos_bound p 8).
  destruct (bitmap_update_spec s p (λ b, u8 (Z.lor b (Z.shiftl 1 (p mod 8)))) true)
    as (b & Hb & E & Hw & Hu); try done.
  - intros b Hb. split; [apply wrap_bound; lia|]. intros i Hi.
    rewrite testbit_wrap, Z.lor_spec, testbit_pow2, (proj2 (Z.ltb_lt i 8)), andb_true_r by lia.
    destruct (decide (i = p mod 8)), (Z.eqb_spec (p mod 8) i); try congruence; auto using orb_true_r, orb_false_r.
  - eexists. split_and!; eauto.
Qed.

Lemma bitmap_clear_spec s p :
  pmm_wf s -> 0 <= p < MAX_PHYS_PAGES ->
  exists t, bitmap_clear p s = Ret tt t /\ pmm_wf t /\
    (forall q, 0 <= q -> page_used t q = if decide (q = p) then false else page_used s q) /\
    (exists bm, t = set_bitmap bm s).
Proof.
  intros Hs Hp. pose proof (Z.mod_pos_bound p 8).
  destruct (bitmap_update_spec s p
    (λ b, u8 (Z.land b (Z.lnot (Z.shiftl 1 (p mod 8))))) false) as (b & Hb & E & Hw & Hu); try done.
  - intros b Hb. split; [apply wrap_bound; lia|]. intros i Hi.
    rewrite testbit_wrap, Z.land_spec, Z.lnot_spec, testbit_pow2, (proj2 (Z.ltb_lt i 8)),
      andb_true_r by lia.
    destruct (decide (i = p mod 8)), (Z.eqb_spec (p mod 8) i); try congruence;
      simpl; auto using andb_true_r, andb_false_r.
  - eexists. split_and!; eauto.
Qed.

(** ** Allocation and release *)

(** Marking one page with a new count keeps the invariant. *)
Lemma wf_set_free s n : pmm_wf s -> 0 <= n < 2 ^ 64 -> pmm_wf (set_free n s).
Proof. intros [] ?. by split. Qed.

Lemma page_used_set_free s n q : page_used (set_free n s) q = page_used s q.
Proof. done. Qed.

Lemma alloc_scan_spec s n p :
  pmm_wf s -> 0 <= p -> p + Z.of_nat n <= MAX_PHYS_PAGES ->
  (exists q t, p <= q < p + Z.of_nat n /\ page_used s q = false /\
     (forall r, p <= r < q -> page_used s r = true) /\
     alloc_scan n p s = Ret (q * 4096) t /\ pmm_wf t /\ marked s t q true (-1)) \/
  ((forall r, p <= r < p + Z.of_nat n -> page_used s r = true) /\ alloc_scan n p s = Ret 0 s).
Proof.
  intros Hs. revert p. induction n as [|n IH]; intros p Hp Hm; simpl.
  { right. split; [lia|done]. }
  destruct (bitmap_test_spec s p Hs) as (b & Hb & Hu); [lia|].
  rewrite (bind_Ret _ _ _ _ _ Hb), Hu. destruct (page_used s p) eqn:Eu; simpl.
  - destruct (IH (p + 1)) as [(q & t & ? & ? & Hq & ? & ? & ?)|[Hall ->]]; [lia|lia| |].
    + left. exists q, t. split_and!; try done; [lia|lia|].
      intros r ?. destruct (decide (r = p)) as [->|]; [done|apply Hq; lia].
    + right. split; [|done]. intros r ?.
      destruct (decide (r = p)) as [->|]; [done|apply Hall; lia].
  - left. destruct (bitmap_set_spec s p Hs) as (t & Ht & Hw & Hm' & bm & ->); [lia|].
    rewrite (bind_Ret _ _ _ _ _ Ht). exists p, (set_free (u64 (free_pages s - 1)) (set_bitmap bm s)).
    split_and!; try done; try lia.
    apply wf_set_free; [done|apply wrap_bound; lia].
Qed.

Lemma pmm_alloc_page_cases s :
  pmm_wf s ->
  (exists q t, in_range s q /\ page_used s q = false /\
     (forall r, in_range s r -> r < q -> page_used s r = true) /\
     pmm_alloc_page s = Ret (q * 4096) t /\ pmm_wf t /\ marked s t q true (-1)) \/
  ((forall r, in_range s r -> page_used s r = true) /\ pmm_alloc_page s = Ret 0 s).
Proof.
  intros Hs. unfold pmm_alloc_page. rewrite bind_get.
  set (n := Z.to_nat _). pose proof (wf_end _ Hs).
  assert (1 <= mem_start s / 4096) by (apply Z.div_le_lower_bound; [lia|]; apply (wf_start _ Hs)).
  destruct (decide (mem_start s / 4096 <= mem_end s / 4096)).
  - assert (mem_start s / 4096 + Z.of_nat n = mem_end s / 4096) as En by lia.
    destruct (alloc_scan_spec s n (mem_start s / 4096)) as [(q & t & ? & ? & ? & ? & ? & ?)|[? ?]];
      [done|lia|lia| |]; unfold in_range; rewrite En in *.
    + left. exists q, t. split_and!; try done; try lia. auto with lia.
    + by right.
  - right. assert (n = O) as -> by lia. split; [unfold in_range; lia|done].
Qed.

Lemma in_range_page s q : pmm_wf s -> in_range s q -> 0 < q < MAX_PHYS_PAGES.
Proof.
  intros Hs [? ?]. pose proof (wf_end _ Hs).
  assert (1 <= mem_start s / 4096) by (apply Z.div_le_lower_bound; [lia|]; apply (wf_start _ Hs)).
  lia.
Qed.

Lemma marked_in_range s t p b d q : marked s t p b d -> in_range t q <-> in_range s q.
Proof. intros []. unfold in_range. by rewrite mk_start0, mk_end0. Qed.

Lemma pmm_free_page_cases s a :
  pmm_wf s -> 0 <= a / 4096 < MAX_PHYS_PAGES ->
  (page_used s (a / 4096) = false /\ pmm_free_page a s = Ret tt s) \/
  (page_used s (a / 4096) = true /\ exists t, pmm_free_page a s = Ret tt t /\ pmm_wf t /\
     marked s t (a / 4096) false 1).
Proof.
  intros Hs Hp. unfold pmm_free_page.
  destruct (bitmap_test_spec s _ Hs Hp) as (b & Hb & Hu).
  rewrite (bind_Ret _ _ _ _ _ Hb), Hu. destruct (page_used s (a / 4096)); [right|by left].
  split; [done|]. simpl.
  destruct (bitmap_clear_spec s _ Hs Hp) as (t & Ht & Hw & Hm & bm & ->).
  rewrite (bind_Ret _ _ _ _ _ Ht). eexists. split_and!; [done| |].
  - apply wf_set_free; [done|apply wrap_bound; lia].
  - by split.
Qed.

(** Two states with the same view and the same counters are equal. *)
Lemma byte_ext x y :
  0 <= x < 256 -> 0 <= y < 256 ->
  (forall i, 0 <= i < 8 -> Z.testbit x i = Z.testbit y i) -> x = y.
Proof.
  intros Hx Hy H. apply Z.bits_inj'. intros i ?. destruct (decide (i < 8)); [apply H; lia|].
  rewrite !(testbit_above 8); [done|simpl; lia|lia|simpl; lia|lia].
Qed.

Lemma pmm_ext s t :
  pmm_wf s -> pmm_wf t -> (forall q, 0 <= q < MAX_PHYS_PAGES -> page_used s q = page_used t q) ->
  total_pages s = total_pages t -> free_pages s = free_pages t ->
  mem_start s = mem_start t -> mem_end s = mem_end t -> s = t.
Proof.
  intros Hs Ht H H1 H2 H3 H4. pose proof (wf_len _ Hs). pose proof (wf_len _ Ht).
  assert (page_bitmap s = page_bitmap t) as E.
  { apply list_eq_same_length with (length (page_bitmap t)); [done|lia|].
    intros i x y Hi Hx Hy.
    assert (aget (page_bitmap s) (Z.of_nat i) = Some x) as Hx' by (apply aget_Some; rewrite Nat2Z.id; split; [lia|done]).
    assert (aget (page_bitmap t) (Z.of_nat i) = Some y) as Hy' by (apply aget_Some; rewrite Nat2Z.id; split; [lia|done]).
    apply byte_ext; [exact (wf_byte s _ _ Hs Hx')|exact (wf_byte t _ _ Ht Hy')|]. intros j Hj.
    assert ((Z.of_nat i * 8 + j) / 8 = Z.of_nat i) as Ed
      by (rewrite Z.div_add_l, Z.div_small by lia; lia).
    assert ((Z.of_nat i * 8 + j) mod 8 = j) as Em
      by (rewrite Z.add_comm, Z.mod_add, Z.mod_small by lia; lia).
    specialize (H (Z.of_nat i * 8 + j)). unfold page_used in H.
    rewrite Ed, Em, Hx', Hy' in H. apply H.
    change BITMAP_SIZE with 16384 in *. unfold MAX_PHYS_PAGES. lia. }
  destruct s, t; simpl in *; congruence.
Qed.

(** ** Ownership traces

    The allocator together with the set of pages handed out and not yet given
    back, for clients that free only what they own. *)

Inductive pmm_step : pmm * gset Z -> pmm * gset Z -> Prop :=
  | step_alloc s t own a : pmm_alloc_page s = Ret a t -> a <> 0 ->
      pmm_step (s, own) (t, {[ a ]} ∪ own)
  | step_alloc_fail s t own : pmm_alloc_page s = Ret 0 t -> pmm_step (s, own) (t, own)
  | step_free s t own a : a ∈ own -> pmm_free_page a s = Ret tt t ->
      pmm_step (s, own) (t, own ∖ {[ a ]}).

(** Every owned address is an aligned page in range, marked in use. *)
Definition owns (x : pmm * gset Z) : Prop :=
  pmm_wf x.1 /\ forall a, a ∈ x.2 ->
    exists p, a = p * 4096 /\ in_range x.1 p /\ page_used x.1 p = true.

Lemma pmm_step_owns x y : pmm_step x y -> owns x -> owns y.
Proof.
  intros Hst [Hw Ho]. inversion Hst; subst; simpl in *.
  - destruct (pmm_alloc_page_cases s Hw) as [(q & t' & Hr & Hu & _ & E & Hw' & Hm)|[_ E]];
      rewrite E in H; simplify_eq. split; [done|]. simpl. intros b [->%elem_of_singleton|Hb]%elem_of_union.
    + exists q. split; [done|]. rewrite (marked_in_range _ _ _ _ _ _ Hm).
      pose proof (in_range_page _ _ Hw Hr).
      rewrite (mk_used _ _ _ _ _ Hm), decide_True by lia. done.
    + destruct (Ho b Hb) as (p & -> & Hp & Hpu). exists p. split; [done|].
      rewrite (marked_in_range _ _ _ _ _ _ Hm). pose proof (in_range_page _ _ Hw Hp).
      rewrite (mk_used _ _ _ _ _ Hm) by lia. by case_decide.
  - destruct (pmm_alloc_page_cases s Hw) as [(q & t' & Hr & Hu & _ & E & Hw' & Hm)|[_ E]];
      rewrite E in H; simplify_eq; [|done].
    pose proof (in_range_page _ _ Hw Hr). lia.
  - destruct (Ho a) as (p & -> & Hp & Hpu); [done|]. pose proof (in_range_page _ _ Hw Hp).
    destruct (pmm_free_page_cases s (p * 4096) Hw) as [[? E]|(? & t' & E & Hw' & Hm)].
    + rewrite Z.div_mul by lia. lia.
    + rewrite Z.div_mul in * by lia. congruence.
    + rewrite E in H0. simplify_eq. rewrite Z.div_mul in Hm by lia. split; [done|]. simpl.
      intros b [Hb Hne%not_elem_of_singleton]%elem_of_difference.
      destruct (Ho b Hb) as (p' & -> & Hp' & Hpu'). exists p'. split; [done|].
      rewrite (marked_in_range _ _ _ _ _ _ Hm). pose proof (in_range_page _ _ Hw Hp').
      rewrite (mk_used _ _ _ _ _ Hm) by lia. split; [done|]. rewrite decide_False; [done|].
      intros ->. congruence.
Qed.

Lemma pmm_reachable_owns x y : rtc pmm_step x y -> owns x -> owns y.
Proof. induction 1; eauto using pmm_step_owns. Qed.

(** ** The effect of [pmm_init] *)

(** The available regions (base, length) of the memory map entries from [e]. *)
Inductive entries_at (m : mem) (limit es : Z) : Z -> list (Z * Z) -> Prop :=
  | ent_end e : limit <= e -> entries_at m limit es e []
  | ent_skip e type rs : e < limit -> load 4 m (e + 16) = Some type -> type <> 1 ->
      entries_at m limit es (e + es) rs -> entries_at m limit es e rs
  | ent_avail e b l rs : e < limit -> load 4 m (e + 16) = Some 1 ->
      load 8 m e = Some b -> load 8 m (e + 8) = Some l ->
      entries_at m limit es (e + es) rs -> entries_at m limit es e ((b, l) :: rs).

(** The available regions the multiboot tags from [tag] announce. *)
Inductive tags_at (m : mem) : Z -> list (Z * Z) -> Prop :=
  | tags_end tag : load 4 m tag = Some 0 -> tags_at m tag []
  | tags_skip tag type size rs : load 4 m tag = Some type -> type <> 0 -> type <> 6 ->
      load 4 m (tag + 4) = Some size -> tags_at m (mbi_next tag size) rs -> tags_at m tag rs
  | tags_mmap tag size es rs1 rs2 : load 4 m tag = Some 6 -> load 4 m (tag + 4) = Some size ->
      load 4 m (tag + 8) = Some es -> entries_at m (tag + size) es (tag + 16) rs1 ->
      tags_at m (mbi_next tag size) rs2 -> tags_at m tag (rs1 ++ rs2).

Definition add_regions (rs : list (Z * Z)) : M pmm unit :=
  foldr (λ r k, add_region r.1 r.2 ;;; k) (ret tt) rs.

Lemma add_regions_app rs1 rs2 s :
  add_regions (rs1 ++ rs2) s = bind (add_regions rs1) (λ _, add_regions rs2) s.
Proof.
  revert s. induction rs1 as [|r rs1 IH]; intros s; simpl; [done|].
  rewrite bind_assoc. unfold bind. destruct (add_region r.1 r.2 s); [|done..].
  apply IH.
Qed.

(** The loops read the map as [entries_at] and [tags_at] describe it, and run
    [add_region] on the regions in order. *)
Lemma mmap_loop_regions m limit es e rs :
  entries_at m limit es e rs ->
  exists n, forall fuel, (n <= fuel)%nat -> forall s,
    mmap_loop fuel m e limit es s = add_regions rs s.
Proof.
  induction 1 as [e He|e type rs He Ht Hne _ [n IH]|e b l rs He Ht Hb Hl _ [n IH]].
  - exists 1%nat. intros [|fuel] ? s; [lia|]. simpl. by destruct (Z.ltb_spec e limit); [lia|].
  - exists (S n). intros [|fuel] ? s; [lia|]. simpl. destruct (Z.ltb_spec e limit); [|lia].
    rewrite Ht, bind_option. destruct (Z.eqb_spec type 1); [done|]. simpl.
    rewrite bind_ret. apply IH. lia.
  - exists (S n). intros [|fuel] ? s; [lia|]. simpl. destruct (Z.ltb_spec e limit); [|lia].
    rewrite Ht, bind_option. simpl. rewrite Hb, Hl. unfold bind at 1.
    rewrite bind_option, bind_option. unfold bind.
    destruct (add_region b l s); [|done..]. apply IH. lia.
Qed.

Lemma tag_loop_regions m tag rs :
  tags_at m tag rs ->
  exists n, forall fuel, (n <= fuel)%nat -> forall s,
    tag_loop fuel m tag s = add_regions rs s.
Proof.
  induction 1 as [tag Ht|tag type size rs Ht H0 H6 Hsz _ [n IH]
                 |tag size es rs1 rs2 Ht Hsz Hes He _ [n IH]].
  - exists 1%nat. intros [|fuel] ? s; [lia|]. simpl. by rewrite Ht.
  - exists (S n). intros [|fuel] ? s; [lia|]. simpl. rewrite Ht, bind_option.
    rewrite (proj2 (Z.eqb_neq _ _) H0), Hsz, bind_option, (proj2 (Z.eqb_neq _ _) H6), bind_ret.
    apply IH. lia.
  - destruct (mmap_loop_regions _ _ _ _ _ He) as [n' Hn'].
    exists (S (n + n')). intros [|fuel] ? s; [lia|]. cbn [tag_loop]. rewrite Ht, bind_option.
    change (6 =? 0) with false. change (6 =? 6) with true. cbv iota.
    rewrite Hsz, bind_option, Hes. rewrite add_regions_app. unfold bind at 1.
    rewrite bind_option, Hn' by lia. unfold bind.
    destruct (add_regions rs1 s); [|done..]. apply IH. lia.
Qed.

(** A region the bitmap can describe. *)
Definition region_ok (r : Z * Z) : Prop :=
  0 <= r.1 /\ 0 <= r.2 /\ r.1 + r.2 < 2 ^ 64 /\ (r.1 + r.2) / 4096 <= MAX_PHYS_PAGES.

(** The pages released for a region, partial first page included. *)
Definition covers (r : Z * Z) (q : Z) : Prop := r.1 / 4096 <= q < (r.1 + r.2) / 4096.
Definition region_pages (r : Z * Z) : Z := (r.1 + r.2) / 4096 - r.1 / 4096.

#[export] Instance covers_dec r q : Decision (covers r q).
Proof. unfold covers. apply _. Defined.

Lemma region_mono r : region_ok r -> 0 <= r.1 / 4096 <= (r.1 + r.2) / 4096.
Proof.
  intros (? & ? & ? & ?). split; [apply Z.div_pos; lia|apply Z.div_le_mono; lia].
Qed.

(** What a run over pages [lo, hi) of release has done to [s]. *)
Record released (s t : pmm) (lo hi : Z) (e : Z) : Prop := {
  rl_wf : pmm_wf t;
  rl_used : forall q, 0 <= q ->
    page_used t q = if decide (lo <= q < hi) then false else page_used s q;
  rl_total : total_pages t = u64 (total_pages s + (hi - lo));
  rl_free : free_pages t = u64 (free_pages s + (hi - lo));
  rl_start : mem_start t = mem_start s;
  rl_end : mem_end t = e
}.

Lemma u64_add_1 x d : u64 (u64 (x + d) + 1) = u64 (x + (d + 1)).
Proof. unfold wrap. rewrite Z.add_mod_idemp_l by done. f_equal. lia. Qed.

Lemma release_page_spec s t lo p e :
  released s t lo p e -> 0 <= lo <= p -> p < MAX_PHYS_PAGES ->
  exists t', release_page p t = Ret tt t' /\ released s t' lo (p + 1) e.
Proof.
  intros [Hw Hu Ht Hf Hst He] Hlo Hp.
  destruct (bitmap_clear_spec t p Hw) as (t' & E & Hw' & Hu' & bm & ->); [lia|].
  unfold release_page. rewrite (bind_Ret _ _ _ _ _ E), bind_modify. eexists. split; [done|].
  split; simpl; try done.
  - apply wf_set_free; [by destruct Hw'; split|apply wrap_bound; lia].
  - intros q Hq. etrans; [apply (Hu' q Hq)|]. rewrite Hu by done.
    repeat case_decide; try done; lia.
  - rewrite Ht, u64_add_1. do 2 f_equal. lia.
  - rewrite Hf, u64_add_1. do 2 f_equal. lia.
Qed.

Lemma wf_set_end s e : pmm_wf s -> e / 4096 <= MAX_PHYS_PAGES -> pmm_wf (set_end e s).
Proof. intros [] ?. by split. Qed.

Lemma released_refl s lo :
  pmm_wf s -> 0 <= total_pages s < 2 ^ 64 -> released s s lo lo (mem_end s).
Proof.
  intros Hw Ht. split; try done.
  - intros q ?. by rewrite decide_False by lia.
  - by rewrite Z.sub_diag, Z.add_0_r, wrap_small.
  - rewrite Z.sub_diag, Z.add_0_r, wrap_small; [done|apply (wf_free _ Hw)].
Qed.

Lemma add_region_spec s r :
  pmm_wf s -> 0 <= total_pages s < 2 ^ 64 -> region_ok r ->
  exists t, add_region r.1 r.2 s = Ret tt t /\
    released s t (r.1 / 4096) ((r.1 + r.2) / 4096) (Z.max (mem_end s) (r.1 + r.2)).
Proof.
  intros Hw Ht Hr. pose proof (region_mono r Hr). destruct Hr as (? & ? & ? & ?).
  unfold add_region. rewrite wrap_small by lia. rewrite bind_modify.
  set (s1 := if mem_end s <? r.1 + r.2 then set_end (r.1 + r.2) s else s).
  assert (released s s1 (r.1 / 4096) (r.1 / 4096) (Z.max (mem_end s) (r.1 + r.2))) as Hs1.
  { subst s1. destruct (Z.ltb_spec (mem_end s) (r.1 + r.2)).
    - rewrite Z.max_r by lia. destruct (released_refl s (r.1 / 4096) Hw Ht).
      split; try done. by apply wf_set_end.
    - rewrite Z.max_l by lia. by apply released_refl. }
  apply (for_range_ind (λ i t, released s t (r.1 / 4096) i _)); [lia|done|].
  intros j t Hj Ht'. apply release_page_spec; [done|lia|lia].
Qed.

(** Reserving a region sets the bits of its pages and nothing else. *)
Lemma reserve_region_spec s base len :
  pmm_wf s -> 0 <= base -> 0 <= len -> base + len + 4095 < 2 ^ 64 ->
  (base + len + 4095) / 4096 <= MAX_PHYS_PAGES ->
  exists t, reserve_region base len s = Ret tt t /\ pmm_wf t /\
    (forall q, 0 <= q -> page_used t q =
       if decide (base / 4096 <= q < (base + len + 4095) / 4096) then true else page_used s q) /\
    exists bm, t = set_bitmap bm s.
Proof.
  intros Hw Hb Hl Hlt Hmax. unfold reserve_region. rewrite wrap_small by lia.
  assert (0 <= base / 4096) by (apply Z.div_pos; lia).
  set (P := λ i t, pmm_wf t /\
    (forall q, 0 <= q -> page_used t q =
       if decide (base / 4096 <= q < i) then true else page_used s q) /\
    exists bm, t = set_bitmap bm s).
  apply (for_range_ind P); unfold P; clear P.
  - apply Z.div_le_mono; lia.
  - split_and!; [done| |by exists (page_bitmap s); destruct s].
    intros q ?. by rewrite decide_False by lia.
  - intros j t Hj (Hwt & Hu & bm & ->).
    destruct (bitmap_set_spec _ j Hwt) as (t' & -> & Hwt' & Hu' & bm' & ->); [lia|].
    eexists. split; [done|]. split_and!; [done| |by exists bm'].
    intros q Hq. rewrite Hu' by done. rewrite Hu by done.
    repeat case_decide; try done; lia.
Qed.

Definition regions_pages (rs : list (Z * Z)) : Z := foldr (λ r n, region_pages r + n) 0 rs.
Definition regions_end (rs : list (Z * Z)) : Z := foldr (λ r e, Z.max (r.1 + r.2) e) 0 rs.
Definition covered (rs : list (Z * Z)) (q : Z) : Prop := Exists (λ r, covers r q) rs.

#[export] Instance covered_dec rs q : Decision (covered rs q).
Proof. unfold covered. apply _. Defined.

Lemma add_regions_spec rs s :
  pmm_wf s -> 0 <= total_pages s < 2 ^ 64 -> Forall region_ok rs ->
  exists t, add_regions rs s = Ret tt t /\ pmm_wf t /\
    (forall q, 0 <= q -> page_used t q = if decide (covered rs q) then false else page_used s q) /\
    total_pages t = u64 (total_pages s + regions_pages rs) /\
    free_pages t = u64 (free_pages s + regions_pages rs) /\
    mem_start t = mem_start s /\
    mem_end t = Z.max (mem_end s) (foldr (λ r e, Z.max (r.1 + r.2) e) (mem_end s) rs).
Proof.
  intros Hw Ht Hrs. revert s Hw Ht. induction rs as [|r rs IH]; intros s Hw Ht; simpl.
  - exists s. rewrite !Z.add_0_r, !wrap_small by (done || apply (wf_free _ Hw)).
    split_and!; try done; lia.
  - apply Forall_cons in Hrs as [Hr Hrs].
    destruct (add_region_spec s r Hw Ht Hr) as (t & E & [Hwt Hu Htt Htf Hts Hte]).
    rewrite (bind_Ret _ _ _ _ _ E).
    destruct (IH Hrs t Hwt) as (t' & -> & Hw' & Hu' & Ht' & Hf' & Hs' & He').
    { rewrite Htt. apply wrap_bound. lia. }
    exists t'. split; [done|]. split_and!; try done.
    + intros q Hq. rewrite Hu', Hu by done. unfold covered, covers.
      destruct (decide (Exists (λ r0, r0.1 / 4096 <= q < (r0.1 + r0.2) / 4096) rs)) as [He|He].
      * rewrite decide_True; [done|by right].
      * destruct (decide (r.1 / 4096 <= q < (r.1 + r.2) / 4096)).
        -- rewrite decide_True; [done|by left].
        -- rewrite decide_False; [done|]. by inversion 1.
    + rewrite Ht', Htt. unfold wrap. rewrite Z.add_mod_idemp_l by done. f_equal.
      unfold region_pages. lia.
    + rewrite Hf', Htf. unfold wrap. rewrite Z.add_mod_idemp_l by done. f_equal.
      unfold region_pages. lia.
    + congruence.
    + rewrite He', Hte. clear. set (e := mem_end s).
      assert (forall x y, foldr (λ r e0, Z.max (r.1 + r.2) e0) (Z.max x y) rs =
                Z.max y (foldr (λ r e0, Z.max (r.1 + r.2) e0) x rs)) as ->; [|lia].
      intros x y. induction rs as [|r' rs IH]; simpl; [lia|]. rewrite IH. lia.
Qed.

Lemma BITMAP_SIZE_eq : BITMAP_SIZE = 16384.
Proof. done. Qed.

Lemma full_bitmap_length : Z.of_nat (length full_bitmap) = BITMAP_SIZE.
Proof. Local Transparent full_bitmap. unfold full_bitmap. by rewrite length_replicate. Qed.

Lemma full_bitmap_lookup i b : full_bitmap !! i = Some b -> b = 255.
Proof. unfold full_bitmap. intros [-> _]%lookup_replicate. done. Qed.
#[global] Opaque full_bitmap.

(** The state [pmm_init] builds before it reads the map. *)
Definition pmm_blank : pmm := mkPmm full_bitmap 0 0 0x100000 0.

Lemma pmm_blank_wf : pmm_wf pmm_blank.
Proof.
  split; simpl page_bitmap; simpl free_pages; simpl mem_start; simpl mem_end.
  - apply full_bitmap_length.
  - apply Forall_lookup. intros i b ->%full_bitmap_lookup. lia.
  - done.
  - lia.
  - done.
Qed.

Lemma pmm_blank_used q : 0 <= q -> page_used pmm_blank q = true.
Proof.
  intros Hq. unfold page_used. destruct (aget _ _) as [b|] eqn:E; [|done].
  apply aget_Some in E as [_ E]. simpl in E. apply full_bitmap_lookup in E as ->.
  pose proof (Z.mod_pos_bound q 8).
  assert (forall i, 0 <= i < 8 -> Z.testbit 255 i = true) as H'; [|apply H'; lia].
  intros i Hi. change 255 with (Z.ones 8). rewrite Z.testbit_ones by lia.
  destruct (Z.leb_spec 0 i), (Z.ltb_spec i 8); lia || done.
Qed.

Lemma pmm_init_start fuel m ba mbi s0 :
  pmm_init fuel m ba mbi s0 =
  bind (tag_loop fuel m (mbi + 8)) (λ _, reserve_region 0 0x100000 ;;; reserve_region ba BITMAP_SIZE)
    pmm_blank.
Proof. done. Qed.

(** More fuel does not change a run of the loops that had enough. *)
Lemma mmap_loop_mono f f' m e l es :
  (f <= f')%nat -> approx (mmap_loop f m e l es) (mmap_loop f' m e l es).
Proof.
  revert f' e. induction f as [|f IH]; intros [|f'] e Hle; simpl; auto with approx; [lia|].
  auto 7 with approx lia.
Qed.

Lemma tag_loop_mono f f' m tag :
  (f <= f')%nat -> approx (tag_loop f m tag) (tag_loop f' m tag).
Proof.
  revert f' tag. induction f as [|f IH]; intros [|f'] tag Hle; simpl; auto with approx; [lia|].
  pose proof (λ e l es, mmap_loop_mono f f' m e l es). auto 12 with approx lia.
Qed.

Lemma pmm_init_mono f f' m ba mbi s t :
  (f <= f')%nat -> pmm_init f m ba mbi s = Ret tt t -> pmm_init f' m ba mbi s = Ret tt t.
Proof.
  intros Hle H. rewrite <- H. unfold pmm_init. revert H.
  assert (approx (pmm_init f m ba mbi) (pmm_init f' m ba mbi)) as Ha.
  { unfold pmm_init. pose proof (tag_loop_mono f f' m (mbi + 8) Hle). auto 7 with approx. }
  intros H. apply Ha. by rewrite H.
Qed.

Lemma regions_end_covers rs q : covered rs q -> q < regions_end rs / 4096.
Proof.
  induction 1 as [r rs [_ Hr]|r rs _ IH]; simpl.
  - eapply Z.lt_le_trans; [exact Hr|]. apply Z.div_le_mono; lia.
  - eapply Z.lt_le_trans; [exact IH|]. apply Z.div_le_mono; lia.
Qed.

Lemma pmm_init_run m ba mbi rs :
  tags_at m (mbi + 8) rs -> Forall region_ok rs ->
  0 <= ba -> (ba + BITMAP_SIZE + 4095) / 4096 <= MAX_PHYS_PAGES ->
  exists n, forall fuel s0, (n <= fuel)%nat ->
    exists s, pmm_init fuel m ba mbi s0 = Ret tt s /\ pmm_wf s /\
      (forall q, 0 <= q -> page_used s q = false <->
         covered rs q /\ 256 <= q /\ ~ (ba / 4096 <= q < (ba + BITMAP_SIZE + 4095) / 4096)) /\
      total_pages s = u64 (regions_pages rs) /\ free_pages s = total_pages s /\
      mem_start s = 0x100000 /\ mem_end s = Z.max 0 (regions_end rs).
Proof.
  intros Htags Hrs Hba Hba'. destruct (tag_loop_regions _ _ _ Htags) as [n Hn].
  exists n. intros fuel s0 Hfuel. rewrite pmm_init_start. unfold bind at 1. rewrite Hn by done.
  destruct (add_regions_spec rs pmm_blank pmm_blank_wf) as (t & -> & Hw & Hu & Ht & Hf & Hs & He);
    [done|done|].
  rewrite BITMAP_SIZE_eq in *.
  assert (ba + 16384 + 4095 < 2 ^ 64).
  { assert (ba + 16384 + 4095 < 4096 * (MAX_PHYS_PAGES + 1)); [|unfold MAX_PHYS_PAGES in *; lia].
    pose proof (Z.mul_succ_div_gt (ba + 16384 + 4095) 4096). lia. }
  destruct (reserve_region_spec t 0 0x100000 Hw) as (t1 & E1 & Hw1 & Hu1 & bm1 & ->);
    [lia|lia|lia|done|].
  rewrite (bind_Ret _ _ _ _ _ E1).
  destruct (reserve_region_spec _ ba 16384 Hw1) as (t2 & E2 & Hw2 & Hu2 & bm2 & ->);
    [lia|lia|lia|done|].
  rewrite E2. eexists. split; [done|]. split_and!; try done.
  - intros q Hq. rewrite Hu2, Hu1, Hu, pmm_blank_used by done.
    change (0 / 4096) with 0. change ((0 + 0x100000 + 4095) / 4096) with 256.
    repeat case_decide; intuition lia.
  - simpl. by rewrite Hf, Ht.
Qed.

(** ** Properties *)

(** [pmm_alloc_page] returns the lowest free page of
    [mem_start, mem_end), marks that page and only it, and counts it; when no
    page of the range is free it returns 0 and changes nothing. *)
Theorem pmm_alloc_page_spec s :
  pmm_wf s ->
  (exists p t, in_range s p /\ page_used s p = false /\
     (forall r, in_range s r -> r < p -> page_used s r = true) /\
     pmm_alloc_page s = Ret (p * 4096) t /\ pmm_wf t /\ marked s t p true (-1)) \/
  ((forall r, in_range s r -> page_used s r = true) /\ pmm_alloc_page s = Ret 0 s).
Proof. apply pmm_alloc_page_cases. Qed.

(** Freeing the page just allocated restores the allocator's state exactly. *)
Theorem pmm_alloc_free_roundtrip s a t :
  pmm_wf s -> pmm_alloc_page s = Ret a t -> a <> 0 -> pmm_free_page a t = Ret tt s.
Proof.
  intros Hw E Ha.
  destruct (pmm_alloc_page_cases s Hw) as [(p & t' & Hr & Hu & _ & E' & Hw' & Hm)|[_ E']];
    rewrite E' in E; simplify_eq.
  pose proof (in_range_page _ _ Hw Hr) as Hp.
  destruct (pmm_free_page_cases t (p * 4096) Hw') as [[Hf _]|(_ & u & -> & Hwu & Hmu)];
    rewrite Z.div_mul in * by lia; [lia| |].
  { rewrite (mk_used _ _ _ _ _ Hm), decide_True in Hf by lia. done. }
  f_equal. symmetry. destruct Hm, Hmu. apply pmm_ext; try done; try congruence.
  - intros q Hq. rewrite mk_used1, mk_used0 by lia. repeat case_decide; congruence.
  - rewrite mk_free1, mk_free0. unfold wrap. rewrite Z.add_mod_idemp_l by done.
    rewrite <- Z.add_assoc, Z.add_0_r. symmetry. apply Z.mod_small, (wf_free _ Hw).
Qed.

(** C4. As long as clients free only pages they own, the allocator never hands
    out a page that is still owned, whatever the interleaving of allocations and
    frees. *)
Theorem pmm_no_double_alloc s0 s own a t :
  pmm_wf s0 -> rtc pmm_step (s0, ∅) (s, own) -> pmm_alloc_page s = Ret a t ->
  a = 0 \/ a ∉ own.
Proof.
  intros Hw0 Hr E.
  destruct (pmm_reachable_owns _ _ Hr) as [Hw Ho]; [split; [done|set_solver]|]. simpl in *.
  destruct (pmm_alloc_page_cases s Hw) as [(p & t' & Hp & Hu & _ & E' & _)|[_ E']];
    rewrite E' in E; simplify_eq; [right|by left].
  intros (q & Hq & _ & Huq)%Ho. assert (p = q) as -> by lia. congruence.
Qed.


(** C5. [pmm_init] on any multiboot map whose regions end below 512 MiB: it
    returns, and afterwards the free pages are exactly the pages of the available
    regions (a partial first page included) that lie neither in the first
    megabyte nor under the bitmap.  The free counter counts the reserved pages as
    free too. *)
Theorem pmm_init_spec m ba mbi rs :
  tags_at m (mbi + 8) rs -> Forall region_ok rs ->
  0 <= ba -> (ba + BITMAP_SIZE + 4095) / 4096 <= MAX_PHYS_PAGES ->
  exists n, forall fuel s0, (n <= fuel)%nat ->
    exists s, pmm_init fuel m ba mbi s0 = Ret tt s /\ pmm_wf s /\
      (forall q, 0 <= q -> page_used s q = false <->
         covered rs q /\ 256 <= q /\ ~ (ba / 4096 <= q < (ba + BITMAP_SIZE + 4095) / 4096)) /\
      total_pages s = u64 (regions_pages rs) /\ free_pages s = total_pages s /\
      mem_start s = 0x100000 /\ mem_end s = Z.max 0 (regions_end rs).
Proof. apply pmm_init_run. Qed.

(** On a machine whose map makes page 256 available (every PC with more than
    one megabyte), the first page handed out after [pmm_init] is 0x100000, the
    address where linker.ld places the kernel: the kernel image is not reserved. *)
Theorem pmm_hands_out_kernel m ba mbi rs fuel s0 s :
  tags_at m (mbi + 8) rs -> Forall region_ok rs -> covered rs 256 ->
  257 * 4096 <= ba -> (ba + BITMAP_SIZE + 4095) / 4096 <= MAX_PHYS_PAGES ->
  pmm_init fuel m ba mbi s0 = Ret tt s ->
  exists t, pmm_alloc_page s = Ret 0x100000 t.
Proof.
  intros Htags Hrs Hcov Hba Hba' Hrun.
  destruct (pmm_init_run m ba mbi rs Htags Hrs) as [n Hn]; [lia|done|].
  destruct (Hn (n + fuel)%nat s0) as (s' & E & Hw & Hu & _ & _ & Hs & He); [lia|].
  rewrite (pmm_init_mono fuel (n + fuel) _ _ _ _ _ ltac:(lia) Hrun) in E. simplify_eq.
  assert (page_used s' 256 = false) as Hfree.
  { apply Hu; [lia|]. split_and!; [done|lia|].
    assert (257 <= ba / 4096) by (apply Z.div_le_lower_bound; lia). lia. }
  assert (256 < mem_end s' / 4096) as Hend.
  { rewrite He. eapply Z.lt_le_trans; [exact (regions_end_covers _ _ Hcov)|].
    apply Z.div_le_mono; lia. }
  assert (in_range s' 256) as Hr
    by (unfold in_range; rewrite Hs; change (0x100000 / 4096) with 256; lia).
  destruct (pmm_alloc_page_cases s' Hw) as [(p & t & Hp & Hup & Hmin & E & _)|[Hall _]].
  - exists t. assert (p = 256) as ->; [|done].
    destruct (decide (256 < p)); [by rewrite Hmin in Hfree|].
    unfold in_range in *. rewrite Hs in *. change (0x100000 / 4096) with 256 in *. lia.
  - by rewrite Hall in Hfree.
Qed.

(** [pmm_init] does not check the size of the bitmap: an available region
    that ends above 512 MiB makes it write past the end of [page_bitmap]. *)
Theorem pmm_init_overflow m ba mbi rs1 r rs2 :
  tags_at m (mbi + 8) (rs1 ++ r :: rs2) -> Forall region_ok rs1 ->
  0 <= r.1 -> r.1 / 4096 <= MAX_PHYS_PAGES -> r.1 + r.2 < 2 ^ 64 ->
  MAX_PHYS_PAGES < (r.1 + r.2) / 4096 ->
  exists n, forall fuel s0, (n <= fuel)%nat -> pmm_init fuel m ba mbi s0 = Stuck.
Proof.
  intros Htags Hrs H0 Hlo Hlt Hhi. destruct (tag_loop_regions _ _ _ Htags) as [n Hn].
  exists n. intros fuel s0 Hf. rewrite pmm_init_start. unfold bind at 1. rewrite Hn by done.
  rewrite add_regions_app. unfold bind at 1.
  destruct (add_regions_spec rs1 pmm_blank pmm_blank_wf) as (t & -> & Hw & _);
    [done|done|].
  cbn [add_regions foldr]. unfold bind at 1. unfold add_region.
  assert (0 <= r.1 + r.2) by (assert (0 < (r.1 + r.2) / 4096) by (unfold MAX_PHYS_PAGES in *; lia);
    destruct (decide (r.1 + r.2 < 0)); [|lia]; assert ((r.1 + r.2) / 4096 < 0) by (apply Z.div_lt_upper_bound; lia); lia).
  rewrite wrap_small by lia. rewrite bind_modify.
  set (t1 := if _ : bool then set_end _ _ else t).
  assert (Z.of_nat (length (page_bitmap t1)) = BITMAP_SIZE) as Hlen.
  { subst t1. destruct (mem_end t <? r.1 + r.2); apply (wf_len _ Hw). }
  assert (0 <= r.1 / 4096) by (apply Z.div_pos; lia).
  assert (for_range (r.1 / 4096) ((r.1 + r.2) / 4096) release_page t1 = Stuck) as ->; [|done].
  apply (for_n_stuck (λ _ u, Z.of_nat (length (page_bitmap u)) = BITMAP_SIZE) _ _ _ MAX_PHYS_PAGES);
    [done|lia| |].
  - intros k u Hk Hu. unfold release_page, bitmap_clear, bitmap_update.
    destruct (aget_is_Some (page_bitmap u) (k / 8)) as [b Hb]; [rewrite Hu; apply div8_range; lia|].
    eexists. rewrite bind_assoc, bind_get, bind_assoc. rewrite Hb, bind_option, bind_assoc.
    rewrite aset_in by (rewrite Hu; apply div8_range; lia). rewrite bind_option, bind_put, !bind_modify.
    split; [done|]. simpl. by rewrite length_insert.
  - intros u Hu. unfold release_page, bitmap_clear, bitmap_update.
    assert (aget (page_bitmap u) (MAX_PHYS_PAGES / 8) = None) as E.
    { destruct (aget _ _) as [b|] eqn:E; [|done]. apply aget_bound in E.
      rewrite Hu, BITMAP_SIZE_eq in E. change (MAX_PHYS_PAGES / 8) with 16384 in E. lia. }
    unfold bind, get. by rewrite E.
Qed.

(** ** Witnesses *)

(** An allocator with one free page, page 256. *)
Definition pmm_one : pmm :=
  mkPmm (<[32%nat := 254]> full_bitmap) 1 1 0x100000 0x101000.

Lemma pmm_one_wf : pmm_wf pmm_one.
Proof.
  split; simpl page_bitmap; simpl free_pages; simpl mem_start; simpl mem_end.
  - rewrite length_insert. apply full_bitmap_length.
  - apply Forall_insert; [|lia]. apply (wf_bytes _ pmm_blank_wf).
  - done.
  - lia.
  - done.
Qed.

Definition pmm_after (m : M pmm Z) (s : pmm) : pmm :=
  match m s with Ret _ t => t | _ => s end.

(** A run that returned a value that [f] identifies, without computing its state. *)
Lemma returned_eqb (m : M pmm Z) s a (f : Z -> bool) :
  (forall b, f b = true -> a = b) ->
  match m s with Ret b _ => f b | _ => false end = true -> m s = Ret a (pmm_after m s).
Proof. intros Hf. unfold pmm_after. destruct (m s) as [b t| | |]; [|done..]. by intros <-%Hf. Qed.

Lemma pmm_alloc_page_spec_witness :
  (exists p t, in_range pmm_one p /\ page_used pmm_one p = false /\
     (forall r, in_range pmm_one r -> r < p -> page_used pmm_one r = true) /\
     pmm_alloc_page pmm_one = Ret (p * 4096) t /\ pmm_wf t /\ marked pmm_one t p true (-1)) \/
  ((forall r, in_range pmm_one r -> page_used pmm_one r = true) /\
     pmm_alloc_page pmm_one = Ret 0 pmm_one).
Proof. apply (pmm_alloc_page_spec pmm_one), pmm_one_wf. Defined.

Lemma pmm_one_alloc : pmm_alloc_page pmm_one = Ret 0x100000 (pmm_after pmm_alloc_page pmm_one).
Proof.
  apply returned_eqb with (f := Z.eqb 0x100000); [intros a E; by apply Z.eqb_eq in E|].
  vm_compute. reflexivity.
Qed.

Lemma pmm_alloc_free_roundtrip_witness :
  pmm_free_page 0x100000 (pmm_after pmm_alloc_page pmm_one) = Ret tt pmm_one.
Proof.
  apply (pmm_alloc_free_roundtrip pmm_one 0x100000); [apply pmm_one_wf|apply pmm_one_alloc|done].
Defined.

Lemma pmm_no_double_alloc_witness : 0 = 0 \/ 0 ∉ ({[ 0x100000 ]} ∪ ∅ : gset Z).
Proof.
  apply (pmm_no_double_alloc pmm_one (pmm_after pmm_alloc_page pmm_one) _ _
           (pmm_after pmm_alloc_page (pmm_after pmm_alloc_page pmm_one))).
  - apply pmm_one_wf.
  - apply rtc_once. apply step_alloc; [apply pmm_one_alloc|done].
  - apply returned_eqb with (f := Z.eqb 0); [intros a E; by apply Z.eqb_eq in E|]. vm_compute. reflexivity.
Defined.

(** A multiboot information block at 0x9000 with one memory map tag announcing one
    available region (base, length). *)
Definition mbi_one (base length : Z) : mem :=
  bytes_at 0x9000 (le_bytes 8 0 ++ le_bytes 4 6 ++ le_bytes 4 40 ++ le_bytes 4 24 ++ le_bytes 4 0
    ++ le_bytes 8 base ++ le_bytes 8 length ++ le_bytes 4 1 ++ le_bytes 4 0
    ++ le_bytes 4 0 ++ le_bytes 4 8).

Ltac mbi_one_tac := 
  apply (tags_mmap _ _ 40 24 [_] []); [by vm_compute..| |apply tags_end; by vm_compute];
  apply ent_avail; [done|by vm_compute..|]; apply ent_end; done.

Definition small_ram : list (Z * Z) := [(0x100000, 0x100000)].
Definition large_ram : list (Z * Z) := [(0x1FF00000, 0x200000)].

Lemma small_ram_tags : tags_at (mbi_one 0x100000 0x100000) (0x9000 + 8) small_ram.
Proof. mbi_one_tac. Qed.

Lemma large_ram_tags : tags_at (mbi_one 0x1FF00000 0x200000) (0x9000 + 8) large_ram.
Proof. mbi_one_tac. Qed.

Lemma small_ram_ok : Forall region_ok small_ram.
Proof. repeat constructor; by vm_compute. Qed.

Lemma pmm_init_spec_witness :
  exists n, forall fuel s0, (n <= fuel)%nat ->
    exists s, pmm_init fuel (mbi_one 0x100000 0x100000) 0x180000 0x9000 s0 = Ret tt s /\ pmm_wf s /\
      (forall q, 0 <= q -> page_used s q = false <->
         covered small_ram q /\ 256 <= q /\
         ~ (0x180000 / 4096 <= q < (0x180000 + BITMAP_SIZE + 4095) / 4096)) /\
      total_pages s = u64 (regions_pages small_ram) /\ free_pages s = total_pages s /\
      mem_start s = 0x100000 /\ mem_end s = Z.max 0 (regions_end small_ram).
Proof.
  apply (pmm_init_spec _ 0x180000 0x9000 small_ram);
    [apply small_ram_tags|apply small_ram_ok|lia|by vm_compute].
Defined.

Lemma pmm_hands_out_kernel_witness :
  exists fuel s t, pmm_init fuel (mbi_one 0x100000 0x100000) 0x180000 0x9000 pmm_blank = Ret tt s /\
    pmm_alloc_page s = Ret 0x100000 t.
Proof.
  destruct (pmm_init_run (mbi_one 0x100000 0x100000) 0x180000 0x9000 small_ram small_ram_tags small_ram_ok)
    as [n Hn]; [lia|by vm_compute|].
  destruct (Hn n pmm_blank) as (s & E & _); [lia|]. exists n, s.
  destruct (pmm_hands_out_kernel (mbi_one 0x100000 0x100000) 0x180000 0x9000 small_ram n pmm_blank s)
    as [t Ht]; [apply small_ram_tags|apply small_ram_ok| |lia|by vm_compute|exact E|by exists t].
  constructor. by vm_compute.
Defined.

Lemma pmm_init_overflow_witness :
  exists n, forall fuel s0, (n <= fuel)%nat ->
    pmm_init fuel (mbi_one 0x1FF00000 0x200000) 0x180000 0x9000 s0 = Stuck.
Proof.
  apply (pmm_init_overflow _ 0x180000 0x9000 [] (0x1FF00000, 0x200000) []);
    [apply large_ram_tags|constructor|by vm_compute..].
Defined.
