(* ===== verification/Paging.v ===== *)
(** * Page tables (arch/x86_64/paging.c)

    State [paging]: the page allocator, the words of the page tables, the root and
    the control registers.  Tables are accessed through the identity map, so a
    table is the physical address of its page and entry [i] is the word at
    [table + 8 * i].  A word that was never written is unknown: reading it is
    [Stuck].  [walk], [table_alloc] and [paging_map_page] are mutually recursive
    in the source (a new table is mapped before it is cleared); the recursion is
    bounded by [fuel], its depth. *)

From S2P Require Import Prelude CMem Pmm.

Definition PAGE_SIZE : Z := 4096.
Definition PAGE_PRESENT : Z := Z.shiftl 1 0.
Definition PAGE_WRITE : Z := Z.shiftl 1 1.
Definition PAGE_SIZE_FLAG : Z := Z.shiftl 1 7.
Definition HEAP_VIRT_BASE : Z := 0x40000000.

Definition PML4_INDEX (v : Z) : Z := Z.land (Z.shiftr v 39) 0x1FF.
Definition PDPT_INDEX (v : Z) : Z := Z.land (Z.shiftr v 30) 0x1FF.
Definition PD_INDEX (v : Z) : Z := Z.land (Z.shiftr v 21) 0x1FF.
Definition PT_INDEX (v : Z) : Z := Z.land (Z.shiftr v 12) 0x1FF.

Record paging := mkPaging {
  pg_pmm : pmm;
  pg_mem : gmap Z Z;
  pml4_root : Z;
  cr3 : Z;
  cr4 : Z;
  invlpg_log : list Z
}.

Definition with_pmm (p : pmm) (s : paging) : paging :=
  mkPaging p (pg_mem s) (pml4_root s) (cr3 s) (cr4 s) (invlpg_log s).
Definition with_mem (m : gmap Z Z) (s : paging) : paging :=
  mkPaging (pg_pmm s) m (pml4_root s) (cr3 s) (cr4 s) (invlpg_log s).
Definition with_root (r : Z) (s : paging) : paging :=
  mkPaging (pg_pmm s) (pg_mem s) r (cr3 s) (cr4 s) (invlpg_log s).

(** [x & ~0xFFFULL] *)
Definition page_mask (x : Z) : Z := Z.land x (u64 (Z.lnot 0xFFF)).

(** [t[i]] and [t[i] = v]. *)
Definition slot (t i : Z) : Z := t + 8 * i.
Definition rd (t i : Z) : M paging Z :=
  s <-- get ;; of_option (pg_mem s !! slot t i).
Definition wr (t i v : Z) : M paging unit :=
  modify (λ s, with_mem (<[slot t i := v]> (pg_mem s)) s).

Definition invlpg (addr : Z) : M paging unit :=
  modify (λ s, mkPaging (pg_pmm s) (pg_mem s) (pml4_root s) (cr3 s) (cr4 s)
                 (addr :: invlpg_log s)).
Definition write_cr3 (v : Z) : M paging unit :=
  modify (λ s, mkPaging (pg_pmm s) (pg_mem s) (pml4_root s) v (cr4 s) (invlpg_log s)).
Definition write_cr4 (v : Z) : M paging unit :=
  modify (λ s, mkPaging (pg_pmm s) (pg_mem s) (pml4_root s) (cr3 s) v (invlpg_log s)).

Definition present (e : Z) : bool := truth (Z.land e PAGE_PRESENT).

(** ** The three mutually recursive functions, each over the ones it calls *)

Definition table_alloc_with (map_page : Z -> Z -> Z -> M paging Z) : M paging Z :=
  phys <-- zoom pg_pmm with_pmm pmm_alloc_page ;;
  if phys =? 0 then panic "paging oom"
  else
    map_page phys phys 0 ;;;
    for_range 0 512 (λ i, wr phys i 0) ;;;
    ret phys.

(** One level: the table entry [i] of [table] points to, allocated on demand;
    [None] is the early [return 0]. *)
Definition next_table (alloc : M paging Z) (create : bool) (table i : Z)
    : M paging (option Z) :=
  e <-- rd table i ;;
  if negb (present e) then
    if negb create then ret None
    else
      t <-- alloc ;;
      wr table i (Z.lor (Z.lor t PAGE_PRESENT) PAGE_WRITE) ;;;
      ret (Some t)
  else ret (Some (page_mask e)).

(** The last level refuses a 2 MiB page. *)
Definition next_pt (alloc : M paging Z) (create : bool) (pd i : Z) : M paging Z :=
  e <-- rd pd i ;;
  if negb (present e) then
    if negb create then ret 0
    else
      t <-- alloc ;;
      wr pd i (Z.lor (Z.lor t PAGE_PRESENT) PAGE_WRITE) ;;;
      ret t
  else if truth (Z.land e PAGE_SIZE_FLAG) then ret 0
  else ret (page_mask e).

Definition walk_with (alloc : M paging Z) (virt : Z) (create : bool) : M paging Z :=
  s <-- get ;;
  pdpt <-- next_table alloc create (pml4_root s) (PML4_INDEX virt) ;;
  match pdpt with
  | None => ret 0
  | Some pdpt =>
      pd <-- next_table alloc create pdpt (PDPT_INDEX virt) ;;
      match pd with
      | None => ret 0
      | Some pd => next_pt alloc create pd (PD_INDEX virt)
      end
  end.

Definition map_page_with (walk : Z -> bool -> M paging Z) (virt phys flags : Z) : M paging Z :=
  pt <-- walk virt true ;;
  if pt =? 0 then panic "paging walk fail"
  else
    wr pt (PT_INDEX virt)
      (Z.lor (Z.lor (Z.lor (page_mask phys) flags) PAGE_PRESENT) PAGE_WRITE) ;;;
    invlpg virt ;;;
    ret virt.

Fixpoint walk (fuel : nat) (virt : Z) (create : bool) : M paging Z :=
  match fuel with
  | O => nofuel
  | S fuel' => walk_with (table_alloc_with (map_page_with (walk fuel'))) virt create
  end.

Definition paging_map_page (fuel : nat) : Z -> Z -> Z -> M paging Z :=
  map_page_with (walk fuel).
Definition table_alloc (fuel : nat) : M paging Z := table_alloc_with (paging_map_page fuel).

Definition paging_unmap_page (fuel : nat) (virt : Z) : M paging unit :=
  pt <-- walk fuel virt false ;;
  if pt =? 0 then ret tt
  else
    wr pt (PT_INDEX virt) 0 ;;;
    invlpg virt.

Definition paging_virt_to_phys (fuel : nat) (virt : Z) : M paging Z :=
  pt <-- walk fuel virt false ;;
  if pt =? 0 then ret 0
  else
    entry <-- rd pt (PT_INDEX virt) ;;
    if negb (present entry) then ret 0
    else ret (u64 (page_mask entry + Z.land virt 0xFFF)).

Definition paging_heap_base : Z := HEAP_VIRT_BASE.

(** [boot_pml4], [boot_pt], [boot_pd] and [boot_pdpt] are the addresses the linker
    gives the static tables. *)
Definition paging_init (boot_pml4 boot_pt boot_pd boot_pdpt : Z) : M paging unit :=
  for_range 0 512 (λ i, wr boot_pml4 i 0) ;;;
  modify (with_root boot_pml4) ;;;
  for_range 0 512 (λ i, wr boot_pt i (Z.lor (Z.lor (i * PAGE_SIZE) PAGE_PRESENT) PAGE_WRITE)) ;;;
  wr boot_pd 0 (Z.lor (Z.lor boot_pt PAGE_PRESENT) PAGE_WRITE) ;;;
  wr boot_pdpt 0 (Z.lor (Z.lor boot_pd PAGE_PRESENT) PAGE_WRITE) ;;;
  s <-- get ;;
  wr (pml4_root s) 0 (Z.lor (Z.lor boot_pdpt PAGE_PRESENT) PAGE_WRITE) ;;;
  write_cr3 boot_pml4 ;;;
  s <-- get ;;
  write_cr4 (Z.lor (cr4 s) (Z.shiftl 1 5)).

(** ** Arithmetic of addresses and entries *)

Definition aligned (t : Z) : Prop := 0 < t < 2 ^ 52 /\ t mod 4096 = 0.

Lemma index_bound x : 0 <= Z.land x 0x1FF < 512.
Proof. change 0x1FF with (Z.ones 9). rewrite Z.land_ones by lia. apply Z.mod_pos_bound. lia. Qed.

Lemma pml4_bound v : 0 <= PML4_INDEX v < 512. Proof. apply index_bound. Qed.
Lemma pdpt_bound v : 0 <= PDPT_INDEX v < 512. Proof. apply index_bound. Qed.
Lemma pd_bound v : 0 <= PD_INDEX v < 512. Proof. apply index_bound. Qed.
Lemma pt_bound v : 0 <= PT_INDEX v < 512. Proof. apply index_bound. Qed.
#[export] Hint Resolve pml4_bound pdpt_bound pd_bound pt_bound : mira.

Lemma slot_inj t t' i i' :
  aligned t -> aligned t' -> 0 <= i < 512 -> 0 <= i' < 512 ->
  slot t i = slot t' i' -> t = t' /\ i = i'.
Proof.
  unfold slot. intros [_ Ht] [_ Ht'] Hi Hi' E.
  apply Z.mod_divide in Ht as [a ->], Ht' as [b ->]; [|lia..]. lia.
Qed.

Lemma page_mask_eq x : 0 <= x < 2 ^ 64 -> page_mask x = x - x mod 4096.
Proof.
  intros Hx. transitivity (Z.shiftl (Z.shiftr x 12) 12).
  - rewrite <- Z.ldiff_ones_r by lia. unfold page_mask. apply Z.bits_inj'. intros i Hi.
    rewrite Z.land_spec, Z.ldiff_spec, testbit_wrap, Z.lnot_spec by lia.
    change 0xFFF with (Z.ones 12). destruct (Z.ltb_spec i 64); [by rewrite andb_true_r|].
    by rewrite (testbit_above 64 x i) by done.
  - rewrite Z.shiftr_div_pow2, Z.shiftl_mul_pow2 by lia. change (2 ^ 12) with 4096.
    rewrite (Z.mod_eq x 4096) by lia. lia.
Qed.

(** A disjoint or is an addition. *)
Lemma lor_low t f : 0 <= f < 4096 -> t mod 4096 = 0 -> Z.lor t f = t + f.
Proof.
  intros Hf Ht. pose proof (Z.add_lor_land t f) as H.
  assert (Z.land t f = 0) as E; [|lia].
  apply Z.bits_inj'. intros i Hi. rewrite Z.land_spec, Z.bits_0.
  destruct (decide (i < 12)).
  - rewrite <- (Z.mod_pow2_bits_low t 12 i) by lia. change (2 ^ 12) with 4096. by rewrite Ht, Z.bits_0.
  - rewrite (testbit_above 12 f i) by (simpl; lia). apply andb_false_r.
Qed.

Lemma entry_eq t : aligned t -> Z.lor (Z.lor t PAGE_PRESENT) PAGE_WRITE = t + 3.
Proof.
  intros [_ Ht]. rewrite <- Z.lor_assoc. change (Z.lor PAGE_PRESENT PAGE_WRITE) with 3.
  apply lor_low; [lia|done].
Qed.

Lemma land_low t f k :
  t mod 4096 = 0 -> 0 <= f < 4096 -> 0 <= k < 4096 -> Z.land (t + f) k = Z.land f k.
Proof.
  intros Ht Hf Hk. rewrite <- (lor_low t f) by done. rewrite Z.land_lor_distr_l.
  assert (Z.land t k = 0) as ->; [|apply Z.lor_0_l].
  pose proof (Z.add_lor_land t k). rewrite (lor_low t k) in * by done. lia.
Qed.

Lemma entry_facts_0 t :
  0 <= t < 2 ^ 52 -> t mod 4096 = 0 ->
  present (t + 3) = true /\ truth (Z.land (t + 3) PAGE_SIZE_FLAG) = false /\ page_mask (t + 3) = t.
Proof.
  intros Hb Ht. unfold present. rewrite !land_low by (done || lia). split_and!; [done|done|].
  rewrite page_mask_eq by lia. rewrite Z.add_mod, Ht by lia. change (3 mod 4096) with 3.
  change ((0 + 3) mod 4096) with 3. lia.
Qed.

Lemma entry_facts t :
  aligned t ->
  present (t + 3) = true /\ truth (Z.land (t + 3) PAGE_SIZE_FLAG) = false /\ page_mask (t + 3) = t.
Proof. intros [Hb Ht]. apply entry_facts_0; [lia|done]. Qed.

Lemma leaf_facts phys flags :
  0 <= phys < 2 ^ 64 -> 0 <= flags < 4096 ->
  let e := Z.lor (Z.lor (Z.lor (page_mask phys) flags) PAGE_PRESENT) PAGE_WRITE in
  present e = true /\ page_mask e = page_mask phys.
Proof.
  intros Hp Hf e. subst e. rewrite <- !Z.lor_assoc.
  change (Z.lor PAGE_PRESENT PAGE_WRITE) with 3.
  assert (page_mask phys mod 4096 = 0) as Hm.
  { rewrite page_mask_eq by done. rewrite Zminus_mod, Zmod_mod, Z.sub_diag. done. }
  assert (0 <= Z.lor flags 3 < 4096) as Hf3.
  { change 4096 with (2 ^ 12) in *. apply lor_bound; simpl in *; lia. }
  rewrite lor_low by done. split.
  - unfold present. rewrite land_low by (done || lia).
    rewrite Z.land_lor_distr_l. unfold truth.
    destruct (Z.eqb_spec (Z.lor (Z.land flags PAGE_PRESENT) (Z.land 3 PAGE_PRESENT)) 0) as [E|]; [|done].
    apply Z.lor_eq_0_iff in E as [_ E]. done.
  - assert (0 <= page_mask phys <= phys - phys mod 4096) by
      (rewrite page_mask_eq by done; split; [pose proof (Z.mod_le phys 4096); lia|lia]).
    pose proof (Z.mod_pos_bound phys 4096).
    rewrite (page_mask_eq (page_mask phys + _)).
    + rewrite Z.add_mod, Hm, Z.add_0_l, Zmod_mod, (Z.mod_small _ 4096) by lia. lia.
    + split; [lia|]. rewrite (page_mask_eq phys) in * by done.
      assert ((phys - phys mod 4096) + 4096 <= 2 ^ 64); [|lia].
      rewrite (Z.mod_eq phys 4096) by lia.
      assert (phys / 4096 < 2 ^ 52); [|lia]. apply Z.div_lt_upper_bound; lia.
Qed.

(** ** Abstract view *)

(** The table below entry [i] of [t], the page table of [v], and its translation. *)
Definition child (m : gmap Z Z) (t i : Z) : option Z :=
  e ← m !! slot t i; if present e then Some (page_mask e) else None.

Definition lookup_pt (s : paging) (v : Z) : option Z :=
  pdpt ← child (pg_mem s) (pml4_root s) (PML4_INDEX v);
  pd ← child (pg_mem s) pdpt (PDPT_INDEX v);
  child (pg_mem s) pd (PD_INDEX v).

Definition translate (s : paging) (v : Z) : option Z :=
  pt ← lookup_pt s v;
  p ← child (pg_mem s) pt (PT_INDEX v);
  Some (p + Z.land v 0xFFF).

(** The virtual page of an address: the bits the four indices look at. *)
Definition vpage (v : Z) : Z := (v / 4096) mod 2 ^ 36.

Definition free_page (s : paging) (q : Z) : Prop :=
  in_range (pg_pmm s) q /\ page_used (pg_pmm s) q = false.

(** Pages still free: the measure of the mutual recursion. *)
Definition free_count (p : pmm) : nat :=
  length (filter (λ q, page_used p q = false)
    (seqZ (mem_start p / 4096) (mem_end p / 4096 - mem_start p / 4096))).

(** [T] gives the level of every page table page: 4 the root, 1 a table of pages. *)
Record pt_wf (T : gmap Z nat) (s : paging) : Prop := {
  pw_pmm : pmm_wf (pg_pmm s);
  pw_root : T !! pml4_root s = Some 4%nat;
  pw_table : forall t l, T !! t = Some l -> aligned t /\ (1 <= l <= 4)%nat;
  pw_words : forall t l i, T !! t = Some l -> 0 <= i < 512 -> is_Some (pg_mem s !! slot t i);
  pw_kept : forall t l, T !! t = Some l -> ~ free_page s (t / 4096);
  pw_upper : forall t l i e, T !! t = Some (S (S l)) -> 0 <= i < 512 ->
    pg_mem s !! slot t i = Some e -> present e = true -> exists c, e = c + 3 /\ T !! c = Some (S l);
  pw_unique : forall t t' l l' i i' c, T !! t = Some (S (S l)) -> T !! t' = Some (S (S l')) ->
    0 <= i < 512 -> 0 <= i' < 512 ->
    child (pg_mem s) t i = Some c -> child (pg_mem s) t' i' = Some c -> t = t' /\ i = i'
}.

(** What a call that may allocate tables keeps of the state before it. *)
Record ext (T : gmap Z nat) (s : paging) (T' : gmap Z nat) (s' : paging) : Prop := {
  ex_tables : T ⊆ T';
  ex_root : pml4_root s' = pml4_root s;
  ex_cr : cr3 s' = cr3 s /\ cr4 s' = cr4 s;
  ex_range : mem_start (pg_pmm s') = mem_start (pg_pmm s) /\ mem_end (pg_pmm s') = mem_end (pg_pmm s);
  ex_used : forall q, 0 <= q -> page_used (pg_pmm s) q = true -> page_used (pg_pmm s') q = true;
  ex_new : forall t l, T' !! t = Some l -> T !! t = None -> free_page s (t / 4096);
  ex_child : forall t l i c, T !! t = Some (S (S l)) -> 0 <= i < 512 ->
    child (pg_mem s) t i = Some c -> child (pg_mem s') t i = Some c;
  ex_leaf : forall v pt, lookup_pt s v = Some pt ->
    (forall q, free_page s q -> page_used (pg_pmm s') q = true -> vpage (q * 4096) <> vpage v) ->
    pg_mem s' !! slot pt (PT_INDEX v) = pg_mem s !! slot pt (PT_INDEX v)
}.

(** A run that may run out of pages, and of fuel only if [N]. *)
Definition ok {A} (N : Prop) (o : outcome paging A) (Q : A -> paging -> Prop) : Prop :=
  match o with
  | Ret a s => Q a s
  | Panic msg _ => msg = "paging oom"%string
  | Stuck => False
  | NoFuel => N
  end.

Lemma ok_bind {A B} N (m : M paging A) (k : A -> M paging B) s Q R :
  ok N (m s) Q -> (forall a s', Q a s' -> ok N (k a s') R) -> ok N (bind m k s) R.
Proof. unfold bind. destruct (m s); simpl; auto. Qed.

Lemma ok_mono {A} (N N' : Prop) (o : outcome paging A) (Q Q' : A -> paging -> Prop) :
  ok N o Q -> (N -> N') -> (forall a s, Q a s -> Q' a s) -> ok N' o Q'.
Proof. destruct o; simpl; auto. Qed.

(** ** Virtual pages and indices *)

Lemma index_eq v k : 0 <= k -> Z.land (Z.shiftr v k) 0x1FF = (v / 2 ^ k) mod 512.
Proof. intros. change 0x1FF with (Z.ones 9). by rewrite Z.land_ones, Z.shiftr_div_pow2 by lia. Qed.

Lemma vpage_indices v :
  vpage v = PT_INDEX v + 512 * (PD_INDEX v + 512 * (PDPT_INDEX v + 512 * PML4_INDEX v)).
Proof.
  unfold vpage, PT_INDEX, PD_INDEX, PDPT_INDEX, PML4_INDEX. rewrite !index_eq by lia.
  change (2 ^ 36) with (512 * (512 * (512 * 512))).
  rewrite (Z.rem_mul_r _ 512), (Z.rem_mul_r _ 512 (512 * 512)), (Z.rem_mul_r _ 512 512) by lia.
  rewrite !Z.div_div by lia. done.
Qed.

Lemma vpage_same v v' :
  vpage v = vpage v' ->
  PML4_INDEX v = PML4_INDEX v' /\ PDPT_INDEX v = PDPT_INDEX v' /\
  PD_INDEX v = PD_INDEX v' /\ PT_INDEX v = PT_INDEX v'.
Proof.
  rewrite !vpage_indices. intros E.
  pose proof (pml4_bound v). pose proof (pml4_bound v').
  pose proof (pdpt_bound v). pose proof (pdpt_bound v').
  pose proof (pd_bound v). pose proof (pd_bound v').
  pose proof (pt_bound v). pose proof (pt_bound v'). lia.
Qed.

(** ** Lookups in well-formed tables *)

Lemma slot_bound_inj T s t t' l l' i i' :
  pt_wf T s -> T !! t = Some l -> T !! t' = Some l' -> 0 <= i < 512 -> 0 <= i' < 512 ->
  slot t i = slot t' i' -> t = t' /\ i = i'.
Proof. intros Hw Ht Ht'. apply slot_inj; eapply pw_table; eauto. Qed.

Lemma child_entry m t i c : m !! slot t i = Some (c + 3) -> aligned c -> child m t i = Some c.
Proof. intros E Hc. unfold child. rewrite E. simpl. by destruct (entry_facts c Hc) as (-> & _ & ->). Qed.

Lemma child_upper T s t l i c :
  pt_wf T s -> T !! t = Some (S (S l)) -> 0 <= i < 512 -> child (pg_mem s) t i = Some c ->
  pg_mem s !! slot t i = Some (c + 3) /\ T !! c = Some (S l).
Proof.
  unfold child. intros Hw Ht Hi. destruct (pg_mem s !! slot t i) as [e|] eqn:Ee; [|done]. simpl.
  destruct (present e) eqn:Ep; [|done]. intros [= <-].
  destruct (pw_upper _ _ Hw t l i e Ht Hi Ee Ep) as (c & -> & Hc).
  destruct (pw_table _ _ Hw _ _ Hc) as [Ha _].
  by destruct (entry_facts c Ha) as (_ & _ & ->).
Qed.

Lemma lookup_pt_inv T s v pt :
  pt_wf T s -> lookup_pt s v = Some pt ->
  exists pdpt pd, T !! pdpt = Some 3%nat /\ T !! pd = Some 2%nat /\ T !! pt = Some 1%nat /\
    child (pg_mem s) (pml4_root s) (PML4_INDEX v) = Some pdpt /\
    child (pg_mem s) pdpt (PDPT_INDEX v) = Some pd /\ child (pg_mem s) pd (PD_INDEX v) = Some pt.
Proof.
  unfold lookup_pt. intros Hw.
  destruct (child _ (pml4_root s) _) as [pdpt|] eqn:E1; simpl; [|done].
  destruct (child _ pdpt _) as [pd|] eqn:E2; simpl; [|done]. intros E3.
  destruct (child_upper _ _ _ _ _ _ Hw (pw_root _ _ Hw) (pml4_bound _) E1) as [_ H1].
  destruct (child_upper _ _ _ _ _ _ Hw H1 (pdpt_bound _) E2) as [_ H2].
  destruct (child_upper _ _ _ _ _ _ Hw H2 (pd_bound _) E3) as [_ H3].
  by exists pdpt, pd.
Qed.

(** Two addresses with the same page table and the same entry are on the same page. *)
Lemma lookup_pt_unique T s v v' pt :
  pt_wf T s -> lookup_pt s v = Some pt -> lookup_pt s v' = Some pt ->
  PT_INDEX v = PT_INDEX v' -> vpage v = vpage v'.
Proof.
  intros Hw H H' E.
  destruct (lookup_pt_inv _ _ _ _ Hw H) as (p3 & p2 & Hp3 & Hp2 & Hp1 & E3 & E2 & E1).
  destruct (lookup_pt_inv _ _ _ _ Hw H') as (q3 & q2 & Hq3 & Hq2 & Hq1 & F3 & F2 & F1).
  destruct (pw_unique _ _ Hw _ _ _ _ _ _ _ Hp2 Hq2 (pd_bound _) (pd_bound _) E1 F1) as [-> G1].
  destruct (pw_unique _ _ Hw _ _ _ _ _ _ _ Hp3 Hq3 (pdpt_bound _) (pdpt_bound _) E2 F2) as [-> G2].
  pose proof (pw_root _ _ Hw) as Hr.
  destruct (pw_unique _ _ Hw _ _ _ _ _ _ _ Hr Hr (pml4_bound _) (pml4_bound _) E3 F3) as [_ G3].
  rewrite !vpage_indices. congruence.
Qed.

Lemma lookup_pt_same s v v' : vpage v = vpage v' -> lookup_pt s v = lookup_pt s v'.
Proof. intros (E1 & E2 & E3 & _)%vpage_same. unfold lookup_pt. by rewrite E1, E2, E3. Qed.

(** ** Extension is a preorder *)

Lemma ext_refl T s : ext T s T s.
Proof. split; auto. intros. congruence. Qed.

Lemma ext_pt T s T' s' v pt :
  pt_wf T s -> ext T s T' s' -> lookup_pt s v = Some pt -> lookup_pt s' v = Some pt.
Proof.
  intros Hw Hx H. destruct (lookup_pt_inv _ _ _ _ Hw H) as (p3 & p2 & Hp3 & Hp2 & Hp1 & E3 & E2 & E1).
  unfold lookup_pt. rewrite (ex_root _ _ _ _ Hx).
  rewrite (ex_child _ _ _ _ Hx _ _ _ _ (pw_root _ _ Hw) (pml4_bound _) E3). simpl.
  rewrite (ex_child _ _ _ _ Hx _ _ _ _ Hp3 (pdpt_bound _) E2). simpl.
  apply (ex_child _ _ _ _ Hx _ _ _ _ Hp2 (pd_bound _) E1).
Qed.

Lemma ext_range T s T' s' q : ext T s T' s' -> in_range (pg_pmm s') q <-> in_range (pg_pmm s) q.
Proof. intros Hx. unfold in_range. by destruct (ex_range _ _ _ _ Hx) as [-> ->]. Qed.

Lemma in_range_pos s q : pmm_wf s -> in_range s q -> 0 <= q.
Proof. intros Hw Hr. pose proof (in_range_page s q Hw Hr). lia. Qed.

Lemma ext_free T s T' s' q : pmm_wf (pg_pmm s) -> ext T s T' s' -> free_page s' q -> free_page s q.
Proof.
  intros Hw Hx [Hr Hu]. apply (ext_range _ _ _ _ q Hx) in Hr as Hr'. split; [done|].
  destruct (page_used (pg_pmm s) q) eqn:E; [|done].
  rewrite (ex_used _ _ _ _ Hx q) in Hu; [done| |done]. by eapply in_range_pos.
Qed.

Lemma ext_trans T1 s1 T2 s2 T3 s3 :
  pt_wf T1 s1 -> ext T1 s1 T2 s2 -> ext T2 s2 T3 s3 -> ext T1 s1 T3 s3.
Proof.
  intros Hw H12 H23. pose proof (pw_pmm _ _ Hw) as Hp. split.
  - etrans; eapply ex_tables; eauto.
  - rewrite (ex_root _ _ _ _ H23). apply H12.
  - destruct (ex_cr _ _ _ _ H23) as [-> ->]. apply H12.
  - destruct (ex_range _ _ _ _ H23) as [-> ->]. apply H12.
  - intros q Hq Hu. eapply ex_used; eauto. eapply ex_used; eauto.
  - intros t l Hl Hn. destruct (T2 !! t) as [l2|] eqn:E2.
    + eapply (ex_new _ _ _ _ H12); eauto.
    + eapply ext_free; eauto. eapply (ex_new _ _ _ _ H23); eauto.
  - intros t l i c Ht Hi Hc. eapply (ex_child _ _ _ _ H23); [|done|].
    + eapply lookup_weaken; [exact Ht|apply H12].
    + eapply (ex_child _ _ _ _ H12); eauto.
  - intros v pt Hv Hq. rewrite (ex_leaf _ _ _ _ H23 v pt).
    + eapply (ex_leaf _ _ _ _ H12); [done|]. intros q Hf Hu. apply Hq; [done|].
      eapply ex_used; eauto. eapply in_range_pos; [|apply Hf]. done.
    + by eapply ext_pt.
    + intros q Hf Hu. apply Hq; [|done]. by eapply ext_free.
Qed.

Lemma ext_trans_l T1 s1 T2 s2 T3 s3 :
  pt_wf T1 s1 -> ext T2 s2 T3 s3 -> ext T1 s1 T2 s2 -> ext T1 s1 T3 s3.
Proof. eauto using ext_trans. Qed.

Lemma ext_count T s T' s' :
  pt_wf T s -> ext T s T' s' -> (free_count (pg_pmm s') <= free_count (pg_pmm s))%nat.
Proof.
  intros Hw Hx. unfold free_count. destruct (ex_range _ _ _ _ Hx) as [-> ->].
  apply filter_length_mono. intros q Hq Hu.
  apply elem_of_seqZ in Hq. eapply (ext_free _ _ _ _ q (pw_pmm _ _ Hw) Hx). split; [|done].
  eapply ext_range; [done|]. unfold in_range. lia.
Qed.

Lemma marked_count p t q d :
  in_range p q -> page_used p q = false -> pmm_wf p -> marked p t q true d ->
  (free_count t < free_count p)%nat.
Proof.
  intros Hr Hu Hw Hm. unfold free_count. rewrite (mk_start _ _ _ _ _ Hm), (mk_end _ _ _ _ _ Hm).
  pose proof (in_range_pos _ _ Hw Hr) as Hq.
  apply (filter_length_lt _ _ _ q); [|apply elem_of_seqZ; unfold in_range in Hr; lia|done|].
  - intros r Hr'%elem_of_seqZ. pose proof (wf_start _ Hw).
    assert (0 <= mem_start p / 4096) by (apply Z.div_pos; lia).
    rewrite (mk_used _ _ _ _ _ Hm) by lia. by case_decide.
  - rewrite (mk_used _ _ _ _ _ Hm) by done. by rewrite decide_True.
Qed.

(** ** Steps that keep the tables *)

Lemma wr_ret t i v s : wr t i v s = Ret tt (with_mem (<[slot t i := v]> (pg_mem s)) s).
Proof. done. Qed.

Lemma rd_ret t i e s : pg_mem s !! slot t i = Some e -> rd t i s = Ret e s.
Proof. intros E. unfold rd. by rewrite bind_get, E. Qed.

(** A table filled by a loop. *)
Lemma wr_range t (f : Z -> Z) s :
  exists m', for_range 0 512 (λ i, wr t i (f i)) s = Ret tt (with_mem m' s) /\
    (forall i, 0 <= i < 512 -> m' !! slot t i = Some (f i)) /\
    (forall a, (forall i, 0 <= i < 512 -> a <> slot t i) -> m' !! a = pg_mem s !! a).
Proof.
  destruct (for_range_ind (λ k u, exists m', u = with_mem m' s /\
      (forall i, 0 <= i < k -> m' !! slot t i = Some (f i)) /\
      (forall a, (forall i, 0 <= i < k -> a <> slot t i) -> m' !! a = pg_mem s !! a))
    (λ i, wr t i (f i)) 0 512 s) as (s' & E & m' & -> & H1 & H2).
  - lia.
  - exists (pg_mem s). split; [by destruct s|]. split; [lia|done].
  - intros k u Hk (m' & -> & H1 & H2). eexists. split; [done|].
    exists (<[slot t k := f k]> m'). split; [done|]. split.
    + intros i Hi. destruct (decide (i = k)) as [->|]; [apply lookup_insert_eq|].
      rewrite lookup_insert_ne by (unfold slot; lia). apply H1. lia.
    + intros a Ha. rewrite lookup_insert_ne by (symmetry; apply Ha; lia).
      apply H2. intros i Hi. apply Ha. lia.
  - eauto.
Qed.

(** Memory changes that keep the entries of the upper tables. *)
Lemma wf_mem T s m' :
  pt_wf T s ->
  (forall t l i, T !! t = Some l -> 0 <= i < 512 -> is_Some (m' !! slot t i)) ->
  (forall t l i, T !! t = Some (S (S l)) -> 0 <= i < 512 -> m' !! slot t i = pg_mem s !! slot t i) ->
  pt_wf T (with_mem m' s).
Proof.
  intros [] Hw Hu.
  assert (forall t l i, T !! t = Some (S (S l)) -> 0 <= i < 512 -> child m' t i = child (pg_mem s) t i) as Hc.
  { intros t l i Ht Hi. unfold child. by rewrite (Hu t l i Ht Hi). }
  split; simpl; try done.
  - intros t l i e Ht Hi. rewrite (Hu t l i Ht Hi). by apply (pw_upper0 t l i e).
  - intros t t' l l' i i' c Ht Ht' Hi Hi'.
    rewrite (Hc t l i), (Hc t' l' i') by done. by apply (pw_unique0 t t' l l').
Qed.

Lemma wf_leaf T s pt i e :
  pt_wf T s -> T !! pt = Some 1%nat -> 0 <= i < 512 ->
  pt_wf T (with_mem (<[slot pt i := e]> (pg_mem s)) s).
Proof.
  intros Hw Hpt Hi. apply wf_mem; [done| |].
  - intros t l j Ht Hj. apply lookup_insert_is_Some'. right. by eapply pw_words.
  - intros t l j Ht Hj. apply lookup_insert_ne. intros E.
    destruct (slot_bound_inj _ _ _ _ _ _ _ _ Hw Hpt Ht Hi Hj E) as [-> _]. congruence.
Qed.

Lemma wf_log T s l : pt_wf T s -> pt_wf T (mkPaging (pg_pmm s) (pg_mem s) (pml4_root s) (cr3 s) (cr4 s) l).
Proof. by intros []. Qed.

Lemma ext_log T s T' s' l :
  ext T s T' s' -> ext T s T' (mkPaging (pg_pmm s') (pg_mem s') (pml4_root s') (cr3 s') (cr4 s') l).
Proof. by intros []. Qed.

(** Writing memory outside the tables of [T]. *)
Lemma ext_mem T s T' s' m' :
  pt_wf T s -> ext T s T' s' ->
  (forall t l i, T !! t = Some l -> 0 <= i < 512 -> m' !! slot t i = pg_mem s' !! slot t i) ->
  ext T s T' (with_mem m' s').
Proof.
  intros Hw [] H. split; simpl; try done.
  - intros t l i c Ht Hi Hc. unfold child. rewrite (H t (S (S l)) i) by done. by apply (ex_child0 t l i).
  - intros v pt Hv Hq. destruct (lookup_pt_inv _ _ _ _ Hw Hv) as (p3 & p2 & _ & _ & Hp1 & _).
    rewrite (H pt 1%nat) by (done || apply pt_bound). by apply ex_leaf0.
Qed.

(** Writing the entry of the identity page of a page taken since [s]. *)
Lemma ext_identity T s T' s' q pt e :
  pt_wf T s -> pt_wf T' s' -> ext T s T' s' -> lookup_pt s' (q * 4096) = Some pt ->
  free_page s q -> page_used (pg_pmm s') q = true ->
  ext T s T' (with_mem (<[slot pt (PT_INDEX (q * 4096)) := e]> (pg_mem s')) s').
Proof.
  intros Hw Hw' Hx Hpt Hf Hu.
  destruct (lookup_pt_inv _ _ _ _ Hw' Hpt) as (p3 & p2 & _ & _ & Hp1 & _).
  destruct Hx as []. split; simpl; try done.
  - intros t l i c Ht Hi Hc. unfold child. rewrite lookup_insert_ne; [by apply (ex_child0 t l i)|].
    intros E. assert (T' !! t = Some (S (S l))) as Ht' by (by eapply lookup_weaken).
    destruct (slot_bound_inj _ _ _ _ _ _ _ _ Hw' Hp1 Ht' (pt_bound _) Hi E) as [-> _]. congruence.
  - intros v pt' Hv Hq. rewrite lookup_insert_ne; [by apply ex_leaf0|]. intros E.
    assert (lookup_pt s' v = Some pt') as Hv' by (eapply ext_pt; [exact Hw|by split|done]).
    destruct (lookup_pt_inv _ _ _ _ Hw' Hv') as (? & ? & _ & _ & Hp1' & _).
    destruct (slot_bound_inj _ _ _ _ _ _ _ _ Hw' Hp1 Hp1' (pt_bound _) (pt_bound _) E) as [-> Ei].
    apply (Hq q Hf Hu). by eapply lookup_pt_unique.
Qed.

(** Taking a page from the allocator. *)
Lemma ext_take T s p q d :
  pt_wf T s -> in_range (pg_pmm s) q -> pmm_wf p -> marked (pg_pmm s) p q true d ->
  pt_wf T (with_pmm p s) /\ ext T s T (with_pmm p s).
Proof.
  intros Hw Hr Hp Hm. pose proof (in_range_pos _ _ (pw_pmm _ _ Hw) Hr) as Hq.
  assert (forall r, free_page (with_pmm p s) r -> free_page s r) as Hf.
  { intros r [Hr' Hu]. apply (marked_in_range _ _ _ _ _ r Hm) in Hr'. split; [done|].
    simpl in Hu. rewrite (mk_used _ _ _ _ _ Hm) in Hu; [by case_decide|].
    exact (in_range_pos _ _ (pw_pmm _ _ Hw) Hr'). }
  split.
  - destruct Hw. split; simpl; try done. intros t l Ht Hfr. by eapply pw_kept0, Hf.
  - split; simpl; try done.
    + by rewrite (mk_start _ _ _ _ _ Hm), (mk_end _ _ _ _ _ Hm).
    + intros r Hr' Hu. rewrite (mk_used _ _ _ _ _ Hm) by done. by case_decide.
    + intros. congruence.
Qed.

(** ** The recursion *)

Definition walk_post T s v (pt : Z) (s' : paging) : Prop :=
  exists T', ext T s T' s' /\ pt_wf T' s' /\ lookup_pt s' v = Some pt.

Definition walk_spec (n : nat) (w : Z -> bool -> M paging Z) : Prop := forall T s v,
  pt_wf T s -> ok (n <= free_count (pg_pmm s))%nat (w v true s) (walk_post T s v).

(** A fresh table: taken from the free pages, zeroed, not yet linked. *)
Record fresh_table (T : gmap Z nat) (s : paging) (t : Z) (T' : gmap Z nat) (s' : paging) : Prop := {
  fr_ext : ext T s T' s';
  fr_wf : pt_wf T' s';
  fr_new : T' !! t = None;
  fr_aligned : aligned t;
  fr_free : free_page s (t / 4096);
  fr_used : page_used (pg_pmm s') (t / 4096) = true;
  fr_zero : forall i, 0 <= i < 512 -> pg_mem s' !! slot t i = Some 0
}.

Lemma page_aligned s q : pmm_wf s -> in_range s q -> aligned (q * 4096) /\ q * 4096 <> 0.
Proof.
  intros Hw Hr. pose proof (in_range_page s q Hw Hr) as Hq. unfold MAX_PHYS_PAGES in Hq.
  split; [split; [lia|apply Z.mod_mul; lia]|lia].
Qed.

(** [map_page] leaves the walk's state with one leaf written and one page flushed. *)
Lemma map_page_run w v p fl s T :
  pt_wf T s -> forall N, ok N (w v true s) (walk_post T s v) ->
  ok N (map_page_with w v p fl s) (λ r s', r = v /\ exists T' s1 pt,
    ext T s T' s1 /\ pt_wf T' s1 /\ lookup_pt s1 v = Some pt /\ T' !! pt = Some 1%nat /\
    s' = mkPaging (pg_pmm s1)
           (<[slot pt (PT_INDEX v) :=
              Z.lor (Z.lor (Z.lor (page_mask p) fl) PAGE_PRESENT) PAGE_WRITE]> (pg_mem s1))
           (pml4_root s1) (cr3 s1) (cr4 s1) (v :: invlpg_log s1)).
Proof.
  intros Hw N Hok. unfold map_page_with. eapply ok_bind; [exact Hok|].
  intros pt s1 (T' & Hx & Hw' & Hpt).
  destruct (lookup_pt_inv _ _ _ _ Hw' Hpt) as (p3 & p2 & _ & _ & Hp1 & _).
  destruct (pw_table _ _ Hw' _ _ Hp1) as [[Hb _] _].
  destruct (Z.eqb_spec pt 0) as [|_]; [lia|].
  simpl. split; [done|]. by exists T', s1, pt.
Qed.

Lemma table_alloc_ok n w T s :
  walk_spec n w -> pt_wf T s ->
  ok (S n <= free_count (pg_pmm s))%nat (table_alloc_with (map_page_with w) s)
    (λ t s', exists T', fresh_table T s t T' s').
Proof.
  intros Hspec Hw. unfold table_alloc_with.
  destruct (pmm_alloc_page_cases _ (pw_pmm _ _ Hw)) as [(q & p & Hr & Hu & _ & E & Hp & Hm)|[_ E]];
    unfold bind at 1, zoom; rewrite E; [|by destruct s].
  destruct (page_aligned _ _ (pw_pmm _ _ Hw) Hr) as [Ha Hnz].
  destruct (Z.eqb_spec (q * 4096) 0) as [|_]; [lia|].
  destruct (ext_take T s p q _ Hw Hr Hp Hm) as [Hw1 Hx1].
  pose proof (marked_count _ _ _ _ Hr Hu (pw_pmm _ _ Hw) Hm) as Hcount.
  assert (0 <= q) as Hq by (by eapply in_range_pos; [|exact Hr]; apply Hw).
  assert (free_page s q) as Hf by done.
  eapply ok_bind.
  { eapply (map_page_run w _ _ _ _ T); [exact Hw1|].
    eapply ok_mono; [apply (Hspec T _ (q * 4096) Hw1)|simpl; lia|done]. }
  intros r s' (-> & T' & s2 & pt & Hx2 & Hw2 & Hpt & Hp1 & ->).
  assert (page_used (pg_pmm s2) q = true) as Hu2.
  { apply (ex_used _ _ _ _ Hx2); [done|]. simpl. rewrite (mk_used _ _ _ _ _ Hm) by done. by rewrite decide_True. }
  assert (ext T s T' s2) as Hx02 by (by eapply ext_trans).
  assert (T' !! (q * 4096) = None) as Hnew.
  { destruct (T' !! (q * 4096)) as [l|] eqn:El; [|done]. exfalso.
    destruct (T !! (q * 4096)) as [l'|] eqn:El'.
    - apply (pw_kept _ _ Hw _ _ El'). by rewrite Z.div_mul by lia.
    - destruct (ex_new _ _ _ _ Hx2 _ _ El El') as [_ Hb]. rewrite Z.div_mul in Hb by lia. simpl in Hb.
      rewrite (mk_used _ _ _ _ _ Hm) in Hb by done. by rewrite decide_True in Hb. }
  set (s3 := mkPaging _ _ _ _ _ _).
  assert (pt_wf T' s3) as Hw3 
    by exact (wf_log T' (with_mem _ s2) _ (wf_leaf T' s2 pt _ _ Hw2 Hp1 (pt_bound _))).
  assert (ext T s T' s3) as Hx3 
    by exact (ext_log T s T' (with_mem _ s2) _ (ext_identity T s T' s2 q pt _ Hw Hw2 Hx02 Hpt Hf Hu2)).
  destruct (wr_range (q * 4096) (λ _, 0) s3) as (m' & Ez & Hz & Hkeep).
  rewrite (bind_Ret _ _ _ _ _ Ez). simpl. exists T'.
  assert (forall t l i, T' !! t = Some l -> 0 <= i < 512 -> m' !! slot t i = pg_mem s3 !! slot t i) as Hk.
  { intros t l i Ht Hi. apply Hkeep. intros j Hj Es.
    destruct (slot_inj _ _ _ _ (proj1 (pw_table _ _ Hw2 _ _ Ht)) Ha Hi Hj Es) as [-> _]. congruence. }
  split; [| |exact Hnew|exact Ha|..|exact Hz]; rewrite ?Z.div_mul by lia; [| |exact Hf|exact Hu2].
  - apply ext_mem; [done..|]. intros t l i Ht Hi. apply (Hk t l i); [|done].
    eapply lookup_weaken; [exact Ht|apply Hx3].
  - apply wf_mem; [done| |].
    + intros t l i Ht Hi. rewrite (Hk t l i) by done. by eapply pw_words.
    + intros t l i Ht Hi. by apply (Hk t (S (S l)) i).
Qed.

(** One level of the walk. *)
Definition next_post T s t i l (o : option Z) (s' : paging) : Prop :=
  exists T' c, o = Some c /\ ext T s T' s' /\ pt_wf T' s' /\ T' !! c = Some l /\
    child (pg_mem s') t i = Some c.

(** Linking the fresh table [c] at entry [i] of the table [t]. *)
Section link.
Context (T T' : gmap Z nat) (s s' : paging) (t i c : Z) (l : nat).
Hypothesis Hw : pt_wf T s.
Hypothesis Ht : T !! t = Some (S (S l)).
Hypothesis Hi : 0 <= i < 512.
Hypothesis Hl : (l <= 2)%nat.
Hypothesis Hnone : child (pg_mem s) t i = None.
Hypothesis Hfresh : fresh_table T s c T' s'.
Let u := with_mem (<[slot t i := c + 3]> (pg_mem s')) s'.

Lemma link_parent : T' !! t = Some (S (S l)).
Proof. eapply lookup_weaken; [exact Ht|apply (ex_tables _ _ _ _ (fr_ext _ _ _ _ _ Hfresh))]. Qed.

Lemma link_other t' l' j :
  T' !! t' = Some l' -> 0 <= j < 512 -> (t', j) <> (t, i) ->
  pg_mem u !! slot t' j = pg_mem s' !! slot t' j.
Proof.
  intros Hl' Hj Hne. simpl. apply lookup_insert_ne. intros E.
  destruct (slot_bound_inj _ _ _ _ _ _ _ _ (fr_wf _ _ _ _ _ Hfresh) link_parent Hl' Hi Hj E) as [Et Ei].
  congruence.
Qed.

Lemma link_zero j : 0 <= j < 512 -> pg_mem u !! slot c j = Some 0.
Proof.
  intros Hj. simpl. rewrite lookup_insert_ne; [by apply (fr_zero _ _ _ _ _ Hfresh)|]. intros E.
  destruct (pw_table _ _ (fr_wf _ _ _ _ _ Hfresh) _ _ link_parent) as [Hat _].
  destruct (slot_inj _ _ _ _ Hat (fr_aligned _ _ _ _ _ Hfresh) Hi Hj E) as [Etc _].
  pose proof (fr_new _ _ _ _ _ Hfresh) as Hnew. rewrite <- Etc, link_parent in Hnew. done.
Qed.

Lemma link_entry : pg_mem u !! slot t i = Some (c + 3).
Proof. apply lookup_insert_eq. Qed.

Lemma link_ext : ext T s (<[c := S l]> T') u.
Proof.
  pose proof (fr_ext _ _ _ _ _ Hfresh) as Hx. destruct (id Hx) as []. split; simpl; try done.
  - etrans; [done|]. apply insert_subseteq, (fr_new _ _ _ _ _ Hfresh).
  - intros t' l' Hl' Hn. destruct (decide (t' = c)) as [->|]; [apply (fr_free _ _ _ _ _ Hfresh)|].
    rewrite lookup_insert_ne in Hl' by done. eauto.
  - intros t' l' j d Hl' Hj Hd. destruct (decide ((t', j) = (t, i))) as [[= -> ->]|Hne]; [congruence|].
    assert (T' !! t' = Some (S (S l'))) as Hl'' by (by eapply lookup_weaken).
    pose proof (link_other t' _ j Hl'' Hj Hne) as Ho. simpl in Ho.
    unfold child. rewrite Ho. by apply (ex_child0 t' l').
  - intros v pt Hv Hq. destruct (lookup_pt_inv _ _ _ _ Hw Hv) as (p3 & p2 & _ & _ & Hp1 & _).
    assert (T' !! pt = Some 1%nat) as Hp1' by (by eapply lookup_weaken).
    pose proof (link_other pt _ (PT_INDEX v) Hp1' (pt_bound _) ltac:(naive_solver congruence)) as Ho.
    simpl in Ho. rewrite Ho. by apply ex_leaf0.
Qed.

(** Every child of the new state other than the new link was there before. *)
Lemma link_back t' l' j d :
  (<[c := S l]> T') !! t' = Some (S (S l')) -> 0 <= j < 512 ->
  child (pg_mem u) t' j = Some d -> (t', j) <> (t, i) ->
  T' !! t' = Some (S (S l')) /\ child (pg_mem s') t' j = Some d.
Proof.
  intros Hl' Hj Hd Hne. destruct (decide (t' = c)) as [->|].
  - unfold child in Hd. by rewrite link_zero in Hd.
  - rewrite lookup_insert_ne in Hl' by done. split; [done|].
    unfold child in Hd. by rewrite (link_other t' _ j Hl' Hj Hne) in Hd.
Qed.

Lemma link_only t' l' j :
  (<[c := S l]> T') !! t' = Some (S (S l')) -> 0 <= j < 512 ->
  child (pg_mem u) t' j = Some c -> (t', j) = (t, i).
Proof.
  intros Hl' Hj Hd. destruct (decide ((t', j) = (t, i))); [done|].
  destruct (link_back t' l' j c Hl' Hj Hd) as [Hl'' Hd']; [done|].
  destruct (child_upper _ _ _ _ _ _ (fr_wf _ _ _ _ _ Hfresh) Hl'' Hj Hd') as [_ Hc].
  by rewrite (fr_new _ _ _ _ _ Hfresh) in Hc.
Qed.

Lemma link_upper t' l' j e :
  (<[c := S l]> T') !! t' = Some (S (S l')) -> 0 <= j < 512 ->
  pg_mem u !! slot t' j = Some e -> present e = true ->
  exists d, e = d + 3 /\ (<[c := S l]> T') !! d = Some (S l').
Proof.
  intros Hl' Hj He Hp. pose proof (fr_new _ _ _ _ _ Hfresh) as Hnew.
  destruct (decide (t' = c)) as [->|].
  { rewrite link_zero in He by done. by injection He as <-. }
  rewrite lookup_insert_ne in Hl' by done.
  destruct (decide ((t', j) = (t, i))) as [[= -> ->]|Hne].
  - rewrite link_entry in He. injection He as <-. exists c. split; [done|].
    rewrite lookup_insert_eq. rewrite link_parent in Hl'. congruence.
  - rewrite (link_other _ _ _ Hl' Hj Hne) in He.
    destruct (pw_upper _ _ (fr_wf _ _ _ _ _ Hfresh) _ _ _ _ Hl' Hj He Hp) as (d & -> & Hd).
    exists d. split; [done|]. rewrite lookup_insert_ne; [done|]. congruence.
Qed.

Lemma link_wf : pt_wf (<[c := S l]> T') u.
Proof.
  pose proof (fr_wf _ _ _ _ _ Hfresh) as Hw'. pose proof (fr_new _ _ _ _ _ Hfresh) as Hnew. split.
  - apply Hw'.
  - simpl. rewrite lookup_insert_ne; [apply Hw'|]. intros ->. by rewrite (pw_root _ _ Hw') in Hnew.
  - intros t' l' Hl'. destruct (decide (t' = c)) as [->|].
    + rewrite lookup_insert_eq in Hl'. injection Hl' as <-. split; [apply (fr_aligned _ _ _ _ _ Hfresh)|lia].
    + rewrite lookup_insert_ne in Hl' by done. by eapply pw_table.
  - intros t' l' j Hl' Hj. destruct (decide (t' = c)) as [->|]; [rewrite link_zero; [by eexists|done]|].
    rewrite lookup_insert_ne in Hl' by done.
    destruct (decide ((t', j) = (t, i))) as [[= -> ->]|Hne]; [rewrite link_entry; by eexists|].
    rewrite (link_other _ _ _ Hl' Hj Hne). by eapply pw_words.
  - intros t' l' Hl' Hf. destruct (decide (t' = c)) as [->|].
    + destruct Hf as [_ Hf]. pose proof (fr_used _ _ _ _ _ Hfresh). simpl in Hf. congruence.
    + rewrite lookup_insert_ne in Hl' by done. by eapply pw_kept.
  - apply link_upper.
  - intros t1 t2 l1 l2 i1 i2 d H1 H2 Hi1 Hi2 Hd1 Hd2. destruct (decide (d = c)) as [->|Hdc].
    + pose proof (link_only _ _ _ H1 Hi1 Hd1). pose proof (link_only _ _ _ H2 Hi2 Hd2). split; congruence.
    + assert (child (pg_mem u) t i = Some c) as Hti
        by (apply child_entry; [apply link_entry|apply (fr_aligned _ _ _ _ _ Hfresh)]).
      destruct (link_back _ _ _ _ H1 Hi1 Hd1) as [H1' Hd1']; [congruence|].
      destruct (link_back _ _ _ _ H2 Hi2 Hd2) as [H2' Hd2']; [congruence|].
      by eapply (pw_unique _ _ Hw').
Qed.
End link.

Lemma next_table_ok n alloc T s t i l :
  (forall T s, pt_wf T s -> ok (S n <= free_count (pg_pmm s))%nat (alloc s)
     (λ t s', exists T', fresh_table T s t T' s')) ->
  pt_wf T s -> T !! t = Some (S (S l)) -> (l <= 2)%nat -> 0 <= i < 512 ->
  ok (S n <= free_count (pg_pmm s))%nat (next_table alloc true t i s) (next_post T s t i (S l)).
Proof.
  intros Halloc Hw Ht Hl Hi. destruct (pw_words _ _ Hw _ _ i Ht Hi) as [e He].
  unfold next_table. rewrite (bind_Ret _ _ _ _ _ (rd_ret _ _ _ _ He)).
  destruct (present e) eqn:Ep; simpl.
  - destruct (pw_upper _ _ Hw _ _ _ _ Ht Hi He Ep) as (c & -> & Hc).
    destruct (pw_table _ _ Hw _ _ Hc) as [Ha _]. destruct (entry_facts c Ha) as (_ & _ & E).
    exists T, c. rewrite E. split_and!; [done|apply ext_refl|done|done|by apply child_entry].
  - assert (child (pg_mem s) t i = None) as Hnone by (unfold child; rewrite He; simpl; by rewrite Ep).
    eapply ok_bind; [apply (Halloc T s Hw)|]. intros c s' (T' & Hf).
    rewrite (entry_eq c) by apply Hf. rewrite (bind_Ret _ _ _ _ _ (wr_ret _ _ _ _)). simpl.
    exists (<[c := S l]> T'), c. split_and!; 
      [done|by apply link_ext|by apply (link_wf T T' s)|apply lookup_insert_eq|].
    apply child_entry; [apply lookup_insert_eq|apply Hf].
Qed.

(** The last level of the walk is one more level when no entry is a 2 MiB page. *)
Lemma next_pt_eq alloc create T s pd i :
  pt_wf T s -> T !! pd = Some 2%nat -> 0 <= i < 512 ->
  next_pt alloc create pd i s = bind (next_table alloc create pd i) (λ o, ret (default 0 o)) s.
Proof.
  intros Hw Ht Hi. destruct (pw_words _ _ Hw _ _ i Ht Hi) as [e He].
  unfold next_pt, next_table. rewrite bind_assoc.
  rewrite !(bind_Ret _ _ _ _ _ (rd_ret _ _ _ _ He)).
  destruct (present e) eqn:Ep; simpl.
  - destruct (pw_upper _ _ Hw _ _ _ _ Ht Hi He Ep) as (c & -> & Hc).
    destruct (pw_table _ _ Hw _ _ Hc) as [Ha _]. by destruct (entry_facts c Ha) as (_ & -> & _).
  - destruct create; simpl; [|done]. rewrite bind_assoc. unfold bind. by destruct (alloc s).
Qed.

Lemma walk_ok n : walk_spec n (walk n).
Proof.
  induction n as [|n IH]; intros T s v Hw; simpl; [lia|].
  pose proof (λ T s, table_alloc_ok n _ T s IH) as Halloc.
  unfold walk_with. rewrite bind_get.
  assert (forall T' s', ext T s T' s' -> pt_wf T' s' ->
    (S n <= free_count (pg_pmm s') -> S n <= free_count (pg_pmm s))%nat) as Hc.
  { intros T' s' Hx _. pose proof (ext_count _ _ _ _ Hw Hx). lia. }
  eapply ok_bind; [apply (next_table_ok n _ T s (pml4_root s) _ 2); eauto using pw_root, pml4_bound|].
  intros o1 s1 (T1 & c1 & -> & Hx1 & Hw1 & Hc1 & E1).
  eapply ok_bind.
  { eapply ok_mono; [apply (next_table_ok n _ T1 s1 c1 (PDPT_INDEX v) 1); eauto using pdpt_bound|eauto|].
    intros a s' Hp. exact Hp. }
  intros o2 s2 (T2 & c2 & -> & Hx2 & Hw2 & Hc2 & E2).
  rewrite (next_pt_eq _ _ T2 s2 c2 _ Hw2 Hc2 (pd_bound _)).
  eapply ok_bind.
  { eapply ok_mono; [apply (next_table_ok n _ T2 s2 c2 (PD_INDEX v) 0); eauto using pd_bound| |].
    - eauto using ext_trans.
    - intros a s' Hp. exact Hp. }
  intros o3 s3 (T3 & c3 & -> & Hx3 & Hw3 & Hc3 & E3). simpl.
  exists T3. split; [eauto using ext_trans|]. split; [done|].
  unfold lookup_pt. rewrite (ex_root _ _ _ _ Hx3), (ex_root _ _ _ _ Hx2), (ex_root _ _ _ _ Hx1).
  assert (ext T1 s1 T3 s3) as Hx13 by eauto using ext_trans.
  rewrite (ex_child _ _ _ _ Hx13 _ 2%nat _ c1); [|by eapply lookup_weaken; [apply Hw|apply Hx1]|apply pml4_bound|done].
  simpl. rewrite (ex_child _ _ _ _ Hx3 _ 1%nat _ c2); [done| |apply pdpt_bound|done].
  by eapply lookup_weaken; [|apply Hx2].
Qed.

(** ** Reading the tables *)

Lemma next_table_ro alloc T s t i l :
  pt_wf T s -> T !! t = Some (S (S l)) -> 0 <= i < 512 ->
  next_table alloc false t i s = Ret (child (pg_mem s) t i) s.
Proof.
  intros Hw Ht Hi. destruct (pw_words _ _ Hw _ _ i Ht Hi) as [e He].
  unfold next_table, child. rewrite (bind_Ret _ _ _ _ _ (rd_ret _ _ _ _ He)), He. simpl.
  by destruct (present e).
Qed.

Lemma walk_lookup n T s v :
  pt_wf T s -> walk (S n) v false s = Ret (default 0 (lookup_pt s v)) s.
Proof.
  intros Hw. simpl. unfold walk_with, lookup_pt. rewrite bind_get.
  rewrite (bind_Ret _ _ _ _ _ (next_table_ro _ T s _ _ 2 Hw (pw_root _ _ Hw) (pml4_bound _))).
  destruct (child _ (pml4_root s) _) as [c1|] eqn:E1; simpl; [|done].
  destruct (child_upper _ _ _ _ _ _ Hw (pw_root _ _ Hw) (pml4_bound _) E1) as [_ H1].
  rewrite (bind_Ret _ _ _ _ _ (next_table_ro _ T s c1 _ 1 Hw H1 (pdpt_bound _))).
  destruct (child _ c1 _) as [c2|] eqn:E2; simpl; [|done].
  destruct (child_upper _ _ _ _ _ _ Hw H1 (pdpt_bound _) E2) as [_ H2].
  rewrite (next_pt_eq _ _ T s c2 _ Hw H2 (pd_bound _)).
  by rewrite (bind_Ret _ _ _ _ _ (next_table_ro _ T s c2 _ 0 Hw H2 (pd_bound _))).
Qed.

Lemma page_mask_bound e : 0 <= page_mask e <= 2 ^ 64 - 4096.
Proof.
  assert (page_mask e = page_mask (u64 e)) as ->.
  { unfold page_mask. apply Z.bits_inj'. intros i Hi. rewrite !Z.land_spec, !testbit_wrap by lia.
    destruct (Z.ltb_spec i 64); by rewrite ?andb_true_r, ?andb_false_r, ?andb_false_l. }
  pose proof (wrap_bound 64 e) as Hb. rewrite page_mask_eq by lia.
  pose proof (Z.mod_pos_bound (u64 e) 4096). pose proof (Z.mod_le (u64 e) 4096).
  split; [lia|]. rewrite (Z.mod_eq (u64 e) 4096) by lia.
  assert (u64 e / 4096 < 2 ^ 52) by (apply Z.div_lt_upper_bound; lia). lia.
Qed.

Lemma offset_bound v : 0 <= Z.land v 0xFFF < 4096.
Proof. change 0xFFF with (Z.ones 12). rewrite Z.land_ones by lia. apply Z.mod_pos_bound. lia. Qed.

Lemma child_leaf m t i p fl :
  0 <= p < 2 ^ 64 -> 0 <= fl < 4096 ->
  m !! slot t i = Some (Z.lor (Z.lor (Z.lor (page_mask p) fl) PAGE_PRESENT) PAGE_WRITE) ->
  child m t i = Some (page_mask p).
Proof.
  intros Hp Hf E. unfold child. rewrite E. simpl.
  by destruct (leaf_facts p fl Hp Hf) as [-> ->].
Qed.

(** The walk does not look at the leaves. *)
Lemma lookup_pt_leaf T s pt i e l v :
  pt_wf T s -> T !! pt = Some 1%nat -> 0 <= i < 512 ->
  lookup_pt (mkPaging (pg_pmm s) (<[slot pt i := e]> (pg_mem s)) (pml4_root s) (cr3 s) (cr4 s) l) v
    = lookup_pt s v.
Proof.
  intros Hw Hpt Hi.
  assert (forall t k j, T !! t = Some (S (S k)) -> 0 <= j < 512 ->
    child (<[slot pt i := e]> (pg_mem s)) t j = child (pg_mem s) t j) as Hc.
  { intros t k j Ht Hj. unfold child. rewrite lookup_insert_ne; [done|]. intros E.
    destruct (slot_bound_inj _ _ _ _ _ _ _ _ Hw Hpt Ht Hi Hj E) as [-> _]. congruence. }
  unfold lookup_pt. simpl. rewrite (Hc _ 2%nat _ (pw_root _ _ Hw) (pml4_bound _)).
  destruct (child (pg_mem s) (pml4_root s) _) as [c1|] eqn:E1; simpl; [|done].
  destruct (child_upper _ _ _ _ _ _ Hw (pw_root _ _ Hw) (pml4_bound _) E1) as [_ H1].
  rewrite (Hc _ 1%nat _ H1 (pdpt_bound _)).
  destruct (child (pg_mem s) c1 _) as [c2|] eqn:E2; simpl; [|done].
  destruct (child_upper _ _ _ _ _ _ Hw H1 (pdpt_bound _) E2) as [_ H2].
  by rewrite (Hc _ 0%nat _ H2 (pd_bound _)).
Qed.

(** Writing the leaf of [v] changes the translation of the page of [v] only. *)
Lemma translate_leaf T s v pt e l :
  pt_wf T s -> lookup_pt s v = Some pt ->
  let s' := mkPaging (pg_pmm s) (<[slot pt (PT_INDEX v) := e]> (pg_mem s)) (pml4_root s) (cr3 s) (cr4 s) l in
  pt_wf T s' /\ (forall v', vpage v' <> vpage v -> translate s' v' = translate s v') /\
  (forall v', vpage v' = vpage v -> lookup_pt s' v' = Some pt /\ PT_INDEX v' = PT_INDEX v).
Proof.
  intros Hw Hpt s'. destruct (lookup_pt_inv _ _ _ _ Hw Hpt) as (p3 & p2 & _ & _ & Hp1 & _).
  assert (forall v', lookup_pt s' v' = lookup_pt s v') as Hl
    by (intros; by eapply (lookup_pt_leaf T); auto using pt_bound).
  split_and!.
  - exact (wf_log T (with_mem _ s) _ (wf_leaf T s pt _ _ Hw Hp1 (pt_bound _))).
  - intros v' Hne. unfold translate. rewrite Hl.
    destruct (lookup_pt s v') as [pt'|] eqn:Hpt'; simpl; [|done]. unfold child.
    rewrite lookup_insert_ne; [done|]. intros E.
    destruct (lookup_pt_inv _ _ _ _ Hw Hpt') as (? & ? & _ & _ & Hp1' & _).
    destruct (slot_bound_inj _ _ _ _ _ _ _ _ Hw Hp1 Hp1' (pt_bound _) (pt_bound _) E) as [-> Ei].
    apply Hne. by eapply lookup_pt_unique.
  - intros v' Hv. rewrite Hl, (lookup_pt_same _ _ _ Hv). split; [done|]. by apply vpage_same.
Qed.

(** ** When a new table cannot be mapped *)

Definition panics {A} (o : outcome paging A) : Prop := exists s', o = Panic "paging oom" s'.

Lemma panics_bind {A B} (m : M paging A) (k : A -> M paging B) s : panics (m s) -> panics (bind m k s).
Proof. intros [s' E]. exists s'. by apply bind_Panic. Qed.

(** No free page has a page table for its own address. *)
Definition no_home (s : paging) : Prop := forall q, free_page s q -> lookup_pt s (q * 4096) = None.

Lemma next_table_cases alloc T s t i l :
  pt_wf T s -> T !! t = Some (S (S l)) -> 0 <= i < 512 -> panics (alloc s) ->
  (exists c, child (pg_mem s) t i = Some c /\ T !! c = Some (S l) /\
     next_table alloc true t i s = Ret (Some c) s) \/
  panics (next_table alloc true t i s).
Proof.
  intros Hw Ht Hi Hal. destruct (pw_words _ _ Hw _ _ i Ht Hi) as [e He].
  unfold next_table. rewrite (bind_Ret _ _ _ _ _ (rd_ret _ _ _ _ He)).
  destruct (present e) eqn:Ep; simpl; [left|right; by apply panics_bind].
  assert (child (pg_mem s) t i = Some (page_mask e)) as Hc by (unfold child; rewrite He; simpl; by rewrite Ep).
  exists (page_mask e). split_and!; [done| |done]. by eapply child_upper.
Qed.

Lemma walk_oom n T s v :
  pt_wf T s -> (free_count (pg_pmm s) < n)%nat -> lookup_pt s v = None -> no_home s ->
  panics (walk n v true s).
Proof.
  revert s v. induction n as [|n IH]; intros s v Hw Hn Hv Hhome; [lia|].
  assert (panics (table_alloc_with (map_page_with (walk n)) s)) as Hal.
  { unfold table_alloc_with.
    destruct (pmm_alloc_page_cases _ (pw_pmm _ _ Hw)) as [(q & p & Hr & Hu & _ & E & Hp & Hm)|[_ E]];
      unfold bind at 1, zoom; rewrite E; [|by eexists].
    destruct (page_aligned _ _ (pw_pmm _ _ Hw) Hr) as [Ha Hnz].
    destruct (Z.eqb_spec (q * 4096) 0) as [|_]; [lia|].
    destruct (ext_take T s p q _ Hw Hr Hp Hm) as [Hw1 Hx1].
    pose proof (marked_count _ _ _ _ Hr Hu (pw_pmm _ _ Hw) Hm).
    apply panics_bind, panics_bind, IH; [done|simpl; lia|by apply Hhome|].
    intros r Hf. apply Hhome. eapply ext_free; [apply Hw|exact Hx1|done]. }
  simpl. unfold walk_with. rewrite bind_get. unfold lookup_pt in Hv.
  destruct (next_table_cases _ T s _ (PML4_INDEX v) 2 Hw (pw_root _ _ Hw) (pml4_bound _) Hal)
    as [(c1 & E1 & H1 & Hr)|]; [|by apply panics_bind].
  rewrite (bind_Ret _ _ _ _ _ Hr). clear Hr.
  rewrite E1 in Hv. simpl in Hv.
  destruct (next_table_cases _ T s c1 (PDPT_INDEX v) 1 Hw H1 (pdpt_bound _) Hal)
    as [(c2 & E2 & H2 & Hr)|]; [|by apply panics_bind].
  rewrite (bind_Ret _ _ _ _ _ Hr). clear Hr.
  rewrite E2 in Hv. simpl in Hv. rewrite (next_pt_eq _ _ T s c2 _ Hw H2 (pd_bound _)).
  destruct (next_table_cases _ T s c2 (PD_INDEX v) 0 Hw H2 (pd_bound _) Hal)
    as [(c3 & E3 & _)|]; [congruence|by apply panics_bind].
Qed.

(** ** The boot tables *)

Definition boot_tables (pml4 pt pd pdpt : Z) : gmap Z nat :=
  <[pml4 := 4%nat]> (<[pdpt := 3%nat]> (<[pd := 2%nat]> {[ pt := 1%nat ]})).

(** What the linker and the allocator must guarantee: four distinct pages that the
    allocator does not hand out; the statics start zeroed. *)
Record boot_ok (s : paging) (pml4 pt pd pdpt : Z) : Prop := {
  bo_pmm : pmm_wf (pg_pmm s);
  bo_nodup : NoDup [pml4; pdpt; pd; pt];
  bo_tables : Forall (λ t, aligned t /\ ~ free_page s (t / 4096)) [pml4; pdpt; pd; pt];
  bo_zero : forall t i, t ∈ [pd; pdpt] -> 0 <= i < 512 -> pg_mem s !! slot t i = Some 0
}.

Lemma boot_tables_inv pml4 pt pd pdpt t l :
  NoDup [pml4; pdpt; pd; pt] -> boot_tables pml4 pt pd pdpt !! t = Some l ->
  (t = pml4 /\ l = 4%nat) \/ (t = pdpt /\ l = 3%nat) \/ (t = pd /\ l = 2%nat) \/ (t = pt /\ l = 1%nat).
Proof.
  intros _. unfold boot_tables. rewrite !lookup_insert_Some, lookup_singleton_Some. naive_solver.
Qed.

Lemma boot_tables_lookup pml4 pt pd pdpt :
  NoDup [pml4; pdpt; pd; pt] ->
  boot_tables pml4 pt pd pdpt !! pml4 = Some 4%nat /\ boot_tables pml4 pt pd pdpt !! pdpt = Some 3%nat /\
  boot_tables pml4 pt pd pdpt !! pd = Some 2%nat /\ boot_tables pml4 pt pd pdpt !! pt = Some 1%nat.
Proof.
  rewrite !NoDup_cons, !not_elem_of_cons. intros ((? & ? & ? & _) & (? & ? & _) & (? & _) & _).
  unfold boot_tables. split_and!; simplify_map_eq; done.
Qed.

(** The words of the boot tables after [paging_init]: entry 0 of each upper table
    points to the next one, the page table is the identity. *)
Record boot_words (m : gmap Z Z) (pml4 pt pd pdpt : Z) : Prop := {
  bw_pml4 : forall i, 0 <= i < 512 -> m !! slot pml4 i = Some (if decide (i = 0) then pdpt + 3 else 0);
  bw_pdpt : forall i, 0 <= i < 512 -> m !! slot pdpt i = Some (if decide (i = 0) then pd + 3 else 0);
  bw_pd : forall i, 0 <= i < 512 -> m !! slot pd i = Some (if decide (i = 0) then pt + 3 else 0);
  bw_pt : forall i, 0 <= i < 512 -> m !! slot pt i = Some (i * 4096 + 3)
}.

Lemma insert_slot0 (m : gmap Z Z) t x i :
  0 <= i < 512 -> aligned t -> m !! slot t i = Some 0 ->
  <[slot t 0 := x]> m !! slot t i = Some (if decide (i = 0) then x else 0).
Proof.
  intros Hi Ht E. case_decide as Ei; [subst; apply lookup_insert_eq|].
  rewrite lookup_insert_ne by (unfold slot; lia). done.
Qed.

Lemma insert_slot_ne (m : gmap Z Z) t t' x i :
  0 <= i < 512 -> aligned t -> aligned t' -> t <> t' -> <[slot t 0 := x]> m !! slot t' i = m !! slot t' i.
Proof.
  intros Hi Ht Ht' Hne. apply lookup_insert_ne. intros E.
  by destruct (slot_inj t t' 0 i Ht Ht' ltac:(lia) Hi E) as [? _].
Qed.

Lemma paging_init_run s pml4 pt pd pdpt :
  boot_ok s pml4 pt pd pdpt ->
  exists m', paging_init pml4 pt pd pdpt s =
      Ret tt (mkPaging (pg_pmm s) m' pml4 pml4 (Z.lor (cr4 s) (Z.shiftl 1 5)) (invlpg_log s)) /\
    boot_words m' pml4 pt pd pdpt.
Proof.
  intros [_ Hnd Hal Hz]. rewrite !NoDup_cons, !not_elem_of_cons in Hnd.
  destruct Hnd as ((N1 & N2 & N3 & _) & (N4 & N5 & _) & (N6 & _) & _).
  rewrite !Forall_cons in Hal. destruct Hal as ([A1 _] & [A2 _] & [A3 _] & [A4 _] & _).
  unfold paging_init.
  destruct (wr_range pml4 (λ _, 0) s) as (m1 & E1 & F1 & G1). rewrite (bind_Ret _ _ _ _ _ E1), bind_modify.
  set (s1 := with_root _ _).
  destruct (wr_range pt (λ i, Z.lor (Z.lor (i * PAGE_SIZE) PAGE_PRESENT) PAGE_WRITE) s1) as (m2 & E2 & F2 & G2).
  rewrite (bind_Ret _ _ _ _ _ E2), !(bind_Ret _ _ _ _ _ (wr_ret _ _ _ _)), bind_get.
  rewrite (bind_Ret _ _ _ _ _ (wr_ret _ _ _ _)). unfold write_cr3. rewrite bind_modify, bind_get.
  simpl. rewrite !entry_eq by done. eexists. split; [done|]. simpl in G2.
  assert (forall t i, aligned t -> t <> pml4 -> 0 <= i < 512 -> m1 !! slot t i = pg_mem s !! slot t i) as K1.
  { intros t i Ht Hne Hi. apply G1. intros j Hj E. by destruct (slot_inj _ _ _ _ Ht A1 Hi Hj E). }
  assert (forall t i, aligned t -> t <> pt -> 0 <= i < 512 -> m2 !! slot t i = m1 !! slot t i) as K2.
  { intros t i Ht Hne Hi. apply G2. intros j Hj E. by destruct (slot_inj _ _ _ _ Ht A4 Hi Hj E). }
  split; intros i Hi; cbn [pg_mem].
  - apply insert_slot0; [done|done|]. rewrite !insert_slot_ne, K2 by done. by apply F1.
  - rewrite insert_slot_ne by done. apply insert_slot0; [done|done|].
    rewrite insert_slot_ne, K2, K1 by done. apply Hz; [|done]. right. left.
  - rewrite !insert_slot_ne by done. apply insert_slot0; [done|done|].
    rewrite K2, K1 by done. apply Hz; [|done]. left.
  - rewrite !insert_slot_ne by done. rewrite F2 by done. f_equal. unfold PAGE_SIZE.
    rewrite <- Z.lor_assoc. apply lor_low; [done|]. apply Z.mod_mul. lia.
Qed.

Lemma boot_child m t x i :
  aligned x -> 0 <= i < 512 -> m !! slot t i = Some (if decide (i = 0) then x + 3 else 0) ->
  child m t i = if decide (i = 0) then Some x else None.
Proof.
  intros Hx Hi E. case_decide; [by apply child_entry|]. unfold child. by rewrite E.
Qed.

Lemma boot_wf s m c4 log pml4 pt pd pdpt :
  boot_ok s pml4 pt pd pdpt -> boot_words m pml4 pt pd pdpt ->
  pt_wf (boot_tables pml4 pt pd pdpt) (mkPaging (pg_pmm s) m pml4 pml4 c4 log).
Proof.
  intros [Hp Hnd Hal _] [B4 B3 B2 B1]. pose proof (boot_tables_lookup _ _ _ _ Hnd) as (L4 & L3 & L2 & L1).
  pose proof Hnd as Hnd'. rewrite !NoDup_cons, !not_elem_of_cons in Hnd'.
  rewrite !Forall_cons in Hal. destruct Hal as ([A4 K4] & [A3 K3] & [A2 K2] & [A1 K1] & _).
  pose proof (fun t l H => boot_tables_inv pml4 pt pd pdpt t l Hnd H) as Hinv.
  split; simpl; try done.
  - intros t l [[-> ->]|[[-> ->]|[[-> ->]|[-> ->]]]]%Hinv; (split; [done|lia]).
  - intros t l i [[-> _]|[[-> _]|[[-> _]|[-> _]]]]%Hinv Hi; eauto.
  - intros t l [[-> _]|[[-> _]|[[-> _]|[-> _]]]]%Hinv; done.
  - intros t l i e [[-> El]|[[-> El]|[[-> El]|[-> El]]]]%Hinv Hi; [rewrite B4 by done|rewrite B3 by done|rewrite B2 by done|done];
      intros [= <-]; case_decide; try done; intros _; eexists; (split; [done|]); by injection El as ->.
  - assert (forall t l i c, boot_tables pml4 pt pd pdpt !! t = Some (S (S l)) -> 0 <= i < 512 ->
      child m t i = Some c -> i = 0 /\ ((t = pml4 /\ c = pdpt) \/ (t = pdpt /\ c = pd) \/ (t = pd /\ c = pt))) as Hone.
    { intros t l i c [[-> El]|[[-> El]|[[-> El]|[-> El]]]]%Hinv Hi; [| | |done].
      - rewrite (boot_child _ _ _ _ A3 Hi (B4 i Hi)). case_decide; naive_solver.
      - rewrite (boot_child _ _ _ _ A2 Hi (B3 i Hi)). case_decide; naive_solver.
      - rewrite (boot_child _ _ _ _ A1 Hi (B2 i Hi)). case_decide; naive_solver. }
    intros t t' l l' i i' c Ht Ht' Hi Hi' Hc Hc'.
    destruct (Hone _ _ _ _ Ht Hi Hc) as [-> H1], (Hone _ _ _ _ Ht' Hi' Hc') as [-> H2].
    split; [|done]. destruct Hnd' as ((N1 & N2 & N3 & _) & (N4 & N5 & _) & (N6 & _) & _).
    destruct H1 as [[-> ->]|[[-> ->]|[-> ->]]], H2 as [[-> ?]|[[-> ?]|[-> ?]]]; congruence.
Qed.

Lemma boot_translate m s v pml4 pt pd pdpt :
  boot_words m pml4 pt pd pdpt -> Forall aligned [pml4; pdpt; pd; pt] ->
  pg_mem s = m -> pml4_root s = pml4 -> 0 <= v < 2 ^ 48 ->
  translate s v = if decide (v < 0x200000) then Some v else None.
Proof.
  intros [B4 B3 B2 B1] Hal Em Er Hv. rewrite !Forall_cons in Hal. destruct Hal as (A4 & A3 & A2 & A1 & _).
  unfold translate, lookup_pt. rewrite Em, Er.
  rewrite (boot_child _ _ _ _ A3 (pml4_bound v) (B4 _ (pml4_bound v))).
  assert (v < 0x200000 <-> PML4_INDEX v = 0 /\ PDPT_INDEX v = 0 /\ PD_INDEX v = 0) as Hiff.
  { pose proof (vpage_indices v) as Hvp. unfold vpage in Hvp.
    rewrite (Z.mod_small (v / 4096)) in Hvp
      by (split; [apply Z.div_pos; lia|apply Z.div_lt_upper_bound; lia]).
    pose proof (pml4_bound v). pose proof (pdpt_bound v). pose proof (pd_bound v). pose proof (pt_bound v).
    pose proof (Z.div_mod v 4096). pose proof (Z.mod_pos_bound v 4096).
    set (a := PML4_INDEX v) in *. set (b := PDPT_INDEX v) in *. set (c := PD_INDEX v) in *.
    set (d := PT_INDEX v) in *. set (q := v / 4096) in *. set (r := v mod 4096) in *.
    clearbody a b c d q r. clear -H H0 H1 H2 H3 H4 Hvp. lia. }
  destruct (decide (PML4_INDEX v = 0)) as [E4|]; simpl; [|rewrite decide_False by tauto; done].
  rewrite (boot_child _ _ _ _ A2 (pdpt_bound v) (B3 _ (pdpt_bound v))).
  destruct (decide (PDPT_INDEX v = 0)) as [E3|]; simpl; [|rewrite decide_False by tauto; done].
  rewrite (boot_child _ _ _ _ A1 (pd_bound v) (B2 _ (pd_bound v))).
  destruct (decide (PD_INDEX v = 0)) as [E2|]; simpl; [|rewrite decide_False by tauto; done].
  rewrite decide_True by tauto.
  pose proof (vpage_indices v) as Hvp. rewrite E4, E3, E2 in Hvp. unfold vpage in Hvp.
  rewrite (Z.mod_small (v / 4096)) in Hvp
    by (split; [apply Z.div_pos; lia|apply Z.div_lt_upper_bound; lia]).
  pose proof (pt_bound v) as Hb.
  unfold child. rewrite (B1 _ Hb). simpl.
  destruct (entry_facts_0 (PT_INDEX v * 4096)) as (-> & _ & ->); [lia|apply Z.mod_mul; lia|]. simpl.
  change 0xFFF with (Z.ones 12). rewrite Z.land_ones by lia. change (2 ^ 12) with 4096.
  pose proof (Z.div_mod v 4096). f_equal. lia.
Qed.

(** ** Properties *)

Lemma paging_map_page_run T s n v p fl :
  pt_wf T s -> 0 <= p < 2 ^ 64 -> 0 <= fl < 4096 -> (free_count (pg_pmm s) < n)%nat ->
  (exists T' s', paging_map_page n v p fl s = Ret v s' /\ pt_wf T' s' /\ T ⊆ T' /\
     (forall v', vpage v' = vpage v -> translate s' v' = Some (page_mask p + Z.land v' 0xFFF)) /\
     (forall v' a, vpage v' <> vpage v -> translate s v' = Some a ->
        (forall q, free_page s q -> page_used (pg_pmm s') q = true -> vpage (q * 4096) <> vpage v') ->
        translate s' v' = Some a) /\
     (forall q, 0 <= q -> page_used (pg_pmm s) q = true -> page_used (pg_pmm s') q = true) /\
     (forall q, in_range (pg_pmm s') q -> in_range (pg_pmm s) q)) \/
  (exists s', paging_map_page n v p fl s = Panic "paging oom" s').
Proof.
  intros Hw Hp Hf Hn.
  pose proof (map_page_run (walk n) v p fl s T Hw _ (walk_ok n T s v Hw)) as Hok.
  unfold paging_map_page. destruct (map_page_with (walk n) v p fl s) as [r s'|msg s'| |] eqn:E;
    simpl in Hok; [left|right; exists s'; by rewrite Hok|done|lia].
  destruct Hok as (-> & T' & s1 & pt & Hx & Hw1 & Hpt & Hp1 & ->).
  destruct (translate_leaf T' s1 v pt (Z.lor (Z.lor (Z.lor (page_mask p) fl) PAGE_PRESENT) PAGE_WRITE)
    (v :: invlpg_log s1) Hw1 Hpt) as (Hw2 & Hother & Hsame).
  exists T'. eexists. split_and!; [done|done|apply Hx| | |apply (ex_used _ _ _ _ Hx)|].
  - intros v' Hv. destruct (Hsame v' Hv) as [Hl Hi]. unfold translate. rewrite Hl. simpl.
    rewrite Hi, (child_leaf _ pt (PT_INDEX v) p fl); [done|done|done|]. apply lookup_insert_eq.
  - intros v' a Hne Ha Hq. rewrite Hother by done. unfold translate in *.
    destruct (lookup_pt s v') as [pt'|] eqn:Hpt'; [|done]. simpl in *.
    rewrite (ext_pt _ _ _ _ _ _ Hw Hx Hpt'). simpl. unfold child in *.
    by rewrite (ex_leaf _ _ _ _ Hx v' pt' Hpt' Hq).
  - intros q. unfold in_range. cbn [pg_pmm]. destruct (ex_range _ _ _ _ Hx) as [-> ->]. done.
Qed.

(** C1. [paging_map_page] terminates with either the page mapped or the panic
    "paging oom" (its recursion is bounded by the number of free pages), never reads
    or writes outside the tables, keeps the table tree well formed, and afterwards
    every address of the page translates to the physical page.  Every other address
    keeps its translation, unless it lies in the identity page of a page of memory
    that the call took for a table. *)
Theorem paging_map_page_spec T s n v p fl :
  pt_wf T s -> 0 <= p < 2 ^ 64 -> 0 <= fl < 4096 -> (free_count (pg_pmm s) < n)%nat ->
  (exists T' s', paging_map_page n v p fl s = Ret v s' /\ pt_wf T' s' /\ T ⊆ T' /\
     (forall v', vpage v' = vpage v -> translate s' v' = Some (page_mask p + Z.land v' 0xFFF)) /\
     (forall v' a, vpage v' <> vpage v -> translate s v' = Some a ->
        (forall q, free_page s q -> page_used (pg_pmm s') q = true -> vpage (q * 4096) <> vpage v') ->
        translate s' v' = Some a)) \/
  (exists s', paging_map_page n v p fl s = Panic "paging oom" s').
Proof.
  intros Hw Hp Hf Hn. destruct (paging_map_page_run T s n v p fl Hw Hp Hf Hn)
    as [(T' & s' & E & Hw' & HT & Hv & Hk & _)|Hpanic]; [left; by exists T', s'|by right].
Qed.

(** C24. [paging_virt_to_phys] returns the translation of the tables (0 when there is
    none) and changes nothing. *)
Theorem paging_virt_to_phys_spec T s n v :
  pt_wf T s -> paging_virt_to_phys (S n) v s = Ret (default 0 (translate s v)) s.
Proof.
  intros Hw. unfold paging_virt_to_phys. rewrite (bind_Ret _ _ _ _ _ (walk_lookup n T s v Hw)).
  unfold translate. destruct (lookup_pt s v) as [pt|] eqn:Hpt; [|done]. simpl.
  destruct (lookup_pt_inv _ _ _ _ Hw Hpt) as (p3 & p2 & _ & _ & Hp1 & _).
  destruct (pw_table _ _ Hw _ _ Hp1) as [[Hb _] _].
  destruct (Z.eqb_spec pt 0); [lia|].
  destruct (pw_words _ _ Hw _ _ (PT_INDEX v) Hp1 (pt_bound _)) as [e He].
  rewrite (bind_Ret _ _ _ _ _ (rd_ret _ _ _ _ He)). unfold child. rewrite He. simpl.
  destruct (present e); simpl; [|done]. unfold ret.
  rewrite wrap_small; [done|]. pose proof (page_mask_bound e). pose proof (offset_bound v). lia.
Qed.

(** [paging_unmap_page] removes the translation of the page of [v] and of no
    other address; unmapping an address without a page table does nothing. *)
Theorem paging_unmap_page_spec T s n v :
  pt_wf T s -> exists s', paging_unmap_page (S n) v s = Ret tt s' /\ pt_wf T s' /\
    (forall v', vpage v' = vpage v -> translate s' v' = None) /\
    (forall v', vpage v' <> vpage v -> translate s' v' = translate s v').
Proof.
  intros Hw. unfold paging_unmap_page. rewrite (bind_Ret _ _ _ _ _ (walk_lookup n T s v Hw)).
  destruct (lookup_pt s v) as [pt|] eqn:Hpt; simpl.
  - destruct (lookup_pt_inv _ _ _ _ Hw Hpt) as (p3 & p2 & _ & _ & Hp1 & _).
    destruct (pw_table _ _ Hw _ _ Hp1) as [[Hb _] _]. destruct (Z.eqb_spec pt 0); [lia|].
    destruct (translate_leaf T s v pt 0 (v :: invlpg_log s) Hw Hpt) as (Hw2 & Hother & Hsame).
    eexists. split; [done|]. split_and!; [exact Hw2| |exact Hother].
    intros v' Hv. destruct (Hsame v' Hv) as [Hl Hi]. unfold translate.
    match goal with |- context [lookup_pt ?u v'] => replace (lookup_pt u v') with (Some pt) by done end.
    simpl. unfold child. by rewrite Hi, lookup_insert_eq.
  - exists s. split_and!; [done|done| |done]. intros v' Hv. unfold translate.
    by rewrite (lookup_pt_same _ _ _ Hv), Hpt.
Qed.

(** [paging_init] builds a well-formed table tree that maps the first 2 MiB to
    themselves and nothing else, activates it and enables physical address
    extension, provided that the statics start zeroed and the allocator never hands
    out their pages. *)
Theorem paging_init_spec s pml4 pt pd pdpt :
  boot_ok s pml4 pt pd pdpt ->
  exists s', paging_init pml4 pt pd pdpt s = Ret tt s' /\
    pt_wf (boot_tables pml4 pt pd pdpt) s' /\ pg_pmm s' = pg_pmm s /\
    cr3 s' = pml4 /\ Z.testbit (cr4 s') 5 = true /\
    (forall v, 0 <= v < 2 ^ 48 -> translate s' v = if decide (v < 0x200000) then Some v else None).
Proof.
  intros Hb. destruct (paging_init_run _ _ _ _ _ Hb) as (m & E & Hm).
  eexists. split; [exact E|]. split; [by apply boot_wf|]. split; [reflexivity|]. split; [reflexivity|]. split.
  - cbn [cr4]. by rewrite Z.lor_spec, orb_true_r.
  - intros v Hv. eapply boot_translate; [exact Hm| |done..].
    eapply Forall_impl; [apply (bo_tables _ _ _ _ _ Hb)|]. simpl. tauto.
Qed.

(** A new table must be mapped before it can be cleared, so when no free page
    lies in a region that already has a page table, mapping any address of a region
    without one takes every free page and ends in the panic "paging oom", however
    much memory is free. *)
Theorem paging_map_page_no_home T s n v p fl :
  pt_wf T s -> lookup_pt s v = None -> no_home s -> (free_count (pg_pmm s) < n)%nat ->
  exists s', paging_map_page n v p fl s = Panic "paging oom" s'.
Proof. intros. apply panics_bind. by eapply walk_oom. Qed.

(** ** Witnesses *)

(** Zeroed memory for the tables at 0x1000 .. 0x4fff. *)
Definition zero_words (base : Z) (l : list Z) : gmap Z Z :=
  foldr (λ i m, <[slot base i := 0]> m) ∅ l.

Lemma zero_words_lookup base l i : i ∈ l -> zero_words base l !! slot base i = Some 0.
Proof.
  induction l as [|j l IH]; [by intros ?%not_elem_of_nil|]. intros [->|Hi]%elem_of_cons; simpl.
  - apply lookup_insert_eq.
  - destruct (decide (slot base j = slot base i)) as [->|]; [apply lookup_insert_eq|].
    rewrite lookup_insert_ne by done. by apply IH.
Qed.

(** Pages 1 to 4 hold the tables; [p] is the allocator. *)
Definition pg_start (p : pmm) : paging :=
  mkPaging p (zero_words 0x1000 (seqZ 0 2048)) 0 0 0 [].

Definition pg_boot (p : pmm) : paging :=
  match paging_init 0x1000 0x2000 0x3000 0x4000 (pg_start p) with Ret _ s => s | _ => pg_start p end.

(** One free page, at 2 MiB. *)
Definition pmm_high : pmm := mkPmm (<[64%nat := 254]> full_bitmap) 1 1 0x100000 0x201000.

Lemma pmm_high_wf : pmm_wf pmm_high.
Proof.
  split; simpl page_bitmap; simpl free_pages; simpl mem_start; simpl mem_end.
  - rewrite length_insert. apply full_bitmap_length.
  - apply Forall_insert; [|lia]. apply (wf_bytes _ pmm_blank_wf).
  - done.
  - lia.
  - done.
Qed.

Lemma pg_start_ok p :
  pmm_wf p -> 0x100000 <= mem_start p -> boot_ok (pg_start p) 0x1000 0x2000 0x3000 0x4000.
Proof.
  intros Hp Hs. split; [done|..].
  - repeat constructor; set_solver.
  - assert (0x100000 / 4096 <= mem_start p / 4096) by (apply Z.div_le_mono; lia).
    change (0x100000 / 4096) with 256 in *.
    repeat constructor; try done; intros [[Hr _] _]; simpl in Hr; [change (0x1000 / 4096) with 1 in Hr|
      change (0x4000 / 4096) with 4 in Hr|change (0x3000 / 4096) with 3 in Hr|
      change (0x2000 / 4096) with 2 in Hr]; lia.
  - intros t i Ht Hi. rewrite elem_of_cons, list_elem_of_singleton in Ht.
    destruct Ht as [->| ->]; cbn [pg_mem pg_start].
    + replace (slot 0x3000 i) with (slot 0x1000 (1024 + i)) by (unfold slot; lia).
      apply zero_words_lookup, elem_of_seqZ. lia.
    + replace (slot 0x4000 i) with (slot 0x1000 (1536 + i)) by (unfold slot; lia).
      apply zero_words_lookup, elem_of_seqZ. lia.
Qed.

Lemma pg_boot_wf p :
  pmm_wf p -> 0x100000 <= mem_start p -> pt_wf (boot_tables 0x1000 0x2000 0x3000 0x4000) (pg_boot p).
Proof.
  intros Hp Hs. pose proof (pg_start_ok p Hp Hs) as Hb.
  destruct (paging_init_run _ _ _ _ _ Hb) as (m & E & Hm). unfold pg_boot. rewrite E.
  by apply (boot_wf (pg_start p)).
Qed.

Lemma paging_init_spec_witness :
  exists s', paging_init 0x1000 0x2000 0x3000 0x4000 (pg_start pmm_one) = Ret tt s' /\
    pt_wf (boot_tables 0x1000 0x2000 0x3000 0x4000) s' /\ pg_pmm s' = pmm_one /\
    cr3 s' = 0x1000 /\ Z.testbit (cr4 s') 5 = true /\
    (forall v, 0 <= v < 2 ^ 48 -> translate s' v = if decide (v < 0x200000) then Some v else None).
Proof. apply (paging_init_spec (pg_start pmm_one)), pg_start_ok; [apply pmm_one_wf|simpl; lia]. Defined.

Lemma paging_map_page_spec_witness :
  (exists T' s', paging_map_page 5 0x5000 0x100000 0 (pg_boot pmm_one) = Ret 0x5000 s' /\ pt_wf T' s' /\
     boot_tables 0x1000 0x2000 0x3000 0x4000 ⊆ T' /\
     (forall v', vpage v' = vpage 0x5000 -> translate s' v' = Some (page_mask 0x100000 + Z.land v' 0xFFF)) /\
     (forall v' a, vpage v' <> vpage 0x5000 -> translate (pg_boot pmm_one) v' = Some a ->
        (forall q, free_page (pg_boot pmm_one) q -> page_used (pg_pmm s') q = true ->
           vpage (q * 4096) <> vpage v') ->
        translate s' v' = Some a)) \/
  (exists s', paging_map_page 5 0x5000 0x100000 0 (pg_boot pmm_one) = Panic "paging oom" s').
Proof.
  apply (paging_map_page_spec _ _ 5).
  - apply pg_boot_wf; [apply pmm_one_wf|simpl; lia].
  - lia.
  - lia.
  - apply Nat.ltb_lt. vm_compute. reflexivity.
Defined.

Lemma paging_virt_to_phys_spec_witness :
  paging_virt_to_phys 1 0x1234 (pg_boot pmm_one) =
    Ret (default 0 (translate (pg_boot pmm_one) 0x1234)) (pg_boot pmm_one).
Proof.
  apply (paging_virt_to_phys_spec (boot_tables 0x1000 0x2000 0x3000 0x4000) _ 0), pg_boot_wf;
    [apply pmm_one_wf|simpl; lia].
Defined.

Lemma paging_unmap_page_spec_witness :
  exists s', paging_unmap_page 1 0x5000 (pg_boot pmm_one) = Ret tt s' /\
    pt_wf (boot_tables 0x1000 0x2000 0x3000 0x4000) s' /\
    (forall v', vpage v' = vpage 0x5000 -> translate s' v' = None) /\
    (forall v', vpage v' <> vpage 0x5000 -> translate s' v' = translate (pg_boot pmm_one) v').
Proof. apply (paging_unmap_page_spec _ _ 0), pg_boot_wf; [apply pmm_one_wf|simpl; lia]. Defined.

(** The check of a property of every page of the allocator's range. *)
Lemma free_page_dec (p : pmm) (f : Z -> bool) s :
  pg_pmm s = p ->
  forallb (λ q, if page_used p q then true else f q) (seqZ (mem_start p / 4096) (mem_end p / 4096 - mem_start p / 4096)) = true ->
  forall q, free_page s q -> f q = true.
Proof.
  intros <- Hf q [[Hr1 Hr2] Hu]. rewrite forallb_forall in Hf.
  specialize (Hf q). rewrite Hu in Hf. apply Hf, list_elem_of_In, elem_of_seqZ. lia.
Qed.

Lemma pg_boot_pmm p : pmm_wf p -> 0x100000 <= mem_start p -> pg_pmm (pg_boot p) = p.
Proof.
  intros Hp Hs. destruct (paging_init_run _ _ _ _ _ (pg_start_ok p Hp Hs)) as (m & E & _).
  unfold pg_boot. by rewrite E.
Qed.

Lemma paging_map_page_no_home_witness :
  exists s', paging_map_page 5 0x40000000 0x5000 0 (pg_boot pmm_high) = Panic "paging oom" s'.
Proof.
  apply (paging_map_page_no_home (boot_tables 0x1000 0x2000 0x3000 0x4000)).
  - apply pg_boot_wf; [apply pmm_high_wf|simpl; lia].
  - vm_compute. reflexivity.
  - intros q Hf. apply (free_page_dec pmm_high (λ q, bool_decide (lookup_pt (pg_boot pmm_high) (q * 4096) = None))) in Hf.
    + by apply bool_decide_eq_true in Hf.
    + apply pg_boot_pmm; [apply pmm_high_wf|simpl; lia].
    + vm_compute. reflexivity.
  - apply Nat.ltb_lt. vm_compute. reflexivity.
Defined.
