(* ===== verification/PageSource.v ===== *)
(** * What the kernel heap needs from the page allocator and the page tables

    [PageSource] is the interface of kernel/heap.c to [pmm_alloc_page] and
    [paging_map_page]: the two operations, an invariant they keep, a bound on the
    pages left and the laws.  The instance [paging_source] discharges it from
    [Pmm] and [Paging]. *)

From S2P Require Import Prelude CMem Pmm Paging.

Class PageSource (S : Type) := {
  get_page : M S Z;
  map_page : Z -> Z -> Z -> M S Z;
  ps_ok : S -> Prop;
  pages_left : S -> nat;
  get_page_law : forall s, ps_ok s -> exists a t, get_page s = Ret a t /\ ps_ok t /\
    0 <= a < 2 ^ 64 /\ (a <> 0 -> (pages_left t < pages_left s)%nat);
  map_page_law : forall s v p, ps_ok s -> 0 <= p < 2 ^ 64 ->
    (exists t, map_page v p 0 s = Ret v t /\ ps_ok t /\ (pages_left t <= pages_left s)%nat) \/
    (exists t, map_page v p 0 s = Panic "paging oom" t)
}.

(** The page tables with enough fuel for every call. *)
Definition paging_get (s : paging) : outcome paging Z := zoom pg_pmm with_pmm pmm_alloc_page s.
Definition paging_map (v p fl : Z) : M paging Z := λ s,
  paging_map_page (S (free_count (pg_pmm s))) v p fl s.

Lemma paging_get_law s :
  (exists T, pt_wf T s) -> exists a t, paging_get s = Ret a t /\ (exists T, pt_wf T t) /\
    0 <= a < 2 ^ 64 /\ (a <> 0 -> (free_count (pg_pmm t) < free_count (pg_pmm s))%nat).
Proof.
  intros [T Hw]. unfold paging_get, zoom.
  destruct (pmm_alloc_page_cases _ (pw_pmm _ _ Hw)) as [(q & p & Hr & Hu & _ & -> & Hp & Hm)|[_ ->]].
  - pose proof (in_range_page _ _ (pw_pmm _ _ Hw) Hr) as Hq. unfold MAX_PHYS_PAGES in Hq.
    destruct (ext_take T s p q _ Hw Hr Hp Hm) as [Hw1 _].
    pose proof (marked_count _ _ _ _ Hr Hu (pw_pmm _ _ Hw) Hm).
    eexists _, _. split; [done|]. split; [by exists T|]. split; [lia|done].
  - eexists _, _. split; [done|]. split; [exists T; by destruct s|]. split; [lia|done].
Qed.

Lemma paging_map_law s v p :
  (exists T, pt_wf T s) -> 0 <= p < 2 ^ 64 ->
  (exists t, paging_map v p 0 s = Ret v t /\ (exists T, pt_wf T t) /\
     (free_count (pg_pmm t) <= free_count (pg_pmm s))%nat) \/
  (exists t, paging_map v p 0 s = Panic "paging oom" t).
Proof.
  intros [T Hw] Hp. unfold paging_map, paging_map_page. set (n := S _).
  pose proof (map_page_run (walk n) v p 0 s T Hw _ (walk_ok n T s v Hw)) as Hok.
  destruct (map_page_with (walk n) v p 0 s) as [r s'|msg s'| |]; simpl in Hok;
    [left|right; exists s'; by rewrite Hok|done|lia].
  destruct Hok as (-> & T' & s1 & pt & Hx & Hw1 & Hpt & Hp1 & ->).
  eexists. split; [done|]. split.
  - exists T'. by eapply translate_leaf.
  - simpl. exact (ext_count _ _ _ _ Hw Hx).
Qed.

#[export] Instance paging_source : PageSource paging := {|
  get_page := paging_get;
  map_page := paging_map;
  ps_ok s := exists T, pt_wf T s;
  pages_left s := free_count (pg_pmm s);
  get_page_law := paging_get_law;
  map_page_law := paging_map_law
|}.
