(* ===== verification/Heap.v ===== *)
(** * The kernel heap (kernel/heap.c)

    State [heap]: the page source below, the bytes of the heap's virtual memory, the
    head of the block list, the mapped size, the base and the slab caches in the
    order of [slab_list].  A block header is the 32 bytes [size] (8), [free] (4),
    padding, [next] (8), [prev] (8) before the payload.  A newly mapped page has
    unknown contents: the byte at [a] is [junk a]. *)

From S2P Require Import Prelude CMem Pmm Paging PageSource.

Definition HEADER_SIZE : Z := 32.
Definition MIN_BLOCK : Z := 32.
Definition SLAB_MAX_ORDER : Z := 5.
Definition SLAB_MIN_SIZE : Z := 32.
Definition SLAB_MAX_SIZE : Z := Z.shiftl SLAB_MIN_SIZE SLAB_MAX_ORDER.

Record slab_cache := mkCache {
  object_size : Z;
  slab_size : Z;
  free_list : Z;
  objects_per_slab : Z;
  allocated : Z
}.

Record heap (OS : Type) := mkHeap {
  hp_os : OS;
  hp_mem : mem;
  heap_head : Z;
  heap_mapped : Z;
  heap_virt_base : Z;
  slab_caches : list slab_cache
}.
Arguments mkHeap {OS}.
Arguments hp_os {OS}.
Arguments hp_mem {OS}.
Arguments heap_head {OS}.
Arguments heap_mapped {OS}.
Arguments heap_virt_base {OS}.
Arguments slab_caches {OS}.

Section heap_code.
Context {OS : Type} `{!PageSource OS} (junk : Z -> Z).
Local Abbreviation heap := (heap OS).
Implicit Types s : heap.

Definition hp_with_os (o : OS) (s : heap) : heap :=
  mkHeap o (hp_mem s) (heap_head s) (heap_mapped s) (heap_virt_base s) (slab_caches s).
Definition hp_with_mem (m : mem) (s : heap) : heap :=
  mkHeap (hp_os s) m (heap_head s) (heap_mapped s) (heap_virt_base s) (slab_caches s).
Definition with_head (h : Z) (s : heap) : heap :=
  mkHeap (hp_os s) (hp_mem s) h (heap_mapped s) (heap_virt_base s) (slab_caches s).
Definition with_mapped (n : Z) (s : heap) : heap :=
  mkHeap (hp_os s) (hp_mem s) (heap_head s) n (heap_virt_base s) (slab_caches s).
Definition with_base (b : Z) (s : heap) : heap :=
  mkHeap (hp_os s) (hp_mem s) (heap_head s) (heap_mapped s) b (slab_caches s).
Definition with_caches (l : list slab_cache) (s : heap) : heap :=
  mkHeap (hp_os s) (hp_mem s) (heap_head s) (heap_mapped s) (heap_virt_base s) l.

(** ** Memory *)

Definition ld (n : nat) (a : Z) : M heap Z := s <-- get ;; of_option (load n (hp_mem s) a).
Definition st (n : nat) (a v : Z) : M heap unit :=
  s <-- get ;;
  m <-- of_option (store n (hp_mem s) a v) ;;
  put (hp_with_mem m s).

(** [block->size], [->free], [->next], [->prev]. *)
Definition ld_size (b : Z) : M heap Z := ld 8 b.
Definition ld_free (b : Z) : M heap Z := ld 4 (b + 8).
Definition ld_next (b : Z) : M heap Z := ld 8 (b + 16).
Definition ld_prev (b : Z) : M heap Z := ld 8 (b + 24).
Definition st_size (b v : Z) : M heap unit := st 8 b v.
Definition st_free (b v : Z) : M heap unit := st 4 (b + 8) v.
Definition st_next (b v : Z) : M heap unit := st 8 (b + 16) v.
Definition st_prev (b v : Z) : M heap unit := st 8 (b + 24) v.

(** The bytes of a page become accessible at [v]. *)
Definition fresh_bytes (v : Z) (m : mem) : mem :=
  foldr (λ i m, <[v + i := u8 (junk (v + i))]> m) m (seqZ 0 4096).

(** [paging_map_page(heap_virt_base + heap_mapped, phys, 0); heap_mapped += 4096;] *)
Definition map_one (phys : Z) : M heap unit :=
  s <-- get ;;
  let v := u64 (heap_virt_base s + heap_mapped s) in
  zoom hp_os hp_with_os (map_page v phys 0) ;;;
  modify (λ s, hp_with_mem (fresh_bytes v (hp_mem s)) s) ;;;
  modify (λ s, with_mapped (u64 (heap_mapped s + 4096)) s).

(** ** Slabs *)

Definition slab_init : M heap unit :=
  modify (with_caches
    ((λ i, mkCache (Z.shiftl SLAB_MIN_SIZE i) 4096 0 (u32 (4096 / Z.shiftl SLAB_MIN_SIZE i)) 0)
       <$> seqZ 0 SLAB_MAX_ORDER)).

Definition cache_update (i : nat) (f : slab_cache -> slab_cache) : M heap unit :=
  modify (λ s, with_caches (alter f i (slab_caches s)) s).

Definition set_free_list (p : Z) (c : slab_cache) : slab_cache :=
  mkCache (object_size c) (slab_size c) p (objects_per_slab c) (allocated c).
Definition inc_allocated (c : slab_cache) : slab_cache :=
  mkCache (object_size c) (slab_size c) (free_list c) (objects_per_slab c) (u32 (allocated c + 1)).

(** The new page of [slab_alloc], cut into a list of objects. *)
Definition slab_grow (i : nat) : M heap unit :=
  s <-- get ;;
  c <-- of_option (slab_caches s !! i) ;;
  let ptr := u64 (heap_virt_base s + heap_mapped s - 4096) in
  cache_update i (set_free_list ptr) ;;;
  for_range 0 (objects_per_slab c - 1) (λ k,
    st 8 (ptr + k * object_size c) (ptr + (k + 1) * object_size c)) ;;;
  st 8 (ptr + (objects_per_slab c - 1) * object_size c) 0.

(** [None] is the early [return 0]. *)
Definition slab_refill (i : nat) : M heap bool :=
  slab <-- zoom hp_os hp_with_os get_page ;;
  if slab =? 0 then ret false
  else map_one slab ;;; slab_grow i ;;; ret true.

(** [obj = free_list; free_list = *(void ** )free_list; allocated++;] *)
Definition slab_take (i : nat) : M heap Z :=
  s <-- get ;;
  c <-- of_option (slab_caches s !! i) ;;
  let obj := free_list c in
  next <-- ld 8 (free_list c) ;;
  cache_update i (set_free_list next) ;;;
  cache_update i inc_allocated ;;;
  ret obj.

Definition slab_alloc (i : nat) : M heap Z :=
  s <-- get ;;
  c <-- of_option (slab_caches s !! i) ;;
  more <-- (if free_list c =? 0 then slab_refill i else ret true) ;;
  if negb more then ret 0 else slab_take i.

(** The first cache whose objects are large enough. *)
Fixpoint slab_scan (l : list slab_cache) (i : nat) (size : Z) : option nat :=
  match l with
  | [] => None
  | c :: l' => if size <=? object_size c then Some i else slab_scan l' (S i) size
  end.
Definition slab_find_cache (size : Z) : M heap (option nat) :=
  gets (λ s, slab_scan (slab_caches s) 0 size).

(** ** The block list *)

Fixpoint heap_map_more (fuel : nat) (needed : Z) : M heap unit :=
  match fuel with
  | O => nofuel
  | S fuel' =>
      s <-- get ;;
      if heap_mapped s <? needed then
        phys <-- zoom hp_os hp_with_os get_page ;;
        if phys =? 0 then panic "heap oom"
        else map_one phys ;;; heap_map_more fuel' needed
      else ret tt
  end.

Definition heap_init (fuel : nat) : M heap unit :=
  modify (with_base paging_heap_base) ;;;
  modify (with_mapped 0) ;;;
  heap_map_more fuel 4096 ;;;
  modify (λ s, with_head (heap_virt_base s) s) ;;;
  s <-- get ;;
  st_size (heap_head s) (4096 - HEADER_SIZE) ;;;
  st_free (heap_head s) 1 ;;;
  st_next (heap_head s) 0 ;;;
  st_prev (heap_head s) 0 ;;;
  slab_init.

Definition split_block (block size : Z) : M heap Z :=
  bsize <-- ld_size block ;;
  if bsize <? u64 (size + HEADER_SIZE + MIN_BLOCK) then ret block
  else
    let new_block := u64 (block + HEADER_SIZE + size) in
    st_size new_block (u64 (bsize - size - HEADER_SIZE)) ;;;
    st_free new_block 1 ;;;
    next <-- ld_next block ;;
    st_next new_block next ;;;
    st_prev new_block block ;;;
    next <-- ld_next block ;;
    (if truth next then st_prev next new_block else ret tt) ;;;
    st_next block new_block ;;;
    st_size block size ;;;
    ret block.

(** The two halves of [merge_adjacent]; every [block->next] and [block->prev] of the
    source is a load. *)
Definition merge_next (block : Z) : M heap unit :=
  next <-- ld_next block ;;
  if negb (truth next) then ret tt
  else
    nfree <-- ld_free next ;;
    if negb (truth nfree) then ret tt
    else
      bsize <-- ld_size block ;;
      next <-- ld_next block ;;
      nsize <-- ld_size next ;;
      st_size block (u64 (bsize + u64 (HEADER_SIZE + nsize))) ;;;
      next <-- ld_next block ;;
      nnext <-- ld_next next ;;
      st_next block nnext ;;;
      next <-- ld_next block ;;
      if truth next then st_prev next block else ret tt.

Definition merge_prev (block : Z) : M heap unit :=
  prev <-- ld_prev block ;;
  if negb (truth prev) then ret tt
  else
    pfree <-- ld_free prev ;;
    if negb (truth pfree) then ret tt
    else
      psize <-- ld_size prev ;;
      bsize <-- ld_size block ;;
      st_size prev (u64 (psize + u64 (HEADER_SIZE + bsize))) ;;;
      prev <-- ld_prev block ;;
      next <-- ld_next block ;;
      st_next prev next ;;;
      next <-- ld_next block ;;
      if truth next then prev <-- ld_prev block ;; st_prev next prev else ret tt.

Definition merge_adjacent (block : Z) : M heap unit := merge_next block ;;; merge_prev block.

(** [while (current) { if (fits) return ...; current = current->next; }] *)
Fixpoint fit_loop (fuel : nat) (current size : Z) : M heap (option Z) :=
  match fuel with
  | O => nofuel
  | S fuel' =>
      if current =? 0 then ret None
      else
        free <-- ld_free current ;;
        csize <-- ld_size current ;;
        if truth free && (size <=? csize) then
          current <-- split_block current size ;;
          st_free current 0 ;;;
          ret (Some (u64 (current + HEADER_SIZE)))
        else
          next <-- ld_next current ;;
          fit_loop fuel' next size
  end.

(** [while (tail->next) tail = tail->next;] *)
Fixpoint tail_loop (fuel : nat) (tail : Z) : M heap Z :=
  match fuel with
  | O => nofuel
  | S fuel' =>
      next <-- ld_next tail ;;
      if truth next then tail_loop fuel' next else ret tail
  end.

(** [kmalloc] after the search failed: one more page at the end of the list. *)
Definition grow (fuel : nat) : M heap unit :=
  s <-- get ;;
  heap_map_more fuel (u64 (heap_mapped s + 4096)) ;;;
  s <-- get ;;
  let new_area := u64 (heap_virt_base s + heap_mapped s - 4096) in
  (if truth (heap_head s) then
     tail <-- tail_loop fuel (heap_head s) ;;
     st_next tail new_area ;;;
     st_prev new_area tail
   else modify (with_head new_area)) ;;;
  st_size new_area (4096 - HEADER_SIZE) ;;;
  st_free new_area 1 ;;;
  st_next new_area 0.

(** [(size + 15) & ~15] *)
Definition align16 (size : Z) : Z := Z.land (u64 (size + 15)) (u64 (Z.lnot 15)).

Fixpoint kmalloc (fuel : nat) (size : Z) : M heap Z :=
  match fuel with
  | O => nofuel
  | S fuel' =>
      if size =? 0 then ret 0
      else
        cache <-- (if size <=? SLAB_MAX_SIZE then slab_find_cache size else ret None) ;;
        match cache with
        | Some i => slab_alloc i
        | None =>
            let size := align16 size in
            s <-- get ;;
            r <-- fit_loop fuel' (heap_head s) size ;;
            match r with
            | Some p => ret p
            | None => grow fuel' ;;; kmalloc fuel' size
            end
        end
  end.

Definition kfree (ptr : Z) : M heap unit :=
  if ptr =? 0 then ret tt
  else
    let block := u64 (ptr - HEADER_SIZE) in
    st_free block 1 ;;;
    merge_adjacent block.

(** [for (i = 0; i < block->size; i++) new[i] = old[i];], the bound read each time. *)
Fixpoint copy_loop (fuel : nat) (block new old i : Z) : M heap unit :=
  match fuel with
  | O => nofuel
  | S fuel' =>
      n <-- ld_size block ;;
      if i <? n then
        b <-- ld 1 (old + i) ;;
        st 1 (new + i) b ;;;
        copy_loop fuel' block new old (i + 1)
      else ret tt
  end.

Definition krealloc (fuel : nat) (ptr size : Z) : M heap Z :=
  if ptr =? 0 then kmalloc fuel size
  else if size =? 0 then kfree ptr ;;; ret 0
  else
    let block := u64 (ptr - HEADER_SIZE) in
    bsize <-- ld_size block ;;
    if size <=? bsize then ret ptr
    else
      new_ptr <-- kmalloc fuel size ;;
      if new_ptr =? 0 then ret 0
      else
        copy_loop fuel block new_ptr ptr 0 ;;;
        kfree ptr ;;;
        ret new_ptr.

Definition kcalloc (fuel : nat) (nmemb size : Z) : M heap Z :=
  let total := u64 (nmemb * size) in
  ptr <-- kmalloc fuel total ;;
  (if truth ptr then for_range 0 total (λ i, st 1 (ptr + i) 0) else ret tt) ;;;
  ret ptr.

Fixpoint used_loop (fuel : nat) (current used : Z) : M heap Z :=
  match fuel with
  | O => nofuel
  | S fuel' =>
      if current =? 0 then ret used
      else
        free <-- ld_free current ;;
        size <-- ld_size current ;;
        next <-- ld_next current ;;
        used_loop fuel' next (if truth free then used else u64 (used + size))
  end.

Definition heap_used (fuel : nat) : M heap Z := s <-- get ;; used_loop fuel (heap_head s) 0.
Definition heap_total : M heap Z := gets heap_mapped.

End heap_code.

Section blocks.
Context {OS : Type} `{!PageSource OS}.
Local Abbreviation heap := (heap OS).
Implicit Types s : heap.

(** ** Representation of the block list *)

Definition sum_list_with_Z {A} (f : A -> Z) (l : list A) : Z := foldr (λ x n, f x + n) 0 l.

Record block := mkBlock { b_addr : Z; b_size : Z; b_free : bool }.
#[global] Instance block_eq_dec : EqDecision block.
Proof. solve_decision. Defined.

Definition first_addr (bs : list block) (nx : Z) : Z := match bs with [] => nx | b :: _ => b_addr b end.
Fixpoint last_addr (pv : Z) (bs : list block) : Z :=
  match bs with [] => pv | b :: r => last_addr (b_addr b) r end.

(** The header of [b] in memory. *)
Record hdr (m : mem) (b : block) (nx pv : Z) : Prop := {
  hd_size : load 8 m (b_addr b) = Some (b_size b);
  hd_free : load 4 m (b_addr b + 8) = Some (if b_free b then 1 else 0);
  hd_next : load 8 m (b_addr b + 16) = Some nx;
  hd_prev : load 8 m (b_addr b + 24) = Some pv
}.

(** A doubly linked segment from [pv] to [nx]. *)
Fixpoint chain (m : mem) (pv : Z) (bs : list block) (nx : Z) : Prop :=
  match bs with
  | [] => True
  | b :: r => hdr m b (first_addr r nx) pv /\ chain m (b_addr b) r nx
  end.

(** In address order between [a] and [e], gaps allowed. *)
Fixpoint laid (a : Z) (bs : list block) (e : Z) : Prop :=
  match bs with
  | [] => a <= e
  | b :: r => a <= b_addr b /\ 0 <= b_size b /\ b_size b mod 16 = 0 /\ b_addr b mod 16 = 0 /\
      laid (b_addr b + 32 + b_size b) r e
  end.

Record heap_wf (s : heap) (bs : list block) : Prop := {
  hw_os : ps_ok (hp_os s);
  hw_head : heap_head s = first_addr bs 0;
  hw_chain : chain (hp_mem s) 0 bs 0;
  hw_laid : laid (heap_virt_base s) bs (heap_virt_base s + heap_mapped s);
  hw_mapped : mapped (hp_mem s) (heap_virt_base s) (heap_mapped s);
  hw_base : 0 < heap_virt_base s < 2 ^ 62 /\ heap_virt_base s mod 16 = 0;
  hw_size : 0 <= heap_mapped s /\ heap_mapped s mod 16 = 0 /\
    heap_mapped s + 4096 * Z.of_nat (pages_left (hp_os s)) <= 2 ^ 62;
  hw_ne : bs <> []
}.

Lemma mod16_add a b : a mod 16 = 0 -> b mod 16 = 0 -> (a + b) mod 16 = 0.
Proof. intros. Z.to_euclidean_division_equations. lia. Qed.

Lemma mod16_sub a b : a mod 16 = 0 -> b mod 16 = 0 -> (a - b) mod 16 = 0.
Proof. intros. Z.to_euclidean_division_equations. lia. Qed.

Lemma hdr_ext m m' b nx pv :
  (forall x, b_addr b <= x < b_addr b + 32 -> m' !! x = m !! x) -> hdr m b nx pv -> hdr m' b nx pv.
Proof.
  intros H [H1 H2 H3 H4].
  split; [rewrite <- H1|rewrite <- H2|rewrite <- H3|rewrite <- H4];
    apply load_ext; intros x Hx; apply H; lia.
Qed.

Lemma chain_ext m m' pv bs nx :
  (forall b x, b ∈ bs -> b_addr b <= x < b_addr b + 32 -> m' !! x = m !! x) ->
  chain m pv bs nx -> chain m' pv bs nx.
Proof.
  revert pv. induction bs as [|b r IH]; intros pv H; simpl; [done|]. intros [Hh Hc]. split.
  - eapply hdr_ext; [|exact Hh]. intros x Hx. apply (H b); [left|done].
  - apply IH; [|done]. intros c x Hc' Hx. apply (H c); [by right|done].
Qed.

Lemma chain_app m pv xs ys nx :
  chain m pv (xs ++ ys) nx <-> chain m pv xs (first_addr ys nx) /\ chain m (last_addr pv xs) ys nx.
Proof.
  revert pv. induction xs as [|x xs IH]; intros pv; simpl; [tauto|]. rewrite IH.
  replace (first_addr (xs ++ ys) nx) with (first_addr xs (first_addr ys nx)) by (by destruct xs). tauto.
Qed.

Lemma last_addr_app pv xs ys : last_addr pv (xs ++ ys) = last_addr (last_addr pv xs) ys.
Proof. revert pv. induction xs; intros; simpl; auto. Qed.

Lemma first_addr_app xs ys nx : first_addr (xs ++ ys) nx = first_addr xs (first_addr ys nx).
Proof. by destruct xs. Qed.

Lemma laid_le a bs e : laid a bs e -> a <= e.
Proof. revert a. induction bs as [|b r IH]; intros a; simpl; [done|]. intros (? & ? & _ & _ & ?%IH). lia. Qed.

Lemma laid_app a xs ys e : laid a (xs ++ ys) e <-> exists c, laid a xs c /\ laid c ys e.
Proof.
  revert a. induction xs as [|x xs IH]; intros a; simpl.
  - split; [intros H; by exists a|]. intros (c & Hc & Hl). destruct ys as [|y ys]; simpl in *; [lia|].
    split; [lia|tauto].
  - rewrite IH. naive_solver.
Qed.

Lemma laid_in a bs e b :
  laid a bs e -> b ∈ bs -> a <= b_addr b /\ 0 <= b_size b /\ b_addr b + 32 + b_size b <= e.
Proof.
  revert a. induction bs as [|c r IH]; intros a Hl; [by intros ?%not_elem_of_nil|].
  simpl in Hl. destruct Hl as (? & ? & _ & _ & Hr). intros [->|Hb]%elem_of_cons.
  - pose proof (laid_le _ _ _ Hr). lia.
  - pose proof (IH _ Hr Hb). lia.
Qed.

Lemma laid_cut a xs b ys e :
  laid a (xs ++ b :: ys) e ->
  laid a xs (b_addr b) /\ laid (b_addr b + 32 + b_size b) ys e /\ 0 <= b_size b /\
  b_size b mod 16 = 0 /\ b_addr b mod 16 = 0 /\ a <= b_addr b.
Proof.
  rewrite laid_app. intros (c & Hx & ? & ? & ? & ? & Hy). split_and!; try done.
  - clear Hy. revert a Hx. induction xs as [|x xs IH]; intros a Hx; simpl in *; [lia|]. naive_solver.
  - pose proof (laid_le _ _ _ Hx). lia.
Qed.

Lemma laid_weaken a a' bs e e' : laid a bs e -> a' <= a -> e <= e' -> laid a' bs e'.
Proof.
  revert a a'. induction bs as [|b r IH]; intros a a' H Ha He; simpl in *; [lia|].
  destruct H as (? & ? & ? & ? & H). split_and!; try done; [lia|]. eapply IH; [exact H|lia|lia].
Qed.

(** No two blocks overlap. *)
Lemma laid_disjoint a xs b ys e c :
  laid a (xs ++ b :: ys) e -> c ∈ xs ++ ys ->
  b_addr c + 32 + b_size c <= b_addr b \/ b_addr b + 32 + b_size b <= b_addr c.
Proof.
  intros (Hx & Hy & _)%laid_cut [Hc|Hc]%elem_of_app.
  - left. pose proof (laid_in _ _ _ _ Hx Hc). lia.
  - right. pose proof (laid_in _ _ _ _ Hy Hc). lia.
Qed.

(** ** Running loads and stores *)

Lemma ld_run {B} n a v (k : Z -> M heap B) s : load n (hp_mem s) a = Some v -> bind (ld n a) k s = k v s.
Proof. intros E. unfold ld. rewrite bind_assoc, bind_get, E. done. Qed.

Lemma st_run n a v s :
  mapped (hp_mem s) a (Z.of_nat n) -> exists m', store n (hp_mem s) a v = Some m' /\
    st n a v s = Ret tt (hp_with_mem m' s) /\
    (forall b k, mapped (hp_mem s) b k -> mapped m' b k).
Proof.
  intros H. destruct (store_mapped n (hp_mem s) a v H) as [m' E]. exists m'. split_and!; [done| |].
  - unfold st. by rewrite bind_get, E.
  - intros b k. by eapply store_keeps_mapped.
Qed.

Lemma hp_twice (m m' : mem) (s : heap) : hp_with_mem m' (hp_with_mem m s) = hp_with_mem m' s.
Proof. done. Qed.

End blocks.

Ltac mapped_tac :=
  simpl; repeat match goal with
  | K : forall b k, mapped ?m0 b k -> mapped ?m1 b k |- mapped ?m1 _ _ => apply K
  end;
  match goal with
  | H : mapped ?m ?a ?k |- mapped ?m ?b ?n => solve [apply (mapped_sub m a k b n H); lia]
  end.

(** Run the store at the head of the goal; its address is in a mapped region. *)
Ltac run_st :=
  match goal with
  | |- context [bind (st ?n ?a ?v) _ ?s] =>
      let m := fresh "m" in let E := fresh "E" in let R := fresh "R" in let K := fresh "K" in
      destruct (st_run n a v s) as (m & E & R & K);
      [mapped_tac|rewrite (bind_Ret _ _ _ _ _ R), ?hp_twice; clear R; simpl in E, K]
  | |- context [st ?n ?a ?v ?s] =>
      let m := fresh "m" in let E := fresh "E" in let R := fresh "R" in let K := fresh "K" in
      destruct (st_run n a v s) as (m & E & R & K);
      [mapped_tac|rewrite R, ?hp_twice; clear R; simpl in E, K]
  end.

(** Run the load at the head of the goal, whose value [v] the hypotheses give. *)
Ltac run_ld v := rewrite (ld_run _ _ v) by (simpl; mem_ld; first [assumption|done|(f_equal; lia)]).

Section taking.
Context {OS : Type} `{!PageSource OS}.
Local Abbreviation heap := (heap OS).
Implicit Types s : heap.

(** [split_block] on a block large enough to split: the header of the block and of
    the rest, and [prev] of the next block. *)
Lemma split_run s b nx pv size :
  hdr (hp_mem s) b nx pv -> 0 < b_addr b -> 0 <= size ->
  size + 64 <= b_size b -> b_addr b + 32 + b_size b < 2 ^ 63 ->
  mapped (hp_mem s) (b_addr b) (32 + b_size b) ->
  (nx = 0 \/ b_addr b + 32 + b_size b <= nx < 2 ^ 63 /\ mapped (hp_mem s) nx 32) ->
  let nb := b_addr b + 32 + size in
  exists m', split_block (b_addr b) size s = Ret (b_addr b) (hp_with_mem m' s) /\
    hdr m' (mkBlock (b_addr b) size (b_free b)) nb pv /\
    hdr m' (mkBlock nb (b_size b - size - 32) true) nx (b_addr b) /\
    (nx <> 0 -> load 8 m' (nx + 24) = Some nb) /\
    (forall x, ~ (b_addr b <= x < b_addr b + 32) -> ~ (nb <= x < nb + 32) ->
       (nx = 0 \/ ~ (nx + 24 <= x < nx + 32)) -> m' !! x = hp_mem s !! x) /\
    (forall a k, mapped (hp_mem s) a k -> mapped m' a k).
Proof.
  intros [H1 H2 H3 H4] Ha Hs Hle Hb Hm Hnx nb.
  unfold split_block, ld_size, ld_next, st_size, st_free, st_next, st_prev, HEADER_SIZE, MIN_BLOCK.
  rewrite (ld_run _ _ _ _ _ H1). rewrite !wrap_small by lia.
  destruct (Z.ltb_spec (b_size b) (size + 32 + 32)); [lia|].
  replace (b_addr b + 32 + size) with nb by done.
  assert (mapped (hp_mem s) nb 32) as Hmn by (apply (mapped_sub _ (b_addr b) (32 + b_size b)); [done|lia|lia]).
  run_st. run_st. run_ld nx. run_st. run_st. run_ld nx. unfold truth.
  destruct (Z.eqb_spec nx 0) as [->|Hne]; simpl;
    [rewrite bind_ret|destruct Hnx as [|[Hnx Hmx]]; [done|]; run_st]; run_st; run_st;
    (eexists; split; [done|split_and!]).
  all: try (split; simpl; mem_ld; done).
  all: try (intros; mem_ld; done).
  all: try (intros x Hx1 Hx2 Hx3; mem_frame; done).
  all: eauto 10.
Qed.

(** ** Replacing a segment of the list *)

Fixpoint end_of (a : Z) (bs : list block) : Z :=
  match bs with [] => a | b :: r => end_of (b_addr b + 32 + b_size b) r end.

Lemma laid_end a bs e : laid a bs e -> laid a bs (end_of a bs) /\ end_of a bs <= e.
Proof.
  revert a. induction bs as [|b r IH]; intros a; simpl; [lia|].
  intros (? & ? & ? & ? & [? ?]%IH). split_and!; done.
Qed.

Lemma laid_after a bs c ys e : laid a bs c -> laid c ys e -> laid (end_of a bs) ys e.
Proof. intros Hb Hy. apply laid_end in Hb as [_ Hb]. eapply laid_weaken; [exact Hy|done|lia]. Qed.

Lemma laid_mid a xs o os ys e :
  laid a (xs ++ (o :: os) ++ ys) e ->
  laid a xs (b_addr o) /\ laid (b_addr o) (o :: os) (end_of (b_addr o) (o :: os)) /\
  laid (end_of (b_addr o) (o :: os)) ys e.
Proof.
  intros H. pose proof H as H'. simpl in H'. apply laid_cut in H' as (Hx & Hr & ? & ? & ? & ?).
  apply laid_app in Hr as (c & Hos & Hys). split; [done|]. split.
  - simpl. split_and!; try done. by eapply laid_end.
  - simpl. by eapply laid_after.
Qed.

(** The memory [m'] holds [zs] where [s] holds the blocks [o :: os]: the bytes outside
    their span are kept, except [prev] of the block that follows. *)
Record replaced (s : heap) (xs : list block) (o : block) (os zs ys : list block) (m' : mem) : Prop := {
  rp_first : first_addr zs 0 = b_addr o;
  rp_ne : zs <> [];
  rp_laid : laid (b_addr o) zs (end_of (b_addr o) (o :: os));
  rp_chain : chain m' (last_addr 0 xs) zs (first_addr ys 0);
  rp_prev : forall y ys', ys = y :: ys' -> load 8 m' (b_addr y + 24) = Some (last_addr 0 zs);
  rp_keep : forall x, ~ (b_addr o <= x < end_of (b_addr o) (o :: os)) ->
    (forall y ys', ys = y :: ys' -> ~ (b_addr y + 24 <= x < b_addr y + 32)) -> m' !! x = hp_mem s !! x;
  rp_mapped : forall a k, mapped (hp_mem s) a k -> mapped m' a k
}.

Lemma last_addr_ne pv pv' bs : bs <> [] -> last_addr pv bs = last_addr pv' bs.
Proof. by destruct bs. Qed.

Lemma first_addr_ne nx nx' bs : bs <> [] -> first_addr bs nx = first_addr bs nx'.
Proof. by destruct bs. Qed.

Lemma wf_replace s xs o os zs ys m' :
  heap_wf s (xs ++ (o :: os) ++ ys) -> replaced s xs o os zs ys m' ->
  heap_wf (hp_with_mem m' s) (xs ++ zs ++ ys) /\
  (forall b x, b ∈ xs ++ ys -> b_addr b + 32 <= x < b_addr b + 32 + b_size b ->
     m' !! x = hp_mem s !! x).
Proof.
  intros Hw [Hf Hne Hlz Hcz Hp Hk Hm]. destruct (laid_mid _ _ _ _ _ _ (hw_laid _ _ Hw)) as (Lx & Lo & Ly).
  assert (forall b x, b ∈ xs -> b_addr b <= x < b_addr b + 32 + b_size b -> m' !! x = hp_mem s !! x) as Kx.
  { intros b x Hb Hx. pose proof (laid_in _ _ _ _ Lx Hb). pose proof (laid_le _ _ _ Lo). apply Hk; [lia|].
    intros y ys' ->. pose proof (laid_in _ _ _ y Ly ltac:(left)). lia. }
  assert (forall b x, b ∈ ys -> b_addr b <= x < b_addr b + 32 + b_size b ->
    (forall y ys', ys = y :: ys' -> ~ (b_addr y + 24 <= x < b_addr y + 32)) -> m' !! x = hp_mem s !! x) as Ky.
  { intros b x Hb Hx Hn. pose proof (laid_in _ _ _ _ Ly Hb). apply Hk; [lia|done]. }
  pose proof (hw_chain _ _ Hw) as Hc. rewrite !chain_app in Hc. destruct Hc as (Cx & _ & Cy).
  split; [split; simpl|].
  - apply Hw.
  - rewrite (hw_head _ _ Hw), !first_addr_app. simpl. destruct xs; simpl; [|done].
    by rewrite (first_addr_ne _ 0).
  - rewrite !chain_app. split_and!.
    + rewrite first_addr_app, (first_addr_ne _ 0), Hf by done. eapply chain_ext; [|exact Cx].
      intros b x Hb Hx. apply (Kx b); [done|]. pose proof (laid_in _ _ _ _ Lx Hb). lia.
    + done.
    + rewrite (last_addr_ne _ 0) by done. destruct ys as [|y ys]; simpl in *; [done|].
      destruct Cy as [[C1 C2 C3 C4] Cy]. destruct Ly as (? & ? & _ & _ & Ly). split; [split|].
      1: rewrite <- C1. 2: rewrite <- C2. 3: rewrite <- C3.
      1-3: apply load_ext; intros x Hx; eapply (Ky y); [left|lia|intros ? ? [= <- <-]; lia].
      * by eapply Hp.
      * eapply chain_ext; [|exact Cy]. intros b x Hb Hx. pose proof (laid_in _ _ _ _ Ly Hb).
        apply (Ky b); [by right|lia|]. intros ? ? [= <- <-]. lia.
  - apply laid_app. exists (b_addr o). split; [done|]. apply laid_app.
    exists (end_of (b_addr o) (o :: os)). done.
  - apply Hm, Hw.
  - apply Hw.
  - apply Hw.
  - by destruct xs, zs.
  - intros b x [Hb|Hb]%elem_of_app Hx; [apply (Kx b); [done|lia]|]. apply (Ky b); [done|lia|].
    intros y ys' ->. apply elem_of_cons in Hb as [->|Hb]; [lia|].
    simpl in Ly. destruct Ly as (_ & ? & _ & _ & Ly). pose proof (laid_in _ _ _ _ Ly Hb). lia.
Qed.

(** ** Taking a block *)

(** The list after [b] served a request of [size] bytes. *)
Definition alloc_list (b : block) (size : Z) : list block :=
  if b_size b <? size + 64 then [mkBlock (b_addr b) (b_size b) false]
  else [mkBlock (b_addr b) size false; mkBlock (b_addr b + 32 + size) (b_size b - size - 32) true].

(** What well-formedness says of one block of the list. *)
Lemma wf_block s xs b ys :
  heap_wf s (xs ++ b :: ys) ->
  hdr (hp_mem s) b (first_addr ys 0) (last_addr 0 xs) /\
  0 < b_addr b /\ 0 <= b_size b /\ b_addr b + 32 + b_size b < 2 ^ 63 /\
  b_size b mod 16 = 0 /\ b_addr b mod 16 = 0 /\
  mapped (hp_mem s) (b_addr b) (32 + b_size b).
Proof.
  intros Hw. pose proof (hw_chain _ _ Hw) as Hc. rewrite chain_app in Hc. destruct Hc as (_ & Hh & _).
  pose proof (laid_in _ _ _ b (hw_laid _ _ Hw) ltac:(set_solver)).
  pose proof (laid_cut _ _ _ _ _ (hw_laid _ _ Hw)) as (_ & _ & _ & ? & ? & _).
  pose proof (hw_base _ _ Hw). pose proof (hw_size _ _ Hw). split_and!; try done; try lia.
  eapply mapped_sub; [apply (hw_mapped _ _ Hw)|lia|lia].
Qed.

(** The block after [b]. *)
Lemma wf_next s xs b ys :
  heap_wf s (xs ++ b :: ys) ->
  first_addr ys 0 = 0 /\ ys = [] \/
  exists y ys', ys = y :: ys' /\ first_addr ys 0 = b_addr y /\
    b_addr b + 32 + b_size b <= b_addr y < 2 ^ 63 /\ mapped (hp_mem s) (b_addr y) 32.
Proof.
  intros Hw. destruct ys as [|y ys']; [by left|right]. exists y, ys'.
  pose proof (laid_cut _ _ _ _ _ (hw_laid _ _ Hw)) as (_ & Hy & _). simpl in Hy.
  change (b :: y :: ys') with ([b] ++ y :: ys') in Hw. rewrite (assoc_L (++)) in Hw.
  destruct (wf_block _ _ _ _ Hw) as (_ & ? & ? & ? & _ & _ & Hm). split_and!; try done; try lia.
  eapply mapped_sub; [exact Hm|lia|lia].
Qed.

Lemma alloc_run s xs b ys size :
  heap_wf s (xs ++ b :: ys) -> b_free b = true -> 0 <= size -> size mod 16 = 0 -> size <= b_size b ->
  exists m', bind (split_block (b_addr b) size) (λ c, st_free c 0 ;;; ret (Some (u64 (c + HEADER_SIZE)))) s
      = Ret (Some (b_addr b + 32)) (hp_with_mem m' s) /\
    replaced s xs b [] (alloc_list b size) ys m'.
Proof.
  intros Hw Hfree Hs0 Hs16 Hsz. destruct (wf_block _ _ _ _ Hw) as (Hh & Ha & Hb0 & Hb & Hb16 & Ha16 & Hm).
  unfold alloc_list. destruct (Z.ltb_spec (b_size b) (size + 64)) as [Hlt|Hge].
  - unfold split_block, ld_size. destruct (id Hh) as [H1 H2 H3 H4]. rewrite bind_assoc, (ld_run _ _ _ _ _ H1).
    unfold HEADER_SIZE, MIN_BLOCK. rewrite wrap_small by lia.
    destruct (Z.ltb_spec (b_size b) (size + 32 + 32)); [|lia]. rewrite bind_ret. unfold st_free.
    run_st. rewrite wrap_small by lia. exists m. split; [done|]. split; simpl; try done.
    + split; [|done]. split; simpl; mem_ld; done.
    + intros y ys' ->. destruct (wf_next _ _ _ _ Hw) as [[_ ?]|(y' & ys'' & [= -> ->] & _ & ? & _)]; [done|].
      pose proof (wf_block s (xs ++ [b]) y' ys'') as Hy. rewrite <- (assoc_L (++)) in Hy.
      destruct (Hy Hw) as ([_ _ _ Hp] & _). rewrite last_addr_app in Hp. simpl in Hp. by mem_ld.
    + intros x Hx _. mem_frame. done.
  - destruct (split_run s b (first_addr ys 0) (last_addr 0 xs) size) as (m1 & E1 & Hb1 & Hn1 & Hp1 & Hk1 & Hm1);
      try done; try lia.
    { destruct (wf_next _ _ _ _ Hw) as [[-> _]|(y & ys' & -> & -> & ? & ?)]; [by left|by right]. }
    rewrite (bind_Ret _ _ _ _ _ E1). unfold st_free. destruct (id Hb1) as [H1 H2 H3 H4]. simpl in *.
    pose proof (Hm1 _ _ Hm) as Hmm. run_st. unfold HEADER_SIZE. rewrite wrap_small by lia.
    exists m. split; [done|].
    split; simpl; try done.
    + split_and!; try done; try lia.
      * by apply (mod16_sub (b_size b - size) 32); [apply mod16_sub|].
      * by apply (mod16_add (b_addr b + 32) size); [apply mod16_add|].
    + split; [split; simpl; mem_ld; done|]. split; [|done].
      destruct Hn1 as [N1 N2 N3 N4]. split; simpl in *; mem_ld; done.
    + intros y ys' ->. destruct (wf_next _ _ _ _ Hw) as [[_ ?]|(y' & ys'' & [= -> ->] & _ & ? & _)]; [done|].
      simpl in Hp1. mem_ld. apply Hp1. lia.
    + intros x Hx Hy. mem_frame. apply Hk1; [lia|lia|]. destruct ys as [|y ys']; [by left|right].
      by apply (Hy y ys').
    + intros a k Hak. apply K, Hm1, Hak.
Qed.

(** ** The search *)

Definition fits (size : Z) (b : block) : bool := b_free b && (size <=? b_size b).

Lemma fit_loop_run bs s fuel pv size :
  chain (hp_mem s) pv bs 0 -> Forall (λ b, 0 < b_addr b) bs -> (length bs < fuel)%nat ->
  (Forall (λ b, fits size b = false) bs /\ fit_loop fuel (first_addr bs 0) size s = Ret None s) \/
  (exists xs b ys, bs = xs ++ b :: ys /\ Forall (λ b, fits size b = false) xs /\ fits size b = true /\
     fit_loop fuel (first_addr bs 0) size s =
     bind (split_block (b_addr b) size)
       (λ c, st_free c 0 ;;; ret (Some (u64 (c + HEADER_SIZE)))) s).
Proof.
  revert pv fuel. induction bs as [|b r IH]; intros pv [|fuel] Hc Ha Hf; simpl in *; try lia.
  { by left. }
  destruct Hc as [[H1 H2 H3 H4] Hc]. apply Forall_cons in Ha as [Hb Ha].
  destruct (Z.eqb_spec (b_addr b) 0); [lia|].
  unfold ld_free, ld_size, ld_next. rewrite (ld_run _ _ _ _ _ H2), (ld_run _ _ _ _ _ H1).
  replace (truth (if b_free b then 1 else 0) && (size <=? b_size b)) with (fits size b) by (by destruct b as [? ? []]).
  destruct (fits size b) eqn:Eb.
  - right. exists [], b, r. split_and!; done.
  - rewrite (ld_run _ _ _ _ _ H3). destruct (IH _ fuel Hc Ha) as [[Hall E]|(xs & c & ys & -> & Hx & Hfit & E)]; [lia|..].
    + left. split; [by constructor|done].
    + right. exists (b :: xs), c, ys. split_and!; [done|by constructor|done|done].
Qed.

Lemma wf_addrs s bs : heap_wf s bs -> Forall (λ b, 0 < b_addr b) bs.
Proof.
  intros Hw. apply Forall_forall. intros b Hb. pose proof (laid_in _ _ _ b (hw_laid _ _ Hw) Hb).
  pose proof (hw_base _ _ Hw). lia.
Qed.

End taking.

Section growth.
Context {OS : Type} `{!PageSource OS} (junk : Z -> Z).
Local Abbreviation heap := (heap OS).
Implicit Types s : heap.

(** ** One more page *)

Lemma fresh_bytes_lookup v m x :
  fresh_bytes junk v m !! x = if decide (v <= x < v + 4096) then Some (u8 (junk x)) else m !! x.
Proof.
  unfold fresh_bytes. assert (forall l, foldr (λ i m, <[v + i := u8 (junk (v + i))]> m) m l !! x =
    if decide (x - v ∈ l) then Some (u8 (junk x)) else m !! x) as ->.
  { induction l as [|i l IH]; cbn [foldr]; [by rewrite decide_False by apply not_elem_of_nil|].
    destruct (decide (i = x - v)) as [->|Hne].
    - replace (v + (x - v)) with x by lia. rewrite lookup_insert_eq, decide_True by left. done.
    - rewrite lookup_insert_ne by lia. rewrite IH. destruct (decide (x - v ∈ l)).
      + by rewrite decide_True by by right.
      + rewrite decide_False; [done|]. rewrite elem_of_cons. naive_solver. }
  destruct (decide (x - v ∈ _)) as [H|H]; rewrite elem_of_seqZ in H.
  - by rewrite decide_True by lia.
  - by rewrite decide_False by lia.
Qed.

#[global] Opaque fresh_bytes.

Definition oom {A} (o : outcome heap A) : Prop :=
  exists s', o = Panic "heap oom" s' \/ o = Panic "paging oom" s'.

Lemma oom_bind {A B} (m : M heap A) (k : A -> M heap B) s : oom (m s) -> oom (bind m k s).
Proof. intros (s' & [E|E]); exists s'; [left|right]; by apply bind_Panic. Qed.

(** The state after one page was mapped at the end of the heap. *)
Definition grown junk (s : heap) (o : OS) : heap :=
  mkHeap o (fresh_bytes junk (heap_virt_base s + heap_mapped s) (hp_mem s)) (heap_head s)
    (heap_mapped s + 4096) (heap_virt_base s) (slab_caches s).

Definition page_room (s : heap) : Prop :=
  ps_ok (hp_os s) /\ 0 <= heap_virt_base s < 2 ^ 62 /\ 0 <= heap_mapped s /\
  heap_mapped s + 4096 * Z.of_nat (pages_left (hp_os s)) <= 2 ^ 62.

(** A page that was obtained is mapped, or the page tables run out of memory. *)
Lemma map_one_run s phys :
  page_room s -> heap_mapped s < 2 ^ 62 -> 0 <= phys < 2 ^ 64 ->
  (exists o, map_one junk phys s = Ret tt (grown junk s o) /\ ps_ok o /\
     (pages_left o <= pages_left (hp_os s))%nat) \/ oom (map_one junk phys s).
Proof.
  intros (Ho & Hb & Hm & Hr) Hlt Hp. unfold map_one. rewrite bind_get.
  rewrite (wrap_small 64 (heap_virt_base s + heap_mapped s)) by lia.
  destruct (map_page_law (hp_os s) (heap_virt_base s + heap_mapped s) phys Ho Hp)
    as [(o & E & Ho' & Hl)|(o & E)].
  - left. exists o. unfold bind at 1, zoom. rewrite E. rewrite !bind_modify. unfold modify.
    simpl. rewrite wrap_small by lia. done.
  - right. unfold bind at 1, zoom. rewrite E. eexists. by right.
Qed.

(** [pmm_alloc_page] then the mapping, as in [heap_map_more]. *)
Lemma heap_map_more_page s needed fuel :
  page_room s -> heap_mapped s < needed ->
  (exists o, heap_map_more junk (S fuel) needed s = heap_map_more junk fuel needed (grown junk s o) /\
     ps_ok o /\ (pages_left o < pages_left (hp_os s))%nat) \/ oom (heap_map_more junk (S fuel) needed s).
Proof.
  intros Hr Hn. simpl. rewrite bind_get. destruct (Z.ltb_spec (heap_mapped s) needed); [|lia].
  destruct Hr as (Ho & Hb & Hm & Hr). destruct (get_page_law _ Ho) as (a & o & E & Ho' & Ha & Hl).
  assert (zoom hp_os hp_with_os get_page s = Ret a (hp_with_os o s)) as Ez by (unfold zoom; by rewrite E).
  rewrite (bind_Ret _ _ _ _ _ Ez). destruct (Z.eqb_spec a 0); [right; eexists; by left|].
  specialize (Hl ltac:(done)).
  destruct (map_one_run (hp_with_os o s) a) as [(o' & E' & Ho'' & Hl')|E']; simpl; try done.
  { unfold page_room. simpl. split_and!; try done; lia. }
  { lia. }
  - left. exists o'. simpl in Hl'. rewrite (bind_Ret _ _ _ _ _ E'). split_and!; [done|done|lia].
  - right. by apply oom_bind.
Qed.

Lemma tail_loop_run xs b s fuel pv :
  chain (hp_mem s) pv (xs ++ [b]) 0 -> Forall (λ b, 0 < b_addr b) (xs ++ [b]) -> (length xs < fuel)%nat ->
  tail_loop fuel (first_addr (xs ++ [b]) 0) s = Ret (b_addr b) s.
Proof.
  revert pv fuel. induction xs as [|x xs IH]; intros pv [|fuel] Hc Ha Hf; simpl in *; try lia.
  - destruct Hc as [[H1 H2 H3 H4] _]. unfold ld_next. by rewrite (ld_run _ _ _ _ _ H3).
  - destruct Hc as [[H1 H2 H3 H4] Hc]. apply Forall_cons in Ha as [_ Ha].
    unfold ld_next. rewrite (ld_run _ _ _ _ _ H3). unfold truth.
    assert (0 < first_addr (xs ++ [b]) 0) by (destruct xs; simpl in *; by apply Forall_cons in Ha as [? _]).
    destruct (Z.eqb_spec (first_addr (xs ++ [b]) 0) 0); [lia|]. apply (IH (b_addr x)); [done|done|lia].
Qed.

Lemma wf_room s bs : heap_wf s bs -> page_room s.
Proof.
  intros Hw. pose proof (hw_base _ _ Hw). pose proof (hw_size _ _ Hw).
  unfold page_room. split_and!; try lia. apply Hw.
Qed.

Lemma heap_map_more_done s needed fuel :
  needed <= heap_mapped s -> heap_map_more junk (S fuel) needed s = Ret tt s.
Proof. intros H. simpl. rewrite bind_get. destruct (Z.ltb_spec (heap_mapped s) needed); [lia|done]. Qed.

(** One page is mapped; nothing else happens to the heap. *)
Lemma heap_map_more_one s bs fuel :
  heap_wf s bs -> (2 <= fuel)%nat ->
  (exists o, heap_map_more junk fuel (u64 (heap_mapped s + 4096)) s = Ret tt (grown junk s o) /\ ps_ok o /\
     (pages_left o < pages_left (hp_os s))%nat /\ heap_mapped s < 2 ^ 62) \/
  oom (heap_map_more junk fuel (u64 (heap_mapped s + 4096)) s).
Proof.
  intros Hw Hf. destruct fuel as [|[|fuel]]; [lia|lia|]. pose proof (wf_room _ _ Hw) as Hr.
  pose proof (hw_size _ _ Hw) as (Hm & _ & Hl). rewrite wrap_small by lia.
  destruct (heap_map_more_page s (heap_mapped s + 4096) (S fuel) Hr) as [(o & E & Ho & Hlt)|H]; [lia| |by right].
  left. exists o. rewrite E, heap_map_more_done by (simpl; lia). split_and!; [done..|lia].
Qed.

Lemma grow_run s bs fuel :
  heap_wf s bs -> (S (length bs) < fuel)%nat ->
  (exists s', grow junk fuel s = Ret tt s' /\
     heap_wf s' (bs ++ [mkBlock (heap_virt_base s + heap_mapped s) 4064 true]) /\
     slab_caches s' = slab_caches s /\ (pages_left (hp_os s') < pages_left (hp_os s))%nat /\
     (forall b x, b ∈ bs -> b_addr b + 32 <= x < b_addr b + 32 + b_size b ->
        hp_mem s' !! x = hp_mem s !! x)) \/
  oom (grow junk fuel s).
Proof.
  intros Hw Hf. unfold grow. rewrite bind_get.
  assert (0 < length bs)%nat by (pose proof (hw_ne _ _ Hw); destruct bs; simpl; done || lia).
  destruct (heap_map_more_one s bs fuel Hw) as [(o & E & Ho & Hlt & Hmax)|H0];
    [lia|left|right; by apply oom_bind].
  rewrite (bind_Ret _ _ _ _ _ E), bind_get. clear E.
  pose proof (hw_base _ _ Hw) as [Hb Hb16]. pose proof (hw_size _ _ Hw) as (Hs & Hs16 & Hl).
  set (na := heap_virt_base s + heap_mapped s).
  replace (u64 (heap_virt_base (grown junk s o) + heap_mapped (grown junk s o) - 4096)) with na
    by (simpl; rewrite wrap_small by lia; subst na; lia).
  change (heap_head (grown junk s o)) with (heap_head s).
  set (s1 := grown junk s o). pose proof (wf_addrs _ _ Hw) as Haddr.
  destruct (exists_last (hw_ne _ _ Hw)) as (xs & b & ->). pose proof (hw_head _ _ Hw) as Hhead.
  destruct (wf_block _ _ _ _ Hw) as (Hh & Ha & Hb0 & Hbt & _ & _ & Hbm).
  pose proof (laid_in _ _ _ b (hw_laid _ _ Hw) ltac:(set_solver)) as Hbl.
  assert (heap_head s <> 0) as Hne.
  { rewrite Hhead. destruct xs; simpl in *; apply Forall_cons in Haddr as [? _]; lia. }
  unfold truth. destruct (Z.eqb_spec (heap_head s) 0); [done|]. cbv beta iota delta [negb].
  assert (forall x, ~ (na <= x < na + 4096) -> hp_mem s1 !! x = hp_mem s !! x) as Hkeep.
  { intros x Hx. simpl. rewrite fresh_bytes_lookup, decide_False; [done|]. fold na. lia. }
  assert (chain (hp_mem s1) 0 (xs ++ [b]) 0) as Hc.
  { eapply chain_ext; [|apply Hw]. intros c x Hc Hx. apply Hkeep.
    pose proof (laid_in _ _ _ c (hw_laid _ _ Hw) Hc). subst na. lia. }
  rewrite bind_assoc, Hhead, (bind_Ret _ _ _ _ _ (tail_loop_run _ _ s1 fuel 0 Hc Haddr ltac:(rewrite length_app in Hf; simpl in Hf; lia))).
  assert (mapped (hp_mem s1) na 4096) as Hna.
  { intros x Hx. simpl. rewrite fresh_bytes_lookup, decide_True by (subst na; lia). done. }
  assert (mapped (hp_mem s1) (heap_virt_base s) (heap_mapped s)) as Hold.
  { intros x Hx. rewrite Hkeep by (subst na; lia). by apply (hw_mapped _ _ Hw). }
  assert (mapped (hp_mem s1) (b_addr b) 32) as Hbm1 by (eapply mapped_sub; [exact Hold|lia|lia]).
  unfold st_next, st_prev, st_size, st_free, HEADER_SIZE. rewrite bind_assoc.
  run_st. run_st. run_st. run_st. run_st.
  apply chain_app in Hc as [Cx [[D1 D2 D3 D4] _]].
  eexists. split; [reflexivity|]. split; [split|split; [reflexivity|split]].
  - exact Ho.
  - cbn [heap_head hp_with_mem]. change (heap_head s1) with (heap_head s).
    rewrite Hhead, first_addr_app. by destruct xs.
  - cbn [hp_mem hp_with_mem]. rewrite !chain_app. simpl. split; [split|].
    + eapply chain_ext; [|exact Cx]. intros c x Hc' Hx. pose proof (laid_cut _ _ _ _ _ (hw_laid _ _ Hw)) as (Lx & _).
      pose proof (laid_in _ _ _ c Lx Hc'). subst na. mem_frame. done.
    + split; [|done]. split; subst na; mem_ld; done.
    + rewrite last_addr_app. simpl. split; [|done]. split; subst na; simpl; mem_ld; done.
  - change (heap_virt_base (hp_with_mem m3 s1)) with (heap_virt_base s).
    change (heap_mapped (hp_with_mem m3 s1)) with (heap_mapped s + 4096).
    apply laid_app. exists na. split; [apply Hw|]. simpl. split_and!; try lia; [done|]. by apply mod16_add.
  - assert (mapped (hp_mem s1) (heap_virt_base s) (heap_mapped s + 4096)) as Hall.
    { intros x Hx. destruct (decide (x < na)); [apply Hold; lia|apply Hna; subst na; lia]. }
    cbn [hp_mem hp_with_mem heap_virt_base heap_mapped]. apply K3, K2, K1, K0, K, Hall.
  - apply (hw_base _ _ Hw).
  - cbn [hp_os heap_mapped hp_with_mem s1 grown]. split_and!; [lia| |lia]. by apply mod16_add.
  - by destruct xs.
  - exact Hlt.
  - cbn [hp_mem hp_with_mem]. intros c x Hc' Hx. pose proof (laid_in _ _ _ c (hw_laid _ _ Hw) Hc') as Hcl.
    rewrite <- Hkeep by (subst na; lia). destruct (decide (c = b)) as [->|Hcb]; [subst na; mem_frame; done|].
    assert (c ∈ xs ++ []) as Hcx.
    { rewrite app_nil_r. apply elem_of_app in Hc' as [Hc'|Hc'%list_elem_of_singleton]; [exact Hc'|contradiction]. }
    pose proof (laid_disjoint _ _ _ _ _ _ (hw_laid _ _ Hw) Hcx). subst na. mem_frame. done.
Qed.

End growth.

Section requests.
Context {OS : Type} `{!PageSource OS}.
Local Abbreviation heap := (heap OS).
Implicit Types s : heap.

(** ** kmalloc *)

(** The list after a successful block allocation. *)
Definition used_blocks (bs : list block) : list block := filter (λ b, b_free b = false) bs.

(** The payloads of the used blocks of [bs] keep their bytes. *)
Definition payload_kept (bs : list block) (s s' : heap) : Prop :=
  forall b x, b ∈ used_blocks bs -> b_addr b + 32 <= x < b_addr b + 32 + b_size b ->
    hp_mem s' !! x = hp_mem s !! x.

(** [s'] is [s] after a block for [size] bytes was allocated at [p]. *)
Definition allocated_at (s : heap) (bs : list block) (size p : Z) (s' : heap) (bs' : list block) : Prop :=
  heap_wf s' bs' /\ payload_kept bs s s' /\
  exists b xs ys, b_addr b + 32 = p /\ size <= b_size b /\ b_free b = false /\
    used_blocks bs' = xs ++ b :: ys /\ used_blocks bs = xs ++ ys.

Lemma used_app xs ys : used_blocks (xs ++ ys) = used_blocks xs ++ used_blocks ys.
Proof. apply filter_app. Qed.

Lemma used_alloc_list b size : b_free b = true ->
  exists c, used_blocks (alloc_list b size) = [c] /\ b_addr c = b_addr b /\ b_free c = false /\
    (size <= b_size b -> size <= b_size c).
Proof.
  intros Hb. unfold alloc_list. destruct (b_size b <? size + 64);
    eexists; (split; [vm_compute; reflexivity|]); simpl; split_and!; done || lia.
Qed.

Lemma used_free b : b_free b = true -> used_blocks [b] = [].
Proof. intros Hb. unfold used_blocks. rewrite filter_cons_False; [done|congruence]. Qed.

(** One round of the search in [kmalloc]. *)
Lemma fit_round s bs fuel size :
  heap_wf s bs -> 0 <= size -> size mod 16 = 0 -> (length bs < fuel)%nat ->
  (Forall (λ b, fits size b = false) bs /\ fit_loop fuel (heap_head s) size s = Ret None s) \/
  (exists p s' bs', fit_loop fuel (heap_head s) size s = Ret (Some p) s' /\ allocated_at s bs size p s' bs').
Proof.
  intros Hw H0 H16 Hf. rewrite (hw_head _ _ Hw).
  destruct (fit_loop_run bs s fuel 0 size (hw_chain _ _ Hw) (wf_addrs _ _ Hw) Hf)
    as [?|(xs & b & ys & -> & _ & Hfit & ->)]; [by left|right].
  unfold fits in Hfit. apply andb_true_iff in Hfit as [Hfree Hsz]. apply Z.leb_le in Hsz.
  destruct (alloc_run s xs b ys size Hw Hfree H0 H16 Hsz) as (m' & E & Hr).
  destruct (wf_replace s xs b [] _ ys _ Hw Hr) as [Hw' Hk].
  eexists _, _, _. split; [exact E|]. split; [exact Hw'|]. split.
  - intros c x Hc Hx. apply (Hk c); [|done]. unfold used_blocks in Hc. rewrite list_elem_of_filter in Hc.
    destruct Hc as [Hcf Hc]. apply elem_of_app in Hc as [|Hc]; [set_solver|].
    apply elem_of_cons in Hc as [->|]; [congruence|set_solver].
  - destruct (used_alloc_list b size Hfree) as (c & Hc & Hca & Hcf & Hcs).
    exists c, (used_blocks xs), (used_blocks ys). rewrite Hca. split_and!; [done|by apply Hcs|done| |].
    + by rewrite !used_app, Hc.
    + change (b :: ys) with ([b] ++ ys). by rewrite !used_app, used_free.
Qed.

Lemma align16_eq size :
  0 <= size < 2 ^ 64 - 15 -> align16 size = (size + 15) / 16 * 16 /\ size <= align16 size < size + 16 /\
    align16 size mod 16 = 0.
Proof.
  intros Hs. assert (align16 size = (size + 15) / 16 * 16) as ->.
  { unfold align16. rewrite (wrap_small 64 (size + 15)) by lia.
    transitivity (Z.shiftl (Z.shiftr (size + 15) 4) 4).
    - rewrite <- Z.ldiff_ones_r by lia. apply Z.bits_inj'. intros i Hi.
      rewrite Z.land_spec, Z.ldiff_spec, testbit_wrap, Z.lnot_spec by lia.
      change 15 with (Z.ones 4) at 2. destruct (Z.ltb_spec i 64); [by rewrite andb_true_r|].
      by rewrite (testbit_above 64 (size + 15) i) by lia.
    - by rewrite Z.shiftr_div_pow2, Z.shiftl_mul_pow2 by lia. }
  split; [done|]. split; [Z.to_euclidean_division_equations; lia|]. apply Z.mod_mul. lia.
Qed.

Lemma align16_fix size : 0 <= size < 2 ^ 64 - 15 -> size mod 16 = 0 -> align16 size = size.
Proof. intros Hs Hm. destruct (align16_eq size Hs) as [-> _]. Z.to_euclidean_division_equations. lia. Qed.

(** The caches never serve more than 512 bytes. *)
Definition caches_ok (s : heap) : Prop := Forall (λ c, object_size c <= 512) (slab_caches s).

Lemma slab_scan_none l i size :
  Forall (λ c, object_size c <= 512) l -> 512 < size -> slab_scan l i size = None.
Proof.
  intros H Hs. revert i. induction H as [|c l Hc _ IH]; intros i; simpl; [done|].
  destruct (Z.leb_spec size (object_size c)); [lia|done].
Qed.

End requests.

Section requests_kmalloc.
Context {OS : Type} `{!PageSource OS} (junk : Z -> Z).
Local Abbreviation heap := (heap OS).
Implicit Types s : heap.

Lemma kmalloc_unfold fuel size s :
  0 < size -> (size <=? SLAB_MAX_SIZE) && bool_decide (is_Some (slab_scan (slab_caches s) 0 size)) = false ->
  kmalloc junk (S fuel) size s =
    bind (fit_loop fuel (heap_head s) (align16 size)) (λ r, match r with
      | Some p => ret p
      | None => grow junk fuel ;;; kmalloc junk fuel (align16 size)
      end) s.
Proof.
  intros H0 Hc. simpl. destruct (Z.eqb_spec size 0); [lia|].
  destruct (size <=? SLAB_MAX_SIZE); simpl in Hc; [|done].
  unfold slab_find_cache. rewrite bind_gets. destruct (slab_scan _ _ _) eqn:E; [|done].
  by rewrite bool_decide_true in Hc by done.
Qed.

Lemma kmalloc_block fuel size s :
  caches_ok s -> 512 < size ->
  kmalloc junk (S fuel) size s =
    bind (fit_loop fuel (heap_head s) (align16 size)) (λ r, match r with
      | Some p => ret p
      | None => grow junk fuel ;;; kmalloc junk fuel (align16 size)
      end) s.
Proof.
  intros Hc Hs. apply kmalloc_unfold; [lia|]. rewrite slab_scan_none by done.
  rewrite bool_decide_false, andb_false_r; [done|]. by intros [].
Qed.

End requests_kmalloc.

Section release.
Context {OS : Type} `{!PageSource OS}.
Local Abbreviation heap := (heap OS).
Implicit Types s : heap.

(** ** kfree *)

Definition adjacent (b c : block) : Prop := b_addr c = b_addr b + 32 + b_size b.
Definition widen (b c : block) : block := mkBlock (b_addr b) (b_size b + 32 + b_size c) (b_free b).

(** The two halves of the coalescing on the list. *)
Definition join_next (b : block) (ys : list block) : list block :=
  match ys with
  | c :: ys' => if b_free c then widen b c :: ys' else b :: ys
  | [] => [b]
  end.

Fixpoint join_prev (xs : list block) (b : block) (ys : list block) : list block :=
  match xs with
  | [] => b :: ys
  | [p] => if b_free p then widen p b :: ys else p :: b :: ys
  | x :: xs' => x :: join_prev xs' b ys
  end.

Lemma join_prev_snoc xs p b ys :
  join_prev (xs ++ [p]) b ys = xs ++ (if b_free p then widen p b :: ys else p :: b :: ys).
Proof.
  induction xs as [|x xs IH]; [done|]. cbn [app]. rewrite <- IH.
  destruct (xs ++ [p]) eqn:E; [by destruct xs|reflexivity].
Qed.

Lemma wf_cons_next s xs b c ys :
  heap_wf s (xs ++ b :: c :: ys) ->
  hdr (hp_mem s) c (first_addr ys 0) (b_addr b) /\ 0 < b_addr c /\ 0 <= b_size c /\
  b_addr b + 32 + b_size b <= b_addr c /\ b_addr c + 32 + b_size c < 2 ^ 63 /\
  b_size c mod 16 = 0 /\ mapped (hp_mem s) (b_addr c) (32 + b_size c).
Proof.
  intros Hw. pose proof (laid_cut _ _ _ _ _ (hw_laid _ _ Hw)) as (_ & Hy & _). simpl in Hy.
  change (b :: c :: ys) with ([b] ++ c :: ys) in Hw. rewrite (assoc_L (++)) in Hw.
  destruct (wf_block _ _ _ _ Hw) as (Hh & ? & ? & ? & ? & _ & Hm). rewrite last_addr_app in Hh.
  simpl in Hh. split_and!; try done; lia.
Qed.

Lemma merge_next_run s xs b ys :
  heap_wf s (xs ++ b :: ys) ->
  (forall c ys', ys = c :: ys' -> b_free c = true -> adjacent b c) ->
  exists m', merge_next (b_addr b) s = Ret tt (hp_with_mem m' s) /\
    heap_wf (hp_with_mem m' s) (xs ++ join_next b ys) /\
    (forall d x, d ∈ xs ++ ys -> b_free d = false -> b_addr d + 32 <= x < b_addr d + 32 + b_size d ->
       m' !! x = hp_mem s !! x).
Proof.
  intros Hw Hadj. destruct (wf_block _ _ _ _ Hw) as ([H1 H2 H3 H4] & Ha & Hb0 & Hbt & Hb16 & _ & Hm).
  unfold merge_next, ld_next, ld_free, ld_size, st_size, st_next, st_prev.
  rewrite (ld_run _ _ _ _ _ H3). destruct ys as [|c ys]; simpl in *.
  { exists (hp_mem s). by destruct s. }
  destruct (wf_cons_next _ _ _ _ _ Hw) as ([C1 C2 C3 C4] & Hc & Hc0 & Hbc & Hct & Hc16 & Hcm).
  unfold truth. destruct (Z.eqb_spec (b_addr c) 0); [lia|]. simpl.
  rewrite (ld_run _ _ _ _ _ C2). destruct (b_free c) eqn:Ec; simpl; [|exists (hp_mem s); by destruct s].
  specialize (Hadj c ys eq_refl Ec). unfold adjacent in Hadj.
  rewrite (ld_run _ _ _ _ _ H1), (ld_run _ _ _ _ _ H3), (ld_run _ _ _ _ _ C1). unfold HEADER_SIZE.
  rewrite !wrap_small by (rewrite ?wrap_small by lia; lia).
  assert (heap_wf s ((xs ++ [b]) ++ c :: ys)) as Hw' by (by rewrite <- (assoc_L (++))).
  assert (0 <= first_addr ys 0 < 2 ^ 63) as Hfa
    by (destruct (wf_next s _ c ys Hw') as [[-> _]|(y & ys' & _ & -> & ? & _)]; lia).
  run_st. run_ld (b_addr c). run_ld (first_addr ys 0). run_st. run_ld (first_addr ys 0).
  assert (forall m', replaced s xs b [c] [widen b c] ys m' ->
    heap_wf (hp_with_mem m' s) (xs ++ widen b c :: ys) /\
    (forall d x, d ∈ xs ++ c :: ys -> b_free d = false -> b_addr d + 32 <= x < b_addr d + 32 + b_size d ->
       m' !! x = hp_mem s !! x)) as Hfin.
  { intros m' Hr. destruct (wf_replace s xs b [c] _ ys m' Hw Hr) as [Hw'' Hk]. split; [exact Hw''|].
    intros d x Hd Hdf Hx. apply (Hk d); [|exact Hx]. apply elem_of_app in Hd as [Hd|Hd]; [set_solver|].
    apply elem_of_cons in Hd as [->|Hd]; [congruence|set_solver]. }
  assert (laid (b_addr b) [widen b c] (end_of (b_addr b) [b; c])) as Hlz.
  { pose proof (laid_mid _ xs b [] _ _ (hw_laid _ _ Hw)) as (_ & Hl & _). simpl in *.
    split_and!; try lia; try tauto. apply mod16_add; [|done]. by apply mod16_add. }
  destruct (wf_next s _ c ys Hw') as [[En Ey]|(y & ys' & -> & Ey & Hy & Hym)].
  - rewrite En. simpl. eexists. split; [reflexivity|]. apply Hfin. split; try exact Hlz.
    + reflexivity.
    + done.
    + simpl. rewrite En. split; [|done]. split; simpl; mem_ld; congruence.
    + intros y ys' E'. by rewrite Ey in E'.
    + intros x Hx _. simpl in Hx. mem_frame. reflexivity.
    + auto.
  - rewrite Ey. destruct (Z.eqb_spec (b_addr y) 0); [lia|]. simpl. simpl in Ey. run_st.
    eexists. split; [reflexivity|]. apply Hfin. split; try exact Hlz.
    + reflexivity.
    + done.
    + simpl. split; [|done]. split; simpl; mem_ld; congruence.
    + intros z ys'' [= <- <-]. simpl. mem_ld.
    + intros x Hx Hx'. simpl in Hx. specialize (Hx' _ _ eq_refl). mem_frame. reflexivity.
    + auto.
Qed.

Lemma merge_prev_run s xs b ys :
  heap_wf s (xs ++ b :: ys) ->
  (forall xs' p, xs = xs' ++ [p] -> b_free p = true -> adjacent p b) -> b_free b = true ->
  exists m', merge_prev (b_addr b) s = Ret tt (hp_with_mem m' s) /\
    heap_wf (hp_with_mem m' s) (join_prev xs b ys) /\
    (forall d x, d ∈ xs ++ ys -> b_free d = false -> b_addr d + 32 <= x < b_addr d + 32 + b_size d ->
       m' !! x = hp_mem s !! x).
Proof.
  intros Hw Hadj Hbf. destruct (wf_block _ _ _ _ Hw) as ([H1 H2 H3 H4] & Ha & Hb0 & Hbt & Hb16 & _ & Hm).
  unfold merge_prev, ld_next, ld_prev, ld_free, ld_size, st_size, st_next, st_prev.
  rewrite (ld_run _ _ _ _ _ H4). destruct (decide (xs = [])) as [->|Hne]; simpl in *.
  { exists (hp_mem s). by destruct s. }
  destruct (exists_last Hne) as (xs' & p & ->). rewrite last_addr_app in H4 |- *. cbn [last_addr] in H4 |- *.
  rewrite join_prev_snoc. specialize (Hadj xs' p eq_refl). clear Hne.
  rewrite <- (assoc_L (++)) in Hw. simpl in Hw.
  destruct (wf_block _ _ _ _ Hw) as ([C1 C2 C3 C4] & Hc & Hc0 & Hct & Hc16 & _ & Hcm).
  destruct (wf_cons_next _ _ _ _ _ Hw) as (_ & _ & _ & Hbc & _).
  unfold truth. destruct (Z.eqb_spec (b_addr p) 0); [lia|]. simpl.
  rewrite (ld_run _ _ _ _ _ C2). destruct (b_free p) eqn:Ep; simpl;
    [|exists (hp_mem s); rewrite <- (assoc_L (++)); by destruct s].
  specialize (Hadj eq_refl). unfold adjacent in Hadj. simpl in C3.
  rewrite (ld_run _ _ _ _ _ C1), (ld_run _ _ _ _ _ H1). unfold HEADER_SIZE.
  rewrite !wrap_small by (rewrite ?wrap_small by lia; lia).
  assert (heap_wf s ((xs' ++ [p]) ++ b :: ys)) as Hw' by (by rewrite <- (assoc_L (++))).
  assert (0 <= first_addr ys 0 < 2 ^ 63) as Hfa
    by (destruct (wf_next s _ b ys Hw') as [[-> _]|(y & ys' & _ & -> & ? & _)]; lia).
  run_st. run_ld (b_addr p). run_ld (first_addr ys 0). run_st. run_ld (first_addr ys 0).
  assert (forall m', replaced s xs' p [b] [widen p b] ys m' ->
    heap_wf (hp_with_mem m' s) (xs' ++ widen p b :: ys) /\
    (forall d x, d ∈ (xs' ++ [p]) ++ ys -> b_free d = false -> b_addr d + 32 <= x < b_addr d + 32 + b_size d ->
       m' !! x = hp_mem s !! x)) as Hfin.
  { intros m' Hr. destruct (wf_replace s xs' p [b] _ ys m' Hw Hr) as [Hw'' Hk]. split; [exact Hw''|].
    intros d x Hd Hdf Hx. apply (Hk d); [|exact Hx]. rewrite !elem_of_app in *.
    destruct Hd as [[Hd|Hd%list_elem_of_singleton]|Hd]; [by left|congruence|by right]. }
  assert (laid (b_addr p) [widen p b] (end_of (b_addr p) [p; b])) as Hlz.
  { pose proof (laid_mid _ xs' p [] _ _ (hw_laid _ _ Hw)) as (_ & Hl & _). simpl in *.
    split_and!; try lia; try tauto. apply mod16_add; [|done]. by apply mod16_add. }
  destruct (wf_next s _ b ys Hw') as [[En Ey]|(y & ys' & -> & Ey & Hy & Hym)].
  - rewrite En. simpl. eexists. split; [reflexivity|]. apply Hfin. split; try exact Hlz.
    + reflexivity.
    + done.
    + simpl. rewrite En. split; [|done]. split; simpl; rewrite ?Ep; mem_ld; congruence.
    + intros y ys' E'. by rewrite Ey in E'.
    + intros x Hx _. simpl in Hx. mem_frame. reflexivity.
    + auto.
  - rewrite Ey. destruct (Z.eqb_spec (b_addr y) 0); [lia|]. simpl. simpl in Ey.
    run_ld (b_addr p). run_st.
    eexists. split; [reflexivity|]. apply Hfin. split; try exact Hlz.
    + reflexivity.
    + done.
    + simpl. split; [|done]. split; simpl; rewrite ?Ep; mem_ld; congruence.
    + intros z ys'' [= <- <-]. simpl. mem_ld.
    + intros x Hx Hx'. simpl in Hx. specialize (Hx' _ _ eq_refl). mem_frame. reflexivity.
    + auto.
Qed.

(** Marking a block free, as [kfree] does first. *)
Definition freed (b : block) : block := mkBlock (b_addr b) (b_size b) true.

Lemma mark_free_run s xs b ys :
  heap_wf s (xs ++ b :: ys) ->
  exists m', st_free (b_addr b) 1 s = Ret tt (hp_with_mem m' s) /\
    heap_wf (hp_with_mem m' s) (xs ++ freed b :: ys) /\
    (forall d x, d ∈ xs ++ ys -> b_addr d + 32 <= x < b_addr d + 32 + b_size d -> m' !! x = hp_mem s !! x).
Proof.
  intros Hw. destruct (wf_block _ _ _ _ Hw) as ([H1 H2 H3 H4] & Ha & Hb0 & Hbt & Hb16 & Ha16 & Hm).
  unfold st_free. run_st. exists m. split; [done|]. apply (wf_replace s xs b [] [freed b] ys m Hw).
  split; try done.
  - simpl. split_and!; done || lia.
  - simpl. split; [|done]. split; simpl; mem_ld; done.
  - intros y ys' ->. destruct (wf_cons_next _ _ _ _ _ Hw) as ([_ _ _ Hp] & _ & _ & ? & _). by mem_ld.
  - intros x Hx _. simpl in Hx. mem_frame. done.
Qed.

End release.

Section slabs.
Context {OS : Type} `{!PageSource OS}.
Local Abbreviation heap := (heap OS).
Implicit Types s : heap.

(** ** Slabs *)

(** The free objects [os] of a cache, linked through their first word. *)
Fixpoint objs (m : mem) (l : list Z) : Prop :=
  match l with
  | [] => True
  | o :: r => o <> 0 /\ load 8 m o = Some (hd 0 r) /\ objs m r
  end.

Record slab_wf (s : heap) (i : nat) (c : slab_cache) (l : list Z) : Prop := {
  sl_cache : slab_caches s !! i = Some c;
  sl_head : free_list c = hd 0 l;
  sl_objs : objs (hp_mem s) l;
  sl_size : 32 <= object_size c /\ object_size c * objects_per_slab c = 4096 /\ 2 <= objects_per_slab c
}.

(** The objects of the page at [ptr]. *)
Definition page_objs (c : slab_cache) (ptr : Z) : list Z :=
  (λ k, ptr + k * object_size c) <$> seqZ 0 (objects_per_slab c).

Definition took (c : slab_cache) (next : Z) : slab_cache := inc_allocated (set_free_list next c).

End slabs.

Section slabs_alloc.
Context {OS : Type} `{!PageSource OS} (junk : Z -> Z).
Local Abbreviation heap := (heap OS).
Implicit Types s : heap.

(** Taking the first object of a non-empty list. *)
Lemma slab_pop s i c o l :
  slab_wf s i c (o :: l) ->
  slab_take i s = Ret o (with_caches (<[i := took c (hd 0 l)]> (slab_caches s)) s) /\
  slab_wf (with_caches (<[i := took c (hd 0 l)]> (slab_caches s)) s) i (took c (hd 0 l)) l.
Proof.
  intros [Hc Hh (Ho & Hl & Hr) Hs]. simpl in Hh. split.
  - unfold slab_take. rewrite bind_get, Hc, bind_option, Hh, (ld_run _ _ _ _ _ Hl).
    unfold cache_update. rewrite !bind_modify. unfold ret. f_equal. unfold with_caches. simpl. f_equal.
    rewrite list_alter_alter_eq, list_insert_alter. apply list_alter_ext; [|done].
    intros c' ?. simpl in *. by simplify_eq.
  - split; simpl; [|done|done|done]. apply list_lookup_insert_eq. by eapply lookup_lt_Some.
Qed.

(** The loop that links the objects of a new page. *)
Lemma slab_link s (c : slab_cache) ptr :
  32 <= object_size c -> object_size c * objects_per_slab c = 4096 -> 2 <= objects_per_slab c ->
  0 < ptr < 2 ^ 63 -> mapped (hp_mem s) ptr 4096 ->
  exists m', (for_range 0 (objects_per_slab c - 1) (λ k,
      st 8 (ptr + k * object_size c) (ptr + (k + 1) * object_size c)) ;;;
    st 8 (ptr + (objects_per_slab c - 1) * object_size c) 0) s = Ret tt (hp_with_mem m' s) /\
    objs m' (page_objs c ptr) /\
    (forall x, ~ (ptr <= x < ptr + 4096) -> m' !! x = hp_mem s !! x) /\
    (forall a k, mapped (hp_mem s) a k -> mapped m' a k).
Proof.
  intros Hs Hn H2 Hp Hm. set (z := object_size c) in *. set (n := objects_per_slab c) in *.
  destruct (for_range_ind (λ k t, exists m, t = hp_with_mem m s /\
      (forall j, 0 <= j < k -> load 8 m (ptr + j * z) = Some (ptr + (j + 1) * z)) /\
      (forall x, ~ (ptr <= x < ptr + 4096) -> m !! x = hp_mem s !! x) /\
      (forall a l, mapped (hp_mem s) a l -> mapped m a l))
    (λ k, st 8 (ptr + k * z) (ptr + (k + 1) * z)) 0 (n - 1) s) as (t & Et & m & -> & L & F & K).
  - lia.
  - exists (hp_mem s). split; [by destruct s|]. split; [lia|done].
  - intros k t Hk (m & -> & L & F & K). assert ((k + 1) * z <= n * z) by nia. pose proof (K _ _ Hm) as Hmm.
    assert (0 <= k * z) by nia. run_st. eexists. split; [reflexivity|]. exists m0. split; [done|]. split_and!.
    + intros j Hj. destruct (decide (j = k)) as [->|].
      * eapply load8_same; [nia|exact E].
      * assert (j * z + z <= k * z) by nia.
        rewrite (load_store_other _ _ _ _ _ _ _ E) by lia. apply L. lia.
    + intros x Hx. assert (0 <= k * z) by nia. rewrite (store_frame _ _ _ _ _ _ E) by lia. by apply F.
    + auto.
  - rewrite (bind_Ret _ _ _ _ _ Et). pose proof (K _ _ Hm) as Hmm.
    assert (0 <= (n - 1) * z /\ (n - 1) * z + z <= 4096) as Hlast by nia.
    run_st. exists m0. split; [done|]. split_and!.
    + assert (forall k, 0 <= k < n -> load 8 m0 (ptr + k * z) =
        Some (if decide (k = n - 1) then 0 else ptr + (k + 1) * z)) as Hload.
      { intros k Hk. case_decide as Ek.
        - subst k. eapply load8_same; [lia|exact E].
        - assert (k * z + z <= (n - 1) * z) by nia.
          rewrite (load_store_other _ _ _ _ _ _ _ E) by lia. apply L. lia. }
      unfold page_objs. fold z n. clear -Hload Hp Hs.
      assert (forall d a, 0 <= a -> a + Z.of_nat d = n -> objs m0 ((λ k, ptr + k * z) <$> seqZ a (Z.of_nat d))) as H.
      { induction d as [|d IH]; intros a Ha Hd; [done|]. rewrite seqZ_cons by lia. cbn [fmap list_fmap objs].
        replace (Z.pred (Z.of_nat (S d))) with (Z.of_nat d) by lia.
        split; [nia|]. split; [|apply IH; lia]. rewrite Hload by lia. f_equal.
        case_decide as Ek.
        - assert (d = O) as -> by lia. done.
        - rewrite seqZ_cons by lia. simpl. lia. }
      destruct (decide (0 <= n)); [|by rewrite seqZ_nil by lia].
      replace n with (Z.of_nat (Z.to_nat n)) by lia. apply H; lia.
    + intros x Hx. assert (0 <= (n - 1) * z) by nia. rewrite (store_frame _ _ _ _ _ _ E) by lia. by apply F.
    + auto.
Qed.

Lemma get_page_run s :
  ps_ok (hp_os s) -> exists a o, zoom hp_os hp_with_os get_page s = Ret a (hp_with_os o s) /\ ps_ok o /\
    0 <= a < 2 ^ 64 /\ (a <> 0 -> (pages_left o < pages_left (hp_os s))%nat).
Proof.
  intros Ho. destruct (get_page_law _ Ho) as (a & o & E & Ho' & Ha & Hl). exists a, o.
  unfold zoom. by rewrite E.
Qed.

(** Refilling an empty cache from a new page at the end of the heap. *)
Lemma slab_refill_run s i c :
  page_room s -> slab_wf s i c [] -> 0 < heap_virt_base s ->
  (exists o, slab_refill junk i s = Ret false (hp_with_os o s)) \/ oom (slab_refill junk i s) \/
  (exists s' ptr, ptr = heap_virt_base s + heap_mapped s /\ slab_refill junk i s = Ret true s' /\
     slab_wf s' i (set_free_list ptr c) (page_objs c ptr) /\ heap_mapped s' = heap_mapped s + 4096 /\
     (forall x, ~ (ptr <= x < ptr + 4096) -> hp_mem s' !! x = hp_mem s !! x)).
Proof.
  intros (Ho & Hb & Hm & Hr) [Hc _ _ (Hs & Hn & H2)] Hpos. unfold slab_refill.
  destruct (get_page_run s Ho) as (a & o & E & Ho' & Ha & Hl). rewrite (bind_Ret _ _ _ _ _ E).
  destruct (Z.eqb_spec a 0) as [->|Hne]; [left; by exists o|right]. specialize (Hl Hne).
  destruct (map_one_run junk (hp_with_os o s) a) as [(o' & E' & Ho'' & Hl')|E']; [|simpl; lia|done| |].
  { unfold page_room. simpl. split_and!; try done; lia. }
  2: { left. by apply oom_bind. }
  right. rewrite (bind_Ret _ _ _ _ _ E'). unfold slab_grow. rewrite bind_assoc, bind_get, bind_assoc.
  set (s1 := grown junk (hp_with_os o s) o'). set (ptr := heap_virt_base s + heap_mapped s).
  change (slab_caches s1) with (slab_caches s). rewrite Hc, bind_option. unfold cache_update.
  rewrite bind_assoc, bind_modify.
  replace (u64 (heap_virt_base s1 + heap_mapped s1 - 4096)) with ptr
    by (simpl; rewrite wrap_small by lia; subst ptr; lia).
  destruct (slab_link (with_caches (alter (set_free_list ptr) i (slab_caches s1)) s1) c ptr)
    as (m' & El & Hobjs & Hf & _); [done|done|done|subst ptr; lia| |].
  { intros x Hx. cbn [hp_mem with_caches s1 grown]. rewrite fresh_bytes_lookup, decide_True; [done|].
    simpl. subst ptr. lia. }
  rewrite (bind_Ret _ _ _ _ _ El). eexists _, ptr. split; [done|]. split; [reflexivity|].
  split; [split|split; [reflexivity|]].
  - cbn [slab_caches hp_with_mem with_caches]. change (slab_caches s1) with (slab_caches s). by rewrite list_lookup_alter_eq, Hc.
  - unfold page_objs. rewrite seqZ_cons by lia. simpl. lia.
  - exact Hobjs.
  - done.
  - intros x Hx. cbn [hp_mem hp_with_mem with_caches]. rewrite Hf by done.
    cbn [hp_mem with_caches s1 grown]. rewrite fresh_bytes_lookup, decide_False; [done|]. exact Hx.
Qed.

(** ** Initialisation and accounting *)

Lemma heap_init_run fuel s :
  (2 <= fuel)%nat -> ps_ok (hp_os s) -> 4096 * Z.of_nat (pages_left (hp_os s)) <= 2 ^ 62 ->
  (exists s', heap_init junk fuel s = Ret tt s' /\
     heap_wf s' [mkBlock HEAP_VIRT_BASE 4064 true] /\ caches_ok s' /\ heap_mapped s' = 4096 /\
     (object_size <$> slab_caches s') = [32; 64; 128; 256; 512] /\
     forall i, (i < 5)%nat -> exists c, slab_wf s' i c []) \/ oom (heap_init junk fuel s).
Proof.
  intros Hf Ho Hl. unfold heap_init. rewrite !bind_modify. destruct fuel as [|[|fuel]]; [lia|lia|].
  set (s0 := with_mapped 0 _).
  destruct (heap_map_more_page junk s0 4096 (S fuel)) as [(o & E & Ho' & Hlt)|H]; [| |left|right; by apply oom_bind].
  { unfold page_room. simpl. unfold paging_heap_base, HEAP_VIRT_BASE. split_and!; done || lia. }
  { simpl. lia. }
  rewrite (heap_map_more_done junk (grown junk s0 o)) in E by (subst s0; simpl; lia).
  rewrite (bind_Ret _ _ _ _ _ E), bind_modify, bind_get. clear E. set (s1 := with_head _ _).
  change (heap_head s1) with HEAP_VIRT_BASE. change (heap_virt_base s0) with HEAP_VIRT_BASE in *.
  unfold st_size, st_free, st_next, st_prev.
  assert (forall x, HEAP_VIRT_BASE <= x < HEAP_VIRT_BASE + 4096 -> is_Some (hp_mem s1 !! x)) as Hm1.
  { intros x Hx. cbn [hp_mem s1 with_head grown]. rewrite fresh_bytes_lookup, decide_True; [done|].
    change (heap_virt_base s0 + heap_mapped s0) with HEAP_VIRT_BASE. exact Hx. }
  assert (mapped (hp_mem s1) HEAP_VIRT_BASE 4096) as Hm by exact Hm1. clear Hm1.
  assert (heap_virt_base s0 = HEAP_VIRT_BASE /\ heap_mapped s0 = 0 /\ hp_os s0 = hp_os s) as (Hb0 & Hm0 & Hos0) by done.
  clearbody s0. set (hb := HEAP_VIRT_BASE) in *. assert (hb = 0x40000000) as Ehb by done. clearbody hb.
  run_st. run_st. run_st. run_st. unfold slab_init, HEADER_SIZE in *.
  eexists. split; [reflexivity|]. split; [split|].
  - exact Ho'.
  - exact Hb0.
  - simpl. split; [|done]. split; simpl; mem_ld; done.
  - cbn. rewrite Hb0, Hm0. split_and!; first [lia|done|by rewrite Ehb].
  - cbn. rewrite Hb0, Hm0. by apply K2, K1, K0, K.
  - cbn. rewrite Hb0, Ehb. split; [lia|reflexivity].
  - cbn. rewrite Hm0. split_and!; [lia|done|]. rewrite Hos0 in Hlt. lia.
  - done.
  - split; [vm_compute; repeat constructor; discriminate|]. split; [cbn; by rewrite Hm0|]. split; [done|].
    intros i Hi. destruct i as [|[|[|[|[|i]]]]]; [..|lia]; (eexists; split; [reflexivity|done|done|vm_compute; intuition congruence]).
Qed.

Lemma used_loop_run bs s fuel pv acc :
  chain (hp_mem s) pv bs 0 -> Forall (λ b, 0 < b_addr b) bs -> (length bs < fuel)%nat -> 0 <= acc < 2 ^ 64 ->
  used_loop fuel (first_addr bs 0) acc s = Ret (u64 (acc + sum_list_with_Z b_size (used_blocks bs))) s.
Proof.
  revert pv fuel acc. induction bs as [|b r IH]; intros pv [|fuel] acc Hc Ha Hf Hacc; simpl in *; try lia.
  { unfold ret. f_equal. rewrite Z.add_0_r, wrap_small by lia. done. }
  destruct Hc as [[H1 H2 H3 H4] Hc]. apply Forall_cons in Ha as [Hb Ha].
  destruct (Z.eqb_spec (b_addr b) 0); [lia|].
  unfold ld_free, ld_size, ld_next. rewrite (ld_run _ _ _ _ _ H2), (ld_run _ _ _ _ _ H1), (ld_run _ _ _ _ _ H3).
  unfold used_blocks. rewrite filter_cons. destruct (b_free b); simpl.
  - apply (IH (b_addr b)); [done|done|lia|done].
  - rewrite (IH (b_addr b)); [|done|done|lia|apply wrap_bound; lia]. f_equal. unfold wrap.
    rewrite Z.add_mod_idemp_l by done. f_equal. unfold used_blocks. lia.
Qed.
End slabs_alloc.

(** ** Properties *)

Section properties.
Context {OS : Type} `{!PageSource OS} (junk : Z -> Z).
Implicit Types (s : heap OS) (bs xs ys : list block).

Lemma allocated_mono s bs size size' p s' bs' :
  size' <= size -> allocated_at s bs size p s' bs' -> allocated_at s bs size' p s' bs'.
Proof.
  intros Hle (Hw & Hk & b & xs & ys & Hp & Hs & H). split; [done|]. split; [done|].
  exists b, xs, ys. split_and!; try tauto. lia.
Qed.

(** No page that is appended can hold a block larger than a page. *)
Lemma kmalloc_big_run s bs size fuel :
  heap_wf s bs -> caches_ok s -> 4064 < size < 2 ^ 63 ->
  Forall (λ b, fits (align16 size) b = false) bs ->
  (length bs + 2 * pages_left (hp_os s) + 4 < fuel)%nat ->
  oom (kmalloc junk fuel size s).
Proof.
  intros Hw Hc Hs Hall. destruct (align16_eq size) as (_ & Ha & Ha16); [lia|]. revert Hall.
  assert (align16 size < 2 ^ 63 + 16) as Hmax by lia.
  assert (4064 < size) as Hmin by lia.
  remember (align16 size) as z eqn:Ez. assert (align16 z = z) as Efix by (apply align16_fix; lia).
  assert (4064 < z) as Hz by lia. symmetry in Ez. clear Hs Ha. revert size s bs Hmin Ez Hw Hc.
  induction fuel as [|fuel IH]; intros size s bs Hmin Ez Hw Hc Hall Hf; [lia|].
  rewrite kmalloc_block by (done || lia). rewrite Ez.
  destruct (fit_round s bs fuel z Hw) as [[_ E]|(p & s' & bs' & E & _)]; [lia|done|lia|..].
  2: { destruct (fit_loop_run bs s fuel 0 z (hw_chain _ _ Hw) (wf_addrs _ _ Hw)) as [[_ E']|(xs & b & ys & -> & _ & Hb & _)].
       - lia.
       - rewrite (hw_head _ _ Hw) in E. congruence.
       - rewrite Forall_app, Forall_cons in Hall. destruct Hall as (_ & ? & _). congruence. }
  rewrite (bind_Ret _ _ _ _ _ E).
  destruct (grow_run junk s bs fuel Hw) as [(s1 & E1 & Hw1 & Hc1 & Hl1 & _)|H]; [lia| |by apply oom_bind].
  rewrite (bind_Ret _ _ _ _ _ E1). eapply (IH z s1); [lia|done|exact Hw1| | |].
  - unfold caches_ok. by rewrite Hc1.
  - apply Forall_app. split; [done|]. constructor; [|done]. unfold fits. simpl.
    destruct (Z.leb_spec z 4064); [lia|done].
  - rewrite length_app. simpl. lia.
Qed.

(** C2. [kmalloc] of 513 to 4064 bytes on a well-formed heap returns a used block of
    at least that size or halts with an out-of-memory panic; the list stays well
    formed (ordered, disjoint, 16-byte aligned, doubly linked), the used blocks are
    the old ones and the new one, and no byte of their payloads changes. *)
Theorem kmalloc_spec s bs size fuel :
  heap_wf s bs -> caches_ok s -> 512 < size <= 4064 -> (length bs + 4 < fuel)%nat ->
  (exists p s' bs', kmalloc junk fuel size s = Ret p s' /\ allocated_at s bs size p s' bs') \/
  oom (kmalloc junk fuel size s).
Proof.
  intros Hw Hc Hs Hf. destruct fuel as [|[|fuel]]; [lia|lia|].
  destruct (align16_eq size) as (_ & Ha & Ha16); [lia|].
  assert (align16 size <= 4064) as Hmax by (Z.to_euclidean_division_equations; lia).
  rewrite kmalloc_block by (done || lia).
  destruct (fit_round s bs (S fuel) (align16 size) Hw) as [[Hall E]|(p & s' & bs' & E & H)]; [lia|done|lia|..];
    rewrite (bind_Ret _ _ _ _ _ E).
  2: { left. exists p, s', bs'. split; [done|]. eapply allocated_mono; [|exact H]. lia. }
  destruct (grow_run junk s bs (S fuel) Hw) as [(s1 & E1 & Hw1 & Hc1 & _ & Hk1)|H]; [lia| |right; by apply oom_bind].
  rewrite (bind_Ret _ _ _ _ _ E1), kmalloc_block by (unfold caches_ok; rewrite ?Hc1; done || lia).
  rewrite align16_fix by lia. left.
  destruct (fit_round s1 _ fuel (align16 size) Hw1) as [[Hall1 _]|(p & s' & bs' & E2 & Hw' & Hk & Hb)];
    [lia|done|rewrite length_app; simpl; lia|..].
  { apply Forall_app in Hall1 as [_ Hall1]. apply Forall_cons in Hall1 as [Hn _].
    unfold fits in Hn. simpl in Hn. destruct (Z.leb_spec (align16 size) 4064); [done|lia]. }
  rewrite (bind_Ret _ _ _ _ _ E2). exists p, s', bs'. split; [done|].
  apply (allocated_mono _ _ (align16 size)); [lia|]. split; [done|].
  rewrite (used_app bs), (used_free (mkBlock _ _ true)), app_nil_r in Hb by done.
  split; [|done]. intros b x Hb' Hx. rewrite (Hk b); [|rewrite used_app; set_solver|done].
  apply (Hk1 b); [|done]. unfold used_blocks in Hb'. apply list_elem_of_filter in Hb'. tauto.
Qed.

(** C3. [kfree] of a used block whose free neighbours in the list are also its
    neighbours in memory: the block is freed and coalesced with them, the list stays
    well formed, the other used blocks stay used and keep their bytes. *)
Theorem kfree_spec s xs b ys :
  heap_wf s (xs ++ b :: ys) ->
  (forall c ys', ys = c :: ys' -> b_free c = true -> adjacent b c) ->
  (forall xs' p, xs = xs' ++ [p] -> b_free p = true -> adjacent p b) ->
  exists s' bs', kfree (b_addr b + 32) s = Ret tt s' /\ heap_wf s' bs' /\
    bs' = match join_next (freed b) ys with b' :: ys' => join_prev xs b' ys' | [] => [] end /\
    payload_kept (xs ++ ys) s s'.
Proof.
  intros Hw Hn Hp. destruct (wf_block _ _ _ _ Hw) as (_ & Ha & Hb0 & Hbt & _).
  unfold kfree. destruct (Z.eqb_spec (b_addr b + 32) 0); [lia|]. unfold HEADER_SIZE.
  replace (b_addr b + 32 - 32) with (b_addr b) by lia. rewrite wrap_small by lia.
  destruct (mark_free_run s xs b ys Hw) as (m1 & E1 & Hw1 & K1). rewrite (bind_Ret _ _ _ _ _ E1).
  destruct (merge_next_run _ _ _ _ Hw1) as (m2 & E2 & Hw2 & K2).
  { intros c ys' -> Hc. by apply (Hn c ys'). }
  unfold merge_adjacent. simpl b_addr in E2. rewrite (bind_Ret _ _ _ _ _ E2), hp_twice.
  rewrite hp_twice in Hw2.
  assert (exists b' ys', join_next (freed b) ys = b' :: ys' /\ b_addr b' = b_addr b /\ b_free b' = true /\
    forall d, d ∈ ys' -> d ∈ ys) as (b' & ys' & Ej & Ea & Ef & Hsub).
  { destruct ys as [|c ys]; simpl; [by exists (freed b), []|]. destruct (b_free c).
    - exists (widen (freed b) c), ys. split_and!; try done. set_solver.
    - by exists (freed b), (c :: ys). }
  rewrite Ej in *. destruct (merge_prev_run _ _ _ _ Hw2) as (m3 & E3 & Hw3 & K3); [|done|].
  { intros xs' p -> Hpf. unfold adjacent. rewrite Ea. by apply (Hp xs' p). }
  rewrite <- Ea, E3, hp_twice in *. eexists _, _. split; [done|]. split; [exact Hw3|]. split; [done|].
  intros d x Hd Hx. apply list_elem_of_filter in Hd as [Hdf Hd].
  simpl in K2, K3. cbn [hp_mem hp_with_mem].
  destruct (decide (d ∈ xs ++ ys')) as [Hin|Hin].
  - rewrite (K3 d x Hin Hdf Hx), (K2 d x Hd Hdf Hx). by apply (K1 d).
  - exfalso. apply Hin. rewrite elem_of_app in *. destruct Hd as [|Hd]; [by left|right].
    destruct ys as [|c ys]; simpl in *; [by apply not_elem_of_nil in Hd|].
    destruct (b_free c) eqn:Ec; injection Ej as <- <-; [|done].
    apply elem_of_cons in Hd as [->|]; [congruence|done].
Qed.

(** [kmalloc] of more than 4064 bytes when no free block is large enough maps one
    page after the other without ever joining them: it always ends in an
    out-of-memory panic, whatever memory is free. *)
Theorem kmalloc_too_big s bs size fuel :
  heap_wf s bs -> caches_ok s -> 4064 < size < 2 ^ 63 ->
  Forall (λ b, fits (align16 size) b = false) bs ->
  (length bs + 2 * pages_left (hp_os s) + 4 < fuel)%nat ->
  oom (kmalloc junk fuel size s).
Proof. apply kmalloc_big_run. Qed.

(** The rounding [(size + 15) & ~15] wraps for the 15 largest sizes: [kmalloc] of
    such a size succeeds whenever a block is free, with a block of less than 64
    bytes. *)
Theorem kmalloc_wraps s bs size fuel :
  heap_wf s bs -> caches_ok s -> 2 ^ 64 - 15 <= size < 2 ^ 64 ->
  Exists (λ b, b_free b = true) bs -> (length bs + 1 < fuel)%nat ->
  exists p s' bs' b, kmalloc junk fuel size s = Ret p s' /\ heap_wf s' bs' /\
    b ∈ bs' /\ p = b_addr b + 32 /\ b_free b = false /\ b_size b < 64.
Proof.
  intros Hw Hc Hs Hex Hf. destruct fuel as [|fuel]; [lia|]. rewrite kmalloc_block by (done || lia).
  assert (align16 size = 0) as ->.
  { unfold align16. assert (u64 (size + 15) = size + 15 - 2 ^ 64) as ->.
    { unfold wrap. rewrite <- (Z.mod_add _ (-1)) by done. apply Z.mod_small. lia. }
    set (x := size + 15 - 2 ^ 64). assert (0 <= x < 2 ^ 4) as Hx by (subst x; simpl; lia).
    apply Z.bits_inj'. intros i Hi. rewrite Z.land_spec, Z.bits_0, testbit_wrap, Z.lnot_spec by lia.
    change 15 with (Z.ones 4). rewrite Z.testbit_ones by lia. destruct (decide (i < 4)).
    - destruct (Z.leb_spec 0 i), (Z.ltb_spec i 4); lia.
    - rewrite (testbit_above 4 x) by done || lia. done. }
  destruct (fit_loop_run bs s fuel 0 0 (hw_chain _ _ Hw) (wf_addrs _ _ Hw)) as [[Hall _]|(xs & b & ys & -> & _ & Hfit & E)].
  { lia. }
  { exfalso. apply Exists_exists in Hex as (b & Hb & Hbf). rewrite Forall_forall in Hall.
    specialize (Hall b Hb). unfold fits in Hall. rewrite Hbf in Hall. simpl in Hall.
    apply Z.leb_gt in Hall. pose proof (laid_in _ _ _ _ (hw_laid _ _ Hw) Hb). lia. }
  rewrite <- (hw_head _ _ Hw) in E. unfold fits in Hfit. apply andb_true_iff in Hfit as [Hfree _].
  destruct (wf_block _ _ _ _ Hw) as (_ & _ & Hb0 & _).
  destruct (alloc_run s xs b ys 0 Hw Hfree) as (m' & E' & Hr); [lia|done|lia|].
  destruct (wf_replace s xs b [] _ ys m' Hw Hr) as [Hw' _]. rewrite E' in E.
  rewrite (bind_Ret _ _ _ _ _ E). unfold alloc_list in Hw'. destruct (Z.ltb_spec (b_size b) (0 + 64)).
  - eexists _, _, _, (mkBlock (b_addr b) (b_size b) false). split; [done|]. split; [exact Hw'|].
    split_and!; [set_solver|done|done|simpl; lia].
  - eexists _, _, _, (mkBlock (b_addr b) 0 false). split; [done|]. split; [exact Hw'|].
    split_and!; [set_solver|done|done|simpl; lia].
Qed.

(** [kfree] takes every pointer for a block: freeing a slab object [p] writes the
    word 1 into bytes 8 to 11 of the object 32 bytes before it (here with zero link
    fields) and does not put [p] back on its cache's list. *)
Theorem kfree_slab_object s p :
  32 < p < 2 ^ 63 -> mapped (hp_mem s) (p - 32) 32 ->
  load 8 (hp_mem s) (p - 16) = Some 0 -> load 8 (hp_mem s) (p - 8) = Some 0 ->
  exists s', kfree p s = Ret tt s' /\ load 4 (hp_mem s') (p - 24) = Some 1 /\
    slab_caches s' = slab_caches s.
Proof.
  intros Hp Hm H1 H2. unfold kfree. destruct (Z.eqb_spec p 0); [lia|]. unfold HEADER_SIZE.
  rewrite wrap_small by lia. unfold st_free. run_st.
  unfold merge_adjacent, merge_next, merge_prev, ld_next, ld_prev. rewrite bind_assoc.
  replace (p - 32 + 16) with (p - 16) by lia. replace (p - 32 + 24) with (p - 8) by lia.
  run_ld 0. simpl. rewrite bind_ret. run_ld 0. simpl. eexists. split; [reflexivity|]. split; [|done].
  simpl. replace (p - 24) with (p - 32 + 8) by lia. by mem_ld.
Qed.

(** [slab_alloc] on a cache with free objects hands out the first one and writes
    nothing; on an empty cache it returns 0 when no page is free, halts when the page
    tables run out, or cuts a new page at the end of the heap into distinct objects,
    hands out the first and keeps the others free. *)
Theorem slab_alloc_spec s i c l :
  page_room s -> 0 < heap_virt_base s -> slab_wf s i c l ->
  match l with
  | o :: r => exists s' c', slab_alloc junk i s = Ret o s' /\ slab_wf s' i c' r /\ hp_mem s' = hp_mem s /\
      allocated c' = u32 (allocated c + 1)
  | [] => (exists s', slab_alloc junk i s = Ret 0 s') \/ oom (slab_alloc junk i s) \/
      (exists s' c' r, let p := heap_virt_base s + heap_mapped s in
         slab_alloc junk i s = Ret p s' /\ slab_wf s' i c' r /\ NoDup (p :: r) /\
         Z.of_nat (length (p :: r)) = objects_per_slab c /\
         Forall (λ o, p <= o /\ o + object_size c <= p + 4096) (p :: r) /\
         (forall x, ~ (p <= x < p + 4096) -> hp_mem s' !! x = hp_mem s !! x))
  end.
Proof.
  intros Hr Hb Hw. destruct l as [|o r].
  2: { destruct (slab_pop s i c o r Hw) as [E Hw']. destruct Hw as [Hc Hh [Ho _] _]. simpl in Hh.
       eexists _, _. split; [|split; [exact Hw'|done]].
       unfold slab_alloc. rewrite bind_get, Hc, bind_option, Hh. by destruct (Z.eqb_spec o 0). }
  destruct (id Hw) as [Hc Hh _ (Hs & Hn & H2)]. simpl in Hh.
  unfold slab_alloc. rewrite bind_get, Hc, bind_option, Hh. simpl (0 =? 0). cbv iota.
  destruct (slab_refill_run junk s i c Hr Hw Hb) as [[o E]|[H|(s1 & p & -> & E & Hw1 & _ & Hk)]].
  - left. eexists. rewrite (bind_Ret _ _ _ _ _ E). done.
  - right; left. by apply oom_bind.
  - right; right. rewrite (bind_Ret _ _ _ _ _ E). simpl negb. cbv iota.
    set (ptr := heap_virt_base s + heap_mapped s) in *.
    assert (page_objs c ptr = ptr :: ((λ k, ptr + k * object_size c) <$> seqZ 1 (objects_per_slab c - 1))) as Eo.
    { unfold page_objs. rewrite seqZ_cons by lia. cbn [fmap list_fmap]. f_equal. lia. }
    rewrite Eo in Hw1. destruct (slab_pop s1 i _ ptr _ Hw1) as [Ep Hw2].
    eexists _, _, _. cbv zeta. split; [exact Ep|]. split; [exact Hw2|].
    rewrite <- Eo. unfold page_objs. split_and!; [| | |exact Hk].
    + apply NoDup_fmap_2; [|apply NoDup_seqZ]. intros x y Exy. nia.
    + rewrite length_fmap, length_seqZ. lia.
    + apply Forall_fmap, Forall_forall. intros k Hk'%elem_of_seqZ. simpl. nia.
Qed.

(** [merge_adjacent] joins neighbours of the list, not of memory: freeing a block
    [c] whose free predecessor [p] in the list ends before it (pages mapped for a slab
    lie between two areas of the list) widens [p] over the bytes between them: each of
    them that lies below the new end of [p] is in the payload of a free block. *)
Theorem kfree_joins_gap s xs p c ys :
  heap_wf s (xs ++ p :: c :: ys) -> b_free p = true ->
  (forall d ys', ys = d :: ys' -> b_free d = false) ->
  exists s', kfree (b_addr c + 32) s = Ret tt s' /\
    load 4 (hp_mem s') (b_addr p + 8) = Some 1 /\
    load 8 (hp_mem s') (b_addr p) = Some (b_size p + 32 + b_size c) /\
    (forall x, b_addr p + 32 + b_size p <= x < b_addr c -> x < b_addr p + 32 + b_size p + 32 + b_size c ->
       b_addr p + 32 <= x < b_addr p + 32 + (b_size p + 32 + b_size c)).
Proof.
  intros Hw Hp Hnext. destruct (wf_cons_next _ _ _ _ _ Hw) as (Hc & Hca & Hc0 & Hpc & Hct & _ & Hcm).
  pose proof (wf_block _ _ _ _ Hw) as ([P1 P2 P3 P4] & Hpa & Hp0 & _ & _ & _ & Hpm). rewrite Hp in P2.
  assert (heap_wf s ((xs ++ [p]) ++ c :: ys)) as Hw2 by (by rewrite <- (assoc_L (++))).
  unfold kfree. destruct (Z.eqb_spec (b_addr c + 32) 0); [lia|]. unfold HEADER_SIZE.
  replace (b_addr c + 32 - 32) with (b_addr c) by lia. rewrite wrap_small by lia.
  destruct (mark_free_run s _ c ys Hw2) as (m1 & E1 & Hw3 & _). rewrite (bind_Ret _ _ _ _ _ E1).
  destruct (merge_next_run _ _ _ _ Hw3) as (m2 & E2 & _ & _).
  { intros d ys' -> Hd. by rewrite (Hnext d ys') in Hd. }
  assert (m2 = m1) as ->.
  { unfold merge_next, ld_next, ld_free in E2. destruct (wf_block _ _ _ _ Hw3) as ([F1 F2 F3 F4] & _).
    rewrite (ld_run _ _ _ _ _ F3) in E2. destruct ys as [|d ys]; simpl in E2; [by injection E2|].
    rewrite <- (assoc_L (++)) in Hw3. change ([p] ++ freed c :: d :: ys) with ([p; freed c] ++ d :: ys) in Hw3.
    rewrite (assoc_L (++)) in Hw3. destruct (wf_block _ _ _ _ Hw3) as ([G1 G2 G3 G4] & Hd & _).
    unfold truth in E2. destruct (Z.eqb_spec (b_addr d) 0); [lia|]. simpl in E2.
    rewrite (ld_run _ _ _ _ _ G2) in E2. rewrite (Hnext d ys eq_refl) in E2. simpl in E2. by injection E2. }
  unfold merge_adjacent. simpl b_addr in E2. rewrite (bind_Ret _ _ _ _ _ E2), hp_twice.
  destruct (wf_block _ _ _ _ Hw3) as ([F1 F2 F3 F4] & _ & _ & _ & _ & _ & Fm). simpl in F1, F2, F3, F4, Fm.
  rewrite last_addr_app in F4. simpl in F4.
  pose proof (wf_next _ _ _ _ Hw3) as Hnx. simpl in Hnx.
  rewrite <- (assoc_L (++)) in Hw3. simpl in Hw3.
  destruct (wf_block _ _ _ _ Hw3) as ([D1 D2 D3 D4] & _ & _ & Hdt & _ & _ & Dm). simpl in D1, D2, D3, Dm. rewrite Hp in D2.
  unfold merge_prev, ld_prev, ld_free, ld_size, ld_next, st_size, st_next, st_prev.
  run_ld (b_addr p). unfold truth. destruct (Z.eqb_spec (b_addr p) 0); [lia|]. simpl.
  run_ld 1. simpl. run_ld (b_size p). run_ld (b_size c). unfold HEADER_SIZE.
  rewrite !wrap_small by (rewrite ?wrap_small by lia; lia).
  assert (0 <= first_addr ys 0 < 2 ^ 63) as Hfa by (destruct Hnx as [[-> _]|(y & ys' & _ & -> & ? & _)]; lia).
  run_st. run_ld (b_addr p). run_ld (first_addr ys 0). run_st. run_ld (first_addr ys 0).
  destruct Hnx as [[En _]|(y & ys' & -> & Ey & Hy & Hym)].
  - rewrite En. simpl. eexists. split; [reflexivity|]. simpl. split_and!; [mem_ld; done|mem_ld|lia].
  - rewrite Ey. destruct (Z.eqb_spec (b_addr y) 0) as [|_]; [lia|]. simpl. simpl in Ey.
    run_ld (b_addr p).
    run_st. eexists. split; [reflexivity|]. simpl. split_and!; [mem_ld; done|mem_ld|lia].
Qed.

(** [heap_used] is the total size of the used blocks, modulo 2^64. *)
Theorem heap_used_spec s bs fuel :
  heap_wf s bs -> (length bs < fuel)%nat ->
  heap_used fuel s = Ret (u64 (sum_list_with_Z b_size (used_blocks bs))) s.
Proof.
  intros Hw Hf. unfold heap_used. rewrite bind_get, (hw_head _ _ Hw).
  rewrite (used_loop_run bs s fuel 0 0); [done|apply Hw|by eapply wf_addrs|done|lia].
Qed.

(** [heap_init] halts with an out-of-memory panic or leaves one free block of 4064
    bytes at the base of the heap and five empty caches of 32 to 512 bytes. *)
Theorem heap_init_spec s fuel :
  (2 <= fuel)%nat -> ps_ok (hp_os s) -> 4096 * Z.of_nat (pages_left (hp_os s)) <= 2 ^ 62 ->
  (exists s', heap_init junk fuel s = Ret tt s' /\
     heap_wf s' [mkBlock HEAP_VIRT_BASE 4064 true] /\ caches_ok s' /\ heap_mapped s' = 4096 /\
     (object_size <$> slab_caches s') = [32; 64; 128; 256; 512] /\
     forall i, (i < 5)%nat -> exists c, slab_wf s' i c []) \/ oom (heap_init junk fuel s).
Proof. apply heap_init_run. Qed.
End properties.

(** ** Concrete heaps *)

(** A page source that counts: [n] pages left, every mapping succeeds. *)
Definition nat_get (n : nat) : outcome nat Z :=
  match n with O => Ret 0 O | S k => Ret (Z.of_nat (S k mod 1000) * 4096) k end.

Lemma nat_get_law (n : nat) :
  True -> exists a t, nat_get n = Ret a t /\ True /\ 0 <= a < 2 ^ 64 /\ (a <> 0 -> (t < n)%nat).
Proof.
  intros _. destruct n as [|k]; simpl nat_get; eexists _, _; (split; [reflexivity|]); split_and!; lia.
Qed.

Lemma nat_map_law (n : nat) (v p : Z) :
  True -> 0 <= p < 2 ^ 64 ->
  (exists t, (ret v : M nat Z) n = Ret v t /\ True /\ (t <= n)%nat) \/
  (exists t, (ret v : M nat Z) n = Panic "paging oom" t).
Proof. intros _ _. left. by exists n. Qed.

#[export] Instance nat_source : PageSource nat := {|
  get_page := nat_get;
  map_page := λ v _ _, ret v;
  ps_ok _ := True;
  pages_left n := n;
  get_page_law := nat_get_law;
  map_page_law := nat_map_law
|}.

Definition after {S A} (m : M S A) (s : S) : S := match m s with Ret _ t => t | _ => s end.
Definition no_junk (_ : Z) : Z := 0.

(** The bytes of a block: header and a zero payload. *)
Definition block_bytes (b : block) (nx pv : Z) : list Z :=
  le_bytes 8 (b_size b) ++ le_bytes 4 (if b_free b then 1 else 0) ++ le_bytes 4 0 ++
  le_bytes 8 nx ++ le_bytes 8 pv ++ replicate (Z.to_nat (b_size b)) 0.

(** A heap of 304 bytes at 0x1000: a used block, a free block, 32 bytes that belong to
    a slab, a used and a free block; 10 pages are left. *)
Definition heap_four_blocks : list block :=
  [mkBlock 0x1000 16 false; mkBlock 0x1030 32 true; mkBlock 0x1090 48 false; mkBlock 0x10E0 48 true].
Definition heap_four : heap nat :=
  mkHeap 10%nat (bytes_at 0x1000
    (block_bytes (mkBlock 0x1000 16 false) 0x1030 0 ++ block_bytes (mkBlock 0x1030 32 true) 0x1090 0x1000 ++
     replicate 32 7 ++ block_bytes (mkBlock 0x1090 48 false) 0x10E0 0x1030 ++
     block_bytes (mkBlock 0x10E0 48 true) 0 0x1090)) 0x1000 304 0x1000 [mkCache 32 4096 0 128 0].

Lemma heap_four_wf : heap_wf heap_four heap_four_blocks /\ caches_ok heap_four.
Proof.
  split; [split|].
  - exact I.
  - reflexivity.
  - repeat (split; [split; vm_compute; reflexivity|]). exact I.
  - simpl. split_and!; lia || done.
  - apply mappedb_spec. vm_compute. reflexivity.
  - simpl. split; [lia|done].
  - simpl. split_and!; [lia|done|lia].
  - done.
  - repeat constructor. simpl. lia.
Qed.

Lemma kmalloc_spec_witness :
  (exists p s' bs', kmalloc no_junk 20 700 heap_four = Ret p s' /\
     allocated_at heap_four heap_four_blocks 700 p s' bs') \/ oom (kmalloc no_junk 20 700 heap_four).
Proof. apply (kmalloc_spec no_junk); [apply heap_four_wf|apply heap_four_wf|lia|simpl; lia]. Defined.

Lemma kfree_spec_witness :
  exists s' bs', kfree (0x1000 + 32) heap_four = Ret tt s' /\ heap_wf s' bs' /\
    bs' = [mkBlock 0x1000 80 true; mkBlock 0x1090 48 false; mkBlock 0x10E0 48 true] /\
    payload_kept [mkBlock 0x1030 32 true; mkBlock 0x1090 48 false; mkBlock 0x10E0 48 true] heap_four s'.
Proof.
  apply (kfree_spec heap_four [] (mkBlock 0x1000 16 false)
           [mkBlock 0x1030 32 true; mkBlock 0x1090 48 false; mkBlock 0x10E0 48 true]).
  - apply heap_four_wf.
  - intros c ys' [= <- _] _. reflexivity.
  - intros xs' p E Hp. by destruct xs'.
Defined.

(** Freeing the third block: the last free one is left out of the list for this. *)
Definition heap_gap : heap nat :=
  mkHeap 10%nat (bytes_at 0x1030
    (block_bytes (mkBlock 0x1030 32 true) 0x1090 0 ++ replicate 32 7 ++
     block_bytes (mkBlock 0x1090 48 false) 0 0x1030)) 0x1030 176 0x1030 [].

Lemma heap_gap_wf : heap_wf heap_gap [mkBlock 0x1030 32 true; mkBlock 0x1090 48 false].
Proof.
  split.
  - exact I.
  - reflexivity.
  - repeat (split; [split; vm_compute; reflexivity|]). exact I.
  - simpl. split_and!; lia || done.
  - apply mappedb_spec. vm_compute. reflexivity.
  - simpl. split; [lia|done].
  - simpl. split_and!; [lia|done|lia].
  - done.
Qed.

Lemma kfree_joins_gap_witness :
  exists s', kfree (0x1090 + 32) heap_gap = Ret tt s' /\
    load 4 (hp_mem s') (0x1030 + 8) = Some 1 /\ load 8 (hp_mem s') 0x1030 = Some (32 + 32 + 48) /\
    (forall x, 0x1030 + 32 + 32 <= x < 0x1090 -> x < 0x1030 + 32 + 32 + 32 + 48 ->
       0x1030 + 32 <= x < 0x1030 + 32 + (32 + 32 + 48)).
Proof.
  apply (kfree_joins_gap heap_gap [] (mkBlock 0x1030 32 true) (mkBlock 0x1090 48 false) []);
    [apply heap_gap_wf|done|done].
Defined.

Lemma kmalloc_too_big_witness : oom (kmalloc no_junk 50 5000 heap_four).
Proof.
  apply (kmalloc_too_big no_junk heap_four heap_four_blocks); [apply heap_four_wf|apply heap_four_wf|lia| |].
  - repeat constructor.
  - simpl. lia.
Defined.

Lemma kmalloc_wraps_witness :
  exists p s' bs' b, kmalloc no_junk 20 (2 ^ 64 - 1) heap_four = Ret p s' /\ heap_wf s' bs' /\
    b ∈ bs' /\ p = b_addr b + 32 /\ b_free b = false /\ b_size b < 64.
Proof.
  apply (kmalloc_wraps no_junk heap_four heap_four_blocks); [apply heap_four_wf|apply heap_four_wf|lia| |simpl; lia].
  apply Exists_cons_tl, Exists_cons_hd. reflexivity.
Defined.

(** Two slab objects, the first of which holds zeros. *)
Definition heap_objects : heap nat := mkHeap O (bytes_at 100 (replicate 64 0)) 0 0 0 [].

Lemma kfree_slab_object_witness :
  exists s', kfree 132 heap_objects = Ret tt s' /\ load 4 (hp_mem s') 108 = Some 1 /\ slab_caches s' = [].
Proof.
  apply (kfree_slab_object heap_objects 132); [lia|by apply mappedb_spec|by vm_compute..].
Defined.

Lemma slab_alloc_spec_witness :
  (exists s', slab_alloc no_junk 0 heap_four = Ret 0 s') \/ oom (slab_alloc no_junk 0 heap_four) \/
  (exists s' c' r, let p := 0x1000 + 304 in
     slab_alloc no_junk 0 heap_four = Ret p s' /\ slab_wf s' 0 c' r /\ NoDup (p :: r) /\
     Z.of_nat (length (p :: r)) = 128 /\ Forall (λ o, p <= o /\ o + 32 <= p + 4096) (p :: r) /\
     (forall x, ~ (p <= x < p + 4096) -> hp_mem s' !! x = hp_mem heap_four !! x)).
Proof.
  apply (slab_alloc_spec no_junk heap_four 0 (mkCache 32 4096 0 128 0) []).
  - eapply wf_room, heap_four_wf.
  - done.
  - split; [done|done|done|simpl; lia].
Defined.

Lemma heap_used_spec_witness : heap_used 5 heap_four = Ret (u64 (16 + (48 + 0))) heap_four.
Proof. apply (heap_used_spec heap_four heap_four_blocks); [apply heap_four_wf|simpl; lia]. Defined.

(** A machine with 10 pages before [heap_init]. *)
Definition heap_new (n : nat) : heap nat := mkHeap n ∅ 0 0 0 [].

Lemma heap_init_spec_witness :
  (exists s', heap_init no_junk 2 (heap_new 10) = Ret tt s' /\
     heap_wf s' [mkBlock HEAP_VIRT_BASE 4064 true] /\ caches_ok s' /\ heap_mapped s' = 4096 /\
     (object_size <$> slab_caches s') = [32; 64; 128; 256; 512] /\
     forall i, (i < 5)%nat -> exists c, slab_wf s' i c []) \/ oom (heap_init no_junk 2 (heap_new 10)).
Proof. apply (heap_init_spec no_junk); [lia|done|simpl; lia]. Defined.

