(* ===== verification/Vfs.v ===== *)
(** * The virtual file system and the RAM file system (fs/vfs.c, fs/backend/ramfs.c)

    Nodes are records at their addresses, file contents are allocated buffers at
    theirs.  [kmalloc] and [kfree] are the interface [Allocator].  A C string is the
    list of its bytes before the terminator.  [vfs_read] returns the bytes it stores
    in the caller's buffer and [vfs_write] takes those it reads from it. *)

From S2P Require Import Prelude.

(** What kernel/heap.c promises its clients: an allocation is 0 or a new object, which
    is none of the [static] ones of the program. *)
Class Allocator (H : Type) := {
  malloc : Z -> M H Z;
  free : Z -> M H unit;
  live : H -> gset Z;
  static : gset Z;
  malloc_law : forall n h, (exists msg t, malloc n h = Panic msg t) \/
    exists p h', malloc n h = Ret p h' /\
      ((p = 0 /\ live h' = live h) \/ (p <> 0 /\ p ∉ live h ∪ static /\ live h' = {[p]} ∪ live h));
  free_law : forall p h, p ∈ live h -> exists h', free p h = Ret tt h' /\ live h' = live h ∖ {[p]}
}.

Definition VFS_MAX_OPEN : Z := 16.
Definition VFS_O_CREAT : Z := 4.
Definition VFS_SEEK_SET : Z := 0.
Definition VFS_SEEK_CUR : Z := 1.
Definition VFS_SEEK_END : Z := 2.
Definition VFS_TYPE_FILE : Z := 1.
Definition VFS_TYPE_DIR : Z := 2.
Definition slash : Z := 47.

(** [ops] is 0 or 1, the address of [default_ops]. *)
Record vfs_node := mkNode {
  n_name : list Z;
  n_type : Z;
  n_size : Z;
  n_data : Z;
  n_ops : Z;
  n_parent : Z;
  n_children : Z;
  n_next : Z;
  n_count : Z
}.
Definition zero_node : vfs_node := mkNode [] 0 0 0 0 0 0 0 0.

Record open_file := mkOpen { o_node : Z; o_offset : Z; o_flags : Z; o_used : bool }.

Record vfs (H : Type) := mkVfs {
  fs_alloc : H;
  fs_nodes : gmap Z vfs_node;
  fs_bufs : gmap Z (list Z);
  root_node : Z;
  open_table : list open_file
}.
Arguments mkVfs {H}.
Arguments fs_alloc {H}.
Arguments fs_nodes {H}.
Arguments fs_bufs {H}.
Arguments root_node {H}.
Arguments open_table {H}.

Section vfs_code.
Context {H : Type} `{!Allocator H}.
Local Abbreviation vfs := (vfs H).
Implicit Types s : vfs.

Definition set_alloc (h : H) (s : vfs) : vfs := mkVfs h (fs_nodes s) (fs_bufs s) (root_node s) (open_table s).
Definition set_nodes (n : gmap Z vfs_node) (s : vfs) : vfs := mkVfs (fs_alloc s) n (fs_bufs s) (root_node s) (open_table s).
Definition set_bufs (b : gmap Z (list Z)) (s : vfs) : vfs := mkVfs (fs_alloc s) (fs_nodes s) b (root_node s) (open_table s).
Definition set_root (r : Z) (s : vfs) : vfs := mkVfs (fs_alloc s) (fs_nodes s) (fs_bufs s) r (open_table s).
Definition set_table (t : list open_file) (s : vfs) : vfs := mkVfs (fs_alloc s) (fs_nodes s) (fs_bufs s) (root_node s) t.

(** [kmalloc], [kfree]. *)
Definition vmalloc (n : Z) : M vfs Z := zoom fs_alloc set_alloc (malloc n).
Definition vfree (p : Z) : M vfs unit := zoom fs_alloc set_alloc (free p).

Definition node_get (a : Z) : M vfs vfs_node := s <-- get ;; of_option (fs_nodes s !! a).
Definition node_set (a : Z) (n : vfs_node) : M vfs unit := modify (λ s, set_nodes (<[a := n]> (fs_nodes s)) s).
Definition buf_get (a : Z) : M vfs (list Z) := s <-- get ;; of_option (fs_bufs s !! a).
Definition buf_set (a : Z) (l : list Z) : M vfs unit := modify (λ s, set_bufs (<[a := l]> (fs_bufs s)) s).

(** The [count] bytes from [offset], if the buffer has them. *)
Definition buf_slice (l : list Z) (offset count : Z) : option (list Z) :=
  if (0 <=? offset) && (0 <=? count) && (offset + count <=? Z.of_nat (length l)) then
    Some (take (Z.to_nat count) (drop (Z.to_nat offset) l))
  else None.

(** [dst] with [src] stored at [offset], if it fits. *)
Definition buf_store (dst src : list Z) (offset : Z) : option (list Z) :=
  if (0 <=? offset) && (offset + Z.of_nat (length src) <=? Z.of_nat (length dst)) then
    Some (take (Z.to_nat offset) dst ++ src ++ drop (Z.to_nat offset + length src) dst)
  else None.

(** ** The default operations *)

Definition vfs_default_open (node flags : Z) : M vfs Z := ret 0.
Definition vfs_default_close (node : Z) : M vfs Z := ret 0.

Definition vfs_default_read (node count offset : Z) : M vfs (Z * list Z) :=
  n <-- node_get node ;;
  if (n_data n =? 0) || (n_size n <=? offset) then ret (0, [])
  else
    let count := if n_size n <? u64 (offset + count) then n_size n - offset else count in
    src <-- buf_get (n_data n) ;;
    bytes <-- of_option (buf_slice src offset count) ;;
    ret (s64 count, bytes).

(** The enlarged buffer of [vfs_default_write]; [None] is the early [return -1]. *)
Definition vfs_grow (node new_size : Z) : M vfs bool :=
  n <-- node_get node ;;
  if n_size n <? new_size then
    new_data <-- vmalloc new_size ;;
    if new_data =? 0 then ret false
    else
      let zeros := replicate (Z.to_nat new_size) 0 in
      (if negb (n_data n =? 0) && (0 <? n_size n) then
         src <-- buf_get (n_data n) ;;
         old <-- of_option (buf_slice src 0 (n_size n)) ;;
         l <-- of_option (buf_store zeros old 0) ;;
         modify (λ s, set_bufs (delete (n_data n) (fs_bufs s)) s) ;;;
         vfree (n_data n) ;;;
         buf_set new_data l
       else buf_set new_data zeros) ;;;
      node_set node (mkNode (n_name n) (n_type n) new_size new_data (n_ops n) (n_parent n)
                       (n_children n) (n_next n) (n_count n)) ;;;
      ret true
  else ret true.

Definition vfs_default_write (node : Z) (buf : list Z) (offset : Z) : M vfs Z :=
  let count := Z.of_nat (length buf) in
  if count =? 0 then ret 0
  else
    let new_size := u64 (offset + count) in
    more <-- vfs_grow node new_size ;;
    if negb more then ret (-1)
    else
      n <-- node_get node ;;
      dst <-- buf_get (n_data n) ;;
      l <-- of_option (buf_store dst buf offset) ;;
      buf_set (n_data n) l ;;;
      ret (s64 count).

(** ** Names and paths *)

Definition vfs_init (root : Z) : M vfs unit :=
  modify (set_root root) ;;;
  modify (λ s, set_table ((λ o, mkOpen (o_node o) (o_offset o) (o_flags o) false) <$> open_table s) s).

Definition vfs_root : M vfs Z := gets root_node.

(** The comparison loop of [vfs_find_child]. *)
Fixpoint name_match (name other : list Z) : bool :=
  match name, other with
  | [], [] => true
  | x :: name', y :: other' => if x =? y then name_match name' other' else false
  | _, _ => false
  end.

(** [while (child) ...] *)
Fixpoint child_loop (fuel : nat) (child : Z) (name : list Z) : M vfs Z :=
  match fuel with
  | O => nofuel
  | S fuel' =>
      if child =? 0 then ret 0
      else
        n <-- node_get child ;;
        if name_match name (n_name n) then ret child
        else child_loop fuel' (n_next n) name
  end.

(** A chain of siblings visits each node at most once. *)
Definition vfs_find_child (dir : Z) (name : list Z) : M vfs Z :=
  n <-- node_get dir ;;
  s <-- get ;;
  child_loop (S (size (fs_nodes s))) (n_children n) name.

(** [while ( *p && *p != '/' && i < 63) component[i++] = *p++;] *)
Fixpoint component (room : nat) (p : list Z) : list Z * list Z :=
  match room, p with
  | S room', c :: p' =>
      if c =? slash then ([], p) else let (w, r) := component room' p' in (c :: w, r)
  | _, _ => ([], p)
  end.

(** [if ( *p == '/') p++;] *)
Definition skip_slash (p : list Z) : list Z :=
  match p with c :: p' => if c =? slash then p' else p | [] => [] end.

(** The loop of [vfs_lookup]; every round consumes a character. *)
Fixpoint lookup_loop (fuel : nat) (current : Z) (p : list Z) : M vfs Z :=
  match fuel with
  | O => nofuel
  | S fuel' =>
      match p with
      | [] => ret current
      | _ =>
          let (comp, rest) := component 63 p in
          let p := skip_slash rest in
          match comp with
          | [] => lookup_loop fuel' current p
          | _ =>
              child <-- vfs_find_child current comp ;;
              if child =? 0 then ret 0 else lookup_loop fuel' child p
          end
      end
  end.

Definition vfs_lookup (path : list Z) : M vfs Z :=
  s <-- get ;;
  if root_node s =? 0 then ret 0
  else if bool_decide (path = [slash]) then ret (root_node s)
  else lookup_loop (S (length path)) (root_node s) (skip_slash path).

(** ** Creation *)

Definition vfs_set_name (n : vfs_node) (name : list Z) : vfs_node :=
  mkNode (take 63 name) (n_type n) (n_size n) (n_data n) (n_ops n) (n_parent n)
    (n_children n) (n_next n) (n_count n).

Definition vfs_add_child (parent child : Z) : M vfs unit :=
  pn <-- node_get parent ;;
  cn <-- node_get child ;;
  node_set child (mkNode (n_name cn) (n_type cn) (n_size cn) (n_data cn) (n_ops cn) parent
                    (n_children cn) (n_children pn) (n_count cn)) ;;;
  pn <-- node_get parent ;;
  node_set parent (mkNode (n_name pn) (n_type pn) (n_size pn) (n_data pn) (n_ops pn) (n_parent pn)
                    child (n_next pn) (s32 (n_count pn + 1))).

(** The type, size and data of a new node: a file when the path is used up. *)
Definition vfs_fill (child : Z) (name p data : list Z) : M vfs bool :=
  let n := vfs_set_name zero_node name in
  let size := Z.of_nat (length data) in
  match p with
  | [] =>
      if 0 <? size then
        d <-- vmalloc size ;;
        if d =? 0 then
          modify (λ s, set_nodes (delete child (fs_nodes s)) s) ;;;
          vfree child ;;;
          ret false
        else
          buf_set d data ;;;
          node_set child (mkNode (n_name n) VFS_TYPE_FILE size d 1 0 0 0 0) ;;;
          ret true
      else
        node_set child (mkNode (n_name n) VFS_TYPE_FILE size 0 1 0 0 0 0) ;;;
        ret true
  | _ =>
      node_set child (mkNode (n_name n) VFS_TYPE_DIR 0 0 1 0 0 0 0) ;;;
      ret true
  end.

(** One missing component: a new node under [current], or 0. *)
Definition vfs_new_node (current : Z) (name p data : list Z) : M vfs Z :=
  child <-- vmalloc 128 ;;
  if child =? 0 then ret 0
  else
    node_set child zero_node ;;;
    more <-- vfs_fill child name p data ;;
    if negb more then ret 0
    else
      vfs_add_child current child ;;;
      ret child.

Fixpoint create_loop (fuel : nat) (current : Z) (p data : list Z) : M vfs Z :=
  match fuel with
  | O => nofuel
  | S fuel' =>
      match p with
      | [] => ret current
      | _ =>
          let (buf, rest) := component 63 p in
          let p := skip_slash rest in
          match buf with
          | [] => create_loop fuel' current p data
          | _ =>
              child <-- vfs_find_child current buf ;;
              child <-- (if child =? 0 then vfs_new_node current buf p data else ret child) ;;
              if child =? 0 then ret 0 else create_loop fuel' child p data
          end
      end
  end.

Definition vfs_create_file (path data : list Z) : M vfs Z :=
  s <-- get ;;
  create_loop (S (length path)) (root_node s) (skip_slash path) data.

(** ** Descriptors *)

Fixpoint find_unused (t : list open_file) (i : nat) : option nat :=
  match t with
  | [] => None
  | o :: t' => if o_used o then find_unused t' (S i) else Some i
  end.

Definition vfs_open (path : list Z) (flags : Z) : M vfs Z :=
  node <-- vfs_lookup path ;;
  node <-- (if (node =? 0) && truth (Z.land flags VFS_O_CREAT) then
              vfs_create_file path [] ;;; vfs_lookup path
            else ret node) ;;
  if node =? 0 then ret (-1)
  else
    n <-- node_get node ;;
    if n_type n =? VFS_TYPE_DIR then ret (-1)
    else
      s <-- get ;;
      match find_unused (open_table s) 0 with
      | None => ret (-1)
      | Some i =>
          put (set_table (<[i := mkOpen node 0 flags true]> (open_table s)) s) ;;;
          (if n_ops n =? 0 then ret tt else vfs_default_open node flags ;;; ret tt) ;;;
          ret (Z.of_nat i)
      end.

(** The entry of [fd], if it is open. *)
Definition open_entry (s : vfs) (fd : Z) : option open_file :=
  if (fd <? 0) || (VFS_MAX_OPEN <=? fd) then None
  else o ← aget (open_table s) fd; if o_used o then Some o else None.

Definition set_offset (fd offset : Z) : M vfs unit :=
  modify (λ s, set_table (alter (λ o, mkOpen (o_node o) offset (o_flags o) (o_used o))
                            (Z.to_nat fd) (open_table s)) s).

Definition vfs_close (fd : Z) : M vfs Z :=
  s <-- get ;;
  match open_entry s fd with
  | None => ret (-1)
  | Some o =>
      n <-- node_get (o_node o) ;;
      (if n_ops n =? 0 then ret tt else vfs_default_close (o_node o) ;;; ret tt) ;;;
      modify (λ s, set_table (alter (λ o, mkOpen (o_node o) (o_offset o) (o_flags o) false)
                                (Z.to_nat fd) (open_table s)) s) ;;;
      ret 0
  end.

Definition vfs_read (fd count : Z) : M vfs (Z * list Z) :=
  s <-- get ;;
  match open_entry s fd with
  | None => ret (-1, [])
  | Some o =>
      r <-- vfs_default_read (o_node o) count (o_offset o) ;;
      (if 0 <? r.1 then set_offset fd (u64 (o_offset o + r.1)) else ret tt) ;;;
      ret r
  end.

Definition vfs_write (fd : Z) (buf : list Z) : M vfs Z :=
  s <-- get ;;
  match open_entry s fd with
  | None => ret (-1)
  | Some o =>
      n <-- vfs_default_write (o_node o) buf (o_offset o) ;;
      (if 0 <? n then set_offset fd (u64 (o_offset o + n)) else ret tt) ;;;
      ret n
  end.

Definition vfs_lseek (fd offset whence : Z) : M vfs Z :=
  s <-- get ;;
  match open_entry s fd with
  | None => ret (-1)
  | Some o =>
      n <-- node_get (o_node o) ;;
      let new_offset :=
        if whence =? VFS_SEEK_SET then Some offset
        else if whence =? VFS_SEEK_CUR then Some (u64 (o_offset o + offset))
        else if whence =? VFS_SEEK_END then Some (u64 (n_size n + offset))
        else None in
      match new_offset with
      | None => ret (-1)
      | Some new_offset =>
          if n_size n <? new_offset then ret (-1)
          else set_offset fd new_offset ;;; ret 0
      end
  end.

(** ** The RAM file system: its root node is the static at address [root]. *)

Definition string_bytes (t : string) : list Z := (λ c, Z.of_N (Ascii.N_of_ascii c)) <$> String.list_ascii_of_string t.

Definition ramfs_init (root : Z) : M vfs unit :=
  node_set root zero_node ;;;
  node_set root (mkNode [slash] VFS_TYPE_DIR 0 0 0 0 0 0 0) ;;;
  vfs_init root ;;;
  vfs_create_file (string_bytes "/readme.txt") (string_bytes "MiraOS ramfs online") ;;;
  vfs_create_file (string_bytes "/version") (string_bytes "1.0") ;;;
  ret tt.
End vfs_code.

(** ** The directory tree *)

Section tree.
Implicit Types (ns : gmap Z vfs_node) (l : list Z).

(** The siblings from [a] on. *)
Fixpoint sibs ns (a : Z) l : Prop :=
  match l with
  | [] => a = 0
  | x :: r => a = x /\ x <> 0 /\ exists n, ns !! x = Some n /\ sibs ns (n_next n) r
  end.

Lemma sibs_det ns a l l' : sibs ns a l -> sibs ns a l' -> l = l'.
Proof.
  revert a l'. induction l as [|x r IH]; intros a [|y r'] H H'; simpl in *; [done|naive_solver|naive_solver|].
  destruct H as (-> & _ & n & Hn & H), H' as (-> & _ & n' & Hn' & H'). simplify_eq. f_equal. eauto.
Qed.

Lemma sibs_suffix ns a l1 x l2 : sibs ns a (l1 ++ x :: l2) -> sibs ns x (x :: l2).
Proof.
  revert a. induction l1 as [|y l1 IH]; intros a; cbn [app].
  - intros H. pose proof H as [-> _]. exact H.
  - intros (_ & _ & n & _ & H). by eapply IH.
Qed.

Lemma sibs_NoDup ns a l : sibs ns a l -> NoDup l.
Proof.
  revert a. induction l as [|x r IH]; intros a H; [constructor|]. constructor.
  - intros Hx. apply list_elem_of_split in Hx as (l1 & l2 & ->).
    pose proof (sibs_suffix ns a [] x _ H) as H1.
    pose proof (sibs_suffix ns a (x :: l1) x l2 H) as H2.
    pose proof (sibs_det _ _ _ _ H1 H2) as E. apply (f_equal length) in E.
    simpl in E. rewrite length_app in E. simpl in E. lia.
  - destruct H as (_ & _ & n & _ & H). by eapply IH.
Qed.

Lemma sibs_dom ns a l x : sibs ns a l -> x ∈ l -> x <> 0 /\ is_Some (ns !! x).
Proof.
  revert a. induction l as [|y r IH]; intros a H; [by intros ?%not_elem_of_nil|].
  destruct H as (-> & Hy & n & Hn & H). intros [->|Hx]%elem_of_cons; [by rewrite Hn|eauto].
Qed.

Lemma sibs_length ns a l : sibs ns a l -> (length l <= size ns)%nat.
Proof.
  intros H. rewrite <- size_dom, <- (size_list_to_set (C := gset Z) l) by (by eapply sibs_NoDup).
  apply subseteq_size. intros x Hx%elem_of_list_to_set. apply elem_of_dom. by eapply sibs_dom.
Qed.

(** Only the [next] links of the chain matter. *)
Lemma sibs_ext ns ns' a l :
  (forall x n, x ∈ l -> ns !! x = Some n -> exists n', ns' !! x = Some n' /\ n_next n' = n_next n) ->
  sibs ns a l -> sibs ns' a l.
Proof.
  revert a. induction l as [|x r IH]; intros a Hx; [done|]. intros (-> & Hnz & n & Hn & H).
  destruct (Hx x n) as (n' & Hn' & En); [left|done|]. split; [done|]. split; [done|]. exists n'.
  rewrite En. split; [done|]. apply IH; [|done]. intros y m Hy. apply Hx. by right.
Qed.

(** The first sibling of that name, or 0. *)
Fixpoint find_in ns l (name : list Z) : Z :=
  match l with
  | [] => 0
  | x :: r => match ns !! x with
              | Some n => if name_match name (n_name n) then x else find_in ns r name
              | None => 0
              end
  end.

Lemma find_in_ext ns ns' l name :
  (forall x n, x ∈ l -> ns !! x = Some n -> exists n', ns' !! x = Some n' /\ n_name n' = n_name n) ->
  (forall x, x ∈ l -> is_Some (ns !! x)) ->
  find_in ns' l name = find_in ns l name.
Proof.
  induction l as [|x r IH]; intros Hx Hd; simpl; [done|].
  destruct (Hd x) as [n Hn]; [left|]. destruct (Hx x n) as (n' & Hn' & En); [left|done|].
  rewrite Hn, Hn', En. destruct (name_match name (n_name n)); [done|].
  apply IH; [intros y m Hy; apply Hx; by right|intros y Hy; apply Hd; by right].
Qed.

(** [x] is what looking up [name] in [dir] gives (0 when there is none). *)
Definition kid ns (dir : Z) (name : list Z) (x : Z) : Prop :=
  exists n l, ns !! dir = Some n /\ sibs ns (n_children n) l /\ find_in ns l name = x.

Lemma kid_det ns dir name x y : kid ns dir name x -> kid ns dir name y -> x = y.
Proof.
  intros (n & l & Hn & Hs & <-) (n' & l' & Hn' & Hs' & <-). simplify_eq.
  by rewrite (sibs_det _ _ _ _ Hs Hs').
Qed.

Lemma find_in_dom ns l name :
  (forall x, x ∈ l -> is_Some (ns !! x)) -> find_in ns l name <> 0 -> is_Some (ns !! find_in ns l name).
Proof.
  induction l as [|x r IH]; simpl; intros Hd Hf; [done|]. destruct (Hd x) as [n Hn]; [left|].
  rewrite Hn in *. destruct (name_match name (n_name n)); [by rewrite Hn|].
  apply IH; [|done]. intros y Hy. apply Hd. by right.
Qed.

Lemma kid_dom ns dir name x : kid ns dir name x -> x <> 0 -> is_Some (ns !! x).
Proof.
  intros (n & l & Hn & Hs & <-). apply find_in_dom. intros y Hy. by eapply sibs_dom.
Qed.

(** Following a list of names from [cur]; 0 as soon as one is missing. *)
Fixpoint resolves ns (cur : Z) (names : list (list Z)) (x : Z) : Prop :=
  match names with
  | [] => cur = x
  | c :: r => exists y, kid ns cur c y /\ (y = 0 /\ x = 0 \/ y <> 0 /\ resolves ns y r x)
  end.

Lemma resolves_det ns cur names x y : resolves ns cur names x -> resolves ns cur names y -> x = y.
Proof.
  revert cur. induction names as [|c r IH]; intros cur; simpl; [congruence|].
  intros (u & Hu & Hx) (v & Hv & Hy). rewrite (kid_det _ _ _ _ _ Hv Hu) in Hy. naive_solver.
Qed.

Lemma name_match_eq a b : name_match a b = true <-> a = b.
Proof.
  revert b. induction a as [|x a IH]; intros [|y b]; simpl; try done.
  destruct (Z.eqb_spec x y); rewrite ?IH; naive_solver.
Qed.
End tree.

(** ** Paths *)

Definition valid_name (c : list Z) : Prop :=
  c <> [] /\ (length c <= 63)%nat /\ Forall (λ x, x <> slash) c.

(** "/c1/c2/..." and the same without the first slash. *)
Definition path_of (names : list (list Z)) : list Z := concat ((λ c, slash :: c) <$> names).
Definition body_of (names : list (list Z)) : list Z :=
  match names with [] => [] | c :: r => c ++ path_of r end.

Lemma skip_path names : skip_slash (path_of names) = body_of names.
Proof. by destruct names. Qed.

Lemma component_valid c room rest :
  Forall (λ x, x <> slash) c -> (length c <= room)%nat ->
  (rest = [] \/ exists r, rest = slash :: r) -> component room (c ++ rest) = (c, rest).
Proof.
  revert room. induction c as [|x c IH]; intros room Hc Hl Hr; simpl in *.
  - destruct room; [by destruct Hr as [->|[r ->]]|]. by destruct Hr as [->|[r ->]].
  - destruct room as [|room]; [lia|]. apply Forall_cons in Hc as [Hx Hc]. simpl.
    destruct (Z.eqb_spec x slash); [done|]. by rewrite IH by (done || lia).
Qed.

Lemma component_body c r :
  valid_name c -> component 63 (body_of (c :: r)) = (c, path_of r).
Proof.
  intros (_ & Hl & Hc). apply component_valid; [done|done|].
  destruct r as [|d r]; [by left|right]. by eexists.
Qed.

Lemma body_length c r : valid_name c -> (length (body_of r) < length (body_of (c :: r)))%nat.
Proof.
  intros (Hne & _). simpl. rewrite length_app. rewrite <- skip_path.
  assert (length (skip_slash (path_of r)) <= length (path_of r))%nat.
  { unfold skip_slash. destruct (path_of r) as [|x q]; [done|]. destruct (x =? slash); simpl; lia. }
  destruct c; simpl; [done|lia].
Qed.

(** ** Well-formed file systems *)

Section vfs_wf.
Context {H : Type} `{!Allocator H}.
Local Abbreviation vfs := (vfs H).
Implicit Types s : vfs.

Record fs_wf (s : vfs) : Prop := {
  fw_root : root_node s <> 0 /\ is_Some (fs_nodes s !! root_node s);
  fw_chain : forall a n, fs_nodes s !! a = Some n -> exists l, sibs (fs_nodes s) (n_children n) l;
  fw_nodes : forall a, is_Some (fs_nodes s !! a) -> a <> 0 /\ a ∈ live (fs_alloc s) ∪ static;
  fw_bufs : forall d, is_Some (fs_bufs s !! d) -> d ∈ live (fs_alloc s)
}.

Lemma kid_total s dir name : fs_wf s -> is_Some (fs_nodes s !! dir) -> exists x, kid (fs_nodes s) dir name x.
Proof.
  intros Hw [n Hn]. destruct (fw_chain _ Hw _ _ Hn) as [l Hl]. eexists. exists n, l. eauto.
Qed.

Lemma child_loop_run s a l name fuel :
  sibs (fs_nodes s) a l -> (length l < fuel)%nat ->
  child_loop fuel a name s = Ret (find_in (fs_nodes s) l name) s.
Proof.
  revert a fuel. induction l as [|x r IH]; intros a [|fuel] Hs Hf; simpl in *; try lia.
  { by subst a. }
  destruct Hs as (-> & Hx & n & Hn & Hs). destruct (Z.eqb_spec x 0); [done|].
  unfold node_get. rewrite bind_assoc, bind_get, Hn, bind_option.
  destruct (name_match name (n_name n)); [done|]. apply IH; [done|lia].
Qed.

Lemma find_child_run s dir name x :
  kid (fs_nodes s) dir name x -> vfs_find_child dir name s = Ret x s.
Proof.
  intros (n & l & Hn & Hs & <-). unfold vfs_find_child, node_get.
  rewrite bind_assoc, bind_get, Hn, bind_option, bind_get.
  apply child_loop_run; [done|]. pose proof (sibs_length _ _ _ Hs). lia.
Qed.

Lemma lookup_loop_run s names fuel cur :
  fs_wf s -> Forall valid_name names -> is_Some (fs_nodes s !! cur) ->
  (length (body_of names) < fuel)%nat ->
  exists x, resolves (fs_nodes s) cur names x /\ lookup_loop fuel cur (body_of names) s = Ret x s.
Proof.
  intros Hw. revert cur fuel. induction names as [|c r IH]; intros cur [|fuel] Hv Hcur Hf; try lia.
  { by exists cur. }
  apply Forall_cons in Hv as [Hc Hv]. destruct (kid_total s cur c Hw Hcur) as [y Hy].
  pose proof (body_length c r Hc) as Hlt. pose proof Hc as (Hne & _).
  assert (exists q Q, body_of (c :: r) = q :: Q) as (q & Q & Eq) by (destruct c; [done|by eexists _, _]).
  cbn [lookup_loop]. rewrite Eq, <- Eq, (component_body c r Hc), skip_path.
  destruct c as [|c0 c']; [done|]. rewrite (bind_Ret _ _ _ _ _ (find_child_run _ _ _ _ Hy)).
  destruct (Z.eqb_spec y 0) as [->|Hyz].
  - exists 0. split; [|done]. exists 0. split; [done|]. by left.
  - destruct (IH y fuel Hv) as (x & Hx & E); [by eapply kid_dom|lia|].
    exists x. split; [|exact E]. exists y. split; [done|]. by right.
Qed.

Lemma vfs_lookup_run s names :
  fs_wf s -> Forall valid_name names -> names <> [] ->
  exists x, resolves (fs_nodes s) (root_node s) names x /\ vfs_lookup (path_of names) s = Ret x s.
Proof.
  intros Hw Hv Hne. unfold vfs_lookup. rewrite bind_get. destruct (fw_root _ Hw) as [Hr Hrn].
  destruct (Z.eqb_spec (root_node s) 0); [done|].
  rewrite bool_decide_false.
  2: { destruct names as [|c r]; [done|]. apply Forall_cons in Hv as [(Hc & _) _].
       destruct c; [done|]. by intros [= ?]. }
  rewrite skip_path. apply lookup_loop_run; [done|done|done|].
  rewrite <- skip_path. unfold skip_slash. destruct (path_of names) as [|x q]; simpl; [lia|].
  destruct (x =? slash); simpl; lia.
Qed.

(** ** Adding a node *)

Record fs_ext (s s' : vfs) : Prop := {
  fx_root : root_node s' = root_node s;
  fx_table : open_table s' = open_table s;
  fx_node : forall a n, fs_nodes s !! a = Some n -> exists n', fs_nodes s' !! a = Some n' /\
    n_name n' = n_name n /\ n_type n' = n_type n /\ n_size n' = n_size n /\ n_data n' = n_data n;
  fx_kid : forall a c x, kid (fs_nodes s) a c x -> x <> 0 -> kid (fs_nodes s') a c x;
  fx_bufs : forall d l, fs_bufs s !! d = Some l -> fs_bufs s' !! d = Some l
}.

Lemma fs_ext_refl s : fs_ext s s.
Proof. split; try done. intros a n Hn. by exists n. Qed.

Lemma fs_ext_trans s1 s2 s3 : fs_ext s1 s2 -> fs_ext s2 s3 -> fs_ext s1 s3.
Proof.
  intros [A1 A2 A3 A4 A5] [B1 B2 B3 B4 B5]. split; try congruence; eauto.
  intros a n Hn. destruct (A3 _ _ Hn) as (n2 & Hn2 & ? & ? & ? & ?).
  destruct (B3 _ _ Hn2) as (n3 & Hn3 & ? & ? & ? & ?). exists n3. split_and!; congruence.
Qed.

Lemma resolves_ext s s' cur names x :
  fs_ext s s' -> resolves (fs_nodes s) cur names x -> x <> 0 -> resolves (fs_nodes s') cur names x.
Proof.
  intros Hx. revert cur. induction names as [|c r IH]; intros cur; simpl; [done|].
  intros (y & Hy & [[-> ->]|[Hyz Hr]]) Hnz; [done|]. exists y. split; [by eapply fx_kid|]. eauto.
Qed.

(** The node map after [child], filled as [cn], was put first in [cur]. *)
Definition linked (ns : gmap Z vfs_node) (cur child : Z) (pn cn : vfs_node) : gmap Z vfs_node :=
  <[cur := mkNode (n_name pn) (n_type pn) (n_size pn) (n_data pn) (n_ops pn) (n_parent pn)
             child (n_next pn) (s32 (n_count pn + 1))]>
  (<[child := mkNode (n_name cn) (n_type cn) (n_size cn) (n_data cn) (n_ops cn) cur
                (n_children cn) (n_children pn) (n_count cn)]> ns).

Section linked.
Context (ns : gmap Z vfs_node) (cur child : Z) (pn cn : vfs_node).
Hypothesis Hcur : ns !! cur = Some pn.
Hypothesis Hnew : ns !! child = None.
Hypothesis Hnz : child <> 0.
Hypothesis Hleaf : n_children cn = 0.
Let ns' := linked ns cur child pn cn.

Lemma linked_old a n : ns !! a = Some n -> exists n', ns' !! a = Some n' /\
  n_name n' = n_name n /\ n_type n' = n_type n /\ n_size n' = n_size n /\ n_data n' = n_data n /\
  n_next n' = n_next n /\ (a <> cur -> n_children n' = n_children n).
Proof.
  intros Ha. unfold ns', linked. destruct (decide (a = cur)) as [->|].
  - rewrite lookup_insert_eq. eexists. split; [done|]. simpl. simplify_eq. done.
  - rewrite !lookup_insert_ne; [by exists n|congruence|done].
Qed.

Lemma linked_child : exists n, ns' !! child = Some n /\ n_name n = n_name cn /\ n_next n = n_children pn /\
  n_children n = 0 /\ n_type n = n_type cn /\ n_size n = n_size cn /\ n_data n = n_data cn.
Proof.
  unfold ns', linked. rewrite lookup_insert_ne by congruence. rewrite lookup_insert_eq. by eexists.
Qed.

Lemma linked_cur : exists n, ns' !! cur = Some n /\ n_children n = child.
Proof. unfold ns', linked. rewrite lookup_insert_eq. by eexists. Qed.

Lemma linked_sibs a l : sibs ns a l -> sibs ns' a l.
Proof.
  apply sibs_ext. intros x n _ Hx. destruct (linked_old x n Hx) as (n' & ? & _ & _ & _ & _ & ? & _). eauto.
Qed.

Lemma linked_find l name : (forall x, x ∈ l -> is_Some (ns !! x)) -> find_in ns' l name = find_in ns l name.
Proof.
  intros Hd. apply find_in_ext; [|done]. intros x n _ Hx.
  destruct (linked_old x n Hx) as (n' & ? & ? & _). eauto.
Qed.

Lemma linked_chains :
  (forall a n, ns !! a = Some n -> exists l, sibs ns (n_children n) l) ->
  forall a n, ns' !! a = Some n -> exists l, sibs ns' (n_children n) l.
Proof.
  intros Hc a n Ha. destruct (decide (a = child)) as [->|Hne].
  { destruct linked_child as (n' & E & _ & _ & Ec & _). rewrite E in Ha. injection Ha as <-.
    exists []. by rewrite Ec. }
  destruct (decide (a = cur)) as [->|Hnc].
  - destruct linked_cur as (n' & E & Ec). rewrite E in Ha. injection Ha as <-.
    destruct (Hc _ _ Hcur) as [l Hl]. rewrite Ec. exists (child :: l). destruct linked_child as (m & Em & _ & En & _). split; [done|]. split; [done|].
    exists m. split; [done|]. rewrite En. by apply linked_sibs.
  - unfold ns', linked in Ha. rewrite !lookup_insert_ne in Ha by done.
    destruct (Hc _ _ Ha) as [l Hl]. exists l. by apply linked_sibs.
Qed.

Lemma linked_kid_old a c x :
  kid ns cur (n_name cn) 0 -> kid ns a c x -> x <> 0 -> kid ns' a c x.
Proof.
  intros Hfree (n & l & Hn & Hs & Hf) Hx.
  assert (find_in ns' l c = x) as Hf'
    by (rewrite linked_find; [done|intros y Hy; by eapply sibs_dom]).
  destruct (decide (a = cur)) as [->|Hne].
  - destruct linked_cur as (n' & E & Ec). rewrite Hcur in Hn. injection Hn as <-.
    exists n', (child :: l). rewrite Ec. destruct linked_child as (m & Em & Enm & En & _).
    split; [done|]. split; [split; [done|]; split; [done|]; exists m; rewrite En; split; [done|by apply linked_sibs]|].
    simpl. rewrite Em, Enm. destruct (name_match c (n_name cn)) eqn:Enc; [|done].
    apply name_match_eq in Enc as ->. exfalso. apply Hx.
    eapply (kid_det ns cur (n_name cn)); [|exact Hfree]. by exists pn, l.
  - destruct (linked_old a n Hn) as (n' & Hn' & _ & _ & _ & _ & _ & Hch).
    exists n', l. rewrite Hch by done. split; [done|]. split; [by apply linked_sibs|done].
Qed.

Lemma linked_kid_new : (exists l, sibs ns (n_children pn) l) -> kid ns' cur (n_name cn) child.
Proof.
  intros [l Hl]. destruct linked_cur as (n' & E & Ec), linked_child as (m & Em & Enm & En & _).
  exists n', (child :: l). rewrite Ec. split; [done|].
  split; [split; [done|]; split; [done|]; exists m; rewrite En; split; [done|by apply linked_sibs]|].
  simpl. rewrite Em, Enm. by rewrite (proj2 (name_match_eq _ _)).
Qed.
End linked.

Lemma vmalloc_cases n s :
  (exists msg t, vmalloc n s = Panic msg t) \/
  exists p h, vmalloc n s = Ret p (set_alloc h s) /\
    ((p = 0 /\ live h = live (fs_alloc s)) \/
     (p <> 0 /\ p ∉ live (fs_alloc s) ∪ static /\ live h = {[p]} ∪ live (fs_alloc s))).
Proof.
  unfold vmalloc, zoom. destruct (malloc_law n (fs_alloc s)) as [(msg & t & ->)|(p & h & -> & Hp)].
  - left. by eexists _, _.
  - right. by exists p, h.
Qed.

Lemma wf_alloc s h : fs_wf s -> live (fs_alloc s) ⊆ live h -> fs_wf (set_alloc h s).
Proof.
  intros [] Hl. split; simpl; try done; [|set_solver].
  intros a Ha. destruct (fw_nodes0 a Ha). set_solver.
Qed.

Lemma fresh_child s p : fs_wf s -> p ∉ live (fs_alloc s) ∪ static -> fs_nodes s !! p = None.
Proof.
  intros Hw Hp. destruct (fs_nodes s !! p) as [n|] eqn:E; [|done].
  destruct (fw_nodes _ Hw p) as [_ ?]; [by eexists|done].
Qed.

(** The state after a new node [cn] was put at [child] under [cur]. *)
Lemma linked_state s cur child pn cn h bufs :
  fs_wf s -> fs_nodes s !! cur = Some pn -> child <> 0 -> child ∉ live (fs_alloc s) ∪ static ->
  n_children cn = 0 -> live (fs_alloc s) ∪ {[child]} ⊆ live h ->
  kid (fs_nodes s) cur (n_name cn) 0 ->
  (forall d l, fs_bufs s !! d = Some l -> bufs !! d = Some l) ->
  (forall d, is_Some (bufs !! d) -> d ∈ live h) ->
  let t := mkVfs h (linked (fs_nodes s) cur child pn cn) bufs (root_node s) (open_table s) in
  fs_wf t /\ fs_ext s t /\ kid (fs_nodes t) cur (n_name cn) child.
Proof.
  intros Hw Hcur Hnz Hfresh Hleaf Hlive Hfree Hb1 Hb2 t. pose proof (fresh_child s child Hw Hfresh) as Hnew.
  destruct (fw_root _ Hw) as [Hr [rn Hrn]]. split; [|split].
  - split; simpl.
    + split; [done|]. destruct (linked_old _ cur child pn cn Hcur Hnew _ _ Hrn) as (n' & -> & _). by eexists.
    + eapply linked_chains; try done. apply (fw_chain _ Hw).
    + intros a Ha. destruct (decide (a = child)) as [->|Hne]; [split; [done|set_solver]|].
      destruct (fw_nodes _ Hw a) as [? ?]; [|set_solver].
      unfold linked in Ha. destruct (decide (a = cur)) as [->|]; [by eexists|].
      by rewrite !lookup_insert_ne in Ha.
    + done.
  - split; simpl; try done.
    + intros a n Ha. destruct (linked_old _ cur child pn cn Hcur Hnew a n Ha) as (n' & ? & ? & ? & ? & ? & _).
      by exists n'.
    + intros a c x. by apply linked_kid_old.
  - simpl. apply linked_kid_new; try done. by apply (fw_chain _ Hw cur).
Qed.

(** The node that [vfs_fill] prepares. *)
Definition new_file (name : list Z) (p data : list Z) (d : Z) : vfs_node :=
  match p with
  | [] => mkNode (take 63 name) VFS_TYPE_FILE (Z.of_nat (length data)) d 1 0 0 0 0
  | _ => mkNode (take 63 name) VFS_TYPE_DIR 0 0 1 0 0 0 0
  end.

Lemma add_child_run s cur child pn cn :
  fs_nodes s !! cur = Some pn -> cur <> child ->
  vfs_add_child cur child (set_nodes (<[child := cn]> (fs_nodes s)) s) =
    Ret tt (set_nodes (linked (fs_nodes s) cur child pn cn) s).
Proof.
  intros Hcur Hne. unfold vfs_add_child, node_get, node_set.
  rewrite !bind_assoc, bind_get. cbn [fs_nodes set_nodes]. rewrite lookup_insert_ne, Hcur, bind_option by done.
  rewrite bind_assoc, bind_get. cbn [fs_nodes set_nodes]. rewrite lookup_insert_eq, bind_option, bind_modify.
  rewrite bind_assoc, bind_get. cbn [fs_nodes set_nodes]. rewrite !lookup_insert_ne, Hcur, bind_option by done.
  unfold modify. cbn [fs_nodes set_nodes]. unfold linked. by rewrite insert_insert_eq.
Qed.

Definition new_node_post s (cur : Z) (c p data : list Z) (o : outcome vfs Z) : Prop :=
  (exists msg t, o = Panic msg t) \/
  (exists s', o = Ret 0 s' /\ fs_wf s' /\ fs_ext s s') \/
  (exists x s' n, o = Ret x s' /\ x <> 0 /\ fs_wf s' /\ fs_ext s s' /\ kid (fs_nodes s') cur c x /\
     fs_nodes s' !! x = Some n /\ n_children n = 0 /\ n_type n = (match p with [] => VFS_TYPE_FILE | _ => VFS_TYPE_DIR end) /\
     (p = [] -> n_size n = Z.of_nat (length data) /\
        (data <> [] -> fs_bufs s' !! n_data n = Some data))).

Lemma new_node_run s cur c p data :
  fs_wf s -> is_Some (fs_nodes s !! cur) -> (length c <= 63)%nat -> kid (fs_nodes s) cur c 0 ->
  new_node_post s cur c p data (vfs_new_node cur c p data s).
Proof.
  intros Hw [pn Hcur] Hc Hfree. unfold vfs_new_node.
  destruct (vmalloc_cases 128 s) as [(msg & t & E)|(child & h & E & Hch)].
  { left. exists msg, t. by apply bind_Panic. }
  rewrite (bind_Ret _ _ _ _ _ E). destruct Hch as [[-> Hl]|(Hnz & Hfr & Hl)].
  { right; left. eexists. split; [done|]. split; [apply wf_alloc; [done|by rewrite Hl]|]. split; try done.
    intros a n Hn. by exists n. }
  destruct (Z.eqb_spec child 0); [done|]. unfold node_set at 1. rewrite bind_modify.
  pose proof (fresh_child s child Hw Hfr) as Hnew.
  assert (cur <> child) as Hne by congruence.
  assert (take 63 c = c) as Etake by (apply take_ge; lia).
  assert (forall d h' bufs, live (fs_alloc s) ∪ {[child]} ⊆ live h' ->
    (forall d l, fs_bufs s !! d = Some l -> bufs !! d = Some l) ->
    (forall d, is_Some (bufs !! d) -> d ∈ live h') -> (p = [] -> data <> [] -> bufs !! d = Some data) ->
    new_node_post s cur c p data (bind (vfs_add_child cur child) (λ _, ret child)
      (mkVfs h' (<[child := new_file c p data d]> (fs_nodes s)) bufs (root_node s) (open_table s)))) as Hfin.
  { intros d h' bufs Hl' Hb1 Hb2 Hd. right; right.
    pose proof (add_child_run (mkVfs h' (fs_nodes s) bufs (root_node s) (open_table s)) cur child pn
      (new_file c p data d) Hcur Hne) as Ea. cbn [set_nodes fs_alloc fs_nodes fs_bufs root_node open_table] in Ea.
    rewrite (bind_Ret _ _ _ _ _ Ea).
    assert (n_name (new_file c p data d) = c) as En by (destruct p; simpl; done).
    destruct (linked_state s cur child pn (new_file c p data d) h' bufs) as (Hw' & Hx' & Hk'); try done.
    { by destruct p. }
    { by rewrite En. }
    destruct (linked_child (fs_nodes s) cur child pn (new_file c p data d) Hcur Hnew)
      as (m & Em & _ & _ & Ec & Et & Es & Ed); [by destruct p|]. rewrite En in Hk'.
    eexists _, _, m. split; [done|]. split; [done|]. split; [exact Hw'|]. split; [exact Hx'|].
    split; [exact Hk'|]. split; [exact Em|]. split; [exact Ec|]. rewrite Et, Es, Ed. split; [by destruct p|].
    intros ->. simpl. split; [done|]. auto. }
  assert (forall d, is_Some (fs_bufs s !! d) -> d ∈ live (fs_alloc s)) as Hbufs by apply (fw_bufs _ Hw).
  unfold vfs_fill. destruct p as [|p0 p'].
  - destruct (Z.ltb_spec 0 (Z.of_nat (length data))) as [Hpos|Hz].
    + rewrite bind_assoc.
      match goal with |- context [bind (vmalloc ?n) _ ?u] =>
        destruct (vmalloc_cases n u) as [(msg & t & E2)|(d & h2 & E2 & Hd)] end.
      { left. exists msg, t. by apply bind_Panic. }
      rewrite (bind_Ret _ _ _ _ _ E2). cbn [fs_alloc set_alloc set_nodes] in Hd.
      destruct Hd as [[-> Hl2]|(Hdz & Hdf & Hl2)].
      * simpl (0 =? 0). cbv iota. rewrite bind_assoc, bind_modify, bind_assoc.
        destruct (free_law child h2) as (h3 & E3 & Hl3); [set_solver|].
        match goal with |- context [bind (vfree child) _ ?u] =>
          assert (vfree child u = Ret tt (set_alloc h3 u)) as E4
            by (unfold vfree, zoom; cbn [fs_alloc set_alloc set_nodes]; by rewrite E3) end.
        rewrite (bind_Ret _ _ _ _ _ E4). right; left. eexists. split; [reflexivity|].
        cbn [set_alloc set_nodes fs_nodes fs_bufs root_node open_table fs_alloc].
        rewrite delete_insert_eq, delete_id by done. split.
        { apply (wf_alloc s h3 Hw). rewrite Hl3, Hl2, Hl. set_solver. }
        { split; try done. intros a m Hm. by exists m. }
      * destruct (Z.eqb_spec d 0); [done|]. unfold buf_set, node_set. rewrite bind_assoc, bind_modify, bind_assoc, bind_modify, bind_ret.
        cbn [negb]. cbv iota. cbn [set_alloc set_nodes set_bufs fs_nodes fs_bufs root_node open_table fs_alloc].
        rewrite insert_insert_eq. apply (Hfin d h2 (<[d := data]> (fs_bufs s))).
        { set_solver. }
        { intros d' l Hd'. rewrite lookup_insert_ne; [done|]. intros ->.
          apply Hdf. rewrite Hl. apply elem_of_union_l, elem_of_union_r, Hbufs. by eexists. }
        { intros d' Hd'. destruct (decide (d = d')) as [->|]; [set_solver|].
          rewrite lookup_insert_ne in Hd' by done. specialize (Hbufs _ Hd'). set_solver. }
        { intros _ _. apply lookup_insert_eq. }
    + unfold node_set. rewrite bind_assoc, bind_modify, bind_ret. cbn [negb]. cbv iota.
      cbn [set_alloc set_nodes set_bufs fs_nodes fs_bufs root_node open_table fs_alloc].
      rewrite insert_insert_eq. apply (Hfin 0 h (fs_bufs s)); [set_solver|done| |].
      { intros d Hd. specialize (Hbufs _ Hd). set_solver. }
      { intros _ Hne'. destruct data; [done|simpl in Hz; lia]. }
  - unfold node_set. rewrite bind_assoc, bind_modify, bind_ret. cbn [negb]. cbv iota.
    cbn [set_alloc set_nodes set_bufs fs_nodes fs_bufs root_node open_table fs_alloc].
    rewrite insert_insert_eq. apply (Hfin 0 h (fs_bufs s)); [set_solver|done| |done].
    intros d Hd. specialize (Hbufs _ Hd). set_solver.
Qed.

(** ** Creation along a path *)

Definition create_post s (cur : Z) (names : list (list Z)) (data : list Z) (o : outcome vfs Z) : Prop :=
  (exists msg t, o = Panic msg t) \/
  (exists s', o = Ret 0 s' /\ fs_wf s' /\ fs_ext s s') \/
  (exists x s', o = Ret x s' /\ x <> 0 /\ fs_wf s' /\ fs_ext s s' /\ resolves (fs_nodes s') cur names x /\
     (resolves (fs_nodes s) cur names 0 -> exists n, fs_nodes s' !! x = Some n /\
        n_type n = VFS_TYPE_FILE /\ n_size n = Z.of_nat (length data) /\
        (data <> [] -> fs_bufs s' !! n_data n = Some data))).

Lemma fs_ext_is_Some s s' a : fs_ext s s' -> is_Some (fs_nodes s !! a) -> is_Some (fs_nodes s' !! a).
Proof. intros Hx [n Hn]. destruct (fx_node _ _ Hx _ _ Hn) as (n' & Hn' & _). by exists n'. Qed.

(** A new directory is empty. *)
Lemma resolves_cons_nz ns cur c r y x :
  kid ns cur c y -> y <> 0 -> resolves ns y r x -> resolves ns cur (c :: r) x.
Proof. intros. exists y. split; [done|]. by right. Qed.

Lemma create_loop_run s names fuel cur data :
  fs_wf s -> Forall valid_name names -> is_Some (fs_nodes s !! cur) -> cur <> 0 ->
  (length (body_of names) < fuel)%nat ->
  create_post s cur names data (create_loop fuel cur (body_of names) data s).
Proof.
  revert s cur fuel. induction names as [|c r IH]; intros s cur [|fuel] Hw Hv Hcur Hnz Hf; try lia.
  { right; right. exists cur, s. split_and!; try done. apply fs_ext_refl. }
  apply Forall_cons in Hv as [Hc Hv]. destruct (kid_total s cur c Hw Hcur) as [y Hy].
  pose proof (body_length c r Hc) as Hlt. pose proof Hc as (Hne & Hlen & _).
  assert (exists q Q, body_of (c :: r) = q :: Q) as (q & Q & Eq) by (destruct c; [done|by eexists _, _]).
  cbn [create_loop]. rewrite Eq, <- Eq, (component_body c r Hc), skip_path.
  destruct c as [|c0 c']; [done|]. set (c := c0 :: c') in *.
  rewrite (bind_Ret _ _ _ _ _ (find_child_run _ _ _ _ Hy)).
  destruct (Z.eqb_spec y 0) as [->|Hyz].
  - destruct (new_node_run s cur c (body_of r) data Hw Hcur Hlen Hy)
      as [(msg & t & E)|[(s' & E & Hw' & Hx')|(x & s1 & n & E & Hxz & Hw1 & Hx1 & Hk1 & Hn1 & Hc1 & Ht1 & Hd1)]].
    + left. exists msg, t. by apply bind_Panic.
    + right; left. rewrite (bind_Ret _ _ _ _ _ E). simpl. by exists s'.
    + rewrite (bind_Ret _ _ _ _ _ E). destruct (Z.eqb_spec x 0); [done|].
      destruct (IH s1 x fuel Hw1 Hv) as [H1|[(s' & E' & Hw' & Hx')|(z & s' & E' & Hz & Hw' & Hx' & Hr' & Hd')]];
        [by eexists|done|lia|by left| |].
      * right; left. exists s'. split_and!; [done|done|by eapply fs_ext_trans].
      * right; right. exists z, s'. split_and!; [done|done|done|by eapply fs_ext_trans| |].
        { eapply resolves_cons_nz; [by eapply fx_kid|done|done]. }
        intros _. destruct r as [|c1 r].
        { simpl in Hr'. subst z. destruct (Hd1 eq_refl) as [Hs1 Hb1].
          destruct (fx_node _ _ Hx' _ _ Hn1) as (n' & Hn' & _ & Et & Es & Ed). exists n'.
          rewrite Et, Es, Ed. split_and!; [done|done|done|]. intros Hne'.
          eapply fx_bufs; [exact Hx'|auto]. }
        apply Hd'. exists 0. split; [|by left]. exists n, []. by rewrite Hc1.
  - rewrite bind_ret. destruct (Z.eqb_spec y 0); [done|].
    assert (is_Some (fs_nodes s !! y)) as Hys by (by eapply kid_dom).
    destruct (IH s y fuel Hw Hv Hys Hyz) as [H1|[H1|(z & s' & E' & Hz & Hw' & Hx' & Hr' & Hd')]];
      [lia|by left|by right; left|].
    right; right. exists z, s'. split_and!; [done|done|done|done| |].
    + eapply resolves_cons_nz; [by eapply fx_kid|done|done].
    + intros (w & Hw2 & Hcase). apply Hd'. rewrite (kid_det _ _ _ _ _ Hw2 Hy) in Hcase. by destruct Hcase as [[? _]|[_ ?]].
Qed.

Lemma vfs_create_run s names data :
  fs_wf s -> Forall valid_name names ->
  create_post s (root_node s) names data (vfs_create_file (path_of names) data s).
Proof.
  intros Hw Hv. unfold vfs_create_file. rewrite bind_get, skip_path.
  destruct (fw_root _ Hw). apply create_loop_run; [done..|].
  rewrite <- skip_path. unfold skip_slash. destruct (path_of names) as [|x q]; simpl; [lia|].
  destruct (x =? slash); simpl; lia.
Qed.

Lemma resolves_dom s names cur x :
  resolves (fs_nodes s) cur names x -> x <> 0 -> is_Some (fs_nodes s !! cur) -> is_Some (fs_nodes s !! x).
Proof.
  revert cur. induction names as [|c r IH]; intros cur; simpl; [by intros ->|].
  intros (y & Hy & [[-> ->]|[Hyz Hr]]) Hx _; [done|]. apply (IH y); [done|done|]. by eapply kid_dom.
Qed.

(** ** File contents *)

(** The node [a] is a file with contents [l]. *)
Definition file_at (s : vfs) (a : Z) (l : list Z) : Prop :=
  exists n, fs_nodes s !! a = Some n /\ n_size n = Z.of_nat (length l) /\ Z.of_nat (length l) < 2 ^ 63 /\
    (l <> [] -> n_data n <> 0 /\ fs_bufs s !! n_data n = Some l /\ n_data n ∈ live (fs_alloc s)).

(** [fd] is open on [a] at offset [o]. *)
Definition open_at (s : vfs) (fd a o : Z) : Prop :=
  exists f, open_entry s fd = Some f /\ o_node f = a /\ o_offset f = o.

Lemma open_entry_inv s fd f :
  open_entry s fd = Some f ->
  0 <= fd < VFS_MAX_OPEN /\ open_table s !! Z.to_nat fd = Some f /\ o_used f = true.
Proof.
  unfold open_entry. destruct (Z.ltb_spec fd 0), (Z.leb_spec VFS_MAX_OPEN fd); simpl; try done.
  destruct (aget (open_table s) fd) as [g|] eqn:E; simpl; [|done]. apply aget_Some in E as [_ E].
  destruct (o_used g) eqn:Eu; [|done]. intros [= <-]. done.
Qed.

Lemma open_entry_intro s fd f :
  0 <= fd < VFS_MAX_OPEN -> open_table s !! Z.to_nat fd = Some f -> o_used f = true ->
  open_entry s fd = Some f.
Proof.
  intros Hfd E Hu. unfold open_entry. destruct (Z.ltb_spec fd 0), (Z.leb_spec VFS_MAX_OPEN fd); try lia.
  simpl. rewrite (proj2 (aget_Some _ _ f)) by (split; [lia|done]). simpl. by rewrite Hu.
Qed.

Lemma set_offset_run s fd f o :
  open_entry s fd = Some f ->
  exists t, set_offset fd o s = Ret tt (set_table t s) /\
    open_entry (set_table t s) fd = Some (mkOpen (o_node f) o (o_flags f) true).
Proof.
  intros (Hfd & E & Hu)%open_entry_inv. eexists. split; [reflexivity|].
  apply open_entry_intro; [done| |done]. cbn [open_table set_table].
  rewrite list_lookup_alter_eq, E. simpl. by rewrite Hu.
Qed.

Lemma buf_slice_in l o n :
  0 <= o -> 0 <= n -> o + n <= Z.of_nat (length l) ->
  buf_slice l o n = Some (take (Z.to_nat n) (drop (Z.to_nat o) l)).
Proof.
  intros. unfold buf_slice.
  destruct (Z.leb_spec 0 o), (Z.leb_spec 0 n), (Z.leb_spec (o + n) (Z.of_nat (length l))); simpl; lia || done.
Qed.

Lemma buf_slice_out l o n : Z.of_nat (length l) < o + n -> buf_slice l o n = None.
Proof.
  intros. unfold buf_slice. destruct (Z.leb_spec (o + n) (Z.of_nat (length l))); [lia|].
  by rewrite andb_false_r.
Qed.

Lemma buf_store_in dst src o :
  0 <= o -> o + Z.of_nat (length src) <= Z.of_nat (length dst) ->
  buf_store dst src o = Some (take (Z.to_nat o) dst ++ src ++ drop (Z.to_nat o + length src) dst).
Proof.
  intros. unfold buf_store.
  destruct (Z.leb_spec 0 o), (Z.leb_spec (o + Z.of_nat (length src)) (Z.of_nat (length dst))); simpl; lia || done.
Qed.

(** [l] with [bytes] at [o]. *)
Definition overwrite (l bytes : list Z) (o : Z) : list Z :=
  take (Z.to_nat o) l ++ bytes ++ drop (Z.to_nat o + length bytes) l.

Lemma overwrite_length l bytes o :
  0 <= o <= Z.of_nat (length l) ->
  Z.of_nat (length (overwrite l bytes o)) = Z.max (Z.of_nat (length l)) (o + Z.of_nat (length bytes)).
Proof. intros. unfold overwrite. rewrite !length_app, length_take, length_drop. lia. Qed.

Lemma overwrite_bytes l bytes o :
  0 <= o <= Z.of_nat (length l) ->
  take (Z.to_nat (Z.of_nat (length bytes))) (drop (Z.to_nat o) (overwrite l bytes o)) = bytes.
Proof.
  intros. unfold overwrite. rewrite Nat2Z.id, drop_app_length' by (rewrite length_take; lia).
  by rewrite take_app_length.
Qed.

(** The bytes a read of [count] bytes at [o] gives. *)
Lemma default_read_run s a l o count :
  file_at s a l -> 0 <= o -> 0 <= count -> o + count < 2 ^ 63 ->
  let bytes := take (Z.to_nat count) (drop (Z.to_nat o) l) in
  vfs_default_read a count o s = Ret (Z.of_nat (length bytes), bytes) s.
Proof.
  intros (n & Hn & Hs & Hl & Hd) Ho Hc Hoc bytes. unfold vfs_default_read, node_get.
  rewrite bind_assoc, bind_get, Hn, bind_option, Hs.
  destruct (Z.leb_spec (Z.of_nat (length l)) o) as [Hle|Hgt].
  - rewrite orb_true_r. subst bytes. rewrite skipn_all2 by lia. by rewrite firstn_nil.
  - destruct Hd as (Hdz & Hb & _); [intros ->; simpl in Hgt; lia|].
    destruct (Z.eqb_spec (n_data n) 0); [done|]. cbn [orb]. unfold buf_get.
    rewrite bind_assoc, bind_get, Hb, bind_option. rewrite wrap_small by lia.
    assert (Z.of_nat (length bytes) = Z.min count (Z.of_nat (length l) - o)) as El
      by (subst bytes; rewrite length_take, length_drop; lia).
    destruct (Z.ltb_spec (Z.of_nat (length l)) (o + count)) as [Hov|Hin].
    + rewrite buf_slice_in by lia. rewrite bind_option. unfold ret.
      assert (take (Z.to_nat (Z.of_nat (length l) - o)) (drop (Z.to_nat o) l) = bytes) as ->.
      { subst bytes. rewrite (take_ge _ (Z.to_nat count)) by (rewrite length_drop; lia).
        by rewrite take_ge by (rewrite length_drop; lia). }
      rewrite El. replace (Z.min _ _) with (Z.of_nat (length l) - o) by lia.
      unfold signed. rewrite wrap_small by lia.
      by destruct (Z.ltb_spec (Z.of_nat (length l) - o) (2 ^ (64 - 1))); [|lia].
    + rewrite buf_slice_in by lia. rewrite bind_option. unfold ret. fold bytes.
      rewrite El. replace (Z.min _ _) with count by lia.
      unfold signed. rewrite wrap_small by lia.
      by destruct (Z.ltb_spec count (2 ^ (64 - 1))); [|lia].
Qed.

(** What a write leaves: the file with the bytes in place, or the file unchanged. *)
Lemma default_write_run s a l bytes o :
  file_at s a l -> bytes <> [] -> 0 <= o <= Z.of_nat (length l) ->
  o + Z.of_nat (length bytes) < 2 ^ 63 ->
  (exists msg t, vfs_default_write a bytes o s = Panic msg t) \/
  (exists s', vfs_default_write a bytes o s = Ret (-1) s' /\ file_at s' a l /\ open_table s' = open_table s) \/
  (exists s', vfs_default_write a bytes o s = Ret (Z.of_nat (length bytes)) s' /\
     file_at s' a (overwrite l bytes o) /\ open_table s' = open_table s).
Proof.
  intros (n & Hn & Hs & Hl & Hd) Hb Ho Hmax. unfold vfs_default_write.
  assert (0 < Z.of_nat (length bytes)) by (destruct bytes; simpl; done || lia).
  destruct (Z.eqb_spec (Z.of_nat (length bytes)) 0); [lia|]. rewrite wrap_small by lia.
  assert (s64 (Z.of_nat (length bytes)) = Z.of_nat (length bytes)) as Es.
  { unfold signed. rewrite wrap_small by lia.
    by destruct (Z.ltb_spec (Z.of_nat (length bytes)) (2 ^ (64 - 1))); [|lia]. }
  unfold vfs_grow, node_get. rewrite !bind_assoc, bind_get, Hn, bind_option, Hs.
  destruct (Z.ltb_spec (Z.of_nat (length l)) (o + Z.of_nat (length bytes))) as [Hgrow|Hfit].
  - rewrite bind_assoc.
    destruct (vmalloc_cases (o + Z.of_nat (length bytes)) s) as [(msg & t & E)|(d & h & E & Hd')].
    { left. exists msg, t. by apply bind_Panic. }
    right. rewrite (bind_Ret _ _ _ _ _ E). destruct Hd' as [[-> Hlv]|(Hdz & Hfr & Hlv)].
    { left. simpl. eexists. split; [done|]. split; [|done]. exists n. split_and!; try done.
      intros Hne. destruct (Hd Hne) as (? & ? & ?). split_and!; [done|done|]. simpl. by rewrite Hlv. }
    right. destruct (Z.eqb_spec d 0); [done|].
    set (zeros := replicate (Z.to_nat (o + Z.of_nat (length bytes))) 0).
    set (grown := l ++ drop (length l) zeros).
    assert (length grown = Z.to_nat (o + Z.of_nat (length bytes))) as Eg
      by (subst grown zeros; rewrite length_app, length_drop, length_replicate; lia).
    set (n' := mkNode _ _ _ _ _ _ _ _ _).
    assert (forall h' bufs, {[d]} ⊆ live h' -> bufs !! d = Some grown ->
      exists s', bind (node_set a n' ;;; ret true) (λ more, if negb more then ret (-1) else
          n <-- (s <-- get ;; of_option (fs_nodes s !! a)) ;; dst <-- buf_get (n_data n) ;;
          l <-- of_option (buf_store dst bytes o) ;; buf_set (n_data n) l ;;; ret (s64 (Z.of_nat (length bytes))))
        (mkVfs h' (fs_nodes s) bufs (root_node s) (open_table s)) = Ret (Z.of_nat (length bytes)) s' /\
        file_at s' a (overwrite l bytes o) /\ open_table s' = open_table s) as Hfin.
    { intros h' bufs Hlv' Hbd. unfold node_set. rewrite bind_assoc, bind_modify, bind_ret. cbn [negb].
      rewrite bind_assoc, bind_get. cbn [fs_nodes set_nodes]. rewrite lookup_insert_eq, bind_option.
      unfold buf_get. rewrite bind_assoc, bind_get. cbn [fs_bufs set_nodes n_data n']. rewrite Hbd, bind_option.
      rewrite buf_store_in, bind_option by lia. unfold buf_set. rewrite bind_modify, Es.
      eexists. split; [done|]. split; [|done].
      assert (take (Z.to_nat o) grown ++ bytes ++ drop (Z.to_nat o + length bytes) grown = overwrite l bytes o) as ->.
      { unfold overwrite. subst grown. rewrite take_app_le by lia. do 2 f_equal.
        rewrite !drop_ge; [done|lia|]. rewrite Eg. lia. }
      exists n'. cbn [fs_nodes set_bufs set_nodes fs_bufs fs_alloc]. rewrite !lookup_insert_eq.
      rewrite overwrite_length by lia. split; [done|]. split; [simpl; lia|]. split; [lia|].
      intros _. split; [done|]. split; [done|]. simpl. set_solver. }
    destruct (decide (l = [])) as [->|Hne].
    + simpl (0 <? _). rewrite andb_false_r. cbv iota. unfold buf_set at 1. rewrite bind_assoc, bind_modify.
      apply (Hfin h (<[d := zeros]> (fs_bufs s))); [set_solver|]. by rewrite lookup_insert_eq.
    + destruct (Hd Hne) as (Hnz & Hbuf & Hlive). destruct (Z.eqb_spec (n_data n) 0); [done|].
      destruct (Z.ltb_spec 0 (Z.of_nat (length l))); [|destruct l; simpl in *; done || lia]. cbn [negb andb].
      unfold buf_get. rewrite !bind_assoc, bind_get. cbn [fs_bufs set_alloc]. rewrite Hbuf, bind_option, bind_assoc.
      rewrite buf_slice_in, bind_option, bind_assoc by lia.
      rewrite buf_store_in, bind_option by (rewrite ?length_take, ?length_drop; subst zeros; rewrite ?length_replicate; lia).
      rewrite bind_assoc, bind_modify, bind_assoc.
      destruct (free_law (n_data n) h) as (h3 & E3 & Hl3); [set_solver|].
      match goal with |- context [bind (vfree (n_data n)) _ ?u] =>
        assert (vfree (n_data n) u = Ret tt (set_alloc h3 u)) as E4
          by (unfold vfree, zoom; cbn [fs_alloc set_alloc set_nodes set_bufs]; by rewrite E3) end.
      rewrite (bind_Ret _ _ _ _ _ E4). unfold buf_set at 1. rewrite bind_modify.
      apply (Hfin h3); [assert (d <> n_data n) by (intros ->; set_solver); set_solver|].
      cbn [fs_bufs set_alloc set_bufs]. rewrite lookup_insert_eq. f_equal.
      rewrite Nat2Z.id, drop_0, firstn_all. simpl. by subst grown.
  - right; right. rewrite bind_ret. cbn [negb]. rewrite bind_assoc, bind_get, Hn, bind_option.
    destruct Hd as (Hnz & Hbuf & Hlive); [intros ->; simpl in *; lia|].
    unfold buf_get. rewrite bind_assoc, bind_get, Hbuf, bind_option, buf_store_in, bind_option by lia.
    unfold buf_set. rewrite bind_modify, Es. eexists. split; [done|]. split; [|done].
    exists n. cbn [fs_nodes set_bufs fs_bufs fs_alloc]. fold (overwrite l bytes o).
    rewrite overwrite_length, lookup_insert_eq by lia. split_and!; try done; lia.
Qed.
(** The part of [vfs_open] after the node was found. *)
Definition open_node (node flags : Z) : M vfs Z :=
  n <-- node_get node ;;
  if n_type n =? VFS_TYPE_DIR then ret (-1)
  else
    s <-- get ;;
    match find_unused (open_table s) 0 with
    | None => ret (-1)
    | Some i =>
        put (set_table (<[i := mkOpen node 0 flags true]> (open_table s)) s) ;;;
        (if n_ops n =? 0 then ret tt else vfs_default_open node flags ;;; ret tt) ;;;
        ret (Z.of_nat i)
    end.

Lemma find_unused_spec t k :
  match find_unused t k with
  | None => Forall (λ o, o_used o = true) t
  | Some i => exists j o, i = (k + j)%nat /\ t !! j = Some o /\ o_used o = false /\
      Forall (λ o, o_used o = true) (take j t)
  end.
Proof.
  revert k. induction t as [|o t IH]; intros k; simpl; [constructor|].
  destruct (o_used o) eqn:E.
  - specialize (IH (S k)). destruct (find_unused t (S k)) as [i|].
    + destruct IH as (j & p & -> & Hj & Hp & Ht). exists (S j), p. split; [lia|]. split; [done|].
      split; [done|]. simpl. by constructor.
    + by constructor.
  - exists 0%nat, o. split; [lia|]. split; [done|]. split; [done|]. constructor.
Qed.

(** What [vfs_open] promises for a node that was found. *)
Definition opened s (a : Z) (o : outcome vfs Z) : Prop :=
  exists n, fs_nodes s !! a = Some n /\
  (((n_type n = VFS_TYPE_DIR \/ Forall (λ o, o_used o = true) (open_table s)) /\ o = Ret (-1) s) \/
   (n_type n <> VFS_TYPE_DIR /\ exists i flags e,
      open_table s !! i = Some e /\ o_used e = false /\ Forall (λ o, o_used o = true) (take i (open_table s)) /\
      o = Ret (Z.of_nat i) (set_table (<[i := mkOpen a 0 flags true]> (open_table s)) s))).

Lemma open_node_run s a flags : is_Some (fs_nodes s !! a) -> opened s a (open_node a flags s).
Proof.
  intros [n Hn]. exists n. split; [done|]. unfold open_node, node_get.
  rewrite bind_assoc, bind_get, Hn, bind_option.
  destruct (Z.eqb_spec (n_type n) VFS_TYPE_DIR); [by left; auto|]. rewrite bind_get.
  pose proof (find_unused_spec (open_table s) 0) as Hf.
  destruct (find_unused (open_table s) 0) as [i|]; [|by left; auto].
  destruct Hf as (j & e & -> & He & Hu & Ht). right. split; [done|]. exists j, flags, e.
  split; [done|]. split; [done|]. split; [done|]. by destruct (n_ops n =? 0).
Qed.
End vfs_wf.

(** ** Properties *)

Section vfs_properties.
Context {H : Type} `{!Allocator H}.
Implicit Types s : vfs H.

(** C8. [vfs_create_file] on a path of names that fit a component, in a well-formed file
    system: it ends, and (unless the heap panics) either it returns 0, or it returns a
    node which [vfs_lookup] finds at that path from then on; when nothing was there
    before, that node is a regular file with exactly the given bytes.  Either way the file system
    stays well formed, and every node, name and file contents of before is kept. *)
Theorem vfs_create_file_spec s names data :
  fs_wf s -> Forall valid_name names -> names <> [] ->
  let path := path_of names in
  (exists msg t, vfs_create_file path data s = Panic msg t) \/
  exists x s', vfs_create_file path data s = Ret x s' /\ fs_wf s' /\ fs_ext s s' /\
    (x <> 0 -> vfs_lookup path s' = Ret x s' /\
       (vfs_lookup path s = Ret 0 s -> exists n, fs_nodes s' !! x = Some n /\
          n_type n = VFS_TYPE_FILE /\ n_size n = Z.of_nat (length data) /\
          (data <> [] -> fs_bufs s' !! n_data n = Some data))).
Proof.
  intros Hw Hv Hne path. destruct (vfs_create_run s names data Hw Hv)
    as [Hp|[(s' & E & Hw' & Hx')|(x & s' & E & Hx & Hw' & Hx' & Hr & Hd)]]; [by left|right|right].
  { exists 0, s'. split_and!; done. }
  exists x, s'. split; [done|]. split; [done|]. split; [done|]. intros _. split.
  - destruct (vfs_lookup_run s' names Hw' Hv Hne) as (y & Hy & Ey). rewrite (fx_root _ _ Hx') in Hy.
    by rewrite (resolves_det _ _ _ _ _ Hr Hy).
  - intros E0. destruct (vfs_lookup_run s names Hw Hv Hne) as (y & Hy & Ey).
    subst path. rewrite E0 in Ey. injection Ey as <-. auto.
Qed.

(** C9. Writing to an open file and reading back: after a successful [vfs_write] of some
    bytes at the current offset, a [vfs_lseek] to that offset and a [vfs_read] of their
    number returns them; the file is the old one with the bytes in place and the offset
    after them.  A [vfs_write] that cannot get memory returns -1 and leaves the file. *)
Theorem vfs_write_read s fd a o l bytes :
  open_at s fd a o -> file_at s a l -> bytes <> [] -> 0 <= o <= Z.of_nat (length l) ->
  o + Z.of_nat (length bytes) < 2 ^ 63 ->
  let n := Z.of_nat (length bytes) in
  (exists msg t, vfs_write fd bytes s = Panic msg t) \/
  (exists s', vfs_write fd bytes s = Ret (-1) s' /\ file_at s' a l /\ open_table s' = open_table s) \/
  (exists s1 s2 s3, vfs_write fd bytes s = Ret n s1 /\ vfs_lseek fd o VFS_SEEK_SET s1 = Ret 0 s2 /\
     vfs_read fd n s2 = Ret (n, bytes) s3 /\
     file_at s3 a (overwrite l bytes o) /\ open_at s3 fd a (o + n)).
Proof.
  intros (f & Hf & <- & <-) Hfile Hb Ho Hmax n. unfold vfs_write. rewrite bind_get, Hf.
  assert (0 < n) by (subst n; destruct bytes; simpl; done || lia).
  destruct (default_write_run s (o_node f) l bytes (o_offset f) Hfile Hb Ho Hmax)
    as [(msg & t & E)|[(s' & E & Hs' & Ht)|(s' & E & Hs' & Ht)]].
  { left. exists msg, t. by apply bind_Panic. }
  { right; left. rewrite (bind_Ret _ _ _ _ _ E). by exists s'. }
  right; right. rewrite (bind_Ret _ _ _ _ _ E). fold n in E |- *. destruct (Z.ltb_spec 0 n); [|lia].
  rewrite wrap_small by lia.
  assert (open_entry s' fd = Some f) as Hf1 by (unfold open_entry in *; by rewrite Ht).
  destruct (set_offset_run s' fd f (o_offset f + n) Hf1) as (t1 & E1 & Ho1).
  rewrite (bind_Ret _ _ _ _ _ E1). set (s1 := set_table t1 s') in *.
  assert (file_at s1 (o_node f) (overwrite l bytes (o_offset f))) as Hs1 by done.
  pose proof (overwrite_length l bytes (o_offset f) Ho) as Hlen.
  unfold vfs_lseek. destruct (set_offset_run s1 fd _ (o_offset f) Ho1) as (t2 & E2 & Ho2).
  cbn [o_node o_flags] in Ho2.
  assert (file_at (set_table t2 s1) (o_node f) (overwrite l bytes (o_offset f))) as Hs2 by done.
  pose proof Hs1 as (m & Hm & Hsize & _).
  destruct (set_offset_run (set_table t2 s1) fd _ (o_offset f + n) Ho2) as (t3 & E3 & Ho3).
  exists s1, (set_table t2 s1), (set_table t3 (set_table t2 s1)). split; [done|]. split; [|split; [|split]].
  - rewrite bind_get, Ho1. unfold node_get. cbn [o_node]. rewrite bind_assoc, bind_get, Hm, bind_option.
    simpl (VFS_SEEK_SET =? _). cbv iota. rewrite Hsize.
    destruct (Z.ltb_spec (Z.of_nat (length (overwrite l bytes (o_offset f)))) (o_offset f)); [lia|].
    by rewrite (bind_Ret _ _ _ _ _ E2).
  - unfold vfs_read. rewrite bind_get, Ho2. cbn [o_node o_offset].
    pose proof (default_read_run _ _ _ (o_offset f) n Hs2 (proj1 Ho) ltac:(lia) ltac:(lia)) as Er.
    cbv zeta in Er. unfold n in Er. rewrite (overwrite_bytes l bytes (o_offset f) Ho) in Er.
    rewrite (bind_Ret _ _ _ _ _ Er). cbn [fst]. fold n. destruct (Z.ltb_spec 0 n); [|lia].
    rewrite wrap_small by lia. by rewrite (bind_Ret _ _ _ _ _ E3).
  - done.
  - by eexists.
Qed.

(** [vfs_open] without [VFS_O_CREAT] on a path of names that fit a component: -1 and
    no effect when nothing is there, when it is a directory or when all descriptors
    are used; otherwise the lowest free descriptor, open on the node at offset 0, and
    no other descriptor changes. *)
Theorem vfs_open_spec s names flags :
  fs_wf s -> Forall valid_name names -> names <> [] -> Z.land flags VFS_O_CREAT = 0 ->
  exists x, vfs_lookup (path_of names) s = Ret x s /\
    ((x = 0 /\ vfs_open (path_of names) flags s = Ret (-1) s) \/
     (x <> 0 /\ opened s x (vfs_open (path_of names) flags s))).
Proof.
  intros Hw Hv Hne Hf. destruct (vfs_lookup_run s names Hw Hv Hne) as (x & Hx & E).
  exists x. split; [done|]. unfold vfs_open. rewrite (bind_Ret _ _ _ _ _ E), Hf. cbn [truth Z.eqb negb].
  rewrite andb_false_r, bind_ret. destruct (Z.eqb_spec x 0); [by left|right]. split; [done|].
  apply (open_node_run s x flags). eapply resolves_dom; [done|done|]. apply (fw_root _ Hw).
Qed.

(** [offset + count] wraps in [vfs_default_read]: a [count] of nearly 2^64 at a
    nonzero offset passes the clamp, and the read runs past the file's buffer. *)
Theorem vfs_read_wraps s fd a o l count :
  open_at s fd a o -> file_at s a l -> 0 < o < Z.of_nat (length l) ->
  2 ^ 64 - o <= count < 2 ^ 64 -> vfs_read fd count s = Stuck.
Proof.
  intros (f & Hf & <- & <-) (n & Hn & Hs & Hl & Hd) Ho Hc. unfold vfs_read. rewrite bind_get, Hf.
  destruct Hd as (Hdz & Hb & _); [intros ->; simpl in Ho; lia|].
  unfold vfs_default_read, node_get. rewrite !bind_assoc, bind_get, Hn, bind_option, Hs.
  destruct (Z.eqb_spec (n_data n) 0); [done|].
  destruct (Z.leb_spec (Z.of_nat (length l)) (o_offset f)); [lia|]. cbn [orb].
  assert (u64 (o_offset f + count) = o_offset f + count - 2 ^ 64) as ->.
  { unfold wrap. rewrite <- (Z.mod_small (o_offset f + count - 2 ^ 64) (2 ^ 64)) by lia.
    rewrite <- (Z.mod_add (o_offset f + count - 2 ^ 64) 1) by lia. f_equal. lia. }
  destruct (Z.ltb_spec (Z.of_nat (length l)) (o_offset f + count - 2 ^ 64)); [lia|].
  unfold buf_get. rewrite !bind_assoc, bind_get, Hb, bind_option.
  by rewrite buf_slice_out by lia.
Qed.

(** [ramfs_init] on an empty node table makes a well-formed file system: the two
    files it creates never leave it malformed, whatever allocations fail. *)
Theorem ramfs_init_wf s root :
  fs_nodes s = ∅ -> fs_bufs s = ∅ -> root <> 0 -> root ∈ (static : gset Z) ->
  (exists msg t, ramfs_init root s = Panic msg t) \/
  exists s', ramfs_init root s = Ret tt s' /\ fs_wf s' /\ root_node s' = root.
Proof.
  intros Hn Hb Hr Hst. unfold ramfs_init, node_set, vfs_init. rewrite bind_modify, bind_modify, bind_assoc, bind_modify, bind_modify.
  cbn [set_root set_table set_nodes fs_nodes fs_bufs root_node open_table fs_alloc].
  match goal with |- context [bind _ _ ?u] => set (s0 := u) end.
  assert (fs_wf s0) as Hw0.
  { subst s0. unfold set_table, set_root, set_nodes. split; cbn [fs_nodes fs_bufs root_node fs_alloc]; rewrite ?Hn, ?Hb, ?insert_insert_eq.
    - split; [done|]. rewrite lookup_insert_eq. by eexists.
    - intros a n. intros [[<- <-]|[_ []%lookup_empty_Some]]%lookup_insert_Some. by exists [].
    - intros a [n [[<- <-]|[_ []%lookup_empty_Some]]%lookup_insert_Some]. split; [done|set_solver].
    - intros d [l Hd]. by rewrite lookup_empty in Hd. }
  destruct (vfs_create_run s0 [tail (string_bytes "/readme.txt")] (string_bytes "MiraOS ramfs online") Hw0)
    as [(msg & t & E)|H1]; [by repeat constructor| |].
  { left. exists msg, t. apply bind_Panic. exact E. }
  assert (exists x s1, vfs_create_file (string_bytes "/readme.txt") (string_bytes "MiraOS ramfs online") s0 = Ret x s1 /\
    fs_wf s1 /\ fs_ext s0 s1) as (x & s1 & E1 & Hw1 & Hx1) by (destruct H1 as [(?&?&?&?)|(?&?&?&?&?&?&?)]; eauto).
  rewrite (bind_Ret _ _ _ _ _ E1).
  destruct (vfs_create_run s1 [tail (string_bytes "/version")] (string_bytes "1.0") Hw1)
    as [(msg & t & E)|H2]; [by repeat constructor| |].
  { left. exists msg, t. apply bind_Panic. exact E. }
  assert (exists x s2, vfs_create_file (string_bytes "/version") (string_bytes "1.0") s1 = Ret x s2 /\
    fs_wf s2 /\ fs_ext s1 s2) as (y & s2 & E2 & Hw2 & Hx2) by (destruct H2 as [(?&?&?&?)|(?&?&?&?&?&?&?)]; eauto).
  right. exists s2. rewrite (bind_Ret _ _ _ _ _ E2). split; [done|]. split; [done|].
  by rewrite (fx_root _ _ Hx2), (fx_root _ _ Hx1).
Qed.
End vfs_properties.

(** ** A concrete allocator and file system *)

Section vfs_witnesses.

(** Objects at 1000 and up; every address below 100 is static; 16 objects at most. *)
Definition bump_malloc (n : Z) : M (gset Z) Z := λ h,
  let p := fold_right Z.max 1000 (elements h) + 1 in
  if 16 <=? Z.of_nat (size h) then Ret 0 h else Ret p ({[p]} ∪ h).
Definition bump_free (p : Z) : M (gset Z) unit := λ h, Ret tt (h ∖ {[p]}).

Lemma fold_max_ge (l : list Z) x : x ∈ l -> x <= fold_right Z.max 1000 l.
Proof. induction 1; simpl; lia. Qed.
Lemma fold_max_base (l : list Z) : 1000 <= fold_right Z.max 1000 l.
Proof. induction l; simpl; lia. Qed.

Lemma bump_malloc_law n h :
  (exists msg t, bump_malloc n h = Panic msg t) \/
  exists p h', bump_malloc n h = Ret p h' /\
    ((p = 0 /\ h' = h) \/ (p <> 0 /\ p ∉ h ∪ {[16]} /\ h' = {[p]} ∪ h)).
Proof.
  right. unfold bump_malloc. pose proof (fold_max_base (elements h)).
  destruct (16 <=? Z.of_nat (size h)); eexists _, _; (split; [done|]); [by left|right].
  split; [lia|]. split; [|done]. intros [Hin|Heq%elem_of_singleton]%elem_of_union; [|lia].
  apply elem_of_elements, fold_max_ge in Hin. lia.
Qed.

#[local] Instance bump_allocator : Allocator (gset Z) := {|
  malloc := bump_malloc;
  free := bump_free;
  live h := h;
  static := {[16]};
  malloc_law := bump_malloc_law;
  free_law p h _ := ex_intro _ _ (conj eq_refl eq_refl)
|}.

Definition vfs_blank : vfs (gset Z) := mkVfs ∅ ∅ ∅ 0 (replicate 16 (mkOpen 0 0 0 false)).

Lemma ramfs_init_wf_witness :
  exists s', ramfs_init 16 vfs_blank = Ret tt s' /\ root_node s' = 16.
Proof.
  destruct (@ramfs_init_wf _ bump_allocator vfs_blank 16 eq_refl eq_refl ltac:(lia)
    ltac:(change (16 ∈ ({[16]} : gset Z)); by apply elem_of_singleton))
    as [(msg & t & E)|(s' & E & _ & R)]; [|by exists s'].
  exfalso. revert E. vm_compute. discriminate.
Defined.

(** A root directory that holds one file, "a", of three bytes, open as descriptor 2. *)
Definition vfs_small : vfs (gset Z) := mkVfs {[100; 101]}
  (<[16 := mkNode [47] VFS_TYPE_DIR 0 0 0 0 100 0 1]> (<[100 := mkNode [97] VFS_TYPE_FILE 3 101 1 16 0 0 0]> ∅))
  (<[101 := [65; 66; 67]]> ∅) 16
  (<[2%nat := mkOpen 100 1 0 true]> (replicate 16 (mkOpen 0 0 0 false))).

Lemma vfs_small_wf : fs_wf vfs_small.
Proof.
  unfold vfs_small. split; cbn [fs_nodes fs_bufs fs_alloc root_node].
  - split; [done|]. by eexists.
  - intros a n [[<- <-]|[_ [[<- <-]|[_ []%lookup_empty_Some]]%lookup_insert_Some]]%lookup_insert_Some.
    + exists [100]. split; [done|]. split; [done|]. by eexists.
    + by exists [].
  - intros a [n [[<- _]|[_ [[<- _]|[_ []%lookup_empty_Some]]%lookup_insert_Some]]%lookup_insert_Some];
      (split; [done|]); apply (bool_decide_unpack _); vm_compute; exact I.
  - intros d [l [[<- _]|[_ []%lookup_empty_Some]]%lookup_insert_Some].
    apply (bool_decide_unpack _); vm_compute; exact I.
Qed.

Lemma vfs_small_open : open_at vfs_small 2 100 1.
Proof. by eexists. Qed.

Lemma vfs_small_file : file_at vfs_small 100 [65; 66; 67].
Proof.
  eexists. split; [reflexivity|]. split; [done|]. split; [done|]. intros _.
  split; [done|]. split; [done|]. apply (bool_decide_unpack _); vm_compute; exact I.
Qed.

Lemma vfs_create_file_spec_witness :
  exists x s', vfs_create_file (path_of [[98]; [99]]) [1; 2] vfs_small = Ret x s' /\
    vfs_lookup (path_of [[98]; [99]]) s' = Ret x s'.
Proof.
  destruct (vfs_create_file_spec vfs_small [[98]; [99]] [1; 2] vfs_small_wf)
    as [(msg & t & E)|(x & s' & E & _ & _ & Hx)];
    [by repeat constructor|done|exfalso; revert E; vm_compute; discriminate|].
  exists x, s'. split; [exact E|]. apply Hx. intros ->. revert E. vm_compute. discriminate.
Defined.

Lemma vfs_write_read_witness :
  exists s1 s2 s3, vfs_write 2 [1; 2; 3] vfs_small = Ret 3 s1 /\ vfs_lseek 2 1 VFS_SEEK_SET s1 = Ret 0 s2 /\
    vfs_read 2 3 s2 = Ret (3, [1; 2; 3]) s3 /\ file_at s3 100 [65; 1; 2; 3].
Proof.
  destruct (vfs_write_read vfs_small 2 100 1 [65; 66; 67] [1; 2; 3] vfs_small_open vfs_small_file)
    as [(msg & t & E)|[(s' & E & _)|(s1 & s2 & s3 & E1 & E2 & E3 & Hf & _)]];
    [done|simpl; lia|simpl; lia|exfalso; revert E; vm_compute; discriminate..|].
  exists s1, s2, s3. split; [exact E1|]. split; [exact E2|]. split; [exact E3|exact Hf].
Defined.

Lemma vfs_open_spec_witness :
  exists x, vfs_lookup (path_of [[97]]) vfs_small = Ret x vfs_small /\ x <> 0 /\
    opened vfs_small x (vfs_open (path_of [[97]]) 1 vfs_small).
Proof.
  destruct (vfs_open_spec vfs_small [[97]] 1 vfs_small_wf) as (x & E & [[-> _]|[Hx Ho]]);
    [by repeat constructor|done|done|exfalso; revert E; vm_compute; discriminate|].
  exists x. split; [exact E|]. split; [exact Hx|exact Ho].
Defined.

Lemma vfs_read_wraps_witness : vfs_read 2 (2 ^ 64 - 1) vfs_small = Stuck.
Proof. apply (vfs_read_wraps vfs_small 2 100 1 [65; 66; 67] _ vfs_small_open vfs_small_file); simpl; lia. Defined.
End vfs_witnesses.
