(* ===== verification/Process.v ===== *)
(** * Processes and the scheduler (kernel/process.c)

    Processes are records at their addresses; an access to a process that is not in
    the table (never allocated, or freed) is undefined behaviour.  The process list
    and the ready queue both run through the fields [next] and [prev].  The registers are a
    part of the state.  The assembly of [process_switch] is modelled move by move: what it
    loads, it loads through a base register of the compiler's choice, which it overwrites
    on the way ([restore]).  What it saves is idealised: the registers at the call, as if
    the compiled function used none of them, and the push of the flags on the new stack is
    not a write to a process. *)

From S2P Require Import Prelude CString Vfs.

(** The page allocator as kernel/process.c uses it: it gives no heap object away.  The
    pages that it manages are those of its bitmap; freeing another one reads the memory
    behind the bitmap, which is undefined, or returns. *)
Class PageAllocator (H : Type) `{!Allocator H} := {
  page_alloc : M H Z;
  page_free : Z -> M H unit;
  page_alloc_law : forall h, exists p h', page_alloc h = Ret p h' /\ live h' = live h;
  managed : Z -> bool;
  page_free_law : forall p h,
    (exists h', page_free p h = Ret tt h' /\ live h' = live h) \/ (managed p = false /\ page_free p h = Stuck)
}.

Definition PROCESS_NAME_MAX : nat := 64.
Definition PROCESS_STACK_SIZE : Z := 0x100000.

Inductive process_state_t :=
  | PROCESS_STATE_READY
  | PROCESS_STATE_RUNNING
  | PROCESS_STATE_BLOCKED
  | PROCESS_STATE_ZOMBIE.

Record context := mkCtx {
  r15 : Z; r14 : Z; r13 : Z; r12 : Z; r11 : Z; r10 : Z; r9 : Z; r8 : Z;
  rdi : Z; rsi : Z; rbp : Z; rbx : Z; rdx : Z; rcx : Z; rax : Z;
  rip : Z; rflags : Z; rsp : Z
}.
Definition zero_context : context := mkCtx 0 0 0 0 0 0 0 0 0 0 0 0 0 0 0 0 0 0.

(** The general registers, and the compiled [process_switch]: the address of the label [1:]
    behind its jump, the register that holds [next] in the operands of its loads, and the
    memory outside of the process table, as these loads find it. *)
Inductive gpr := RAX | RBX | RCX | RDX | RDI | RSI | RBP | RSP | R8 | R9 | R10 | R11 | R12 | R13 | R14 | R15.
#[global] Instance gpr_eq_dec : EqDecision gpr.
Proof. solve_decision. Defined.
Record compiled := mkAsm { label : Z; base : gpr; word : Z -> Z }.

Definition reg (r : gpr) (c : context) : Z :=
  match r with
  | RAX => rax c | RBX => rbx c | RCX => rcx c | RDX => rdx c | RDI => rdi c | RSI => rsi c | RBP => rbp c | RSP => rsp c
  | R8 => r8 c | R9 => r9 c | R10 => r10 c | R11 => r11 c | R12 => r12 c | R13 => r13 c | R14 => r14 c | R15 => r15 c
  end.
Definition set_reg (r : gpr) (v : Z) (c : context) : context :=
  let f r' x := if decide (r = r') then v else x in
  mkCtx (f R15 (r15 c)) (f R14 (r14 c)) (f R13 (r13 c)) (f R12 (r12 c)) (f R11 (r11 c)) (f R10 (r10 c)) (f R9 (r9 c)) (f R8 (r8 c))
    (f RDI (rdi c)) (f RSI (rsi c)) (f RBP (rbp c)) (f RBX (rbx c)) (f RDX (rdx c)) (f RCX (rcx c)) (f RAX (rax c))
    (rip c) (rflags c) (f RSP (rsp c)).

(** The fields the code uses; the others are zeroed once and never touched. *)
Record process := mkProc {
  p_pid : Z;
  p_name : list Z;
  p_state : process_state_t;
  p_cr3 : Z;
  p_stack_top : Z;
  p_stack_bottom : Z;
  p_entry_point : Z;
  p_context : context;
  p_next : Z;
  p_prev : Z;
  p_exit_status : Z
}.
Definition zero_process : process :=
  mkProc 0 (replicate PROCESS_NAME_MAX 0) PROCESS_STATE_READY 0 0 0 0 zero_context 0 0 0.

Definition with_next (x : Z) (p : process) : process :=
  mkProc (p_pid p) (p_name p) (p_state p) (p_cr3 p) (p_stack_top p) (p_stack_bottom p)
    (p_entry_point p) (p_context p) x (p_prev p) (p_exit_status p).
Definition with_prev (x : Z) (p : process) : process :=
  mkProc (p_pid p) (p_name p) (p_state p) (p_cr3 p) (p_stack_top p) (p_stack_bottom p)
    (p_entry_point p) (p_context p) (p_next p) x (p_exit_status p).
Definition with_state (x : process_state_t) (p : process) : process :=
  mkProc (p_pid p) (p_name p) x (p_cr3 p) (p_stack_top p) (p_stack_bottom p)
    (p_entry_point p) (p_context p) (p_next p) (p_prev p) (p_exit_status p).
Definition with_context (x : context) (p : process) : process :=
  mkProc (p_pid p) (p_name p) (p_state p) (p_cr3 p) (p_stack_top p) (p_stack_bottom p)
    (p_entry_point p) x (p_next p) (p_prev p) (p_exit_status p).
Definition with_exit (x : Z) (p : process) : process :=
  mkProc (p_pid p) (p_name p) (p_state p) (p_cr3 p) (p_stack_top p) (p_stack_bottom p)
    (p_entry_point p) (p_context p) (p_next p) (p_prev p) x.
Definition with_stack (top bottom : Z) (p : process) : process :=
  mkProc (p_pid p) (p_name p) (p_state p) (p_cr3 p) top bottom
    (p_entry_point p) (p_context p) (p_next p) (p_prev p) (p_exit_status p).

Record kern (H : Type) := mkKern {
  k_mem : H;
  procs : gmap Z process;
  current_process : Z;
  process_list : Z;
  next_pid : Z;
  ready_queue : Z;
  ready_queue_tail : Z;
  cpu : context;
  cpu_cr3 : Z
}.
Arguments mkKern {H}.
Arguments k_mem {H}.
Arguments procs {H}.
Arguments current_process {H}.
Arguments process_list {H}.
Arguments next_pid {H}.
Arguments ready_queue {H}.
Arguments ready_queue_tail {H}.
Arguments cpu {H}.
Arguments cpu_cr3 {H}.

Section process_code.
Context {H : Type} `{PA : PageAllocator H}.
Local Abbreviation kern := (kern H).
Implicit Types s : kern.

Definition set_mem (h : H) s : kern := mkKern h (procs s) (current_process s) (process_list s) (next_pid s)
  (ready_queue s) (ready_queue_tail s) (cpu s) (cpu_cr3 s).
Definition set_procs (t : gmap Z process) s : kern := mkKern (k_mem s) t (current_process s) (process_list s) (next_pid s)
  (ready_queue s) (ready_queue_tail s) (cpu s) (cpu_cr3 s).
Definition set_current (x : Z) s : kern := mkKern (k_mem s) (procs s) x (process_list s) (next_pid s)
  (ready_queue s) (ready_queue_tail s) (cpu s) (cpu_cr3 s).
Definition set_list (x : Z) s : kern := mkKern (k_mem s) (procs s) (current_process s) x (next_pid s)
  (ready_queue s) (ready_queue_tail s) (cpu s) (cpu_cr3 s).
Definition set_pid (x : Z) s : kern := mkKern (k_mem s) (procs s) (current_process s) (process_list s) x
  (ready_queue s) (ready_queue_tail s) (cpu s) (cpu_cr3 s).
Definition set_queue (hd tl : Z) s : kern := mkKern (k_mem s) (procs s) (current_process s) (process_list s) (next_pid s)
  hd tl (cpu s) (cpu_cr3 s).
Definition set_cpu (c : context) (r : Z) s : kern := mkKern (k_mem s) (procs s) (current_process s) (process_list s) (next_pid s)
  (ready_queue s) (ready_queue_tail s) c r.

Definition proc_get (a : Z) : M kern process := s <-- get ;; of_option (procs s !! a).
Definition proc_set (a : Z) (p : process) : M kern unit := modify (λ s, set_procs (<[a := p]> (procs s)) s).
(** A store to a field of the process at [a]. *)
Definition proc_upd (a : Z) (f : process -> process) : M kern unit :=
  p <-- proc_get a ;; proc_set a (f p).

Definition k_malloc (n : Z) : M kern Z := zoom k_mem set_mem (malloc n).
Definition k_page_alloc : M kern Z := zoom k_mem set_mem page_alloc.
Definition k_page_free (p : Z) : M kern unit := zoom k_mem set_mem (page_free p).
(** [kfree] of a process ends its object. *)
Definition k_free (a : Z) : M kern unit :=
  modify (λ s, set_procs (delete a (procs s)) s) ;;; zoom k_mem set_mem (free a).

Definition process_init : M kern unit :=
  modify (set_current 0) ;;; modify (set_list 0) ;;; modify (set_pid 1).

Definition process_alloc_pid : M kern Z :=
  s <-- get ;; put (set_pid (u32 (next_pid s + 1)) s) ;;; ret (next_pid s).

(** The loop over the pages of the stack after the first: the index that failed, if one did. *)
Fixpoint stack_loop (n : nat) (i : Z) : M kern (option Z) :=
  match n with
  | O => ret None
  | S n' =>
      pg <-- k_page_alloc ;;
      if pg =? 0 then ret (Some i) else stack_loop n' (i + 1)
  end.

Definition free_stack (bottom n : Z) : M kern unit :=
  for_range 0 n (λ j, k_page_free (u64 (bottom + j * 4096))).

Definition process_create (name : list Z) (entry_point : Z) : M kern Z :=
  proc <-- k_malloc 376 ;;
  if proc =? 0 then ret 0
  else
    proc_set proc zero_process ;;;
    pid <-- process_alloc_pid ;;
    nm <-- of_option (ds_strcpy (replicate PROCESS_NAME_MAX 0) name) ;;
    proc_set proc (mkProc pid nm PROCESS_STATE_READY 0 0 0 entry_point zero_context 0 0 0) ;;;
    let stack_pages := PROCESS_STACK_SIZE / 4096 in
    stack_base <-- k_page_alloc ;;
    if stack_base =? 0 then k_free proc ;;; ret 0
    else
      proc_upd proc (with_stack 0 stack_base) ;;;
      failed <-- stack_loop (Z.to_nat (stack_pages - 1)) 1 ;;
      match failed with
      | Some i => free_stack stack_base i ;;; k_free proc ;;; ret 0
      | None =>
          let top := u64 (stack_base + PROCESS_STACK_SIZE) in
          proc_upd proc (with_stack top stack_base) ;;;
          proc_upd proc (with_context (mkCtx 0 0 0 0 0 0 0 0 0 0 0 0 0 0 0 entry_point 0x202 top)) ;;;
          s <-- get ;;
          proc_upd proc (with_next (process_list s)) ;;;
          (if process_list s =? 0 then ret tt else proc_upd (process_list s) (with_prev proc)) ;;;
          modify (set_list proc) ;;;
          ret proc
      end.

Definition process_destroy (proc : Z) : M kern unit :=
  if proc =? 0 then ret tt
  else
    p <-- proc_get proc ;;
    (if p_stack_bottom p =? 0 then ret tt
     else free_stack (p_stack_bottom p) (PROCESS_STACK_SIZE / 4096)) ;;;
    p <-- proc_get proc ;;
    (if p_prev p =? 0 then ret tt else proc_upd (p_prev p) (with_next (p_next p))) ;;;
    p <-- proc_get proc ;;
    (if p_next p =? 0 then ret tt else proc_upd (p_next p) (with_prev (p_prev p))) ;;;
    s <-- get ;;
    p <-- proc_get proc ;;
    (if process_list s =? proc then modify (set_list (p_next p)) else ret tt) ;;;
    k_free proc.

Definition process_get_current : M kern Z := gets current_process.
Definition process_set_current (proc : Z) : M kern unit := modify (set_current proc).

(** The registers that [save_minimal] stores; [rip] was stored by its caller. *)
Definition saved (c : context) (p : process) : context :=
  mkCtx (r15 c) (r14 c) (r13 c) (r12 c) (r11 c) (r10 c) (r9 c) (r8 c)
    (rdi c) (rsi c) (rbp c) (rbx c) (rdx c) (rcx c) (rax c)
    (rip (p_context p)) (rflags c) (rsp c).

Definition save_minimal (proc : Z) : M kern unit :=
  if proc =? 0 then ret tt
  else s <-- get ;; proc_upd proc (λ p, with_context (saved (cpu s) p) p).

Variable asm : compiled.

(** [leaq 1f(%rip), %rax; movq %rax, context.rip]. *)
Definition save_rip (proc : Z) : M kern unit :=
  modify (λ s, set_cpu (set_reg RAX (label asm) (cpu s)) (cpu_cr3 s) s) ;;;
  proc_upd proc (λ p, let c := p_context p in
    with_context (mkCtx (r15 c) (r14 c) (r13 c) (r12 c) (r11 c) (r10 c) (r9 c) (r8 c)
      (rdi c) (rsi c) (rbp c) (rbx c) (rdx c) (rcx c) (rax c) (label asm) (rflags c) (rsp c)) p).

(** The operand [field] of a load: the field at its offset from the base register. *)
Definition operand (t : gmap Z process) (b : Z) (field : context -> Z) (off : Z) : Z :=
  match t !! b with
  | Some p => field (p_context p)
  | None => word asm (u64 (b + off))
  end.

(** The loads in their order, with the offsets in [process_t]. *)
Definition loads : list (gpr * Z) :=
  [(RSP, 240); (RBP, 184); (RAX, 216); (RBX, 192); (RCX, 208); (RDX, 200); (RDI, 168); (RSI, 176);
   (R8, 160); (R9, 152); (R10, 144); (R11, 136); (R12, 128); (R13, 120); (R14, 112); (R15, 104)].
Definition load (t : gmap Z process) (c : context) (l : gpr * Z) : context :=
  set_reg l.1 (operand t (reg (base asm) c) (reg l.1) l.2) c.
(** The loads, [pushq; popfq] of the flags and the jump. *)
Definition restore (t : gmap Z process) (c : context) : context :=
  let c := foldl (load t) c loads in
  let b := reg (base asm) c in
  mkCtx (r15 c) (r14 c) (r13 c) (r12 c) (r11 c) (r10 c) (r9 c) (r8 c)
    (rdi c) (rsi c) (rbp c) (rbx c) (rdx c) (rcx c) (rax c) (operand t b rip 224) (operand t b rflags 232) (rsp c).

Definition process_switch (next : Z) : M kern unit :=
  if next =? 0 then ret tt
  else
    s <-- get ;;
    if current_process s =? next then ret tt
    else
      (if current_process s =? 0 then ret tt
       else save_rip (current_process s) ;;; save_minimal (current_process s)) ;;;
      modify (set_current next) ;;;
      n <-- proc_get next ;;
      modify (λ s, set_cpu (restore (procs s) (set_reg (base asm) next (cpu s))) (if p_cr3 n =? 0 then cpu_cr3 s else p_cr3 n) s).

(** [while (proc) ...] *)
Fixpoint find_loop (fuel : nat) (proc pid : Z) : M kern Z :=
  match fuel with
  | O => nofuel
  | S fuel' =>
      if proc =? 0 then ret 0
      else
        p <-- proc_get proc ;;
        if p_pid p =? pid then ret proc else find_loop fuel' (p_next p) pid
  end.

(** A list without a cycle visits each process at most once. *)
Definition process_find_by_pid (pid : Z) : M kern Z :=
  s <-- get ;; find_loop (S (size (procs s))) (process_list s) pid.

(** ** The round-robin scheduler *)

Definition scheduler_init : M kern unit := modify (set_queue 0 0).

Definition scheduler_next : M kern Z := gets ready_queue.

(** The rotation of [scheduler_tick]: the head goes to the tail. *)
Definition rotate_queue : M kern unit :=
  s <-- get ;;
  let head := ready_queue s in
  p <-- proc_get head ;;
  if p_next p =? 0 then ret tt
  else
    modify (set_queue (p_next p) (ready_queue_tail s)) ;;;
    proc_upd (p_next p) (with_prev 0) ;;;
    proc_upd head (with_next 0) ;;;
    proc_upd head (with_prev (ready_queue_tail s)) ;;;
    proc_upd (ready_queue_tail s) (with_next head) ;;;
    modify (λ s, set_queue (ready_queue s) head s).

Definition scheduler_tick : M kern unit :=
  s <-- get ;;
  if ready_queue s =? 0 then ret tt
  else
    rotate_queue ;;;
    s <-- get ;;
    let next := ready_queue s in
    if negb (next =? 0) && negb (current_process s =? next) then process_switch next else ret tt.

Definition scheduler_add (proc : Z) : M kern unit :=
  if proc =? 0 then ret tt
  else
    proc_upd proc (with_state PROCESS_STATE_READY) ;;;
    s <-- get ;;
    if ready_queue s =? 0 then
      modify (set_queue proc proc) ;;;
      proc_upd proc (with_next 0) ;;;
      proc_upd proc (with_prev 0)
    else
      proc_upd (ready_queue_tail s) (with_next proc) ;;;
      proc_upd proc (with_prev (ready_queue_tail s)) ;;;
      proc_upd proc (with_next 0) ;;;
      modify (λ s, set_queue (ready_queue s) proc s).

Definition scheduler_remove (proc : Z) : M kern unit :=
  if proc =? 0 then ret tt
  else
    p <-- proc_get proc ;;
    (if p_prev p =? 0 then modify (λ s, set_queue (p_next p) (ready_queue_tail s) s)
     else proc_upd (p_prev p) (with_next (p_next p))) ;;;
    p <-- proc_get proc ;;
    (if p_next p =? 0 then modify (λ s, set_queue (ready_queue s) (p_prev p) s)
     else proc_upd (p_next p) (with_prev (p_prev p))) ;;;
    proc_upd proc (with_next 0) ;;;
    proc_upd proc (with_prev 0).

(** The case [SYSCALL_EXIT] of [syscall_dispatch] (kernel/syscall.c). *)
Definition end_process (cur a1 : Z) : M kern unit :=
  if cur =? 0 then ret tt
  else
    proc_upd cur (with_exit (s32 a1)) ;;;
    proc_upd cur (with_state PROCESS_STATE_ZOMBIE) ;;;
    scheduler_remove cur ;;;
    process_destroy cur.
Definition sys_exit (a1 : Z) : M kern Z :=
  cur <-- process_get_current ;;
  end_process cur a1 ;;;
  scheduler_tick ;;;
  ret 0.
End process_code.

(** ** Linked lists of processes *)

Section links.
Implicit Types (t : gmap Z process) (l : list Z).

Fixpoint lastd (d : Z) (l : list Z) : Z := match l with [] => d | x :: r => lastd x r end.

(** [l] is linked both ways, after [prv] and before [nxt]. *)
Fixpoint seg t (prv : Z) l (nxt : Z) : Prop :=
  match l with
  | [] => True
  | x :: r => x <> 0 /\ (exists p, t !! x = Some p /\ p_prev p = prv /\ p_next p = hd nxt r) /\ seg t x r nxt
  end.

Lemma lastd_app d a b : lastd d (a ++ b) = lastd (lastd d a) b.
Proof. revert d. induction a; intros d; simpl; auto. Qed.

Lemma hd_app (d : Z) a b : hd d (a ++ b) = hd (hd d b) a.
Proof. by destruct a. Qed.

Lemma seg_app t prv a b nxt :
  seg t prv (a ++ b) nxt <-> seg t prv a (hd nxt b) /\ seg t (lastd prv a) b nxt.
Proof.
  revert prv. induction a as [|x a IH]; intros prv; simpl; [tauto|]. rewrite IH, hd_app. tauto.
Qed.

Lemma seg_dom t prv l nxt x : seg t prv l nxt -> x ∈ l -> x <> 0 /\ is_Some (t !! x).
Proof.
  revert prv. induction l as [|y l IH]; intros prv; simpl; [by intros _ ?%not_elem_of_nil|].
  intros (Hy & (p & Hp & _) & Hl) [->|Hx]%elem_of_cons; [by eauto|by eapply IH].
Qed.

Lemma seg_other t z q prv l nxt : z ∉ l -> seg t prv l nxt -> seg (<[z := q]> t) prv l nxt.
Proof.
  revert prv. induction l as [|y l IH]; intros prv; simpl; [done|].
  intros [Hz Hzl]%not_elem_of_cons (Hy & (p & Hp & E) & Hl). split; [done|]. split; [|by apply IH].
  exists p. by rewrite lookup_insert_ne.
Qed.

Lemma seg_delete t z prv l nxt : z ∉ l -> seg t prv l nxt -> seg (delete z t) prv l nxt.
Proof.
  revert prv. induction l as [|y l IH]; intros prv; simpl; [done|].
  intros [Hz Hzl]%not_elem_of_cons (Hy & (p & Hp & E) & Hl). split; [done|]. split; [|by apply IH].
  exists p. by rewrite lookup_delete_ne.
Qed.

(** A store that keeps the links of a process keeps every list. *)
Lemma seg_same t z p q prv l nxt :
  t !! z = Some p -> p_next q = p_next p -> p_prev q = p_prev p ->
  seg t prv l nxt -> seg (<[z := q]> t) prv l nxt.
Proof.
  intros Hz En Ep. revert prv. induction l as [|y l IH]; intros prv; simpl; [done|].
  intros (Hy & (p' & Hp' & E1 & E2) & Hl). split; [done|]. split; [|by apply IH].
  destruct (decide (z = y)) as [<-|].
  - exists q. rewrite lookup_insert_eq. split; [done|]. simplify_eq. by rewrite En, Ep.
  - exists p'. by rewrite lookup_insert_ne.
Qed.

Lemma seg_next t prv a y nxt n p :
  NoDup (a ++ [y]) -> t !! y = Some p -> seg t prv (a ++ [y]) nxt ->
  seg (<[y := with_next n p]> t) prv (a ++ [y]) n.
Proof.
  intros (_ & Hn & _)%NoDup_app Hp (Ha & Hy & (p' & Hp' & Ep & En) & _)%seg_app.
  rewrite Hp in Hp'. injection Hp' as <-. apply seg_app. split.
  - apply seg_other; [|done]. intros Hin. apply (Hn y Hin). by left.
  - simpl. split; [done|]. split; [|done]. exists (with_next n p). by rewrite lookup_insert_eq.
Qed.

Lemma seg_prev t prv y b nxt q p :
  NoDup (y :: b) -> t !! y = Some p -> seg t prv (y :: b) nxt ->
  seg (<[y := with_prev q p]> t) q (y :: b) nxt.
Proof.
  intros [Hn _]%NoDup_cons Hp (Hy & (p' & Hp' & Ep & En) & Hb).
  rewrite Hp in Hp'. injection Hp' as <-. split; [done|]. split.
  - exists (with_prev q p). by rewrite lookup_insert_eq.
  - by apply seg_other.
Qed.

(** The next link of the last element of a segment. *)
Lemma seg_at t prv a x b nxt :
  seg t prv (a ++ x :: b) nxt -> exists p, t !! x = Some p /\ p_prev p = lastd prv a /\ p_next p = hd nxt b.
Proof. intros [_ (_ & (p & ? & ? & ?) & _)]%seg_app. by exists p. Qed.

(** Unlinking a node: its neighbours point past it. *)
Definition unlink_next (t : gmap Z process) (x n : Z) : gmap Z process :=
  if x =? 0 then t else alter (with_next n) x t.
Definition unlink_prev (t : gmap Z process) (x q : Z) : gmap Z process :=
  if x =? 0 then t else alter (with_prev q) x t.

Lemma lastd_0 a x : x = lastd 0 a -> (a = [] /\ x = 0) \/ exists a', a = a' ++ [x].
Proof.
  intros ->. destruct a as [|y a _] using rev_ind; [by left|right].
  exists a. by rewrite lastd_app.
Qed.

Lemma alter_insert (f : process -> process) x p t : t !! x = Some p -> alter f x t = <[x := f p]> t.
Proof.
  intros Hx. apply map_eq. intros y. destruct (decide (x = y)) as [->|].
  - rewrite lookup_alter_eq, lookup_insert_eq, Hx. done.
  - by rewrite lookup_alter_ne, lookup_insert_ne.
Qed.

Lemma seg_unlink t a x b :
  NoDup (a ++ x :: b) -> seg t 0 (a ++ x :: b) 0 ->
  let t1 := unlink_next t (lastd 0 a) (hd 0 b) in
  seg (unlink_prev t1 (hd 0 b) (lastd 0 a)) 0 (a ++ b) 0 /\
  t1 !! x = t !! x /\ unlink_prev t1 (hd 0 b) (lastd 0 a) !! x = t !! x.
Proof.
  intros Hnd Hs. apply NoDup_app in Hnd as (Hna & Hab & Hxb). apply NoDup_cons in Hxb as [Hxb Hnb].
  assert (x ∉ a) as Hxa by (intros Hx; apply (Hab x Hx); by left).
  apply seg_app in Hs as [Ha (Hx & Hpx & Hb)]. cbn [hd] in Ha.
  assert (seg (unlink_next t (lastd 0 a) (hd 0 b)) 0 a (hd 0 b) /\
    seg (unlink_next t (lastd 0 a) (hd 0 b)) x b 0 /\
    unlink_next t (lastd 0 a) (hd 0 b) !! x = t !! x) as (Ha1 & Hb1 & Hx1).
  { destruct (lastd_0 a (lastd 0 a) eq_refl) as [[-> E]|[a' Ea]].
    { split; [done|]. split; [exact Hb|done]. }
    remember (lastd 0 a) as y eqn:Ey. subst a.
    destruct (seg_dom _ _ _ _ y Ha) as [Hy [py Hpy]]; [set_solver|].
    unfold unlink_next. destruct (Z.eqb_spec y 0); [done|]. rewrite (alter_insert _ _ _ _ Hpy).
    split; [by eapply seg_next|]. split; [|by rewrite lookup_insert_ne by set_solver].
    apply seg_other; [|done]. intros Hyb. apply (Hab y); [set_solver|by right]. }
  cbv zeta. set (t1 := unlink_next t (lastd 0 a) (hd 0 b)) in *. destruct b as [|z b].
  { simpl. rewrite app_nil_r. done. }
  cbn [hd]. destruct (seg_dom _ _ _ _ z Hb1) as [Hz [pz Hpz]]; [by left|].
  unfold unlink_prev. destruct (Z.eqb_spec z 0); [done|]. rewrite (alter_insert _ _ _ _ Hpz).
  assert (z ∉ a) by (intros Hza; apply (Hab z Hza); right; by left).
  split; [|split; [done|rewrite lookup_insert_ne by set_solver; done]].
  apply seg_app. split; [by apply seg_other|]. by eapply seg_prev.
Qed.

Lemma hd_0 t prv (b : list Z) nxt : seg t prv b nxt -> nxt = 0 -> hd 0 b = 0 -> b = [].
Proof. intros Hs ->. destruct b; [done|]. destruct Hs as [? _]. by intros ?. Qed.
End links.

(** ** The ready queue as a list *)

Section scheduler.
Context {H : Type} `{PA : PageAllocator H}.
Local Abbreviation kern := (kern H).
Implicit Types (s : kern) (l : list Z).

Lemma proc_upd_run a f s p :
  procs s !! a = Some p -> proc_upd a f s = Ret tt (set_procs (<[a := f p]> (procs s)) s).
Proof. intros Hp. unfold proc_upd, proc_get. run_step. rewrite Hp. by run_step. Qed.

Lemma proc_get_run a s p : procs s !! a = Some p -> proc_get a s = Ret p s.
Proof. intros Hp. unfold proc_get. run_step. by rewrite Hp. Qed.

(** The fields that the scheduler leaves alone. *)
Definition fixed (p : process) : Z * list Z * Z * Z * Z * Z :=
  (p_pid p, p_name p, p_cr3 p, p_stack_top p, p_stack_bottom p, p_entry_point p).

(** [s] and [s'] differ in links, states, contexts and exit states of processes only. *)
Definition same_procs s s' : Prop :=
  k_mem s' = k_mem s /\ process_list s' = process_list s /\ next_pid s' = next_pid s /\
  forall a, fixed <$> (procs s' !! a) = fixed <$> (procs s !! a).

Lemma same_refl s : same_procs s s.
Proof. done. Qed.

Lemma same_trans s1 s2 s3 : same_procs s1 s2 -> same_procs s2 s3 -> same_procs s1 s3.
Proof. intros (? & ? & ? & A) (? & ? & ? & B). repeat split; [congruence..|]. intros a. by rewrite B. Qed.

Lemma same_is_Some s s' a : same_procs s s' -> is_Some (procs s !! a) -> is_Some (procs s' !! a).
Proof.
  intros (_ & _ & _ & E) [p Hp]. specialize (E a). rewrite Hp in E.
  destruct (procs s' !! a) as [q|]; [by eexists|discriminate].
Qed.

Lemma same_insert s a p q :
  procs s !! a = Some p -> fixed q = fixed p -> same_procs s (set_procs (<[a := q]> (procs s)) s).
Proof.
  intros Hp E. repeat split. intros b. cbn [procs set_procs]. destruct (decide (a = b)) as [<-|].
  - rewrite lookup_insert_eq, Hp. simpl. by rewrite E.
  - by rewrite lookup_insert_ne.
Qed.

(** The ready queue holds [l]. *)
Record queue_inv s l : Prop := {
  qi_nodup : NoDup l;
  qi_seg : seg (procs s) 0 l 0;
  qi_head : ready_queue s = hd 0 l;
  qi_tail : ready_queue_tail s = lastd 0 l
}.

Definition sched_inv s l : Prop :=
  queue_inv s l /\ (current_process s = 0 \/ is_Some (procs s !! current_process s)).

Lemma si_nodup s l : sched_inv s l -> NoDup l.
Proof. intros [Hq _]. apply Hq. Qed.
Lemma si_seg s l : sched_inv s l -> seg (procs s) 0 l 0.
Proof. intros [Hq _]. apply Hq. Qed.
Lemma si_head s l : sched_inv s l -> ready_queue s = hd 0 l.
Proof. intros [Hq _]. apply Hq. Qed.
Lemma si_tail s l : sched_inv s l -> ready_queue_tail s = lastd 0 l.
Proof. intros [Hq _]. apply Hq. Qed.
Lemma si_current s l : sched_inv s l -> current_process s = 0 \/ is_Some (procs s !! current_process s).
Proof. by intros [_ Hc]. Qed.

Lemma sched_intro s l :
  NoDup l -> seg (procs s) 0 l 0 -> ready_queue s = hd 0 l -> ready_queue_tail s = lastd 0 l ->
  current_process s = 0 \/ is_Some (procs s !! current_process s) -> sched_inv s l.
Proof. intros. split; [by split|done]. Qed.

Lemma sched_head_0 s l : sched_inv s l -> ready_queue s = 0 -> l = [].
Proof. intros Hi. rewrite (si_head _ _ Hi). by eapply hd_0; [apply Hi|]. Qed.

Ltac upd E := rewrite (bind_Ret _ _ _ _ _ (proc_upd_run _ _ _ _ E)).

(** A process at the end of the queue. *)
Lemma scheduler_add_run s l x :
  sched_inv s l -> x <> 0 -> x ∉ l -> is_Some (procs s !! x) ->
  exists s', scheduler_add x s = Ret tt s' /\ sched_inv s' (l ++ [x]) /\ same_procs s s' /\
    current_process s' = current_process s.
Proof.
  intros Hi Hx Hxl [p Hp]. unfold scheduler_add. destruct (Z.eqb_spec x 0); [done|].
  upd Hp. run_step. cbn [ready_queue set_procs]. set (s1 := set_procs _ s).
  assert (procs s1 !! x = Some (with_state PROCESS_STATE_READY p)) as Hp1
    by (unfold s1; cbn [procs set_procs]; by rewrite lookup_insert_eq).
  destruct (Z.eqb_spec (ready_queue s) 0) as [E0|E0].
  - apply (sched_head_0 _ _ Hi) in E0 as ->. run_step.
    rewrite (bind_Ret _ _ _ _ _ (proc_upd_run x _ (set_queue x x s1) _ Hp1)).
    erewrite proc_upd_run by (cbn [procs set_procs set_queue]; by rewrite lookup_insert_eq).
    eexists. split; [reflexivity|]. split; [|split; [|done]].
    + apply sched_intro; cbn [procs set_procs set_queue ready_queue ready_queue_tail current_process s1]; [apply NoDup_singleton| |done|done|].
      * split; [done|]. split; [|done]. eexists. by rewrite lookup_insert_eq.
      * destruct (si_current _ _ Hi) as [?|[q Hq]]; [by left|right].
        rewrite !insert_insert_eq. apply lookup_insert_is_Some. destruct (decide (x = current_process s)); eauto.
    + repeat split. intros b. cbn [procs set_procs set_queue s1]. rewrite !insert_insert_eq.
      destruct (decide (x = b)) as [<-|]; [by rewrite lookup_insert_eq, Hp|by rewrite lookup_insert_ne].
  - destruct (lastd_0 l (lastd 0 l) eq_refl) as [[-> _]|[a Ea]].
    { rewrite (si_head _ _ Hi) in E0. done. }
    change (ready_queue_tail s1) with (ready_queue_tail s). rewrite (si_tail _ _ Hi). remember (lastd 0 l) as y eqn:Ey. subst l. clear Ey.
    assert (x <> y) as Hxy by set_solver.
    assert (seg (procs s1) 0 (a ++ [y]) 0) as Hs1 by (eapply seg_same; [exact Hp|done|done|apply Hi]).
    destruct (seg_dom _ _ _ _ y Hs1) as [Hy [py Hpy]]; [set_solver|].
    upd Hpy. set (s2 := set_procs _ s1).
    assert (procs s2 !! x = Some (with_state PROCESS_STATE_READY p)) as Hp2
      by (unfold s2; cbn [procs set_procs]; by rewrite lookup_insert_ne by done).
    upd Hp2. erewrite bind_Ret by (apply proc_upd_run; cbn [procs set_procs]; by rewrite lookup_insert_eq).
    eexists. split; [reflexivity|]. cbn [procs set_procs]. rewrite insert_insert_eq.
    split; [|split; [|done]].
    + apply sched_intro; cbn [procs set_procs set_queue ready_queue ready_queue_tail current_process].
      * apply NoDup_app. split; [apply Hi|]. split; [set_solver|apply NoDup_singleton].
      * apply seg_app. split.
        { apply seg_other; [done|]. eapply seg_next; [apply Hi|exact Hpy|exact Hs1]. }
        rewrite lastd_app. split; [done|]. split; [|done]. eexists. by rewrite lookup_insert_eq.
      * rewrite hd_app. change (ready_queue s2) with (ready_queue s). rewrite (si_head _ _ Hi). by destruct a.
      * by rewrite !lastd_app.
      * destruct (si_current _ _ Hi) as [?|Hq]; [by left|right].
        cbn [s2 s1 procs set_procs current_process]. rewrite !lookup_insert_is_Some.
        destruct (decide (x = current_process s)), (decide (y = current_process s)); tauto.
    + apply (same_trans _ s1); [by eapply same_insert|]. apply (same_trans _ s2); [by eapply same_insert|].
      repeat split. intros b. cbn [procs set_procs set_queue]. destruct (decide (x = b)) as [<-|].
      * by rewrite lookup_insert_eq, Hp2.
      * by rewrite lookup_insert_ne.
Qed.

Lemma proc_upd_alter a f s :
  is_Some (procs s !! a) -> proc_upd a f s = Ret tt (set_procs (alter f a (procs s)) s).
Proof. intros [p Hp]. by rewrite (proc_upd_run _ _ _ _ Hp), (alter_insert _ _ _ _ Hp). Qed.

Lemma alter_fixed f x (t : gmap Z process) a :
  (forall p, fixed (f p) = fixed p) -> fixed <$> (alter f x t !! a) = fixed <$> (t !! a).
Proof.
  intros Hf. destruct (decide (x = a)) as [<-|]; [|by rewrite lookup_alter_ne].
  rewrite lookup_alter_eq. destruct (t !! x); simpl; by rewrite ?Hf.
Qed.

Lemma unlink_fixed (t : gmap Z process) x n y q a :
  fixed <$> (unlink_prev (unlink_next t x n) y q !! a) = fixed <$> (t !! a).
Proof. unfold unlink_prev, unlink_next. destruct (y =? 0), (x =? 0); rewrite ?alter_fixed; done. Qed.

(** Unlinking leaves the member with no links. *)
Lemma scheduler_remove_run s a x b :
  sched_inv s (a ++ x :: b) ->
  exists s', scheduler_remove x s = Ret tt s' /\ sched_inv s' (a ++ b) /\ same_procs s s' /\
    current_process s' = current_process s /\
    exists p, procs s' !! x = Some p /\ p_next p = 0 /\ p_prev p = 0.
Proof.
  intros Hi. pose proof (si_seg _ _ Hi) as Hs. destruct (seg_at _ _ _ _ _ _ Hs) as (p & Hp & Epv & Enx).
  destruct (seg_dom _ _ _ _ x Hs) as [Hx _]; [set_solver|].
  destruct (seg_unlink _ _ _ _ (si_nodup _ _ Hi) Hs) as (Hs' & Hx1 & Hx2).
  set (t1 := unlink_next (procs s) (lastd 0 a) (hd 0 b)) in *.
  unfold scheduler_remove. destruct (Z.eqb_spec x 0); [done|].
  rewrite (bind_Ret _ _ _ _ _ (proc_get_run _ _ _ Hp)).
  set (hq := if lastd 0 a =? 0 then hd 0 b else ready_queue s).
  assert (forall c, is_Some (procs s !! c) -> is_Some (t1 !! c)) as Hd1.
  { intros c Hc. unfold t1, unlink_next. destruct (lastd 0 a =? 0); [done|]. by apply lookup_alter_is_Some. }
  assert ((if p_prev p =? 0 then modify (λ s, set_queue (p_next p) (ready_queue_tail s) s)
     else proc_upd (p_prev p) (with_next (p_next p))) s =
     Ret tt (set_queue hq (ready_queue_tail s) (set_procs t1 s))) as E1.
  { rewrite Epv, Enx. unfold hq, t1, unlink_next. destruct (Z.eqb_spec (lastd 0 a) 0); [by destruct s|].
    destruct (lastd_0 a _ eq_refl) as [[-> ?]|[a' Ea]]; [done|].
    rewrite proc_upd_alter; [by destruct s|]. apply (seg_dom _ _ _ _ (lastd 0 a) Hs). rewrite Ea at 2. set_solver. }
  rewrite (bind_Ret _ _ _ _ _ E1).
  assert (procs (set_queue hq (ready_queue_tail s) (set_procs t1 s)) !! x = Some p) as Hp1
    by (cbn [procs set_procs set_queue]; by rewrite Hx1).
  rewrite (bind_Ret _ _ _ _ _ (proc_get_run _ _ _ Hp1)).
  set (tq := if hd 0 b =? 0 then lastd 0 a else ready_queue_tail s).
  set (t2 := unlink_prev t1 (hd 0 b) (lastd 0 a)) in *.
  match goal with |- context [bind _ _ ?u] =>
    assert ((if p_next p =? 0 then modify (λ s, set_queue (ready_queue s) (p_prev p) s)
       else proc_upd (p_next p) (with_prev (p_prev p))) u = Ret tt (set_queue hq tq (set_procs t2 s))) as E2 end.
  { rewrite Epv, Enx. unfold tq, t2, unlink_prev. destruct (Z.eqb_spec (hd 0 b) 0); [by destruct s|].
    destruct b as [|z b]; [done|]. rewrite proc_upd_alter; [by destruct s|].
    apply Hd1, (seg_dom _ _ _ _ z Hs). set_solver. }
  rewrite (bind_Ret _ _ _ _ _ E2).
  assert (procs (set_queue hq tq (set_procs t2 s)) !! x = Some p) as Hp2
    by (cbn [procs set_procs set_queue]; by rewrite Hx2).
  upd Hp2. erewrite proc_upd_run by (cbn [procs set_procs]; by rewrite lookup_insert_eq).
  eexists. split; [reflexivity|]. cbn [procs set_procs set_queue]. rewrite insert_insert_eq.
  assert (x ∉ a ++ b) as Hxn.
  { pose proof (si_nodup _ _ Hi) as (_ & Hab & [Hxb _]%NoDup_cons)%NoDup_app. set_solver. }
  split; [|split; [|split; [done|]]].
  - apply sched_intro; cbn [procs set_procs set_queue ready_queue ready_queue_tail current_process].
    + pose proof (si_nodup _ _ Hi) as (? & Hab & [? ?]%NoDup_cons)%NoDup_app. apply NoDup_app.
      split; [done|]. split; [|done]. intros y Hya Hyb. apply (Hab y Hya). by right.
    + by apply seg_other.
    + unfold hq. rewrite hd_app. destruct (Z.eqb_spec (lastd 0 a) 0) as [E|E].
      * destruct (lastd_0 a _ eq_refl) as [[-> _]|[a' Ea]]; [done|]. rewrite E in Ea.
        destruct (seg_dom _ _ _ _ 0 Hs); [rewrite Ea; set_solver|done].
      * rewrite (si_head _ _ Hi), hd_app. by destruct a.
    + unfold tq. rewrite lastd_app. destruct b as [|z b]; [done|]. cbn [hd].
      destruct (Z.eqb_spec z 0) as [->|]; [destruct (seg_dom _ _ _ _ 0 Hs); [set_solver|done]|].
      rewrite (si_tail _ _ Hi), lastd_app. done.
    + destruct (si_current _ _ Hi) as [?|Hc]; [by left|right].
      rewrite lookup_insert_is_Some. destruct (decide (x = current_process s)); [by left|]. right. split; [done|].
      unfold t2, unlink_prev. destruct (hd 0 b =? 0); [by apply Hd1|]. by apply lookup_alter_is_Some, Hd1.
  - repeat split. intros c. cbn [procs set_procs set_queue]. destruct (decide (x = c)) as [<-|].
    + by rewrite lookup_insert_eq, Hp.
    + rewrite lookup_insert_ne by done. apply unlink_fixed.
  - eexists. split; [by rewrite lookup_insert_eq|done].
Qed.
(** The head goes to the tail. *)
Lemma rotate_run s h b :
  queue_inv s (h :: b) ->
  exists s', rotate_queue s = Ret tt s' /\ queue_inv s' (b ++ [h]) /\ same_procs s s' /\
    current_process s' = current_process s.
Proof.
  intros Hi. pose proof (qi_seg _ _ Hi) as (Hh & (p & Hp & _ & Enx) & Hb).
  pose proof (qi_nodup _ _ Hi) as [Hhb Hnb]%NoDup_cons.
  unfold rotate_queue. run_step. rewrite (qi_head _ _ Hi). cbn [hd].
  rewrite (bind_Ret _ _ _ _ _ (proc_get_run _ _ _ Hp)), Enx. destruct (Z.eqb_spec (hd 0 b) 0) as [E0|E0].
  { apply (hd_0 _ _ _ _ Hb eq_refl) in E0 as ->. by exists s. }
  destruct (lastd_0 b (lastd 0 b) eq_refl) as [[-> _]|[b' Eb]]; [done|].
  destruct b as [|x r] eqn:Exr; [done|]. cbn [hd] in *. rewrite <- Exr in *.
  set (y := lastd 0 b) in *. run_step. set (s0 := set_queue x (ready_queue_tail s) s).
  destruct (seg_dom _ _ _ _ x Hb) as [Hx [px Hpx]]; [rewrite Exr; by left|].
  rewrite (bind_Ret _ _ _ _ _ (proc_upd_run x _ s0 _ Hpx)). set (s1 := set_procs _ s0).
  assert (seg (procs s1) 0 b 0) as Hb1 by (rewrite Exr in Hb, Hnb |- *; by eapply seg_prev).
  assert (procs s1 !! h = Some p) as Hp1
    by (cbn [s1 procs set_procs]; rewrite lookup_insert_ne by (intros ->; apply Hhb; rewrite Exr; by left); done).
  upd Hp1. set (s2 := set_procs _ s1).
  assert (procs s2 !! h = Some (with_next 0 p)) as Hp2 by (cbn [s2 procs set_procs]; by rewrite lookup_insert_eq).
  upd Hp2. set (s3 := set_procs _ s2).
  assert (seg (procs s3) 0 b 0) as Hb3 by (apply seg_other, seg_other; done).
  assert (ready_queue_tail s = y) as Et by (rewrite (qi_tail _ _ Hi); cbn [lastd]; unfold y; by rewrite Exr).
  rewrite Et. assert (h <> y) as Hhy by (intros ->; apply Hhb; rewrite Eb; set_solver).
  destruct (seg_dom _ _ _ _ y Hb3) as [Hy [py Hpy]]; [rewrite Eb; set_solver|].
  upd Hpy. eexists. split; [reflexivity|]. cbn [procs set_procs set_queue].
  assert (seg (<[y:=with_next h py]> (procs s3)) 0 b h) as Hfin
    by (rewrite Eb in Hb3, Hnb |- *; by eapply seg_next).
  split; [|split; [|done]].
  - split; cbn [procs set_procs set_queue ready_queue ready_queue_tail current_process].
    + apply NoDup_app. split; [done|]. split; [set_solver|apply NoDup_singleton].
    + apply seg_app. split; [exact Hfin|]. split; [done|]. split; [|done].
      eexists. rewrite lookup_insert_ne by done. cbn [s3 procs set_procs]. rewrite lookup_insert_eq.
      split; [done|]. cbn [with_prev with_next p_prev p_next]. by rewrite Et.
    + rewrite Exr. done.
    + by rewrite lastd_app.
  - apply (same_trans _ s0); [done|]. apply (same_trans _ s1); [by eapply same_insert|].
    apply (same_trans _ s2); [by eapply same_insert|]. apply (same_trans _ s3); [by eapply same_insert|].
    destruct (same_insert s3 y py (with_next h py) Hpy eq_refl) as (? & ? & ? & ?). done.
Qed.

(** What a switch away from a running process stores of the registers [c]. *)
Definition parked (asm : compiled) (c : context) : context :=
  mkCtx (r15 c) (r14 c) (r13 c) (r12 c) (r11 c) (r10 c) (r9 c) (r8 c)
    (rdi c) (rsi c) (rbp c) (rbx c) (rdx c) (rcx c) (label asm) (label asm) (rflags c) (rsp c).
(** The state at the first load. *)
Definition switched (asm : compiled) (n : Z) s : kern :=
  set_current n
    (if current_process s =? 0 then s
     else set_cpu (set_reg RAX (label asm) (cpu s)) (cpu_cr3 s)
       (set_procs (alter (with_context (parked asm (cpu s))) (current_process s) (procs s)) s)).

Lemma process_switch_run asm s n pn :
  n <> 0 -> procs s !! n = Some pn -> current_process s <> n ->
  current_process s = 0 \/ is_Some (procs s !! current_process s) ->
  let s1 := switched asm n s in
  process_switch asm n s =
    Ret tt (set_cpu (restore asm (procs s1) (set_reg (base asm) n (cpu s1))) (if p_cr3 pn =? 0 then cpu_cr3 s else p_cr3 pn) s1).
Proof.
  intros Hn Hpn Hc Hcur s1. unfold process_switch. destruct (Z.eqb_spec n 0); [done|]. run_step.
  destruct (Z.eqb_spec (current_process s) n); [done|]. unfold s1, switched.
  destruct (Z.eqb_spec (current_process s) 0) as [E|E].
  - run_step. run_step. unfold proc_get. run_step. cbn [procs set_current]. rewrite Hpn. by repeat run_step.
  - destruct Hcur as [?|[pc Hpc]]; [done|]. unfold save_rip. run_step.
    match goal with |- bind (proc_upd ?a ?f) _ ?u = _ =>
      rewrite (bind_Ret _ _ _ _ _ (proc_upd_run a f u pc Hpc)) end.
    unfold save_minimal. destruct (Z.eqb_spec (current_process s) 0); [done|]. run_step.
    match goal with |- bind (proc_upd ?a ?f) _ (set_procs (<[_ := ?q]> ?t) ?u) = _ =>
      rewrite (bind_Ret _ _ _ _ _ (proc_upd_run a f (set_procs (<[a := q]> t) u) q (lookup_insert_eq t a q))) end.
    cbn [set_procs procs]. rewrite insert_insert_eq. run_step. unfold proc_get. run_step. cbn [set_current set_procs set_cpu procs].
    rewrite lookup_insert_ne, Hpn by done. run_step. unfold modify. rewrite (alter_insert _ _ _ _ Hpc). reflexivity.
Qed.

(** *** What the loads leave *)

Lemma reg_set r r' v c : reg r (set_reg r' v c) = if decide (r' = r) then v else reg r c.
Proof. by destruct r, r'. Qed.

(** Loads that leave the base register alone read at its value. *)
Lemma loads_run asm t (l : list (gpr * Z)) c b :
  base asm ∉ l.*1 -> NoDup l.*1 -> reg (base asm) c = b ->
  let c' := foldl (load asm t) c l in
  reg (base asm) c' = b /\ (forall r off, (r, off) ∈ l -> reg r c' = operand asm t b (reg r) off) /\
  (forall r, r ∉ l.*1 -> reg r c' = reg r c).
Proof.
  revert c. induction l as [|[r off] l IH]; intros c Hb Hn Hc; cbn [foldl fmap list_fmap] in *.
  { split; [done|]. split; [intros r off Hr; by apply not_elem_of_nil in Hr|done]. }
  apply not_elem_of_cons in Hb as [Hb1 Hb]. apply NoDup_cons in Hn as [Hn1 Hn].
  assert (reg (base asm) (load asm t c (r, off)) = b) as Hc1 by (unfold load; rewrite reg_set; cbn [fst] in *; by rewrite decide_False by congruence).
  destruct (IH (load asm t c (r, off)) Hb Hn Hc1) as (E1 & E2 & E3). split; [done|]. split.
  - intros r' off' [[= -> ->]|Hr]%elem_of_cons; [|by apply E2]. rewrite E3 by done. unfold load. rewrite reg_set. cbn [fst snd].
    by rewrite decide_True, Hc by done.
  - intros r' [Hr1 Hr2]%not_elem_of_cons. rewrite E3 by done. unfold load. rewrite reg_set. cbn [fst] in *. by rewrite decide_False by congruence.
Qed.

Lemma loads_split r : exists (l1 : list (gpr * Z)) off (l2 : list (gpr * Z)), loads = l1 ++ (r, off) :: l2.
Proof.
  assert (exists off, (r, off) ∈ loads) as (off & (l1 & l2 & E)%list_elem_of_split); [|by exists l1, off, l2].
  destruct r; eexists; repeat first [left | right].
Qed.

(** All loads: those before the base register, itself, those behind it. *)
Lemma restore_run asm t n c (l1 l2 : list (gpr * Z)) off :
  loads = l1 ++ (base asm, off) :: l2 ->
  let b := operand asm t n (reg (base asm)) off in
  let c' := restore asm t (set_reg (base asm) n c) in
  (forall r o, (r, o) ∈ l1 -> reg r c' = operand asm t n (reg r) o) /\
  reg (base asm) c' = b /\
  (forall r o, (r, o) ∈ l2 -> reg r c' = operand asm t b (reg r) o) /\
  rflags c' = operand asm t b rflags 232 /\ rip c' = operand asm t b rip 224.
Proof.
  intros E b c'. assert (NoDup (loads.*1)) as Hn by (apply (bool_decide_unpack _); vm_compute; exact I).
  rewrite E, fmap_app in Hn. apply NoDup_app in Hn as (Hn1 & Hd & [Hb2 Hn2]%NoDup_cons). cbn [fst] in *.
  assert (base asm ∉ l1.*1) as Hb1 by (intros Hin; apply (Hd _ Hin); left).
  destruct (loads_run asm t l1 (set_reg (base asm) n c) n Hb1 Hn1) as (E1 & F1 & _); [by rewrite reg_set, decide_True|].
  set (c1 := foldl (load asm t) (set_reg (base asm) n c) l1) in *.
  assert (reg (base asm) (load asm t c1 (base asm, off)) = b) as E2 by (unfold load; by rewrite reg_set, decide_True, E1).
  destruct (loads_run asm t l2 (load asm t c1 (base asm, off)) b Hb2 Hn2 E2) as (E3 & F3 & G3).
  assert (foldl (load asm t) (set_reg (base asm) n c) loads = foldl (load asm t) (load asm t c1 (base asm, off)) l2) as Ef by (by rewrite E, foldl_app).
  assert (forall r, reg r c' = reg r (foldl (load asm t) (load asm t c1 (base asm, off)) l2)) as Er by (intros r; unfold c', restore; rewrite Ef; by destruct r).
  split; [|split; [|split; [|split]]].
  - intros r o Hr. apply (list_elem_of_fmap_2 fst) in Hr as Hr1. cbn [fst] in Hr1. rewrite Er, G3.
    + unfold load. rewrite reg_set. cbn [fst]. rewrite decide_False by (intros <-; done). by apply F1.
    + intros Hin. apply (Hd _ Hr1). by right.
  - by rewrite Er.
  - intros r o Hr. rewrite Er. by apply F3.
  - unfold c', restore. cbn [rflags]. by rewrite Ef, E3.
  - unfold c', restore. cbn [rip]. by rewrite Ef, E3.
Qed.

Lemma switched_lookup asm n s a p : procs s !! a = Some p -> current_process s <> a -> procs (switched asm n s) !! a = Some p.
Proof.
  intros Ha Hc. unfold switched. destruct (current_process s =? 0); [done|]. cbn [procs set_current set_cpu set_procs].
  by rewrite lookup_alter_ne.
Qed.

Lemma switched_none asm n s a : procs s !! a = None -> procs (switched asm n s) !! a = None.
Proof.
  intros Ha. unfold switched. destruct (current_process s =? 0); [done|]. cbn [procs set_current set_cpu set_procs].
  by apply lookup_alter_None.
Qed.

Lemma seg_alter_context t f a prv l nxt :
  seg t prv l nxt -> seg (alter (with_context f) a t) prv l nxt.
Proof.
  destruct (t !! a) as [p|] eqn:E.
  - rewrite (alter_insert _ _ _ _ E). by eapply seg_same.
  - by rewrite alter_id' by naive_solver.
Qed.

(** The queue after a tick. *)
Definition rotated (l : list Z) : list Z := match l with [] => [] | h :: b => b ++ [h] end.

Lemma rotated_head h b : exists x r, rotated (h :: b) = x :: r.
Proof. destruct b; by eexists _, _. Qed.

Lemma scheduler_tick_run asm s l :
  sched_inv s l ->
  exists s', scheduler_tick asm s = Ret tt s' /\ sched_inv s' (rotated l) /\ same_procs s s' /\
    (l <> [] -> current_process s' = hd 0 (rotated l)).
Proof.
  intros Hi. unfold scheduler_tick. run_step. destruct l as [|h b].
  { rewrite (si_head _ _ Hi). by exists s. }
  pose proof (si_seg _ _ Hi) as (Hh & _). rewrite (si_head _ _ Hi). cbn [hd].
  destruct (Z.eqb_spec h 0); [done|]. destruct (rotate_run s h b (proj1 Hi)) as (s1 & E1 & Hq1 & Hsame & Hc).
  assert (sched_inv s1 (b ++ [h])) as Hi1.
  { split; [done|]. rewrite Hc. destruct (si_current _ _ Hi) as [?|?]; [by left|right]. by eapply same_is_Some. }
  rewrite (bind_Ret _ _ _ _ _ E1). run_step. destruct (rotated_head h b) as (x & r & Er).
  change (b ++ [h]) with (rotated (h :: b)) in *. rewrite Er in *. rewrite (si_head _ _ Hi1). cbn [hd].
  pose proof (si_seg _ _ Hi1) as (Hx & (px & Hpx & _) & _). destruct (Z.eqb_spec x 0); [done|]. cbn [negb andb].
  destruct (Z.eqb_spec (current_process s1) x) as [Ex|Ex]; cbn [negb].
  { exists s1. split; [done|]. split; [done|]. split; [done|]. auto. }
  rewrite (process_switch_run asm s1 x px Hx Hpx Ex (si_current _ _ Hi1)). eexists. split; [done|]. unfold switched.
  destruct (Z.eqb_spec (current_process s1) 0) as [E0|E0].
  - split; [|split; [|done]].
    + apply sched_intro; cbn [procs set_procs set_queue set_cpu set_current ready_queue ready_queue_tail current_process]; try apply Hq1.
      right. by eexists.
    + eapply same_trans; [exact Hsame|]. done.
  - split; [|split; [|done]].
    + apply sched_intro; cbn [procs set_procs set_queue set_cpu set_current ready_queue ready_queue_tail current_process]; try apply Hq1.
      * apply seg_alter_context, Hi1.
      * right. apply lookup_alter_is_Some. by eexists.
    + eapply same_trans; [exact Hsame|]. repeat split. intros c. apply alter_fixed. done.
Qed.

(** ** The abstract scheduler *)

Inductive sched_op := Add (x : Z) | Remove (x : Z) | Tick.

Definition op_ok s l (op : sched_op) : Prop :=
  match op with
  | Add x => x <> 0 /\ x ∉ l /\ is_Some (procs s !! x)
  | Remove x => x ∈ l
  | Tick => True
  end.

Definition run_op asm (op : sched_op) : M kern unit :=
  match op with
  | Add x => scheduler_add x
  | Remove x => scheduler_remove x
  | Tick => scheduler_tick asm
  end.

Definition spec_op (op : sched_op) l : list Z :=
  match op with
  | Add x => l ++ [x]
  | Remove x => filter (λ y, y <> x) l
  | Tick => rotated l
  end.

Lemma filter_absent x l : x ∉ l -> filter (λ y, y <> x) l = l.
Proof.
  induction l as [|y l IH]; [done|]. intros [Hxy Hl]%not_elem_of_cons. rewrite filter_cons_True by congruence.
  by rewrite IH.
Qed.

Lemma filter_split (a : list Z) x b : NoDup (a ++ x :: b) -> filter (λ y, y <> x) (a ++ x :: b) = a ++ b.
Proof.
  intros (_ & Hab & [Hxb _]%NoDup_cons)%NoDup_app.
  rewrite filter_app, filter_cons_False by tauto.
  rewrite !filter_absent; [done|done|]. intros Hx. apply (Hab x Hx). by left.
Qed.

Fixpoint ticks asm (n : nat) : M kern unit :=
  match n with
  | O => ret tt
  | S n' => ticks asm n' ;;; scheduler_tick asm
  end.

Fixpoint spec_ticks (n : nat) l : list Z :=
  match n with
  | O => l
  | S n' => rotated (spec_ticks n' l)
  end.

Lemma spec_ticks_length n l : length (spec_ticks n l) = length l.
Proof.
  induction n as [|n IH]; [done|]. simpl. rewrite <- IH. destruct (spec_ticks n l); [done|].
  simpl. rewrite length_app. simpl. lia.
Qed.

(** Elements in front come to the front in their order. *)
Lemma spec_ticks_app l2 l1 : spec_ticks (length l1) (l1 ++ l2) = l2 ++ l1.
Proof.
  revert l2. induction l1 as [|x l1 IH] using rev_ind; intros l2; [by rewrite app_nil_r|].
  rewrite length_app. simpl. rewrite Nat.add_comm. simpl. rewrite <- app_assoc. rewrite IH. simpl.
  by rewrite <- app_assoc.
Qed.

Lemma ticks_run asm s l n :
  sched_inv s l -> l <> [] ->
  exists s', ticks asm n s = Ret tt s' /\ sched_inv s' (spec_ticks n l) /\
    ((0 < n)%nat -> current_process s' = hd 0 (spec_ticks n l)).
Proof.
  intros Hi Hl. induction n as [|n IH]; [exists s; split; [done|split; [done|lia]]|].
  destruct IH as (s1 & E1 & Hi1 & _). cbn [ticks spec_ticks]. rewrite (bind_Ret _ _ _ _ _ E1).
  destruct (scheduler_tick_run asm s1 _ Hi1) as (s2 & E2 & Hi2 & _ & Hc). exists s2.
  split; [done|]. split; [done|]. intros _. apply Hc. intros E0. apply Hl.
  destruct l; [done|]. apply (f_equal length) in E0. by rewrite spec_ticks_length in E0.
Qed.

(** ** The process list *)

Record plist_inv s l : Prop := {
  pl_nodup : NoDup l;
  pl_seg : seg (procs s) 0 l 0;
  pl_head : process_list s = hd 0 l;
  pl_live : forall a, is_Some (procs s !! a) -> a ∈ live (k_mem s)
}.

(** The first process of the list with that pid, or 0. *)
Fixpoint first_pid (t : gmap Z process) l (pid : Z) : Z :=
  match l with
  | [] => 0
  | x :: r => if bool_decide (p_pid <$> (t !! x) = Some pid) then x else first_pid t r pid
  end.

Lemma find_loop_run s l prv pid fuel :
  seg (procs s) prv l 0 -> (length l < fuel)%nat ->
  find_loop fuel (hd 0 l) pid s = Ret (first_pid (procs s) l pid) s.
Proof.
  revert prv fuel. induction l as [|x l IH]; intros prv [|fuel] Hs Hf; simpl in Hf; try lia; [done|].
  destruct Hs as (Hx & (p & Hp & _ & En) & Hl). cbn [find_loop hd first_pid].
  destruct (Z.eqb_spec x 0); [done|]. rewrite (bind_Ret _ _ _ _ _ (proc_get_run _ _ _ Hp)), Hp. cbn [fmap option_fmap option_map].
  destruct (Z.eqb_spec (p_pid p) pid) as [->|Hne].
  - by rewrite bool_decide_true.
  - rewrite bool_decide_false by congruence. rewrite En. eapply IH; [exact Hl|lia].
Qed.

Lemma seg_length s prv l nxt : NoDup l -> seg (procs s) prv l nxt -> (length l <= size (procs s))%nat.
Proof.
  intros Hn Hs. rewrite <- size_dom, <- (size_list_to_set (C := gset Z) l) by done.
  apply subseteq_size. intros x Hx%elem_of_list_to_set. apply elem_of_dom. by eapply seg_dom.
Qed.

Lemma find_run s l pid :
  NoDup l -> seg (procs s) 0 l 0 -> process_list s = hd 0 l ->
  process_find_by_pid pid s = Ret (first_pid (procs s) l pid) s.
Proof.
  intros Hn Hs Hh. unfold process_find_by_pid. run_step. rewrite Hh. eapply find_loop_run; [done|].
  pose proof (seg_length _ _ _ _ Hn Hs). lia.
Qed.

Lemma stack_loop_run n i s :
  exists r h, stack_loop n i s = Ret r (set_mem h s) /\ live h = live (k_mem s) /\
    match r with Some j => i <= j < i + Z.of_nat n | None => True end.
Proof.
  revert i s. induction n as [|n IH]; intros i s; [exists None, (k_mem s); by destruct s|].
  cbn [stack_loop]. unfold k_page_alloc at 1. destruct (page_alloc_law (k_mem s)) as (pg & h & E & Hl).
  erewrite bind_Ret by (unfold zoom; by rewrite E). destruct (pg =? 0).
  - exists (Some i), h. split; [done|]. split; [done|lia].
  - destruct (IH (i + 1) (set_mem h s)) as (r & h' & E' & Hl' & Hr). exists r, h'. split; [exact E'|].
    split; [exact (eq_trans Hl' Hl)|]. destruct r; [lia|done].
Qed.

(** The pages that [free_stack] frees, as computed from the first. *)
Definition stack_freed (bottom n : Z) (h h' : H) : Prop :=
  for_range 0 n (λ j, page_free (u64 (bottom + j * 4096))) h = Ret tt h'.
Definition stack_managed (bottom n : Z) : Prop := forall j, 0 <= j < n -> managed (u64 (bottom + j * 4096)) = true.

Lemma free_pages_cases (f : Z -> Z) n i (h : H) :
  (exists h', for_n n i (λ j, page_free (f j)) h = Ret tt h' /\ live h' = live h) \/
  (exists j, i <= j < i + Z.of_nat n /\ managed (f j) = false /\ for_n n i (λ j, page_free (f j)) h = Stuck).
Proof.
  revert i h. induction n as [|n IH]; intros i h; [left; by exists h|]. cbn [for_n].
  destruct (page_free_law (f i) h) as [(h1 & E1 & L1)|[Hm E1]].
  - destruct (IH (i + 1) h1) as [(h2 & E2 & L2)|(j & Hj & Hm & E2)]; rewrite (bind_Ret _ _ _ _ _ E1).
    + left. exists h2. by rewrite E2, L2.
    + right. exists j. split; [lia|]. by rewrite E2.
  - right. exists i. split; [lia|]. split; [done|]. unfold bind. by rewrite E1.
Qed.

Lemma free_stack_zoom bottom n s :
  free_stack bottom n s = zoom k_mem set_mem (for_range 0 n (λ j, page_free (u64 (bottom + j * 4096)))) s.
Proof.
  unfold free_stack, for_range. generalize (Z.to_nat (n - 0)) as k. generalize 0 as i. intros i k. revert i s.
  induction k as [|k IH]; intros i s; cbn [for_n]; [by destruct s|]. unfold bind, zoom. change (k_page_free ?p s) with (zoom k_mem set_mem (page_free p) s).
  unfold zoom. destruct (page_free _ (k_mem s)) as [[] h|? ?| |]; [|done..]. rewrite IH. unfold zoom. cbn [k_mem set_mem].
  by destruct (for_n k (i + 1) _ h).
Qed.

Lemma free_stack_cases bottom n s :
  (exists h, free_stack bottom n s = Ret tt (set_mem h s) /\ stack_freed bottom n (k_mem s) h /\ live h = live (k_mem s)) \/
  (exists j, 0 <= j < n /\ managed (u64 (bottom + j * 4096)) = false /\ free_stack bottom n s = Stuck).
Proof.
  rewrite free_stack_zoom. unfold stack_freed, for_range, zoom.
  destruct (free_pages_cases (λ j, u64 (bottom + j * 4096)) (Z.to_nat (n - 0)) 0 (k_mem s)) as [(h & E & L)|(j & Hj & Hm & E)].
  - left. exists h. by rewrite E.
  - right. exists j. rewrite E. split; [lia|done].
Qed.

(** The stack of a process that [process_destroy] can free. *)
Definition stack_ok (p : process) : Prop :=
  p_stack_bottom p = 0 \/ stack_managed (p_stack_bottom p) (PROCESS_STACK_SIZE / 4096).
Lemma release_stack s p :
  let m := if p_stack_bottom p =? 0 then ret tt else free_stack (p_stack_bottom p) (PROCESS_STACK_SIZE / 4096) in
  (exists h, m s = Ret tt (set_mem h s) /\ live h = live (k_mem s)) \/ (~ stack_ok p /\ m s = Stuck).
Proof.
  intros m. unfold m, stack_ok. destruct (Z.eqb_spec (p_stack_bottom p) 0) as [E|E]; [left; exists (k_mem s); by destruct s|].
  destruct (free_stack_cases (p_stack_bottom p) (PROCESS_STACK_SIZE / 4096) s) as [(h & E1 & _ & L)|(j & Hj & Hm & E1)]; [left; by exists h|right].
  split; [|done]. intros [?|Hs]; [done|]. by rewrite (Hs j Hj) in Hm.
Qed.

Lemma k_malloc_cases n s :
  (exists msg t, k_malloc n s = Panic msg t) \/
  exists p h, k_malloc n s = Ret p (set_mem h s) /\
    ((p = 0 /\ live h = live (k_mem s)) \/
     (p <> 0 /\ p ∉ live (k_mem s) /\ live h = {[p]} ∪ live (k_mem s))).
Proof.
  unfold k_malloc, zoom. destruct (malloc_law n (k_mem s)) as [(msg & t & ->)|(p & h & -> & Hp)].
  - left. by eexists _, _.
  - right. exists p, h. split; [done|]. set_solver.
Qed.

Lemma k_free_run s a :
  a ∈ live (k_mem s) ->
  exists h, k_free a s = Ret tt (set_mem h (set_procs (delete a (procs s)) s)) /\
    live h = live (k_mem s) ∖ {[a]} /\ free a (k_mem s) = Ret tt h.
Proof.
  intros Ha. destruct (free_law a (k_mem s) Ha) as (h & E & Hl). exists h. split; [|done].
  unfold k_free. run_step. unfold zoom. cbn [k_mem set_procs]. by rewrite E.
Qed.

(** What making a process leaves alone. *)
Definition rest_kept s s' : Prop :=
  current_process s' = current_process s /\ ready_queue s' = ready_queue s /\ ready_queue_tail s' = ready_queue_tail s /\
  cpu s' = cpu s /\ cpu_cr3 s' = cpu_cr3 s.

(** Undoing a half-made process leaves the list as it was. *)
Lemma create_undo s u l a q :
  plist_inv s l -> a ∉ live (k_mem s) -> live (k_mem u) = {[a]} ∪ live (k_mem s) ->
  procs u = <[a := q]> (procs s) -> process_list u = process_list s -> rest_kept s u ->
  exists s', k_free a u = Ret tt s' /\ plist_inv s' l /\ procs s' = procs s /\ live (k_mem s') = live (k_mem s) /\
    rest_kept s s' /\ next_pid s' = next_pid u /\ free a (k_mem u) = Ret tt (k_mem s').
Proof.
  intros Hi Ha Hl Ht Hp Hk. destruct (k_free_run u a) as (h' & E & Hl' & Ef); [set_solver|].
  assert (procs s !! a = None) as Hnone.
  { destruct (procs s !! a) eqn:E1; [|done]. destruct Ha. apply (pl_live _ _ Hi). by eexists. }
  assert (delete a (procs u) = procs s) as Ed by (by rewrite Ht, delete_insert_id).
  assert (live h' = live (k_mem s)) as Hh by (rewrite Hl', Hl; set_solver).
  eexists. split; [exact E|]. split; [|by split; [exact Ed|split; [exact Hh|]]].
  destruct Hi as [A B C D]. split; cbn [procs set_procs set_mem k_mem process_list]; rewrite ?Ed; try done.
  - by rewrite Hp.
  - intros c Hc. rewrite Hh. by apply D.
Qed.

(** How [process_create] ends: a panic of the heap; no memory for the record; no page for the
    stack, with the pages freed that are computed from the first one; such an address that
    the page allocator does not manage; the new process. *)
Definition no_stack s s' : Prop :=
  next_pid s' = u32 (next_pid s + 1) /\
  exists a h, free a h = Ret tt (k_mem s') /\
    ((exists h0, page_alloc h0 = Ret 0 h) \/
     (exists bottom i h0, bottom <> 0 /\ 1 <= i < 256 /\ stack_freed bottom i h0 h)).
Definition created name entry s l (o : outcome kern Z) : Prop :=
  (exists msg t, o = Panic msg t) \/
  (exists s', o = Ret 0 s' /\ plist_inv s' l /\ procs s' = procs s /\ live (k_mem s') = live (k_mem s) /\ rest_kept s s' /\
     (next_pid s' = next_pid s \/ no_stack s s')) \/
  (o = Stuck /\ exists bottom j, bottom <> 0 /\ 0 <= j < 255 /\ managed (u64 (bottom + j * 4096)) = false) \/
  (exists a s' p, o = Ret a s' /\ a <> 0 /\ a ∉ l /\ plist_inv s' (a :: l) /\ procs s' !! a = Some p /\
     p_pid p = next_pid s /\ p_name p = name /\ p_state p = PROCESS_STATE_READY /\ p_entry_point p = entry /\
     p_stack_top p = u64 (p_stack_bottom p + PROCESS_STACK_SIZE) /\
     p_context p = mkCtx 0 0 0 0 0 0 0 0 0 0 0 0 0 0 0 entry 0x202 (p_stack_top p) /\
     next_pid s' = u32 (next_pid s + 1) /\ rest_kept s s' /\
     forall c, c <> a -> fixed <$> (procs s' !! c) = fixed <$> (procs s !! c)).

Lemma process_create_run s l name nm entry :
  plist_inv s l -> ds_strcpy (replicate PROCESS_NAME_MAX 0) name = Some nm ->
  created nm entry s l (process_create name entry s).
Proof.
  intros Hi Hnm. unfold process_create.
  destruct (k_malloc_cases 376 s) as [(msg & t & E)|(a & h & E & Ha)].
  { left. exists msg, t. by apply bind_Panic. }
  rewrite (bind_Ret _ _ _ _ _ E). destruct Ha as [[-> Hl]|(Hnz & Hfr & Hl)].
  { right; left. eexists. split; [done|]. split; [|by split; [|split; [|split; [|left]]]]. destruct Hi. split; try done.
    intros c Hc. cbn [k_mem set_mem]. rewrite Hl. auto. }
  destruct (Z.eqb_spec a 0); [done|]. unfold proc_set at 1. run_step. unfold process_alloc_pid. do 2 run_step.
  run_step. rewrite Hnm. run_step. unfold proc_set at 1. run_step.
  cbn [procs set_procs set_mem set_pid next_pid k_mem]. rewrite insert_insert_eq.
  assert (procs s !! a = None) as Hnone.
  { destruct (procs s !! a) eqn:E1; [|done]. destruct Hfr. apply (pl_live _ _ Hi). by eexists. }
  unfold k_page_alloc at 1. destruct (page_alloc_law h) as (base & h1 & E1 & Hl1).
  erewrite bind_Ret by (unfold zoom; cbn [k_mem set_mem set_procs set_pid]; by rewrite E1). destruct (Z.eqb_spec base 0) as [->|Hb].
  { right; left. match goal with |- context [bind (k_free a) _ ?u] =>
      destruct (create_undo s u l a _ Hi Hfr (eq_trans Hl1 Hl) eq_refl eq_refl ltac:(done)) as (s' & E2 & Hi' & Hp' & Hlv & Hk & Hpid & Ef) end.
    rewrite (bind_Ret _ _ _ _ _ E2). exists s'. split; [done|]. split_and!; try done. right. split; [exact Hpid|].
    exists a, h1. split; [exact Ef|]. left. by exists h. }
  erewrite bind_Ret by (apply proc_upd_run; cbn [procs set_procs set_mem]; by rewrite lookup_insert_eq).
  cbn [procs set_procs set_mem with_stack p_pid p_name p_state p_cr3 p_entry_point p_context p_next p_prev p_exit_status].
  rewrite insert_insert_eq.
  match goal with |- context [bind (stack_loop ?n ?i) _ ?u] =>
    destruct (stack_loop_run n i u) as (r & h2 & E2 & Hl2 & Hr) end.
  rewrite (bind_Ret _ _ _ _ _ E2). cbn [k_mem set_procs set_mem] in Hl2. destruct r as [i|].
  { match goal with |- context [bind (free_stack ?b ?n) _ ?u] =>
      destruct (free_stack_cases b n u) as [(h3 & E3 & Hf3 & Hl3)|(j & Hj & Hm & E3)] end; cycle 1.
    { right; right; left. split; [unfold bind; by rewrite E3|]. exists base, j. split; [done|]. split; [|done].
      change (Z.of_nat _) with 255 in Hr. lia. }
    right; left. rewrite (bind_Ret _ _ _ _ _ E3). cbn [k_mem set_procs set_mem] in Hl3, Hf3.
    match goal with |- context [bind (k_free a) _ ?u] =>
      destruct (create_undo s u l a _ Hi Hfr (eq_trans Hl3 (eq_trans Hl2 (eq_trans Hl1 Hl))) eq_refl eq_refl ltac:(done))
        as (s' & E4 & Hi' & Hp' & Hlv & Hk & Hpid & Ef) end.
    rewrite (bind_Ret _ _ _ _ _ E4). exists s'. split; [done|]. split_and!; try done. right. split; [exact Hpid|].
    exists a, h3. split; [exact Ef|]. right. exists base, i, h2. split; [done|]. split; [|exact Hf3].
    change (Z.of_nat _) with 255 in Hr. lia. }
  erewrite bind_Ret by (apply proc_upd_run; cbn [procs set_procs set_mem]; by rewrite lookup_insert_eq).
  cbn [procs set_procs set_mem with_stack p_pid p_name p_state p_cr3 p_entry_point p_context p_next p_prev p_exit_status].
  rewrite insert_insert_eq.
  erewrite bind_Ret by (apply proc_upd_run; cbn [procs set_procs set_mem]; by rewrite lookup_insert_eq).
  cbn [procs set_procs set_mem with_context p_pid p_name p_state p_cr3 p_entry_point p_stack_top p_stack_bottom p_next p_prev p_exit_status].
  rewrite insert_insert_eq. run_step. cbn [process_list set_procs set_mem set_pid].
  erewrite bind_Ret by (apply proc_upd_run; cbn [procs set_procs set_mem]; by rewrite lookup_insert_eq).
  cbn [procs set_procs set_mem with_next p_pid p_name p_state p_cr3 p_entry_point p_context p_stack_top p_stack_bottom p_prev p_exit_status].
  rewrite insert_insert_eq. match goal with |- context [<[a := ?q]> (procs s)] => set (p := q) end.
  match goal with |- context [set_procs _ ?u] => set (u0 := u) end. set (u1 := set_procs _ u0).
  assert (a ∉ l) as Hal by (intros Hin; destruct (seg_dom _ _ _ _ a (pl_seg _ _ Hi) Hin) as [_ [? ?]]; congruence).
  assert (live (k_mem u1) = {[a]} ∪ live (k_mem s)) as Hlive by exact (eq_trans Hl2 (eq_trans Hl1 Hl)).
  assert (exists t, (if process_list s =? 0 then ret tt else proc_upd (process_list s) (with_prev a)) u1 =
      Ret tt (set_procs t u1) /\ seg t a l 0 /\ t !! a = Some p /\
      (forall c, is_Some (t !! c) -> c = a \/ is_Some (procs s !! c)) /\
      (forall c, c <> a -> fixed <$> (t !! c) = fixed <$> (procs s !! c))) as (t & E3 & Hst & Hta & Hdom & Hpid).
  { pose proof (pl_seg _ _ Hi) as Hs. pose proof (pl_nodup _ _ Hi) as Hnd. rewrite (pl_head _ _ Hi).
    destruct l as [|x l]; cbn [hd].
    - exists (procs u1). split; [done|]. split; [done|]. split; [by apply lookup_insert_eq|]. split.
      + intros c. cbn [u1 procs set_procs]. rewrite lookup_insert_is_Some.
        intros [<-|[_ ?]]; [by left|by right].
      + intros c Hc. cbn [u1 procs set_procs]. by rewrite lookup_insert_ne.
    - destruct (seg_dom _ _ _ _ x Hs) as [Hx [px Hpx]]; [by left|]. destruct (Z.eqb_spec x 0); [done|].
      assert (a <> x) as Hax by (intros ->; apply Hal; by left).
      assert (procs u1 !! x = Some px) as Hpx1 by (cbn [u1 procs set_procs]; by rewrite lookup_insert_ne).
      rewrite (proc_upd_run _ _ _ _ Hpx1). eexists. split; [done|]. split.
      + eapply seg_prev; [exact Hnd|exact Hpx1|]. by apply seg_other.
      + split; [rewrite lookup_insert_ne by done; by apply lookup_insert_eq|]. split.
        * intros c. cbn [u1 procs set_procs]. rewrite !lookup_insert_is_Some.
          intros [<-|[_ [<-|[_ Hc]]]]; [right; by eexists|by left|by right].
        * intros c Hc. cbn [u1 procs set_procs]. destruct (decide (x = c)) as [<-|].
          { by rewrite lookup_insert_eq, Hpx. }
          by rewrite !lookup_insert_ne. }
  rewrite (bind_Ret _ _ _ _ _ E3). run_step. right; right; right. eexists a, _, p. split; [reflexivity|].
  split; [done|]. split; [done|]. split.
  - split; cbn [procs set_procs set_list process_list k_mem].
    + constructor; [done|apply Hi].
    + split; [done|]. split; [|done]. exists p. split; [done|]. split; [done|]. cbn [p p_next]. apply (pl_head _ _ Hi).
    + done.
    + intros c Hc. rewrite Hlive. apply elem_of_union. destruct (Hdom c Hc) as [->|Hc']; [left; by apply elem_of_singleton|].
      right. exact (pl_live _ _ Hi c Hc').
  - cbn [procs set_procs set_list]. split; [done|]. do 7 (split; [reflexivity|]). split; [done|exact Hpid].
Qed.

Lemma process_destroy_run s a x b :
  plist_inv s (a ++ x :: b) -> (forall p, procs s !! x = Some p -> stack_ok p) ->
  exists s', process_destroy x s = Ret tt s' /\ plist_inv s' (a ++ b) /\ procs s' !! x = None /\
    forall c, c <> x -> fixed <$> (procs s' !! c) = fixed <$> (procs s !! c).
Proof.
  intros Hi Hok. pose proof (pl_seg _ _ Hi) as Hs. pose proof (pl_nodup _ _ Hi) as Hnd.
  destruct (seg_at _ _ _ _ _ _ Hs) as (p & Hp & Epv & Enx).
  destruct (seg_dom _ _ _ _ x Hs) as [Hx _]; [set_solver|].
  destruct (seg_unlink _ _ _ _ Hnd Hs) as (Hs' & Hx1 & Hx2).
  set (t1 := unlink_next (procs s) (lastd 0 a) (hd 0 b)) in *.
  set (t2 := unlink_prev t1 (hd 0 b) (lastd 0 a)) in *.
  assert (forall c, is_Some (t1 !! c) <-> is_Some (procs s !! c)) as Hd1.
  { intros c. unfold t1, unlink_next. destruct (lastd 0 a =? 0); [done|]. by rewrite lookup_alter_is_Some. }
  assert (forall c, is_Some (t2 !! c) <-> is_Some (procs s !! c)) as Hd2.
  { intros c. rewrite <- Hd1. unfold t2, unlink_prev. destruct (hd 0 b =? 0); [done|]. by rewrite lookup_alter_is_Some. }
  unfold process_destroy. destruct (Z.eqb_spec x 0); [done|].
  rewrite (bind_Ret _ _ _ _ _ (proc_get_run _ _ _ Hp)).
  destruct (release_stack s p) as [(h & E0 & Hl)|[Hn _]]; [|by destruct (Hn (Hok p Hp))].
  rewrite (bind_Ret _ _ _ _ _ E0). set (s0 := set_mem h s).
  rewrite (bind_Ret _ _ _ _ _ (proc_get_run _ s0 _ Hp)).
  assert ((if p_prev p =? 0 then ret tt else proc_upd (p_prev p) (with_next (p_next p))) s0 =
     Ret tt (set_procs t1 s0)) as E1.
  { rewrite Epv, Enx. unfold t1, unlink_next. destruct (Z.eqb_spec (lastd 0 a) 0); [by destruct s|].
    destruct (lastd_0 a _ eq_refl) as [[-> ?]|[a' Ea]]; [done|].
    rewrite proc_upd_alter; [by destruct s|]. apply (seg_dom _ _ _ _ (lastd 0 a) Hs). rewrite Ea at 2. set_solver. }
  rewrite (bind_Ret _ _ _ _ _ E1), (bind_Ret _ _ _ _ _ (proc_get_run _ (set_procs t1 s0) _ (eq_trans Hx1 Hp))).
  assert ((if p_next p =? 0 then ret tt else proc_upd (p_next p) (with_prev (p_prev p))) (set_procs t1 s0) =
     Ret tt (set_procs t2 s0)) as E2.
  { rewrite Epv, Enx. unfold t2, unlink_prev. destruct (Z.eqb_spec (hd 0 b) 0); [by destruct s|].
    destruct b as [|z b]; [done|]. rewrite proc_upd_alter; [by destruct s|].
    apply Hd1, (seg_dom _ _ _ _ z Hs). set_solver. }
  rewrite (bind_Ret _ _ _ _ _ E2). run_step.
  rewrite (bind_Ret _ _ _ _ _ (proc_get_run _ (set_procs t2 s0) _ (eq_trans Hx2 Hp))).
  set (hq := if process_list s =? x then hd 0 b else process_list s).
  assert ((if process_list (set_procs t2 s0) =? x then modify (set_list (p_next p)) else ret tt) (set_procs t2 s0) =
     Ret tt (set_list hq (set_procs t2 s0))) as E3.
  { rewrite Enx. unfold hq. cbn [process_list set_procs set_mem s0]. destruct (process_list s =? x); [done|by destruct s]. }
  rewrite (bind_Ret _ _ _ _ _ E3).
  assert (x ∈ live h) as Hlx by (rewrite Hl; apply (pl_live _ _ Hi); by eexists).
  destruct (k_free_run (set_list hq (set_procs t2 s0)) x Hlx) as (h' & E4 & Hl4 & _).
  exists (set_mem h' (set_procs (delete x t2) (set_list hq (set_procs t2 s0)))). split; [exact E4|].
  assert (x ∉ a ++ b) as Hxn.
  { pose proof Hnd as (_ & Hab & [Hxb _]%NoDup_cons)%NoDup_app. set_solver. }
  split; [|split; [by apply lookup_delete_eq|]].
  - split; cbn [procs set_procs set_mem set_list process_list k_mem].
    + pose proof Hnd as (? & Hab & [? ?]%NoDup_cons)%NoDup_app. apply NoDup_app.
      split; [done|]. split; [|done]. intros y Hya Hyb. apply (Hab y Hya). by right.
    + by apply seg_delete.
    + unfold hq. rewrite (pl_head _ _ Hi), !hd_app. cbn [hd]. destruct a as [|y a]; cbn [hd].
      * by rewrite Z.eqb_refl.
      * destruct (Z.eqb_spec y x) as [->|]; [|done]. destruct Hxn. by left.
    + intros c [q [Hc Hq]%lookup_delete_Some]. rewrite Hl4. cbn [k_mem set_list set_procs set_mem s0]. rewrite Hl.
      assert (c ∈ live (k_mem s)) by (apply (pl_live _ _ Hi), Hd2; by eexists). set_solver.
  - intros c Hc. cbn [procs set_procs set_mem]. rewrite lookup_delete_ne by done. apply unlink_fixed.
Qed.

(** ** The exit of the running process *)

Lemma tick_stuck asm s l :
  queue_inv s l -> l <> [] -> current_process s <> 0 -> procs s !! current_process s = None ->
  scheduler_tick asm s = Stuck.
Proof.
  intros Hq Hl Hc Hnone. unfold scheduler_tick. run_step. destruct l as [|h b]; [done|].
  pose proof (qi_seg _ _ Hq) as (Hh & _). rewrite (qi_head _ _ Hq). cbn [hd].
  destruct (Z.eqb_spec h 0); [done|]. destruct (rotate_run s h b Hq) as (s1 & E1 & Hq1 & Hsame & Ec).
  rewrite (bind_Ret _ _ _ _ _ E1). run_step. destruct (rotated_head h b) as (x & r & Er).
  change (b ++ [h]) with (rotated (h :: b)) in *. rewrite Er in *. rewrite (qi_head _ _ Hq1). cbn [hd].
  pose proof (qi_seg _ _ Hq1) as (Hx & (px & Hpx & _) & _). destruct (Z.eqb_spec x 0); [done|].
  destruct Hsame as (_ & _ & _ & Epid). specialize (Epid (current_process s1)).
  rewrite Ec, Hnone in Epid. destruct (procs s1 !! current_process s) as [?|] eqn:E2; [discriminate|].
  rewrite Ec. destruct (Z.eqb_spec (current_process s) x) as [Eq|Hne]; [rewrite Eq in E2; congruence|]. cbn [negb andb].
  unfold process_switch. destruct (Z.eqb_spec x 0); [done|]. run_step. rewrite Ec.
  destruct (Z.eqb_spec (current_process s) x); [done|]. destruct (Z.eqb_spec (current_process s) 0); [done|].
  unfold save_rip. run_step. unfold proc_upd, proc_get. rewrite ?bind_assoc. rewrite bind_get.
  cbn [procs set_cpu]. rewrite E2. reflexivity.
Qed.

(** Destroying a process without links takes it out of the table and its list pointer. *)
Lemma destroy_unlinked s x p :
  x <> 0 -> procs s !! x = Some p -> p_next p = 0 -> p_prev p = 0 -> x ∈ live (k_mem s) ->
  (exists h, process_destroy x s =
     Ret tt (set_mem h (set_procs (delete x (procs s)) (set_list (if process_list s =? x then 0 else process_list s) s))) /\
     live h = live (k_mem s) ∖ {[x]}) \/
  (~ stack_ok p /\ process_destroy x s = Stuck).
Proof.
  intros Hx Hp En Ep Hl. unfold process_destroy. destruct (Z.eqb_spec x 0); [done|].
  rewrite (bind_Ret _ _ _ _ _ (proc_get_run _ _ _ Hp)).
  destruct (release_stack s p) as [(h & E0 & Hlh)|[Hn E0]]; [left|right; split; [done|]; unfold bind; by rewrite E0].
  rewrite (bind_Ret _ _ _ _ _ E0). pose proof (proc_get_run x (set_mem h s) p Hp) as Eg.
  rewrite (bind_Ret _ _ _ _ _ Eg), Ep. cbn [Z.eqb]. run_step.
  rewrite (bind_Ret _ _ _ _ _ Eg), En. cbn [Z.eqb]. run_step. run_step. rewrite (bind_Ret _ _ _ _ _ Eg).
  assert ((if process_list (set_mem h s) =? x then modify (set_list (p_next p)) else ret tt) (set_mem h s) =
     Ret tt (set_list (if process_list s =? x then 0 else process_list s) (set_mem h s))) as E3.
  { cbn [process_list set_mem]. rewrite En. destruct (process_list s =? x); [done|by destruct s]. }
  rewrite (bind_Ret _ _ _ _ _ E3).
  destruct (k_free_run (set_list (if process_list s =? x then 0 else process_list s) (set_mem h s)) x) as (h' & E4 & Hl4 & _);
    [cbn [k_mem set_list set_mem]; by rewrite Hlh|].
  exists h'. split; [exact E4|]. rewrite Hl4. cbn [k_mem set_list set_mem]. by rewrite Hlh.
Qed.

(** The first part of [sys_exit]: the running process leaves the queue and is freed. *)
Lemma exit_removed s a x b status :
  sched_inv s (a ++ x :: b) -> current_process s = x -> x ∈ live (k_mem s) ->
  (exists s', end_process x status s = Ret tt s' /\ queue_inv s' (a ++ b) /\ current_process s' = x /\ procs s' !! x = None /\
     live (k_mem s') = live (k_mem s) ∖ {[x]}) \/
  (~ (forall p, procs s !! x = Some p -> stack_ok p) /\ end_process x status s = Stuck).
Proof.
  intros Hi Hc Hl. pose proof (si_seg _ _ Hi) as Hs. destruct (seg_at _ _ _ _ _ _ Hs) as (p & Hp & _).
  destruct (seg_dom _ _ _ _ x Hs) as [Hx _]; [set_solver|]. unfold end_process. destruct (Z.eqb_spec x 0); [done|].
  upd Hp. erewrite bind_Ret by (apply proc_upd_run; cbn [procs set_procs]; by rewrite lookup_insert_eq).
  cbn [procs set_procs]. rewrite insert_insert_eq.
  match goal with |- context [bind _ _ ?u] => set (s1 := u) end.
  assert (sched_inv s1 (a ++ x :: b)) as Hi1.
  { destruct Hi as [[A B C D] _]. split; [split; try done; by eapply seg_same|].
    right. cbn [s1 procs set_procs current_process]. rewrite Hc, lookup_insert_eq. by eexists. }
  destruct (scheduler_remove_run s1 a x b Hi1) as (s2 & E2 & Hi2 & (Em & _ & _ & Ep) & Hc2 & q & Hq & Hqn & Hqp).
  rewrite (bind_Ret _ _ _ _ _ E2).
  destruct (destroy_unlinked s2 x q Hx Hq Hqn Hqp) as [(h & E3 & Hh)|[Hn E3]]; [by rewrite Em| |].
  2: { right. split; [|done]. intros Hok. apply Hn. specialize (Hok p Hp). specialize (Ep x). rewrite Hq in Ep.
       cbn [s1 procs set_procs] in Ep. rewrite lookup_insert_eq in Ep. injection Ep as _ _ _ _ Eb _. unfold stack_ok. by rewrite Eb. }
  left. eexists. split; [exact E3|]. split; [|split; [cbn [current_process set_mem set_procs set_list]; by rewrite Hc2|split; [by apply lookup_delete_eq|]]].
  2: { cbn [k_mem set_mem]. by rewrite Hh, Em. }
  destruct Hi2 as [[A B C D] _]. split; try done. apply seg_delete; [|done].
  pose proof (si_nodup _ _ Hi) as (_ & Hab & [Hxb _]%NoDup_cons)%NoDup_app. set_solver.
Qed.
End scheduler.

(** ** Properties *)

Section process_properties.
Context {H : Type} `{PA : PageAllocator H}.
Implicit Types (s : kern H) (l : list Z).

(** C6. The scheduler implements a list of processes: from any state whose ready queue
    holds [l], [scheduler_add] of a process that is not queued appends it,
    [scheduler_remove] of a queued one takes it out wherever it is, and [scheduler_tick]
    rotates the queue and makes the new head current.  No operation touches the process
    table otherwise, and none is undefined. *)
Theorem scheduler_refines asm s l op :
  sched_inv s l -> op_ok s l op ->
  exists s', run_op asm op s = Ret tt s' /\ sched_inv s' (spec_op op l) /\ same_procs s s' /\
    current_process s' = match op with Tick => hd (current_process s) (spec_op op l) | _ => current_process s end.
Proof.
  intros Hi Hok. destruct op as [x|x|]; cbn [op_ok run_op spec_op] in *.
  - destruct Hok as (Hx & Hxl & Hd). destruct (scheduler_add_run s l x Hi Hx Hxl Hd) as (s' & ? & ? & ? & ?).
    by exists s'.
  - apply list_elem_of_split in Hok as (a & b & ->). rewrite filter_split by (by eapply si_nodup).
    destruct (scheduler_remove_run s a x b Hi) as (s' & ? & ? & ? & ? & _). by exists s'.
  - destruct (scheduler_tick_run asm s l Hi) as (s' & E & Hi' & Hs & Hc). exists s'.
    split; [done|]. split; [done|]. split; [done|]. destruct l as [|h b].
    + revert E. unfold scheduler_tick. run_step. rewrite (si_head _ _ Hi). by intros [= <-].
    + destruct (rotated_head h b) as (x & r & Er). rewrite Er in *. by apply Hc.
Qed.

(** C7. The scheduler starves no process: when the ready queue holds [n] processes, the
    [i]-th of them is current after [i] ticks (after [n] for the head), and after [n]
    ticks the queue is as before. *)
Theorem round_robin_fair asm s l :
  sched_inv s l ->
  (forall a x b, l = a ++ x :: b -> a <> [] ->
     exists s', ticks asm (length a) s = Ret tt s' /\ current_process s' = x) /\
  (l <> [] -> exists s', ticks asm (length l) s = Ret tt s' /\ sched_inv s' l /\
     current_process s' = hd 0 l).
Proof.
  intros Hi. split.
  - intros a x b -> Ha. destruct (ticks_run asm s _ (length a) Hi) as (s' & E & _ & Hc); [by destruct a|].
    exists s'. split; [done|]. rewrite Hc by (destruct a; simpl; done || lia). by rewrite spec_ticks_app.
  - intros Hl. destruct (ticks_run asm s l (length l) Hi Hl) as (s' & E & Hi' & Hc).
    exists s'. rewrite <- (app_nil_r l) in Hi' at 2. rewrite spec_ticks_app in Hi'. cbn [app] in Hi'.
    split; [done|]. split; [done|]. rewrite Hc by (destruct l; simpl; done || lia).
    rewrite <- (app_nil_r l) at 2. by rewrite spec_ticks_app.
Qed.

(** C25. [process_create] of a name that fits its field ends in one of four ways.  It panics (no
    page for the heap).  It returns 0, with the process table, the list, the queue and the
    set of allocated objects as before: without memory for the record; or with a pid used
    up, when a page of the stack is missing, after it has freed not the pages it got but
    those it computes from the first one.  When one of these addresses is no page of the
    page allocator, that is undefined.  Or it returns a new process at the head of the
    list, with the next pid, its entry point as the saved instruction pointer and its saved
    stack pointer at the top of its stack; [process_find_by_pid] then finds it. *)
Theorem process_create_spec s l name nm entry :
  plist_inv s l -> ds_strcpy (replicate PROCESS_NAME_MAX 0) name = Some nm ->
  let o := process_create name entry s in
  created nm entry s l o /\
  forall a s', o = Ret a s' -> a <> 0 -> process_find_by_pid (next_pid s) s' = Ret a s'.
Proof.
  intros Hi Hnm o. pose proof (process_create_run s l name nm entry Hi Hnm) as Hc. split; [done|].
  intros a s' E Ha. fold o in Hc. rewrite E in Hc.
  destruct Hc as [(? & ? & [=])|[(? & [= ? ?] & _)|[([=] & _)|(a' & s1 & p & [= <- <-] & _ & _ & Hi' & Hp & Hpid & _)]]]; [done|].
  rewrite (find_run _ _ _ (pl_nodup _ _ Hi') (pl_seg _ _ Hi') (pl_head _ _ Hi')). cbn [first_pid].
  rewrite bool_decide_true; [done|]. rewrite Hp. simpl. by rewrite Hpid.
Qed.

(** [process_destroy] of any member whose stack the page allocator manages takes exactly it out
    of the process list and the table; every other process keeps all but its links. *)
Theorem process_destroy_spec s l x :
  plist_inv s l -> x ∈ l -> (forall p, procs s !! x = Some p -> stack_ok p) ->
  exists s', process_destroy x s = Ret tt s' /\ plist_inv s' (filter (λ y, y <> x) l) /\ procs s' !! x = None /\
    forall c, c <> x -> fixed <$> (procs s' !! c) = fixed <$> (procs s !! c).
Proof.
  intros Hi Hx Hok. apply list_elem_of_split in Hx as (a & b & ->).
  rewrite filter_split by apply (pl_nodup _ _ Hi). by apply process_destroy_run.
Qed.

(** The process list and the ready queue share the links: making the newest process
    ready, when the ready queue is empty, cuts all the others off the process list, and
    [process_find_by_pid] no longer finds them. *)
Theorem scheduler_add_unlinks s x l :
  plist_inv s (x :: l) -> ready_queue s = 0 ->
  exists s', scheduler_add x s = Ret tt s' /\
    forall pid, p_pid <$> (procs s !! x) <> Some pid -> process_find_by_pid pid s' = Ret 0 s'.
Proof.
  intros Hi Hq. pose proof (pl_seg _ _ Hi) as (Hx & (p & Hp & _) & _). unfold scheduler_add.
  destruct (Z.eqb_spec x 0); [done|]. rewrite (bind_Ret _ _ _ _ _ (proc_upd_run _ _ _ _ Hp)). run_step.
  cbn [ready_queue set_procs]. rewrite Hq. cbn [Z.eqb]. run_step.
  erewrite bind_Ret by (apply proc_upd_run; cbn [procs set_procs set_queue]; by rewrite lookup_insert_eq).
  erewrite proc_upd_run by (cbn [procs set_procs set_queue]; by rewrite lookup_insert_eq).
  eexists. split; [reflexivity|]. intros pid Hpid. cbn [procs set_procs set_queue]. rewrite !insert_insert_eq.
  rewrite (find_run _ [x]).
  - cbn [first_pid procs set_procs]. rewrite bool_decide_false; [done|].
    rewrite lookup_insert_eq. simpl. by rewrite Hp in Hpid.
  - apply NoDup_singleton.
  - split; [done|]. split; [|done]. eexists. cbn [procs set_procs]. by rewrite lookup_insert_eq.
  - cbn [process_list set_procs set_queue]. apply (pl_head _ _ Hi).
Qed.

(** C27. [SYSCALL_EXIT] frees the running process and then, when another process is ready,
    switches away from it: the registers are saved into the freed process.  The first part
    returns whenever the page allocator manages the pages of the stack, and leaves the
    freed process as the current one. *)
Theorem exit_uses_freed asm s a x b status :
  sched_inv s (a ++ x :: b) -> a ++ b <> [] -> current_process s = x -> x ∈ live (k_mem s) ->
  sys_exit asm status s = Stuck /\
  ((forall p, procs s !! x = Some p -> stack_ok p) ->
   exists s', end_process x status s = Ret tt s' /\ current_process s' = x /\ procs s' !! x = None /\ x ∉ live (k_mem s') /\
     scheduler_tick asm s' = Stuck).
Proof.
  intros Hi Hab Hcur Hlive. pose proof (si_seg _ _ Hi) as Hs. destruct (seg_dom _ _ _ _ x Hs) as [Hx0 _]; [set_solver|].
  unfold sys_exit, process_get_current. rewrite bind_gets, Hcur.
  destruct (exit_removed s a x b status Hi Hcur Hlive) as [(s' & E & Hq & Hc & Hx & Hl)|[Hn E]].
  - assert (scheduler_tick asm s' = Stuck) as Et by (apply (tick_stuck asm s' (a ++ b) Hq Hab); [by rewrite Hc|by rewrite Hc]).
    rewrite (bind_Ret _ _ _ _ _ E). split; [unfold bind; by rewrite Et|]. intros _. exists s'. split_and!; try done.
    rewrite Hl. set_solver.
  - split; [unfold bind; by rewrite E|]. intros Hok. by destruct (Hn Hok).
Qed.

(** C28. A context switch overwrites the register [base] through which it addresses the process
    to be resumed.  The registers before it in the order of the loads, and itself, get the
    saved values; those behind it, the flags and the target of the jump are read where its
    saved value points instead: a process with no process at that address goes on at
    whatever lies there.  So a new process, whose saved registers are zero, does not start
    at its entry point but at the number in memory at address 224, unless [base] is the
    stack pointer. *)
Theorem switch_loses_base asm s n pn :
  n <> 0 -> procs s !! n = Some pn -> current_process s <> n ->
  current_process s = 0 \/ is_Some (procs s !! current_process s) ->
  exists s' (l1 l2 : list (gpr * Z)) off, process_switch asm n s = Ret tt s' /\ current_process s' = n /\ loads = l1 ++ (base asm, off) :: l2 /\
    (forall r o, (r, o) ∈ l1 ++ [(base asm, off)] -> reg r (cpu s') = reg r (p_context pn)) /\
    let b := reg (base asm) (p_context pn) in
    (procs s !! b = None ->
      (forall r o, (r, o) ∈ l2 -> reg r (cpu s') = word asm (u64 (b + o))) /\
      rflags (cpu s') = word asm (u64 (b + 232)) /\ rip (cpu s') = word asm (u64 (b + 224))) /\
    (forall entry top, p_context pn = mkCtx 0 0 0 0 0 0 0 0 0 0 0 0 0 0 0 entry 0x202 top ->
      base asm <> RSP -> procs s !! 0 = None -> rip (cpu s') = word asm 224).
Proof.
  intros Hn Hpn Hc Hcur. rewrite (process_switch_run asm s n pn Hn Hpn Hc Hcur).
  destruct (loads_split (base asm)) as (l1 & off & l2 & E). set (s1 := switched asm n s).
  destruct (restore_run asm (procs s1) n (cpu s1) l1 l2 off E) as (F1 & F2 & F3 & F4 & F5).
  assert (procs s1 !! n = Some pn) as Hpn1 by (by apply switched_lookup). unfold operand at 1 in F2. rewrite Hpn1 in F2.
  assert (forall f o, operand asm (procs s1) n f o = f (p_context pn)) as Hop by (intros f o; unfold operand; by rewrite Hpn1).
  rewrite Hop in F3, F4, F5. set (b := reg (base asm) (p_context pn)) in *.
  assert (procs s !! b = None -> forall f o, operand asm (procs s1) b f o = word asm (u64 (b + o))) as Hout.
  { intros Hb f o. unfold operand. apply (switched_none asm n s b) in Hb. by rewrite (Hb : procs s1 !! b = None). }
  eexists _, l1, l2, off. split; [reflexivity|]. split; [by destruct s|]. split; [done|]. cbn [cpu set_cpu]. split; [|split].
  - intros r o [Hr|[= -> ->]%list_elem_of_singleton]%elem_of_app; [|done]. by rewrite (F1 _ _ Hr), Hop.
  - intros Hb. split; [|split].
    + intros r o Hr. rewrite (F3 _ _ Hr). by apply Hout.
    + rewrite F4. by apply Hout.
    + rewrite F5. by apply Hout.
  - intros entry top Hctx Hb H0. assert (b = 0) as E0 by (unfold b; rewrite Hctx; by destruct (base asm)).
    rewrite F5, Hout, E0 by (by rewrite E0). done.
Qed.
End process_properties.

(** ** Concrete states *)

Section process_witnesses.
#[local] Existing Instance bump_allocator.

(** One page, given out again and again. *)
#[local] Instance one_page : PageAllocator (gset Z) := {|
  page_alloc h := Ret 0x300000 h;
  page_free _ h := Ret tt h;
  page_alloc_law h := ex_intro _ _ (ex_intro _ _ (conj eq_refl eq_refl));
  managed _ := true;
  page_free_law _ h := or_introl (ex_intro _ _ (conj eq_refl eq_refl))
|}.

Definition proc_at (pid next prev : Z) : process :=
  mkProc pid (replicate 64 0) PROCESS_STATE_READY 0 0x400000 0x300000 0x100000
    (mkCtx 0 0 0 0 0 0 0 0 0 0 0 0 0 0 0 0x100000 0x202 0x400000) next prev 0.

(** The compiler holds [next] in [rdi], the number at address 224 is 5. *)
Definition asm0 : compiled := mkAsm 7 RDI (λ a, if a =? 224 then 5 else 0).

Definition two_procs : gmap Z process := <[2000 := proc_at 1 3000 0]> (<[3000 := proc_at 2 0 2000]> ∅).

(** Both processes ready, the first one running. *)
Definition two_ready : kern (gset Z) := mkKern {[2000; 3000]} two_procs 2000 0 3 2000 3000 zero_context 0.
(** Both processes in the process list, none ready. *)
Definition two_listed : kern (gset Z) := mkKern {[2000; 3000]} two_procs 0 2000 3 0 0 zero_context 0.

Lemma two_seg : seg two_procs 0 [2000; 3000] 0.
Proof.
  split; [done|]. split; [by eexists|]. split; [done|]. split; [by eexists|exact I].
Qed.

Lemma two_nodup : NoDup [2000; 3000].
Proof. apply (bool_decide_unpack _). vm_compute. exact I. Qed.

Lemma two_ready_inv : sched_inv two_ready [2000; 3000].
Proof. apply sched_intro; [apply two_nodup|apply two_seg|done|done|right; by eexists]. Qed.

Lemma two_listed_inv : plist_inv two_listed [2000; 3000].
Proof.
  split; [apply two_nodup|apply two_seg|done|].
  intros a [p Ha]. unfold two_listed, two_procs in Ha. cbn [procs] in Ha. revert Ha.
  intros [[<- _]|[_ [[<- _]|[_ []%lookup_empty_Some]]%lookup_insert_Some]]%lookup_insert_Some;
    apply (bool_decide_unpack _); vm_compute; exact I.
Qed.

Lemma scheduler_refines_witness :
  exists s', scheduler_tick asm0 two_ready = Ret tt s' /\ sched_inv s' [3000; 2000].
Proof.
  destruct (scheduler_refines asm0 two_ready [2000; 3000] Tick two_ready_inv I) as (s' & E & Hi & _).
  exists s'. split; [exact E|exact Hi].
Defined.

Lemma round_robin_fair_witness :
  exists s', ticks asm0 1 two_ready = Ret tt s' /\ current_process s' = 3000.
Proof.
  destruct (round_robin_fair asm0 two_ready [2000; 3000] two_ready_inv) as [Hf _].
  apply (Hf [2000] 3000 [] eq_refl). discriminate.
Defined.

Lemma process_create_spec_witness :
  created (97 :: replicate 63 0) 5 two_listed [2000; 3000] (process_create [97; 0] 5 two_listed).
Proof. apply (process_create_spec two_listed [2000; 3000] [97; 0] _ 5 two_listed_inv). reflexivity. Defined.

Lemma process_destroy_spec_witness :
  exists s', process_destroy 3000 two_listed = Ret tt s' /\ procs s' !! 3000 = None.
Proof.
  destruct (process_destroy_spec two_listed [2000; 3000] 3000 two_listed_inv) as (s' & E & _ & Hn & _);
    [right; left|intros p _; right; intros j _; reflexivity|]. exists s'. split; [exact E|exact Hn].
Defined.

Lemma scheduler_add_unlinks_witness :
  exists s', scheduler_add 2000 two_listed = Ret tt s' /\ process_find_by_pid 2 s' = Ret 0 s'.
Proof.
  destruct (scheduler_add_unlinks two_listed 2000 [3000] two_listed_inv eq_refl) as (s' & E & Hf).
  exists s'. split; [exact E|]. apply Hf. discriminate.
Defined.

Lemma exit_uses_freed_witness : sys_exit asm0 1 two_ready = Stuck.
Proof.
  eapply proj1, (exit_uses_freed asm0 two_ready [] 2000 [3000] 1 two_ready_inv); [discriminate|reflexivity|].
  apply (bool_decide_unpack _); vm_compute; exact I.
Defined.

Lemma switch_loses_base_witness :
  exists s1, process_switch asm0 3000 two_ready = Ret tt s1 /\ current_process s1 = 3000 /\ rip (cpu s1) = 5.
Proof.
  destruct (switch_loses_base asm0 two_ready 3000 (proc_at 2 0 2000)) as (s1 & l1 & off & l2 & E & Hc & _ & _ & _ & Hr);
    [discriminate|reflexivity|discriminate|right; eexists; reflexivity|].
  exists s1. split; [exact E|]. split; [exact Hc|]. apply (Hr 0x100000 0x400000); [reflexivity|discriminate|reflexivity].
Defined.
End process_witnesses.
