(* ===== verification/Ds.v ===== *)
(** * Containers: array, linked list and map of lib/common/ds.c

    Structures are records at their addresses, buffers are lists of bytes at theirs.
    The byte loops between two buffers, and those that move an element to the place
    just below it, are a slice and a store.  The bytes of fresh memory are a
    parameter. *)

From S2P Require Import Prelude CString Vfs.

Record ds_array := mkArr { a_data : Z; a_elem : Z; a_count : Z; a_cap : Z }.
Record ds_list_node := mkLnode { ln_data : Z; ln_next : Z }.
Record ds_list := mkList { l_head : Z; l_tail : Z; l_count : Z }.
Record ds_hashmap := mkMap { m_keys : Z; m_values : Z; m_ksize : Z; m_vsize : Z; m_cap : Z; m_count : Z }.

Record store (H : Type) := mkStore {
  d_mem : H;
  d_bufs : gmap Z (list Z);
  d_arrs : gmap Z ds_array;
  d_nodes : gmap Z ds_list_node;
  d_lists : gmap Z ds_list;
  d_maps : gmap Z ds_hashmap
}.
Arguments mkStore {H}.
Arguments d_mem {H}.
Arguments d_bufs {H}.
Arguments d_arrs {H}.
Arguments d_nodes {H}.
Arguments d_lists {H}.
Arguments d_maps {H}.

Section ds_code.
Context {H : Type} `{!Allocator H} (junk : Z -> list Z).
Local Abbreviation store := (store H).
Implicit Types s : store.

Definition put_mem (h : H) s : store := mkStore h (d_bufs s) (d_arrs s) (d_nodes s) (d_lists s) (d_maps s).
Definition put_bufs b s : store := mkStore (d_mem s) b (d_arrs s) (d_nodes s) (d_lists s) (d_maps s).
Definition put_arrs a s : store := mkStore (d_mem s) (d_bufs s) a (d_nodes s) (d_lists s) (d_maps s).
Definition put_nodes n s : store := mkStore (d_mem s) (d_bufs s) (d_arrs s) n (d_lists s) (d_maps s).
Definition put_lists l s : store := mkStore (d_mem s) (d_bufs s) (d_arrs s) (d_nodes s) l (d_maps s).
Definition put_maps m s : store := mkStore (d_mem s) (d_bufs s) (d_arrs s) (d_nodes s) (d_lists s) m.

Definition s_malloc (n : Z) : M store Z := zoom d_mem put_mem (malloc n).
Definition s_free (p : Z) : M store unit := zoom d_mem put_mem (free p).

(** A buffer of [n] bytes, or 0. *)
Definition new_buf (n : Z) : M store Z :=
  p <-- s_malloc n ;;
  (if p =? 0 then ret tt else modify (λ s, put_bufs (<[p := junk n]> (d_bufs s)) s)) ;;;
  ret p.
Definition buf_at (p : Z) : M store (list Z) := s <-- get ;; of_option (d_bufs s !! p).
Definition buf_put (p : Z) (b : list Z) : M store unit := modify (λ s, put_bufs (<[p := b]> (d_bufs s)) s).
Definition buf_free (p : Z) : M store unit :=
  modify (λ s, put_bufs (delete p (d_bufs s)) s) ;;; s_free p.

(** ** Dynamic array *)

Definition arr_at (a : Z) : M store ds_array := s <-- get ;; of_option (d_arrs s !! a).
Definition arr_put (a : Z) (r : ds_array) : M store unit := modify (λ s, put_arrs (<[a := r]> (d_arrs s)) s).
Definition arr_free (a : Z) : M store unit :=
  modify (λ s, put_arrs (delete a (d_arrs s)) s) ;;; s_free a.

Definition ds_array_create (elem_size initial_capacity : Z) : M store Z :=
  arr <-- s_malloc 32 ;;
  if arr =? 0 then ret 0
  else
    data <-- new_buf (u64 (elem_size * initial_capacity)) ;;
    if data =? 0 then s_free arr ;;; ret 0
    else arr_put arr (mkArr data elem_size 0 initial_capacity) ;;; ret arr.

Definition ds_array_destroy (arr : Z) : M store unit :=
  if arr =? 0 then ret tt
  else
    r <-- arr_at arr ;;
    (if a_data r =? 0 then ret tt else buf_free (a_data r)) ;;;
    arr_free arr.

(** The block [if (arr->count >= arr->capacity)]: [false] is the early return. *)
Definition array_grow (arr : Z) : M store bool :=
  r <-- arr_at arr ;;
  if a_cap r <=? a_count r then
    let new_cap := u64 (a_cap r * 2) in
    new_data <-- new_buf (u64 (a_elem r * new_cap)) ;;
    if new_data =? 0 then ret false
    else
      old <-- buf_at (a_data r) ;;
      b <-- buf_at new_data ;;
      bytes <-- of_option (buf_slice old 0 (u64 (a_count r * a_elem r))) ;;
      b <-- of_option (buf_store b bytes 0) ;;
      buf_put new_data b ;;;
      buf_free (a_data r) ;;;
      arr_put arr (mkArr new_data (a_elem r) (a_count r) new_cap) ;;;
      ret true
  else ret true.

Definition ds_array_push (arr : Z) (elem : list Z) : M store unit :=
  if arr =? 0 then ret tt
  else
    more <-- array_grow arr ;;
    if negb more then ret tt
    else
      r <-- arr_at arr ;;
      b <-- buf_at (a_data r) ;;
      e <-- of_option (buf_slice elem 0 (a_elem r)) ;;
      b <-- of_option (buf_store b e (u64 (a_count r * a_elem r))) ;;
      buf_put (a_data r) b ;;;
      arr_put arr (mkArr (a_data r) (a_elem r) (u64 (a_count r + 1)) (a_cap r)).

Definition ds_array_get (arr index : Z) : M store Z :=
  if arr =? 0 then ret 0
  else
    r <-- arr_at arr ;;
    if a_count r <=? index then ret 0
    else ret (u64 (a_data r + u64 (index * a_elem r))).

(** Element [i + 1] of size [n] is copied over element [i]. *)
Definition move_down (b : list Z) (i n : Z) : option (list Z) :=
  e ← buf_slice b (u64 (u64 (i + 1) * n)) n; buf_store b e (u64 (i * n)).

(** [n] rounds from [i]. *)
Fixpoint move_loop (n : nat) (b : list Z) (i size : Z) : option (list Z) :=
  match n with
  | O => Some b
  | S n' => b' ← move_down b i size; move_loop n' b' (i + 1) size
  end.

Definition ds_array_remove (arr index : Z) : M store unit :=
  if arr =? 0 then ret tt
  else
    r <-- arr_at arr ;;
    if a_count r <=? index then ret tt
    else
      b <-- buf_at (a_data r) ;;
      b <-- of_option (move_loop (Z.to_nat (u64 (a_count r - 1) - index)) b index (a_elem r)) ;;
      buf_put (a_data r) b ;;;
      arr_put arr (mkArr (a_data r) (a_elem r) (u64 (a_count r - 1)) (a_cap r)).

Definition ds_array_count (arr : Z) : M store Z :=
  if arr =? 0 then ret 0 else r <-- arr_at arr ;; ret (a_count r).

(** ** Linked list *)

Definition node_at (a : Z) : M store ds_list_node := s <-- get ;; of_option (d_nodes s !! a).
Definition node_put (a : Z) (n : ds_list_node) : M store unit := modify (λ s, put_nodes (<[a := n]> (d_nodes s)) s).
Definition node_free (a : Z) : M store unit :=
  modify (λ s, put_nodes (delete a (d_nodes s)) s) ;;; s_free a.
Definition list_at (a : Z) : M store ds_list := s <-- get ;; of_option (d_lists s !! a).
Definition list_put (a : Z) (l : ds_list) : M store unit := modify (λ s, put_lists (<[a := l]> (d_lists s)) s).

Definition ds_list_create : M store Z :=
  list <-- s_malloc 24 ;;
  if list =? 0 then ret 0 else list_put list (mkList 0 0 0) ;;; ret list.

(** [while (node) ...]; the data of a node is a buffer. *)
Fixpoint destroy_loop (fuel : nat) (node : Z) : M store unit :=
  match fuel with
  | O => nofuel
  | S fuel' =>
      if node =? 0 then ret tt
      else
        n <-- node_at node ;;
        buf_free (ln_data n) ;;;
        node_free node ;;;
        destroy_loop fuel' (ln_next n)
  end.

Definition ds_list_destroy (list : Z) : M store unit :=
  if list =? 0 then ret tt
  else
    l <-- list_at list ;;
    s <-- get ;;
    destroy_loop (S (size (d_nodes s))) (l_head l) ;;;
    modify (λ s, put_lists (delete list (d_lists s)) s) ;;; s_free list.

Definition ds_list_push (list data : Z) : M store unit :=
  if (list =? 0) || (data =? 0) then ret tt
  else
    node <-- s_malloc 16 ;;
    if node =? 0 then ret tt
    else
      node_put node (mkLnode data 0) ;;;
      l <-- list_at list ;;
      (if l_tail l =? 0 then list_put list (mkList node node (l_count l))
       else
         t <-- node_at (l_tail l) ;;
         node_put (l_tail l) (mkLnode (ln_data t) node) ;;;
         list_put list (mkList (l_head l) node (l_count l))) ;;;
      l <-- list_at list ;;
      list_put list (mkList (l_head l) (l_tail l) (u64 (l_count l + 1))).

Definition ds_list_pop (list : Z) : M store Z :=
  if list =? 0 then ret 0
  else
    l <-- list_at list ;;
    if l_head l =? 0 then ret 0
    else
      n <-- node_at (l_head l) ;;
      let tail := if ln_next n =? 0 then 0 else l_tail l in
      list_put list (mkList (ln_next n) tail (l_count l)) ;;;
      node_free (l_head l) ;;;
      list_put list (mkList (ln_next n) tail (u64 (l_count l - 1))) ;;;
      ret (ln_data n).

(** [n] times [node = node->next]. *)
Fixpoint nth_node (n : nat) (node : Z) : M store Z :=
  match n with
  | O => ret node
  | S n' => r <-- node_at node ;; nth_node n' (ln_next r)
  end.

Definition ds_list_get (list index : Z) : M store Z :=
  if list =? 0 then ret 0
  else
    l <-- list_at list ;;
    if l_count l <=? index then ret 0
    else
      node <-- nth_node (Z.to_nat index) (l_head l) ;;
      n <-- node_at node ;;
      ret (ln_data n).

(** The walk of [ds_list_remove]: [(prev, node)]. *)
Fixpoint nth_prev (n : nat) (prev node : Z) : M store (Z * Z) :=
  match n with
  | O => ret (prev, node)
  | S n' => r <-- node_at node ;; nth_prev n' node (ln_next r)
  end.

Definition ds_list_remove (list index : Z) : M store unit :=
  if list =? 0 then ret tt
  else
    l <-- list_at list ;;
    if l_count l <=? index then ret tt
    else
      pn <-- nth_prev (Z.to_nat index) 0 (l_head l) ;;
      let (prev, node) := pn in
      n <-- node_at node ;;
      (if prev =? 0 then ret tt
       else p <-- node_at prev ;; node_put prev (mkLnode (ln_data p) (ln_next n))) ;;;
      let head := if prev =? 0 then ln_next n else l_head l in
      let tail := if node =? l_tail l then prev else l_tail l in
      list_put list (mkList head tail (l_count l)) ;;;
      buf_free (ln_data n) ;;;
      node_free node ;;;
      list_put list (mkList head tail (u64 (l_count l - 1))).

(** ** Map *)

Definition map_at (a : Z) : M store ds_hashmap := s <-- get ;; of_option (d_maps s !! a).
Definition map_put (a : Z) (m : ds_hashmap) : M store unit := modify (λ s, put_maps (<[a := m]> (d_maps s)) s).

Definition ds_hashmap_create (key_size value_size capacity : Z) : M store Z :=
  map <-- s_malloc 48 ;;
  if map =? 0 then ret 0
  else
    keys <-- new_buf (u64 (key_size * capacity)) ;;
    values <-- new_buf (u64 (value_size * capacity)) ;;
    if (keys =? 0) || (values =? 0) then
      (if keys =? 0 then ret tt else buf_free keys) ;;;
      (if values =? 0 then ret tt else buf_free values) ;;;
      s_free map ;;;
      ret 0
    else map_put map (mkMap keys values key_size value_size capacity 0) ;;; ret map.

Definition ds_hashmap_destroy (map : Z) : M store unit :=
  if map =? 0 then ret tt
  else
    m <-- map_at map ;;
    buf_free (m_keys m) ;;;
    buf_free (m_values m) ;;;
    modify (λ s, put_maps (delete map (d_maps s)) s) ;;; s_free map.

Definition ds_hashmap_set (map : Z) (key value : list Z) : M store bool :=
  if map =? 0 then ret false
  else
    m <-- map_at map ;;
    if m_cap m <=? m_count m then ret false
    else
      k <-- of_option (buf_slice key 0 (m_ksize m)) ;;
      ks <-- buf_at (m_keys m) ;;
      ks <-- of_option (buf_store ks k (u64 (m_count m * m_ksize m))) ;;
      buf_put (m_keys m) ks ;;;
      v <-- of_option (buf_slice value 0 (m_vsize m)) ;;
      vs <-- buf_at (m_values m) ;;
      vs <-- of_option (buf_store vs v (u64 (m_count m * m_vsize m))) ;;
      buf_put (m_values m) vs ;;;
      map_put map (mkMap (m_keys m) (m_values m) (m_ksize m) (m_vsize m) (m_cap m) (u64 (m_count m + 1))) ;;;
      ret true.

(** The index of the first of [n] keys from [i] that matches. *)
Fixpoint key_loop (n : nat) (i size : Z) (ks key : list Z) : option (option Z) :=
  match n with
  | O => Some None
  | S n' =>
      k ← buf_slice ks (u64 (i * size)) size;
      k' ← buf_slice key 0 size;
      if bool_decide (k = k') then Some (Some i) else key_loop n' (i + 1) size ks key
  end.

Definition find_key (m : ds_hashmap) (key : list Z) : M store (option Z) :=
  ks <-- buf_at (m_keys m) ;;
  of_option (key_loop (Z.to_nat (m_count m)) 0 (m_ksize m) ks key).

Definition ds_hashmap_get (map : Z) (key : list Z) : M store Z :=
  if map =? 0 then ret 0
  else
    m <-- map_at map ;;
    i <-- find_key m key ;;
    match i with
    | Some i => ret (u64 (m_values m + u64 (i * m_vsize m)))
    | None => ret 0
    end.

Definition ds_hashmap_remove (map : Z) (key : list Z) : M store bool :=
  if map =? 0 then ret false
  else
    m <-- map_at map ;;
    i <-- find_key m key ;;
    match i with
    | Some i =>
        let n := Z.to_nat (u64 (m_count m - 1) - i) in
        ks <-- buf_at (m_keys m) ;;
        ks <-- of_option (move_loop n ks i (m_ksize m)) ;;
        buf_put (m_keys m) ks ;;;
        vs <-- buf_at (m_values m) ;;
        vs <-- of_option (move_loop n vs i (m_vsize m)) ;;
        buf_put (m_values m) vs ;;;
        map_put map (mkMap (m_keys m) (m_values m) (m_ksize m) (m_vsize m) (m_cap m) (u64 (m_count m - 1))) ;;;
        ret true
    | None => ret false
    end.

(** [ds_strdup]: a copy of the string, or 0. *)
Definition ds_strdup (str : list Z) : M store Z :=
  len <-- of_option (ds_strlen str) ;;
  dup <-- new_buf (u64 (len + 1)) ;;
  if dup =? 0 then ret 0
  else
    bytes <-- of_option (buf_slice str 0 (len + 1)) ;;
    b <-- buf_at dup ;;
    b <-- of_option (buf_store b bytes 0) ;;
    buf_put dup b ;;;
    ret dup.
End ds_code.

(** ** Elements in a buffer *)

Section elements.
Implicit Types (es : list (list Z)) (b rest : list Z).

Definition sized (n : Z) es : Prop := Forall (λ e, Z.of_nat (length e) = n) es.

Lemma concat_sized n es : sized n es -> Z.of_nat (length (concat es)) = Z.of_nat (length es) * n.
Proof. induction 1; simpl; [done|]. rewrite length_app. lia. Qed.

Lemma slice_app (a e rest : list Z) i n :
  Z.of_nat (length a) = i -> Z.of_nat (length e) = n -> buf_slice (a ++ e ++ rest) i n = Some e.
Proof.
  intros <- <-. rewrite buf_slice_in by (rewrite ?length_app; lia). rewrite !Nat2Z.id.
  by rewrite drop_app_length, take_app_length.
Qed.

Lemma store_app (a x e rest : list Z) i :
  Z.of_nat (length a) = i -> length x = length e -> buf_store (a ++ x ++ rest) e i = Some (a ++ e ++ rest).
Proof.
  intros <- Hx. rewrite buf_store_in by (rewrite ?length_app; lia). rewrite Nat2Z.id, take_app_length.
  do 3 f_equal. rewrite <- Hx, <- length_app, (assoc_L (++)). by rewrite drop_app_length.
Qed.

Lemma slice_front (e rest : list Z) n : Z.of_nat (length e) = n -> buf_slice (e ++ rest) 0 n = Some e.
Proof. exact (slice_app [] e rest 0 n eq_refl). Qed.

Lemma slice_all (e : list Z) n : Z.of_nat (length e) = n -> buf_slice e 0 n = Some e.
Proof. intros. rewrite <- (app_nil_r e) at 1. by apply slice_front. Qed.

(** Storing into the front of a buffer that is long enough. *)
Lemma store_front (b e : list Z) : (length e <= length b)%nat -> buf_store b e 0 = Some (e ++ drop (length e) b).
Proof.
  intros. rewrite <- (take_drop (length e) b) at 1.
  apply (store_app [] (take (length e) b) e (drop (length e) b) 0 eq_refl). rewrite length_take. lia.
Qed.

(** Moving elements down over [x] leaves the last of them twice. *)
Lemma move_loop_run n size es1 x es2 rest :
  sized size (es1 ++ x :: es2) -> (Z.of_nat (length es1) + Z.of_nat (length es2) + 1) * size < 2 ^ 64 ->
  0 <= size -> Z.of_nat (length es1) + Z.of_nat (length es2) + 1 < 2 ^ 64 -> n = length es2 ->
  exists y, Z.of_nat (length y) = size /\
    move_loop n (concat (es1 ++ x :: es2) ++ rest) (Z.of_nat (length es1)) size =
      Some (concat (es1 ++ es2) ++ y ++ rest).
Proof.
  intros Hs Hmax Hsize Hcount ->. revert es1 x Hs Hmax Hcount.
  induction es2 as [|z es2 IH]; intros es1 x Hs Hmax Hcount.
  { exists x. apply Forall_app in Hs as [_ [Hx _]%Forall_cons]. split; [done|]. simpl.
    by rewrite concat_app, app_nil_r, <- app_assoc; simpl; rewrite app_nil_r. }
  pose proof Hs as [Hs1 [Hx [Hz Hs2]%Forall_cons]%Forall_cons]%Forall_app. cbv beta in Hx, Hz.
  cbn [length move_loop]. unfold move_down.
  pose proof (concat_sized size es1 Hs1) as Hlen. cbn [length] in Hmax, Hcount.
  rewrite (wrap_small 64 (Z.of_nat (length es1) + 1)) by lia. rewrite !wrap_small by nia.
  replace (concat (es1 ++ x :: z :: es2) ++ rest) with (((concat es1 ++ x) ++ z ++ concat es2 ++ rest))
    by (rewrite concat_app; simpl; by rewrite <- !app_assoc).
  rewrite (slice_app (concat es1 ++ x) z) by (rewrite ?length_app; lia). cbn [mbind option_bind].
  rewrite <- !app_assoc. rewrite store_app by lia. cbn [mbind option_bind].
  replace (concat es1 ++ z ++ z ++ concat es2 ++ rest) with (concat ((es1 ++ [z]) ++ z :: es2) ++ rest)
    by (rewrite !concat_app; simpl; by rewrite app_nil_r, <- !app_assoc).
  destruct (IH (es1 ++ [z]) z) as (y & Hy & E).
  - apply Forall_app. split; [apply Forall_app; split; [done|by repeat constructor]|by constructor].
  - rewrite length_app. simpl. lia.
  - rewrite length_app. simpl. lia.
  - exists y. split; [done|]. rewrite length_app in E. cbn [length] in E.
    replace (Z.of_nat (length es1) + 1) with (Z.of_nat (length es1 + 1)) by lia. rewrite E.
    do 2 f_equal. by rewrite <- app_assoc.
Qed.
End elements.

(** ** Allocation *)

Section allocation.
Context {H : Type} `{!Allocator H}.
Implicit Types s : store H.

Lemma s_malloc_cases n s :
  (exists msg t, s_malloc n s = Panic msg t) \/
  exists p h, s_malloc n s = Ret p (put_mem h s) /\
    ((p = 0 /\ live h = live (d_mem s)) \/
     (p <> 0 /\ p ∉ live (d_mem s) /\ live h = {[p]} ∪ live (d_mem s))).
Proof.
  unfold s_malloc, zoom. destruct (malloc_law n (d_mem s)) as [(msg & t & ->)|(p & h & -> & Hp)].
  - left. by eexists _, _.
  - right. exists p, h. split; [done|]. set_solver.
Qed.

Lemma s_free_run p s :
  p ∈ live (d_mem s) -> exists h, s_free p s = Ret tt (put_mem h s) /\ live h = live (d_mem s) ∖ {[p]}.
Proof.
  intros Hp. destruct (free_law p (d_mem s) Hp) as (h & E & Hl). exists h. split; [|done].
  unfold s_free, zoom. by rewrite E.
Qed.

End allocation.

(** ** Arrays hold lists of elements *)

Section array.
Context {H : Type} `{!Allocator H} (junk : Z -> list Z) (junk_length : forall n, 0 <= n -> Z.of_nat (length (junk n)) = n).
Implicit Types (s : store H) (es : list (list Z)).

(** The array at [a] holds the elements [es] of [size] bytes and has room for [cap]. *)
Definition array_rep s (a size cap : Z) es : Prop :=
  exists d rest, a <> 0 /\ d <> 0 /\ d ∈ live (d_mem s) /\
    d_arrs s !! a = Some (mkArr d size (Z.of_nat (length es)) cap) /\
    d_bufs s !! d = Some (concat es ++ rest) /\ sized size es /\ 0 < size /\
    Z.of_nat (length es) * size + Z.of_nat (length rest) = cap * size /\ 0 < cap /\ cap * size < 2 ^ 64.

(** What [array_grow] leaves: room for one more element, or the array as it was. *)
Lemma array_grow_run s a size cap es :
  array_rep s a size cap es -> 2 * cap * size < 2 ^ 64 ->
  (exists msg t, array_grow junk a s = Panic msg t) \/
  (exists s', array_grow junk a s = Ret false s' /\ array_rep s' a size cap es) \/
  (exists s' cap', array_grow junk a s = Ret true s' /\ array_rep s' a size cap' es /\
     Z.of_nat (length es) < cap' /\ cap' <= 2 * cap).
Proof.
  intros (d & rest & Ha & Hd & Hlive & Harr & Hbuf & Hs & Hsize & Hroom & Hcap & Hmax) H2.
  unfold array_grow, arr_at. run_step. rewrite Harr. run_step. cbn [a_cap a_count a_elem a_data].
  pose proof (concat_sized _ _ Hs) as Hlen.
  destruct (Z.leb_spec cap (Z.of_nat (length es))) as [Hfull|Hfree].
  2: { right; right. exists s, cap. split; [done|]. split; [by exists d, rest|lia]. }
  assert (cap = Z.of_nat (length es)) as Ec by nia. assert (rest = []) as -> by (destruct rest; simpl in *; [done|nia]).
  rewrite app_nil_r in Hbuf. unfold new_buf. rewrite ?bind_assoc.
  rewrite (wrap_small 64 (cap * 2)) by nia. rewrite (wrap_small 64 (size * (cap * 2))) by nia.
  destruct (s_malloc_cases (size * (cap * 2)) s) as [(msg & t & E)|(p & h & E & Hp)].
  { left. exists msg, t. by apply bind_Panic. }
  right. rewrite (bind_Ret _ _ _ _ _ E). destruct Hp as [[-> Hl]|(Hpz & Hfr & Hl)].
  { left. simpl. eexists. split; [done|]. exists d, []. rewrite app_nil_r. cbn [d_mem put_mem d_arrs d_bufs]. by rewrite Hl. }
  right. destruct (Z.eqb_spec p 0); [done|]. do 2 run_step. destruct (Z.eqb_spec p 0); [done|].
  assert (d <> p) as Hdp by congruence.
  unfold buf_at. run_step. cbn [d_bufs put_bufs put_mem]. rewrite lookup_insert_ne, Hbuf by done. run_step.
  run_step. cbn [d_bufs put_bufs put_mem]. rewrite lookup_insert_eq. run_step. rewrite wrap_small by nia.
  rewrite (slice_all (concat es)) by done. run_step.
  set (sz := size * (cap * 2)). pose proof (junk_length sz ltac:(nia)) as Hj.
  rewrite store_front by nia. unfold buf_put. run_step. run_step. unfold buf_free. rewrite ?bind_assoc. run_step.
  match goal with |- context [bind (s_free d) _ ?u] => destruct (s_free_run d u) as (h' & E' & Hl') end.
  { cbn [d_mem put_mem put_bufs]. rewrite Hl. set_solver. }
  rewrite (bind_Ret _ _ _ _ _ E'). unfold arr_put. run_step.
  eexists _, (cap * 2). split; [reflexivity|]. split; [|lia]. exists p, (drop (length (concat es)) (junk sz)).
  cbn [d_mem put_mem put_arrs put_bufs d_arrs d_bufs] in Hl' |- *. split; [done|]. split; [done|]. split; [rewrite Hl', Hl; set_solver|].
  split; [by rewrite lookup_insert_eq|]. split; [by rewrite lookup_delete_ne, lookup_insert_eq by done|].
  split; [done|]. split; [done|]. rewrite length_drop. repeat split; nia.
Qed.

Lemma array_store_run s a size cap es e :
  array_rep s a size cap es -> Z.of_nat (length es) < cap -> Z.of_nat (length e) = size -> cap < 2 ^ 64 - 1 ->
  exists s', (r <-- arr_at a ;; b <-- buf_at (a_data r) ;; e <-- of_option (buf_slice e 0 (a_elem r)) ;;
      b <-- of_option (buf_store b e (u64 (a_count r * a_elem r))) ;; buf_put (a_data r) b ;;;
      arr_put a (mkArr (a_data r) (a_elem r) (u64 (a_count r + 1)) (a_cap r))) s = Ret tt s' /\
    array_rep s' a size cap (es ++ [e]).
Proof.
  intros (d & rest & Ha & Hd & Hlive & Harr & Hbuf & Hs & Hsize & Hroom & Hcap & Hmax) Hlt He Hc.
  pose proof (concat_sized _ _ Hs) as Hlen. unfold arr_at, buf_at. run_step. rewrite Harr. do 2 run_step.
  cbn [a_data a_elem a_count a_cap]. rewrite Hbuf. run_step. rewrite (slice_all e) by done. run_step.
  rewrite !wrap_small by nia.
  assert (buf_store (concat es ++ rest) e (Z.of_nat (length es) * size) =
    Some (concat es ++ e ++ drop (length e) rest)) as ->.
  { rewrite <- (take_drop (length e) rest) at 1. apply store_app; [done|]. rewrite length_take. nia. }
  run_step. unfold buf_put, arr_put. run_step. eexists. split; [reflexivity|]. exists d, (drop (length e) rest).
  cbn [d_mem put_arrs put_bufs d_arrs d_bufs]. rewrite length_app. cbn [length].
  split; [done|]. split; [done|]. split; [done|].
  split; [rewrite lookup_insert_eq; do 3 f_equal; lia|].
  split; [rewrite lookup_insert_eq, concat_app; simpl; by rewrite app_nil_r, <- app_assoc|].
  split; [by apply Forall_app; split; [done|constructor]|]. rewrite length_drop. repeat split; nia.
Qed.

Lemma array_remove_run s a size cap es1 x es2 :
  array_rep s a size cap (es1 ++ x :: es2) -> cap < 2 ^ 64 - 1 ->
  exists s', ds_array_remove a (Z.of_nat (length es1)) s = Ret tt s' /\ array_rep s' a size cap (es1 ++ es2).
Proof.
  intros (d & rest & Ha & Hd & Hlive & Harr & Hbuf & Hs & Hsize & Hroom & Hcap & Hmax) Hc.
  rewrite length_app in Harr, Hroom. cbn [length] in Harr, Hroom.
  unfold ds_array_remove. destruct (Z.eqb_spec a 0); [done|]. unfold arr_at. run_step. rewrite Harr. run_step.
  cbn [a_data a_elem a_count a_cap]. destruct (Z.leb_spec (Z.of_nat (length es1 + S (length es2))) (Z.of_nat (length es1))); [lia|].
  unfold buf_at. run_step. rewrite Hbuf. run_step. rewrite wrap_small by nia.
  destruct (move_loop_run (length es2) size es1 x es2 rest Hs) as (y & Hy & E); [nia|lia|nia|done|].
  replace (Z.to_nat (Z.of_nat (length es1 + S (length es2)) - 1 - Z.of_nat (length es1))) with (length es2) by lia.
  rewrite E. run_step. unfold buf_put, arr_put. run_step. eexists. split; [reflexivity|].
  exists d, (y ++ rest). cbn [d_mem put_arrs put_bufs d_arrs d_bufs]. rewrite !length_app.
  split; [done|]. split; [done|]. split; [done|].
  split; [rewrite lookup_insert_eq; do 3 f_equal; lia|]. split; [by rewrite lookup_insert_eq|].
  split; [|repeat split; nia]. apply Forall_app in Hs as [? [? ?]%Forall_cons]. by apply Forall_app.
Qed.
End array.

(** ** Linked lists *)

Section lists.
Context {H : Type} `{!Allocator H}.
Implicit Types (s : store H) (l : list (Z * Z)) (t : gmap Z ds_list_node).

(** From [x] to [nxt] run the nodes [l], each with its data. *)
Fixpoint lseg t (x : Z) l (nxt : Z) : Prop :=
  match l with
  | [] => x = nxt
  | (n, d) :: r => x = n /\ n <> 0 /\ exists m, t !! n = Some (mkLnode d m) /\ lseg t m r nxt
  end.

Fixpoint last_node (d : Z) l : Z := match l with [] => d | (n, _) :: r => last_node n r end.

Lemma last_node_app d l n x : last_node d (l ++ [(n, x)]) = n.
Proof. revert d. induction l as [|[m y] l IH]; intros d; [done|]. apply IH. Qed.

Lemma lseg_app t x a b nxt : lseg t x (a ++ b) nxt <-> exists m, lseg t x a m /\ lseg t m b nxt.
Proof.
  revert x. induction a as [|[n d] a IH]; intros x; simpl; [naive_solver|].
  split.
  - intros (-> & ? & m & ? & (k & ? & ?)%IH). exists k. split; [|done]. eauto.
  - intros (k & (-> & ? & m & ? & ?) & ?). split; [done|]. split; [done|]. exists m. split; [done|]. apply IH. eauto.
Qed.

Lemma lseg_other t x l nxt z q : z ∉ l.*1 -> lseg t x l nxt -> lseg (<[z := q]> t) x l nxt.
Proof.
  revert x. induction l as [|[n d] l IH]; intros x; simpl; [done|].
  intros [? ?]%not_elem_of_cons (-> & ? & m & ? & ?). split; [done|]. split; [done|]. exists m.
  rewrite lookup_insert_ne by done. eauto.
Qed.

Lemma lseg_gone t x l nxt z : z ∉ l.*1 -> lseg t x l nxt -> lseg (delete z t) x l nxt.
Proof.
  revert x. induction l as [|[n d] l IH]; intros x; simpl; [done|].
  intros [? ?]%not_elem_of_cons (-> & ? & m & ? & ?). split; [done|]. split; [done|]. exists m.
  rewrite lookup_delete_ne by done. eauto.
Qed.

Lemma lseg_dom t x l nxt n : lseg t x l nxt -> n ∈ l.*1 -> n <> 0 /\ is_Some (t !! n).
Proof.
  revert x. induction l as [|[k d] l IH]; intros x; simpl; [by intros _ ?%not_elem_of_nil|].
  intros (-> & ? & m & Hm & ?) [->|?]%elem_of_cons; [by rewrite Hm|eauto].
Qed.

(** The last node of a segment that ends at [nxt] can point elsewhere. *)
Lemma lseg_retarget t x l n d nxt nxt' :
  NoDup (l ++ [(n, d)]).*1 -> lseg t x (l ++ [(n, d)]) nxt ->
  t !! n = Some (mkLnode d nxt) /\ lseg (<[n := mkLnode d nxt']> t) x (l ++ [(n, d)]) nxt'.
Proof.
  rewrite fmap_app. intros (_ & Hn & _)%NoDup_app (m & Hl & -> & Hz & k & Hk & ->)%lseg_app.
  split; [done|]. apply lseg_app. exists n. split.
  - apply lseg_other; [|done]. intros Hin. apply (Hn n Hin). by left.
  - split; [done|]. split; [done|]. exists nxt'. by rewrite lookup_insert_eq.
Qed.

Definition list_rep s (a : Z) l : Prop :=
  exists h, a <> 0 /\ d_lists s !! a = Some (mkList h (last_node 0 l) (Z.of_nat (length l))) /\
    lseg (d_nodes s) h l 0 /\ NoDup l.*1 /\ Z.of_nat (length l) < 2 ^ 64 /\
    forall n, is_Some (d_nodes s !! n) -> n ∈ live (d_mem s).

Lemma list_push_run s a l d :
  list_rep s a l -> d <> 0 -> Z.of_nat (length l) + 1 < 2 ^ 64 ->
  (exists msg u, ds_list_push a d s = Panic msg u) \/
  (exists s', ds_list_push a d s = Ret tt s' /\ list_rep s' a l) \/
  (exists s' n, ds_list_push a d s = Ret tt s' /\ list_rep s' a (l ++ [(n, d)])).
Proof.
  intros (h & Ha & Hl & Hs & Hn & Hc & Hd) Hdz Hlt. unfold ds_list_push.
  destruct (Z.eqb_spec a 0), (Z.eqb_spec d 0); try done. cbn [orb].
  destruct (s_malloc_cases 16 s) as [(msg & t & E)|(p & g & E & Hp)].
  { left. exists msg, t. by apply bind_Panic. }
  right. rewrite (bind_Ret _ _ _ _ _ E). destruct Hp as [[-> Hlv]|(Hpz & Hfr & Hlv)].
  { left. eexists. split; [done|]. exists h. cbn [d_lists d_nodes d_mem put_mem]. by rewrite Hlv. }
  right. destruct (Z.eqb_spec p 0); [done|]. unfold node_put, list_at, list_put, node_at. run_step. run_step.
  cbn [d_lists put_nodes put_mem]. rewrite Hl. run_step. cbn [l_tail l_head l_count].
  assert (forall n, n ∈ l.*1 -> n <> p) as Hpl.
  { intros k Hin ->. destruct (lseg_dom _ _ _ _ p Hs Hin) as [_ ?]. by apply Hfr, Hd. }
  assert (p ∉ l.*1) as Hpl' by (intros Hin; by apply (Hpl p)).
  destruct l as [|[m dm] l _] using rev_ind.
  - cbn [last_node Z.eqb]. run_step. run_step. cbn [d_lists put_lists put_nodes put_mem].
    rewrite lookup_insert_eq. run_step. cbn [l_tail l_head l_count]. eexists _, p. split; [reflexivity|].
    exists p. cbn [app d_lists d_nodes d_mem put_lists put_nodes put_mem]. rewrite insert_insert_eq, lookup_insert_eq.
    split; [done|]. split; [by rewrite wrap_small|]. split; [|split; [apply NoDup_singleton|split; [done|]]].
    + split; [done|]. split; [done|]. exists 0. by rewrite lookup_insert_eq.
    + intros nx [<-|[_ Hx]]%lookup_insert_is_Some; rewrite Hlv; [|specialize (Hd nx Hx)]; set_solver.
  - rewrite last_node_app. assert (m <> p) as Hmp by (apply Hpl; rewrite fmap_app; set_solver).
    destruct (lseg_retarget _ _ _ _ _ _ p Hn Hs) as [Hm Hs'].
    destruct (lseg_dom _ _ _ _ m Hs) as [Hmz _]; [rewrite fmap_app; set_solver|]. destruct (Z.eqb_spec m 0); [done|].
    run_step. cbn [d_nodes put_nodes put_mem]. rewrite lookup_insert_ne, Hm by done. run_step. cbn [ln_data]. do 3 run_step.
    cbn [d_lists put_lists put_nodes put_mem]. rewrite lookup_insert_eq. run_step. cbn [l_tail l_head l_count].
    eexists _, p. split; [reflexivity|].
    exists h. cbn [app d_lists d_nodes d_mem put_lists put_nodes put_mem]. rewrite insert_insert_eq, lookup_insert_eq, last_node_app.
    split; [done|]. rewrite length_app in Hlt. rewrite !length_app. cbn [length] in Hlt |- *.
    split; [rewrite wrap_small by lia; do 2 f_equal; lia|]. split; [|split; [|split; [lia|]]].
    + apply lseg_app. exists p. split.
      * rewrite insert_insert_ne by done. by apply lseg_other.
      * split; [done|]. split; [done|]. exists 0. by rewrite lookup_insert_ne, lookup_insert_eq by done.
    + rewrite fmap_app. apply NoDup_app. split; [done|]. split; [|apply NoDup_singleton]. intros k Hk ->%list_elem_of_singleton. done.
    + intros nx. rewrite !lookup_insert_is_Some, Hlv. intros [<-|[_ [<-|[_ ?]]]]; [|set_solver|specialize (Hd nx); set_solver].
      apply elem_of_union_r, Hd. by eexists.
Qed.

Lemma list_pop_run s a n d l :
  list_rep s a ((n, d) :: l) ->
  exists s', ds_list_pop a s = Ret d s' /\ list_rep s' a l.
Proof.
  intros (h & Ha & Hl & (-> & Hz & m & Hm & Hs) & [Hnl Hn]%NoDup_cons & Hc & Hd). unfold ds_list_pop.
  destruct (Z.eqb_spec a 0); [done|]. unfold list_at, node_at, list_put. run_step. rewrite Hl. run_step. cbn [l_head l_tail l_count].
  destruct (Z.eqb_spec n 0); [done|]. run_step. rewrite Hm. run_step. cbn [ln_next ln_data]. run_step.
  unfold node_free. rewrite ?bind_assoc. run_step.
  match goal with |- context [bind (s_free n) _ ?u] => destruct (s_free_run n u) as (g & E & Hlv) end.
  { cbn [d_mem put_lists put_nodes]. apply Hd. by eexists. }
  rewrite (bind_Ret _ _ _ _ _ E). run_step. eexists. split; [reflexivity|]. exists m.
  cbn [d_lists d_nodes d_mem put_lists put_nodes put_mem] in Hlv |- *. rewrite insert_insert_eq, lookup_insert_eq.
  cbn [length] in Hc |- *. split; [done|]. split; [|split; [|split; [done|split; [lia|]]]].
  - rewrite wrap_small by lia. do 2 f_equal; [|lia]. cbn [last_node]. destruct l as [|[k x] l].
    + simpl in Hs. subst m. done.
    + destruct Hs as (-> & Hk & _). destruct (Z.eqb_spec k 0); [done|]. done.
  - by apply lseg_gone.
  - intros nx [q [Hne Hq]%lookup_delete_Some]. rewrite Hlv. specialize (Hd nx ltac:(by eexists)). set_solver.
Qed.

Lemma nth_node_run s x l nxt i n d :
  lseg (d_nodes s) x l nxt -> l !! i = Some (n, d) -> nth_node i x s = Ret n s.
Proof.
  revert x i. induction l as [|[k e] l IH]; intros x i Hs Hi; [done|]. destruct Hs as (-> & _ & m & Hm & Hs).
  destruct i as [|i]; simpl in Hi; [by injection Hi as <- <-|]. cbn [nth_node]. unfold node_at. run_step.
  rewrite Hm. run_step. by eapply IH.
Qed.

Lemma list_get_run s a l i n d :
  list_rep s a l -> l !! i = Some (n, d) -> ds_list_get a (Z.of_nat i) s = Ret d s.
Proof.
  intros (h & Ha & Hl & Hs & _) Hi. unfold ds_list_get. destruct (Z.eqb_spec a 0); [done|].
  unfold list_at. run_step. rewrite Hl. run_step. cbn [l_count l_head]. pose proof (lookup_lt_Some _ _ _ Hi).
  destruct (Z.leb_spec (Z.of_nat (length l)) (Z.of_nat i)); [lia|]. rewrite Nat2Z.id.
  rewrite (bind_Ret _ _ _ _ _ (nth_node_run _ _ _ _ _ _ _ Hs Hi)). unfold node_at. run_step.
  assert (d_nodes s !! n = Some (mkLnode d (ln_next (default (mkLnode 0 0) (d_nodes s !! n))))) as ->.
  { clear -Hs Hi. revert h i Hs Hi. induction l as [|[k e] l IH]; intros h i Hs Hi; [done|].
    destruct Hs as (-> & _ & m & Hm & Hs). destruct i; [injection Hi as <- <-; by rewrite Hm|by eapply IH]. }
  by run_step.
Qed.
End lists.

(** ** Maps are association lists *)

Section maps.
Context {H : Type} `{!Allocator H}.
Implicit Types (s : store H) (ks vs : list (list Z)).

(** The map at [a] holds the keys [ks] with the values [vs], oldest first. *)
Definition map_rep s (a ksz vsz cap : Z) ks vs : Prop :=
  exists pk pv rk rv, a <> 0 /\ pk <> pv /\ length vs = length ks /\
    d_maps s !! a = Some (mkMap pk pv ksz vsz cap (Z.of_nat (length ks))) /\
    d_bufs s !! pk = Some (concat ks ++ rk) /\ d_bufs s !! pv = Some (concat vs ++ rv) /\
    sized ksz ks /\ sized vsz vs /\ 0 < ksz /\ 0 < vsz /\
    Z.of_nat (length ks) * ksz + Z.of_nat (length rk) = cap * ksz /\
    Z.of_nat (length vs) * vsz + Z.of_nat (length rv) = cap * vsz /\
    cap * ksz < 2 ^ 64 /\ cap * vsz < 2 ^ 64 /\ cap < 2 ^ 64 - 1.

(** The index of the first key that is [key]. *)
Fixpoint first_key ks (key : list Z) (i : Z) : option Z :=
  match ks with
  | [] => None
  | k :: r => if bool_decide (k = key) then Some i else first_key r key (i + 1)
  end.

Lemma key_loop_run ks1 ks2 rest size key :
  sized size (ks1 ++ ks2) -> Z.of_nat (length key) = size -> 0 < size ->
  Z.of_nat (length (ks1 ++ ks2)) * size < 2 ^ 64 ->
  key_loop (length ks2) (Z.of_nat (length ks1)) size (concat (ks1 ++ ks2) ++ rest) key =
    Some (first_key ks2 key (Z.of_nat (length ks1))).
Proof.
  revert ks1. induction ks2 as [|k ks2 IH]; intros ks1 Hs Hk Hsz Hmax; [done|].
  pose proof Hs as [Hs1 [Hkk Hs2]%Forall_cons]%Forall_app. cbv beta in Hkk.
  pose proof (concat_sized size ks1 Hs1) as Hlen. rewrite length_app in Hmax. cbn [length] in Hmax.
  cbn [length key_loop first_key]. rewrite wrap_small by nia.
  rewrite concat_app. cbn [concat]. rewrite <- !app_assoc. rewrite (slice_app (concat ks1) k) by done.
  cbn [mbind option_bind]. rewrite (slice_all key) by done. cbn [mbind option_bind].
  destruct (bool_decide_reflect (k = key)); [done|].
  specialize (IH (ks1 ++ [k])). rewrite <- !app_assoc in IH. cbn [app] in IH.
  replace (Z.of_nat (length (ks1 ++ [k]))) with (Z.of_nat (length ks1) + 1) in IH by (rewrite length_app; simpl; lia).
  rewrite concat_app in IH. cbn [concat] in IH. rewrite <- !app_assoc in IH. apply IH; try done.
  rewrite length_app. cbn [length]. lia.
Qed.

Lemma find_key_run s a ksz vsz cap ks vs key m :
  map_rep s a ksz vsz cap ks vs -> d_maps s !! a = Some m -> Z.of_nat (length key) = ksz ->
  find_key m key s = Ret (first_key ks key 0) s.
Proof.
  intros (pk & pv & rk & rv & _ & _ & _ & Hm & Hbk & _ & Hsk & _ & Hk0 & _ & Hrk & _ & Hmk & _) Hm' Hkey.
  rewrite Hm in Hm'. injection Hm' as <-. unfold find_key, buf_at. cbn [m_keys m_count m_ksize].
  run_step. rewrite Hbk. run_step. rewrite Nat2Z.id. pose proof (key_loop_run [] ks rk ksz key Hsk Hkey Hk0) as E.
  cbn [length app] in E. change (Z.of_nat 0) with 0 in E. rewrite E by nia. done.
Qed.

Lemma first_key_some ks key i :
  key ∈ ks -> exists k1 k2, ks = k1 ++ key :: k2 /\ key ∉ k1 /\ first_key ks key i = Some (i + Z.of_nat (length k1)).
Proof.
  revert i. induction ks as [|k ks IH]; intros i; [by intros ?%not_elem_of_nil|]. cbn [first_key].
  destruct (bool_decide_reflect (k = key)) as [->|Hne].
  - intros _. exists [], ks. split; [done|]. split; [by intros ?%not_elem_of_nil|]. f_equal. simpl. lia.
  - intros [?|Hin]%elem_of_cons; [congruence|]. destruct (IH (i + 1) Hin) as (k1 & k2 & -> & Hk & E).
    exists (k :: k1), k2. split; [done|]. split; [by apply not_elem_of_cons|]. rewrite E. f_equal. cbn [length]. lia.
Qed.

Lemma first_key_none ks key i : key ∉ ks -> first_key ks key i = None.
Proof.
  revert i. induction ks as [|k ks IH]; intros i; [done|]. intros [? ?]%not_elem_of_cons. cbn [first_key].
  rewrite bool_decide_false by congruence. by apply IH.
Qed.

Lemma first_key_app ks key : first_key (ks ++ [key]) key 0 =
  Some match first_key ks key 0 with Some i => i | None => 0 + Z.of_nat (length ks) end.
Proof.
  generalize 0. induction ks as [|k ks IH]; intros i; cbn [app first_key].
  - rewrite bool_decide_true by done. f_equal. simpl. lia.
  - destruct (bool_decide (k = key)); [done|]. rewrite IH. destruct (first_key ks key (i + 1)); [done|]. f_equal. cbn [length]. lia.
Qed.

Lemma first_key_bound ks key i : first_key ks key 0 = Some i -> 0 <= i < Z.of_nat (length ks).
Proof.
  destruct (decide (key ∈ ks)) as [Hin|Hout].
  - destruct (first_key_some ks key 0 Hin) as (k1 & k2 & -> & _ & ->). intros [= <-]. rewrite length_app. cbn [length]. lia.
  - by rewrite first_key_none.
Qed.

Lemma map_set_run s a ksz vsz cap ks vs key v :
  map_rep s a ksz vsz cap ks vs -> Z.of_nat (length ks) < cap ->
  Z.of_nat (length key) = ksz -> Z.of_nat (length v) = vsz ->
  exists s', ds_hashmap_set a key v s = Ret true s' /\ map_rep s' a ksz vsz cap (ks ++ [key]) (vs ++ [v]) /\
    d_maps s' !! a = (λ m, mkMap (m_keys m) (m_values m) ksz vsz cap (Z.of_nat (length ks) + 1)) <$> (d_maps s !! a).
Proof.
  intros (pk & pv & rk & rv & Ha & Hpp & Hl & Hm & Hbk & Hbv & Hsk & Hsv & Hk0 & Hv0 & Hrk & Hrv & Hmk & Hmv & Hc) Hlt Hkey Hv.
  pose proof (concat_sized _ _ Hsk) as Hck. pose proof (concat_sized _ _ Hsv) as Hcv. rewrite Hl in Hrv, Hcv.
  unfold ds_hashmap_set. destruct (Z.eqb_spec a 0); [done|]. unfold map_at, buf_at, buf_put, map_put. run_step. rewrite Hm. run_step.
  cbn [m_cap m_count m_keys m_values m_ksize m_vsize]. destruct (Z.leb_spec cap (Z.of_nat (length ks))); [lia|].
  rewrite (slice_all key) by done. run_step. run_step. rewrite Hbk. run_step. rewrite !wrap_small by nia.
  assert (buf_store (concat ks ++ rk) key (Z.of_nat (length ks) * ksz) = Some (concat ks ++ key ++ drop (length key) rk)) as ->.
  { rewrite <- (take_drop (length key) rk) at 1. apply store_app; [done|]. rewrite length_take. nia. }
  run_step. run_step. rewrite (slice_all v) by done. run_step. run_step. cbn [d_bufs put_bufs].
  rewrite lookup_insert_ne, Hbv by done. run_step.
  assert (buf_store (concat vs ++ rv) v (Z.of_nat (length ks) * vsz) = Some (concat vs ++ v ++ drop (length v) rv)) as ->.
  { rewrite <- (take_drop (length v) rv) at 1. apply store_app; [done|]. rewrite length_take. nia. }
  do 3 run_step. eexists. split; [reflexivity|]. split.
  2: { cbn [d_maps put_maps]. by rewrite lookup_insert_eq. }
  exists pk, pv, (drop (length key) rk), (drop (length v) rv). cbn [d_maps d_bufs put_maps put_bufs].
  rewrite !length_app, Hl. cbn [length]. split; [done|]. split; [done|]. split; [done|].
  split; [rewrite lookup_insert_eq; do 2 f_equal; lia|].
  split; [by rewrite lookup_insert_ne, lookup_insert_eq, concat_app, <- app_assoc; simpl; rewrite ?app_nil_r by done|].
  split; [by rewrite lookup_insert_eq, concat_app, <- app_assoc; simpl; rewrite app_nil_r|].
  split; [by apply Forall_app; split; [|constructor]|]. split; [by apply Forall_app; split; [|constructor]|].
  rewrite !length_drop. repeat split; nia.
Qed.
End maps.

(** ** Properties *)

Section ds_properties.
Context {H : Type} `{!Allocator H} (junk : Z -> list Z) (junk_length : forall n, 0 <= n -> Z.of_nat (length (junk n)) = n).
Implicit Types (s : store H).

(** C12. The dynamic array is a list of elements: [ds_array_push] appends (growing the
    buffer when it is full; without memory it leaves the array), [ds_array_get] gives the
    address of the bytes of an element, and 0 past the end, and [ds_array_remove] takes
    out one element and keeps the order of the others. *)
Theorem ds_array_refines s a size cap es :
  array_rep s a size cap es -> 2 * cap * size < 2 ^ 64 ->
  (forall e, Z.of_nat (length e) = size ->
     (exists msg t, ds_array_push junk a e s = Panic msg t) \/
     (exists s', ds_array_push junk a e s = Ret tt s' /\ array_rep s' a size cap es) \/
     (exists s' cap', ds_array_push junk a e s = Ret tt s' /\ array_rep s' a size cap' (es ++ [e]))) /\
  (forall i, match es !! i with
     | Some e => exists r b, d_arrs s !! a = Some r /\ d_bufs s !! a_data r = Some b /\
         ds_array_get a (Z.of_nat i) s = Ret (u64 (a_data r + Z.of_nat i * size)) s /\
         buf_slice b (Z.of_nat i * size) size = Some e
     | None => ds_array_get a (Z.of_nat i) s = Ret 0 s
     end) /\
  (forall e1 x e2, es = e1 ++ x :: e2 ->
     exists s', ds_array_remove a (Z.of_nat (length e1)) s = Ret tt s' /\ array_rep s' a size cap (e1 ++ e2)).
Proof.
  intros Hrep H2. pose proof Hrep as (d & rest & Ha & Hd & Hlive & Harr & Hbuf & Hs & Hsize & Hroom & Hcap & Hmax).
  split; [|split].
  - intros e He. unfold ds_array_push. destruct (Z.eqb_spec a 0); [done|].
    destruct (array_grow_run junk junk_length s a size cap es Hrep H2)
      as [(msg & t & E)|[(s' & E & Hr)|(s' & cap' & E & Hr & Hlt & Hle)]].
    + left. exists msg, t. by apply bind_Panic.
    + right; left. exists s'. by rewrite (bind_Ret _ _ _ _ _ E).
    + right; right. rewrite (bind_Ret _ _ _ _ _ E). cbn [negb].
      destruct (array_store_run s' a size cap' es e Hr Hlt He) as (s2 & E2 & Hr2); [nia|by exists s2, cap'].
  - intros i. unfold ds_array_get. destruct (Z.eqb_spec a 0); [done|]. unfold arr_at. run_step. rewrite Harr. run_step.
    cbn [a_count a_data a_elem]. destruct (es !! i) as [e|] eqn:Ei.
    + pose proof (lookup_lt_Some _ _ _ Ei). destruct (Z.leb_spec (Z.of_nat (length es)) (Z.of_nat i)); [lia|].
      eexists _, _. split; [done|]. split; [exact Hbuf|]. cbn [a_data].
      rewrite (wrap_small 64 (Z.of_nat i * size)) by nia. split; [done|].
      apply list_elem_of_split_length in Ei as (e1 & e2 & -> & Hlen). subst i.
      apply Forall_app in Hs as [Hs1 [He _]%Forall_cons]. rewrite concat_app. cbn [concat]. rewrite <- !app_assoc.
      apply slice_app; [|done]. by apply concat_sized.
    + apply lookup_ge_None in Ei. destruct (Z.leb_spec (Z.of_nat (length es)) (Z.of_nat i)); [done|lia].
  - intros e1 x e2 ->. apply (array_remove_run s a size cap e1 x e2 Hrep). nia.
Qed.

(** C13. The linked list is a queue: [ds_list_push] appends (or leaves it, without memory),
    [ds_list_pop] takes the oldest element out and gives 0 on the empty list, and
    [ds_list_get] gives any element by its index, and 0 past the end. *)
Theorem ds_list_refines s a l :
  list_rep s a l -> Z.of_nat (length l) + 1 < 2 ^ 64 ->
  (forall d, d <> 0 ->
     (exists msg u, ds_list_push a d s = Panic msg u) \/
     (exists s', ds_list_push a d s = Ret tt s' /\ list_rep s' a l) \/
     (exists s' n, ds_list_push a d s = Ret tt s' /\ list_rep s' a (l ++ [(n, d)]))) /\
  match l with
  | [] => ds_list_pop a s = Ret 0 s
  | (n, d) :: r => exists s', ds_list_pop a s = Ret d s' /\ list_rep s' a r
  end /\
  forall i, ds_list_get a (Z.of_nat i) s = Ret (default 0 (snd <$> (l !! i))) s.
Proof.
  intros Hrep Hlt. split; [|split].
  - intros d Hd. by apply list_push_run.
  - destruct l as [|[n d] r]; [|by eapply list_pop_run].
    destruct Hrep as (h & Ha & Hl & Hs & _). simpl in Hs. subst h. unfold ds_list_pop.
    destruct (Z.eqb_spec a 0); [done|]. unfold list_at. run_step. rewrite Hl. by run_step.
  - intros i. destruct (l !! i) as [[n d]|] eqn:Ei; [by eapply list_get_run|].
    destruct Hrep as (h & Ha & Hl & _). unfold ds_list_get. destruct (Z.eqb_spec a 0); [done|].
    unfold list_at. run_step. rewrite Hl. run_step. cbn [l_count]. apply lookup_ge_None in Ei.
    destruct (Z.leb_spec (Z.of_nat (length l)) (Z.of_nat i)); [done|lia].
Qed.

(** [ds_hashmap_set] always adds a pair and [ds_hashmap_get] gives the oldest pair of a
    key: after a [set] with room, [get] of that key is the place of the new value only when the
    key was not there; for a key that was there it is still the place of the old value. *)
Theorem ds_hashmap_set_get s a ksz vsz cap ks vs key v m :
  map_rep s a ksz vsz cap ks vs -> Z.of_nat (length ks) < cap -> d_maps s !! a = Some m ->
  Z.of_nat (length key) = ksz -> Z.of_nat (length v) = vsz ->
  exists s', ds_hashmap_set a key v s = Ret true s' /\ map_rep s' a ksz vsz cap (ks ++ [key]) (vs ++ [v]) /\
    ds_hashmap_get a key s' = Ret (u64 (m_values m + vsz *
      match first_key ks key 0 with Some i => i | None => Z.of_nat (length ks) end)) s'.
Proof.
  intros Hrep Hlt Hm Hkey Hv. destruct (map_set_run s a ksz vsz cap ks vs key v Hrep Hlt Hkey Hv) as (s' & E & Hrep' & Hm').
  exists s'. split; [done|]. split; [done|]. rewrite Hm in Hm'. simpl in Hm'.
  unfold ds_hashmap_get. pose proof Hrep' as (pk & pv & rk & rv & Ha & _ & Hl & Hm2 & _ & _ & _ & _ & _ & Hv0 & _ & Hrv & _ & Hmv & _).
  rewrite length_app in Hl. rewrite length_app in Hrv. cbn [length] in Hl, Hrv. rewrite length_app in Hl.
  destruct (Z.eqb_spec a 0); [done|]. unfold map_at. run_step. rewrite Hm'. run_step.
  rewrite (bind_Ret _ _ _ _ _ (find_key_run _ _ _ _ _ _ _ _ _ Hrep' Hm' Hkey)).
  rewrite first_key_app. cbn [m_values m_vsize]. destruct (first_key ks key 0) as [i|] eqn:Ei.
  - apply first_key_bound in Ei. rewrite (wrap_small 64 (i * vsz)) by (simpl in Hl; nia). by rewrite Z.mul_comm.
  - rewrite Z.add_0_l, (wrap_small 64 (Z.of_nat (length ks) * vsz)) by (simpl in Hl; nia). by rewrite Z.mul_comm.
Qed.
End ds_properties.

(** ** Concrete containers *)

Section ds_witnesses.
#[local] Existing Instance bump_allocator.

Definition zeros (n : Z) : list Z := replicate (Z.to_nat n) 0.
Lemma zeros_length n : 0 <= n -> Z.of_nat (length (zeros n)) = n.
Proof. intros. unfold zeros. rewrite length_replicate. lia. Qed.

(** An array at 10 of two 2-byte elements with no room left, a list at 20 of two nodes and a
    map at 30 with one pair and room for another. *)
Definition boxes : store (gset Z) := mkStore {[11; 21; 22]}
  (<[11 := [1; 2; 3; 4]]> (<[31 := [7; 0]]> (<[32 := [8; 9; 0; 0]]> ∅)))
  (<[10 := mkArr 11 2 2 2]> ∅)
  (<[21 := mkLnode 51 22]> (<[22 := mkLnode 52 0]> ∅))
  (<[20 := mkList 21 22 2]> ∅)
  (<[30 := mkMap 31 32 1 2 2 1]> ∅).

Lemma boxes_array : array_rep boxes 10 2 2 [[1; 2]; [3; 4]].
Proof.
  exists 11, []. split; [done|]. split; [done|]. split; [apply (bool_decide_unpack _); vm_compute; exact I|].
  split; [done|]. split; [done|]. split; [by repeat constructor|]. repeat split; simpl; lia.
Qed.

Lemma boxes_list : list_rep boxes 20 [(21, 51); (22, 52)].
Proof.
  exists 21. split; [done|]. split; [done|]. split; [|split; [|split; [simpl; lia|]]].
  - split; [done|]. split; [done|]. exists 22. split; [done|]. split; [done|]. split; [done|]. by exists 0.
  - apply (bool_decide_unpack _). vm_compute. exact I.
  - intros n [x Hx]. unfold boxes in Hx. cbn [d_nodes] in Hx. revert Hx.
    intros [[<- _]|[_ [[<- _]|[_ []%lookup_empty_Some]]%lookup_insert_Some]]%lookup_insert_Some;
      apply (bool_decide_unpack _); vm_compute; exact I.
Qed.

Lemma boxes_map : map_rep boxes 30 1 2 2 [[7]] [[8; 9]].
Proof.
  exists 31, 32, [0], [0; 0]. split; [done|]. split; [done|]. split; [done|]. split; [done|]. split; [done|].
  split; [done|]. split; [by repeat constructor|]. split; [by repeat constructor|]. repeat split; simpl; lia.
Qed.

Lemma ds_array_refines_witness :
  exists s', ds_array_remove 10 0 boxes = Ret tt s' /\ array_rep s' 10 2 2 [[3; 4]].
Proof.
  destruct (ds_array_refines zeros zeros_length boxes 10 2 2 [[1; 2]; [3; 4]] boxes_array) as (_ & _ & Hr); [lia|].
  exact (Hr [] [1; 2] [[3; 4]] eq_refl).
Defined.

Lemma ds_list_refines_witness :
  exists s', ds_list_pop 20 boxes = Ret 51 s' /\ list_rep s' 20 [(22, 52)].
Proof. exact (proj1 (proj2 (ds_list_refines boxes 20 _ boxes_list ltac:(simpl; lia)))). Defined.

Lemma ds_hashmap_set_get_witness :
  exists s', ds_hashmap_set 30 [7] [5; 5] boxes = Ret true s' /\ ds_hashmap_get 30 [7] s' = Ret 32 s'.
Proof.
  destruct (ds_hashmap_set_get boxes 30 1 2 2 [[7]] [[8; 9]] [7] [5; 5] (mkMap 31 32 1 2 2 1) boxes_map)
    as (s' & E & _ & Hg); [simpl; lia|reflexivity|reflexivity|reflexivity|].
  exists s'. split; [exact E|exact Hg].
Defined.
End ds_witnesses.
