(* ===== verification/BinLoader.v ===== *)
(** * Program images: kernel/bin/*.c and kernel/elf.c

    An image is the list of its bytes; a read outside it is undefined behaviour, and
    [None] is the NULL pointer.  The physical pages that the loaders fill are byte lists
    by address.  A loader writes a page at the address the allocator gave, which is a
    virtual one then: the write goes where the page tables lead, and is a page fault,
    undefined here, where they lead nowhere.  The page allocator and [paging_map_page] are
    the interface [PageMapper].
    The static [mira_validate_header] and [mira_flags_to_paging] of mira_exec.c
    are [exec_validate_header] and [exec_flags_to_paging]. *)

From S2P Require Import Prelude Pmm Paging PageSource Vfs.

(** ** The image format *)

Definition MIRA_BIN_MAGIC : Z := 0x4D495845582.
Definition MIRA_BIN_ABI_VERSION : Z := 1.
Definition MIRA_BIN_TYPE_MEX : Z := 1.
Definition MIRA_BIN_TYPE_MDL : Z := 2.
Definition MIRA_SECT_TEXT : Z := 1.
Definition MIRA_SECT_RODATA : Z := 2.
Definition MIRA_SECT_DATA : Z := 3.
Definition MIRA_SECT_BSS : Z := 4.

Record mira_bin_header := mkHdr {
  magic : Z;
  abi_version : Z;
  h_type : Z;
  header_size : Z;
  image_flags : Z;
  entry_point : Z;
  load_base : Z;
  sect_count : Z;
  sect_table_off : Z;
  name_table_off : Z;
  checksum : Z
}.

Record mira_sect_desc := mkSect {
  sect_type : Z;
  sect_flags : Z;
  vaddr : Z;
  memsz : Z;
  filesz : Z;
  file_off : Z
}.

Record mira_loaded_image := mkImage { i_entry_point : Z; i_cr3 : Z; i_user_stack_top : Z }.

(** Little endian. *)
Fixpoint le (l : list Z) : Z := match l with [] => 0 | b :: r => b + 256 * le r end.

(** The [n]-byte field at [off]. *)
Definition field (data : list Z) (off n : Z) : option Z := le <$> buf_slice data off n.

(** The packed structure, 64 bytes. *)
Definition read_header (data : list Z) : option mira_bin_header :=
  a ← field data 0 8; b ← field data 8 2; c ← field data 10 2; d ← field data 12 4;
  e ← field data 16 4; f ← field data 20 8; g ← field data 28 8; h ← field data 36 4;
  i ← field data 40 8; j ← field data 48 8; k ← field data 56 8;
  Some (mkHdr a b c d e f g h i j k).

(** 40 bytes at [off]. *)
Definition read_sect (data : list Z) (off : Z) : option mira_sect_desc :=
  a ← field data off 4; b ← field data (off + 4) 4; c ← field data (off + 8) 8;
  d ← field data (off + 16) 8; e ← field data (off + 24) 8; f ← field data (off + 32) 8;
  Some (mkSect a b c d e f).

(** ** Checksum *)

Definition fnv_basis : Z := 1469598103934665603.
Definition fnv_prime : Z := 1099511628211.

(** One round of the loop. *)
Definition fnv_step (h b : Z) : Z := u64 (Z.lxor h b * fnv_prime).

Definition mira_checksum64 (data : list Z) : Z := foldl fnv_step fnv_basis data.

(** The header with its checksum field zeroed, then the rest of the file. *)
Definition image_hash (data : list Z) : Z :=
  let h := foldl fnv_step fnv_basis (take 56 data ++ replicate 8 0) in
  foldl fnv_step h (drop 64 data).

(** ** Validation *)

Definition size_of (data : list Z) : Z := Z.of_nat (length data).

Definition mira_validate_header (data : option (list Z)) (expected_type : Z) : option bool :=
  match data with
  | None => Some false
  | Some data =>
      if size_of data <? 64 then Some false
      else
        hdr ← read_header data;
        if negb (magic hdr =? MIRA_BIN_MAGIC) then Some false
        else if negb (abi_version hdr =? MIRA_BIN_ABI_VERSION) then Some false
        else if negb (h_type hdr =? expected_type) then Some false
        else if header_size hdr <? 64 then Some false
        else if 65535 <? sect_count hdr then Some false
        else if sect_table_off hdr <? 64 then Some false
        else if size_of data <=? sect_table_off hdr then Some false
        else
          let sect_desc_bytes := u64 (sect_count hdr * 40) in
          if size_of data <? u64 (sect_table_off hdr + sect_desc_bytes) then Some false
          else Some (image_hash data =? checksum hdr)
  end.

(** The loader's own validation; it reads the header before it looks at the size. *)
Definition exec_validate_header (data : option (list Z)) (expected_type : Z) : option bool :=
  match data with
  | None => Some false
  | Some data =>
      hdr ← read_header data;
      if negb (magic hdr =? MIRA_BIN_MAGIC) then Some false
      else if negb (abi_version hdr =? MIRA_BIN_ABI_VERSION) then Some false
      else if negb (h_type hdr =? expected_type) then Some false
      else if header_size hdr <? 64 then Some false
      else if 65535 <? sect_count hdr then Some false
      else if sect_table_off hdr <? 64 then Some false
      else if size_of data <=? sect_table_off hdr then Some false
      else
        let sect_desc_bytes := u64 (sect_count hdr * 40) in
        if size_of data <? u64 (sect_table_off hdr + sect_desc_bytes) then Some false
        else if 64 <? header_size hdr then Some false
        else if size_of data <? 64 then Some false
        else Some (image_hash data =? checksum hdr)
  end.

Definition mira_bin_is_valid (data : option (list Z)) (expected_type : Z) : option bool :=
  match data with
  | None => Some false
  | Some d => if size_of d <? 64 then Some false else exec_validate_header data expected_type
  end.

(** ** Loading *)

Definition mira_flags_to_paging (sect_type : Z) : Z :=
  if sect_type =? MIRA_SECT_RODATA then PAGE_PRESENT else Z.lor PAGE_PRESENT PAGE_WRITE.

Definition exec_flags_to_paging (sect_type sect_flags : Z) : Z :=
  if (sect_type =? MIRA_SECT_DATA) || (sect_type =? MIRA_SECT_BSS) || (sect_type =? MIRA_SECT_TEXT) then
    if sect_type =? MIRA_SECT_TEXT then PAGE_PRESENT else Z.lor PAGE_PRESENT PAGE_WRITE
  else PAGE_PRESENT.

(** The page of an address in a 48-bit address space. *)
Definition vpage_of (v : Z) : Z := (v / 4096) mod 2 ^ 36.

(** What the loaders need of kernel/mem.c and arch/x86_64/paging.c.  [pm_tr s n] is the
    physical page that virtual page [n] has; [pm_free s a] says that the allocator may
    still give page [a]. *)
Class PageMapper (S : Type) := {
  pm_alloc : M S Z;
  pm_map : Z -> Z -> Z -> M S Z;
  pm_ok : S -> Prop;
  pm_used : S -> Z -> Prop;
  pm_tr : S -> Z -> option Z;
  pm_user : Z -> Prop;
  pm_free : S -> Z -> Prop;
  pm_alloc_law : forall s, pm_ok s -> exists p s', pm_alloc s = Ret p s' /\ pm_ok s' /\
    (forall n, pm_tr s' n = pm_tr s n) /\ (forall a, pm_used s a -> pm_used s' a) /\ (forall a, pm_free s' a -> pm_free s a) /\
    (p <> 0 -> ~ pm_used s p /\ pm_used s' p /\ 0 <= p < 2 ^ 64 /\ pm_free s p);
  pm_map_law : forall v p fl s, pm_ok s -> 0 <= p < 2 ^ 64 -> 0 <= fl < 4096 -> pm_used s p ->
    (exists s', pm_map v p fl s = Panic "paging oom" s') \/
    exists s', pm_map v p fl s = Ret v s' /\ pm_ok s' /\ pm_tr s' (vpage_of v) = Some p /\
      (forall n, pm_user n -> n <> vpage_of v -> forall a, pm_tr s n = Some a -> pm_tr s' n = Some a) /\
      (forall a, pm_used s a -> pm_used s' a) /\ (forall a, pm_free s' a -> pm_free s a) /\
      (pm_user (vpage_of v) -> forall a b, pm_free s' a -> pm_tr s (vpage_of a) = Some b -> pm_tr s' (vpage_of a) = Some b)
}.

Record loader (S : Type) := mkLoader { ld_src : S; ld_pages : gmap Z (list Z) }.
Arguments mkLoader {S}.
Arguments ld_src {S}.
Arguments ld_pages {S}.

Section loader_code.
Context {S : Type} `{!PageMapper S} (dirty : Z -> list Z).
Local Abbreviation loader := (loader S).
Implicit Types s : loader.

Definition set_src (t : S) s : loader := mkLoader t (ld_pages s).
Definition ld_alloc : M loader Z := zoom ld_src set_src pm_alloc.
Definition ld_map (v p fl : Z) : M loader Z := zoom ld_src set_src (pm_map v p fl).
(** A write of the page at the virtual address [p], and a read. *)
Definition page_put (p : Z) (b : list Z) : M loader unit :=
  s <-- get ;;
  q <-- of_option (pm_tr (ld_src s) (vpage_of p)) ;;
  put (mkLoader (ld_src s) (<[q := b]> (ld_pages s))).
(** The bytes of a physical page; [dirty] gives those nobody has written. *)
Definition page_bytes s (p : Z) : list Z := default (dirty p) (ld_pages s !! p).
Definition page_get (p : Z) : M loader (list Z) :=
  s <-- get ;; q <-- of_option (pm_tr (ld_src s) (vpage_of p)) ;; ret (page_bytes s q).

(** The body of [if (src_off < filesz)]: the part of the file that page [j] of a section holds. *)
Definition page_fill (data : list Z) (file_off filesz j : Z) (page : list Z) : option (list Z) :=
  if j <? filesz then
    let copy_left := filesz - j in
    let copy := if copy_left <? 4096 then copy_left else 4096 in
    src ← buf_slice data (file_off + j) copy;
    buf_store page src 0
  else Some page.

(** The page loop; [n] bounds its rounds. *)
Fixpoint section_loop (n : nat) (data : list Z) (sd : mira_sect_desc) (flags j : Z) : M loader bool :=
  if j <? memsz sd then
    match n with
    | O => nofuel
    | Datatypes.S n' =>
        page <-- ld_alloc ;;
        if page =? 0 then ret false
        else
          bytes <-- of_option (page_fill data (file_off sd) (filesz sd) j (replicate 4096 0)) ;;
          page_put page bytes ;;;
          ld_map (u64 (vaddr sd + j)) page (Z.lor flags PAGE_WRITE) ;;;
          section_loop n' data sd flags (u64 (j + 4096))
    end
  else ret true.

Definition section_rounds (sd : mira_sect_desc) : nat := Z.to_nat (memsz sd / 4096 + 1).

Definition mira_map_section (data : option (list Z)) (sd : mira_sect_desc) : M loader bool :=
  match data with
  | None => ret false
  | Some data =>
      if memsz sd <? filesz sd then ret false
      else if size_of data <? u64 (file_off sd + filesz sd) then ret false
      else section_loop (section_rounds sd) data sd (mira_flags_to_paging (sect_type sd)) 0
  end.

(** The loop of [mira_load] over the section table. *)
Fixpoint sections_loop (n : nat) (data : list Z) (off i : Z) : M loader bool :=
  match n with
  | O => ret true
  | Datatypes.S n' =>
      sd <-- of_option (read_sect data (off + i * 40)) ;;
      if memsz sd <? filesz sd then ret false
      else if size_of data <? u64 (file_off sd + filesz sd) then ret false
      else
        more <-- section_loop (section_rounds sd) data sd (exec_flags_to_paging (sect_type sd) (sect_flags sd)) 0 ;;
        if negb more then ret false else sections_loop n' data off (i + 1)
  end.

(** [None] is the result [false]. *)
Definition mira_load (data : option (list Z)) (type : Z) : M loader (option mira_loaded_image) :=
  match data with
  | None => ret None
  | Some d =>
      if size_of d <? 64 then ret None
      else
        valid <-- of_option (exec_validate_header data type) ;;
        if negb valid then ret None
        else
          hdr <-- of_option (read_header d) ;;
          loaded <-- sections_loop (Z.to_nat (sect_count hdr)) d (sect_table_off hdr) 0 ;;
          if negb loaded then ret None
          else ret (Some (mkImage (entry_point hdr) 0 0))
  end.

Definition mira_load_mex (data : option (list Z)) : M loader (option mira_loaded_image) := mira_load data MIRA_BIN_TYPE_MEX.
Definition mira_load_mdl (data : option (list Z)) : M loader (option mira_loaded_image) := mira_load data MIRA_BIN_TYPE_MDL.

(** ** ELF images (kernel/elf.c) *)

Definition ELF_MAGIC : Z := 0x464C457F.
Definition PT_LOAD : Z := 1.

Record elf_program_header := mkPh {
  ph_type : Z; ph_offset : Z; ph_vaddr : Z; ph_filesz : Z; ph_memsz : Z
}.

Definition read_ph (data : list Z) (off : Z) : option elf_program_header :=
  t ← field data off 4; o ← field data (off + 8) 8; v ← field data (off + 16) 8;
  f ← field data (off + 32) 8; m ← field data (off + 40) 8;
  Some (mkPh t o v f m).

(** The copy into a page that nobody cleared. *)
Definition elf_fill (data : list Z) (ph : elf_program_header) (j : Z) (page : list Z) : option (list Z) :=
  let copy_size := if u64 (j + 4096) <=? ph_filesz ph then 4096 else if j <? ph_filesz ph then ph_filesz ph - j else 0 in
  src ← buf_slice data (ph_offset ph + j) (Z.min copy_size (ph_memsz ph - j));
  buf_store page src 0.

Fixpoint elf_page_loop (n : nat) (data : list Z) (ph : elf_program_header) (j : Z) : M loader bool :=
  if j <? ph_memsz ph then
    match n with
    | O => nofuel
    | Datatypes.S n' =>
        page <-- ld_alloc ;;
        if page =? 0 then ret false
        else
          (if j <? ph_filesz ph then
             old <-- page_get page ;;
             bytes <-- of_option (elf_fill data ph j old) ;;
             page_put page bytes
           else ret tt) ;;;
          ld_map (u64 (ph_vaddr ph + j)) page (Z.lor PAGE_PRESENT PAGE_WRITE) ;;;
          elf_page_loop n' data ph (u64 (j + 4096))
    end
  else ret true.

Fixpoint elf_segments (n : nat) (data : list Z) (phoff phentsize i : Z) : M loader bool :=
  match n with
  | O => ret true
  | Datatypes.S n' =>
      ph <-- of_option (read_ph data (phoff + i * phentsize)) ;;
      if negb (ph_type ph =? PT_LOAD) then elf_segments n' data phoff phentsize (i + 1)
      else
        more <-- elf_page_loop (Z.to_nat (ph_memsz ph / 4096 + 1)) data ph 0 ;;
        if negb more then ret false else elf_segments n' data phoff phentsize (i + 1)
  end.

(** The result and the entry point, when it was stored; [size] is not looked at. *)
Definition elf_load (data : list Z) : M loader (bool * option Z) :=
  magic <-- of_option (field data 0 4) ;;
  if negb (magic =? ELF_MAGIC) then ret (false, None)
  else
    machine <-- of_option (field data 18 2) ;;
    if negb (machine =? 0x3E) then ret (false, None)
    else
      entry <-- of_option (field data 24 8) ;;
      phoff <-- of_option (field data 32 8) ;;
      phentsize <-- of_option (field data 54 2) ;;
      phnum <-- of_option (field data 56 2) ;;
      ok <-- elf_segments (Z.to_nat phnum) data phoff phentsize 0 ;;
      ret (ok, Some entry).
End loader_code.

(** ** The checksum separates images *)

Section checksum.
Implicit Types (l data : list Z).

Definition is_byte (b : Z) : Prop := 0 <= b < 256.

(** The inverse of the prime modulo 2^64. *)
Definition fnv_inverse : Z := 14886173955864302971.

Lemma fnv_cancel x : 0 <= x < 2 ^ 64 -> u64 (u64 (x * fnv_prime) * fnv_inverse) = x.
Proof.
  intros Hx. unfold wrap. rewrite Z.mul_mod_idemp_l, <- Z.mul_assoc by done.
  rewrite <- Z.mul_mod_idemp_r by done. replace (fnv_prime * fnv_inverse mod 2 ^ 64) with 1 by reflexivity.
  rewrite Z.mul_1_r. by apply Z.mod_small.
Qed.

Lemma lxor_bound w a b : 0 <= w -> 0 <= a < 2 ^ w -> 0 <= b < 2 ^ w -> 0 <= Z.lxor a b < 2 ^ w.
Proof.
  intros Hw Ha Hb. assert (Z.lxor a b = wrap w (Z.lxor a b)) as ->; [|by apply wrap_bound].
  apply Z.bits_inj'. intros i Hi. rewrite testbit_wrap, Z.lxor_spec by lia.
  destruct (Z.ltb_spec i w); [by rewrite andb_true_r|].
  by rewrite (testbit_above w a), (testbit_above w b) by done.
Qed.

Lemma fnv_step_lxor h b h' b' :
  0 <= h < 2 ^ 64 -> is_byte b -> 0 <= h' < 2 ^ 64 -> is_byte b' ->
  fnv_step h b = fnv_step h' b' -> Z.lxor h b = Z.lxor h' b'.
Proof.
  intros Hh Hb Hh' Hb' E. unfold is_byte in *. apply (f_equal (λ x, u64 (x * fnv_inverse))) in E.
  unfold fnv_step in E. rewrite !fnv_cancel in E by (apply (lxor_bound 64); lia). exact E.
Qed.

Lemma lxor_cancel_r a b c : Z.lxor a c = Z.lxor b c -> a = b.
Proof.
  intros E. apply (f_equal (λ x, Z.lxor x c)) in E.
  by rewrite !Z.lxor_assoc, !Z.lxor_nilpotent, !Z.lxor_0_r in E.
Qed.

Lemma fnv_step_bound h b : 0 <= fnv_step h b < 2 ^ 64.
Proof. by apply wrap_bound. Qed.

Lemma fnv_bound h l : 0 <= h < 2 ^ 64 -> 0 <= foldl fnv_step h l < 2 ^ 64.
Proof. revert h. induction l as [|b l IH]; intros h Hh; [done|]. apply IH, fnv_step_bound. Qed.

(** The rest of the input keeps different states apart. *)
Lemma fnv_inj l h h' :
  Forall is_byte l -> 0 <= h < 2 ^ 64 -> 0 <= h' < 2 ^ 64 ->
  foldl fnv_step h l = foldl fnv_step h' l -> h = h'.
Proof.
  revert h h'. induction l as [|b l IH]; intros h h' Hl Hh Hh' E; [done|]. apply Forall_cons in Hl as [Hb Hl].
  apply (IH _ _ Hl (fnv_step_bound _ _) (fnv_step_bound _ _)) in E.
  eapply lxor_cancel_r, fnv_step_lxor; eauto.
Qed.

Lemma fnv_differs h a x y b :
  0 <= h < 2 ^ 64 -> is_byte x -> is_byte y -> Forall is_byte b -> x <> y ->
  foldl fnv_step h (a ++ x :: b) <> foldl fnv_step h (a ++ y :: b).
Proof.
  intros Hh Hx Hy Hb Hxy E. rewrite !foldl_app in E. cbn [foldl] in E.
  apply fnv_inj in E; [|done|apply fnv_step_bound|apply fnv_step_bound].
  pose proof (fnv_bound h a Hh). apply fnv_step_lxor in E; [|done..].
  rewrite !(Z.lxor_comm (foldl fnv_step h a)) in E. by apply lxor_cancel_r in E.
Qed.

Lemma basis_bound : 0 <= fnv_basis < 2 ^ 64.
Proof. unfold fnv_basis. lia. Qed.

Lemma le_app a l : le (a ++ l) = le a + 256 ^ Z.of_nat (length a) * le l.
Proof.
  induction a as [|b a IH]; [simpl; lia|]. cbn [app le length]. rewrite IH, Nat2Z.inj_succ, Z.pow_succ_r by lia. lia.
Qed.

Lemma le_differs a x y b : x <> y -> le (a ++ x :: b) <> le (a ++ y :: b).
Proof.
  intros Hxy E. rewrite !le_app in E. cbn [le] in E.
  assert (0 < 256 ^ Z.of_nat (length a)) by (apply Z.pow_pos_nonneg; lia). nia.
Qed.

(** A valid image has the checksum of its bytes. *)
Lemma validate_checksum data type :
  mira_validate_header (Some data) type = Some true ->
  64 <= size_of data /\ field data 56 8 = Some (image_hash data).
Proof.
  unfold mira_validate_header. destruct (Z.ltb_spec (size_of data) 64); [done|].
  destruct (read_header data) as [hdr|] eqn:E; cbn [mbind option_bind]; [|done].
  repeat (match goal with |- (if ?b then _ else _) = _ -> _ => destruct b; [done|] end).
  intros [= Ec%Z.eqb_eq]. split; [lia|]. rewrite Ec. unfold read_header in E.
  repeat (match type of E with (x ← ?m; _) = _ => destruct m eqn:?; cbn [mbind option_bind] in E; [|done] end).
  by injection E as <-.
Qed.

(** The three parts of an image that the hash sees. *)
Lemma image_hash_parts p c r :
  length p = 56%nat -> length c = 8%nat ->
  image_hash (p ++ c ++ r) = foldl fnv_step fnv_basis (p ++ replicate 8 0 ++ r).
Proof.
  intros Hp Hc. unfold image_hash. rewrite take_app_length' by done.
  rewrite (assoc_L (++) p c r), drop_app_length' by (rewrite length_app; lia).
  by rewrite <- foldl_app, <- (assoc_L (++)).
Qed.

Lemma checksum_field p c r :
  length p = 56%nat -> length c = 8%nat -> field (p ++ c ++ r) 56 8 = Some (le c).
Proof.
  intros Hp Hc. unfold field, buf_slice. rewrite !length_app, Hp, Hc.
  destruct (Z.leb_spec (56 + 8) (Z.of_nat (56 + (8 + length r)))); [|lia]. cbn [andb Z.leb Z.compare].
  rewrite drop_app_length' by (rewrite Hp; done). by rewrite take_app_length' by (rewrite Hc; done).
Qed.
End checksum.

(** ** Sections in memory *)

Section loading.
Context {S : Type} `{!PageMapper S}.
Implicit Types (s : loader S) (data : list Z) (sd : mira_sect_desc).

(** Virtual page [n] is physical page [p], which is in use and holds [bytes]. *)
Definition has s (n p : Z) (bytes : list Z) : Prop :=
  pm_tr (ld_src s) n = Some p /\ pm_used (ld_src s) p /\ ld_pages s !! p = Some bytes.

(** Nothing is lost at the user pages outside [X]. *)
Definition frame (X : Z -> Prop) s s' : Prop :=
  forall n p bytes, pm_user n -> ~ X n -> has s n p bytes -> has s' n p bytes.

Lemma frame_refl X s : frame X s s.
Proof. by intros n p bytes. Qed.

Lemma frame_trans X s1 s2 s3 : frame X s1 s2 -> frame X s2 s3 -> frame X s1 s3.
Proof. unfold frame. eauto. Qed.

(** What byte [i] of a section must be. *)
Definition content data sd (i : Z) : Z :=
  if i <? filesz sd then data !!! Z.to_nat (file_off sd + i) else 0.

(** The sections the theorems speak about: in the file, on a page boundary, in user space. *)
Record sect_ok data sd : Prop := {
  so_filesz : 0 <= filesz sd <= memsz sd;
  so_file : 0 <= file_off sd /\ file_off sd + filesz sd <= size_of data < 2 ^ 64;
  so_aligned : vaddr sd mod 4096 = 0;
  so_space : 0 <= vaddr sd /\ vaddr sd + memsz sd <= 2 ^ 48;
  so_user : forall v, vaddr sd <= v < vaddr sd + memsz sd -> pm_user (vpage_of v)
}.

Definition in_section sd (n : Z) : Prop := exists v, vaddr sd <= v < vaddr sd + memsz sd /\ n = vpage_of v.

(** The first [j] bytes of the section are in memory. *)
Definition placed data sd (j : Z) s : Prop :=
  forall i, 0 <= i < Z.min j (memsz sd) -> exists p bytes,
    has s (vpage_of (vaddr sd + i)) p bytes /\ bytes !! Z.to_nat (i mod 4096) = Some (content data sd i).

Lemma page_fill_run data sd j :
  sect_ok data sd -> 0 <= j < memsz sd ->
  exists bytes, page_fill data (file_off sd) (filesz sd) j (replicate 4096 0) = Some bytes /\
    forall k, 0 <= k < 4096 -> bytes !! Z.to_nat k = Some (content data sd (j + k)).
Proof.
  intros [Hfs Hf Ha Hs Hu] Hj. unfold page_fill, content, size_of in *. destruct (Z.ltb_spec j (filesz sd)) as [Hlt|Hge].
  2: { eexists. split; [done|]. intros k Hk. destruct (Z.ltb_spec (j + k) (filesz sd)); [lia|].
       apply lookup_replicate_2. lia. }
  set (c := if filesz sd - j <? 4096 then filesz sd - j else 4096).
  assert (0 < c <= 4096 /\ c <= filesz sd - j /\ (c = 4096 \/ c = filesz sd - j)) as (Hc & Hcf & Hcc)
    by (subst c; destruct (Z.ltb_spec (filesz sd - j) 4096); lia).
  rewrite buf_slice_in by lia. cbn [mbind option_bind].
  assert (length (take (Z.to_nat c) (drop (Z.to_nat (file_off sd + j)) data)) = Z.to_nat c) as Hl
    by (rewrite length_take, length_drop; lia).
  rewrite buf_store_in by (rewrite ?Hl, ?length_replicate; lia). eexists. split; [reflexivity|].
  intros k Hk. change (Z.to_nat 0) with 0%nat. rewrite take_0. cbn [app Nat.add]. destruct (Z.ltb_spec (j + k) (filesz sd)) as [Hin|Hout].
  - rewrite lookup_app_l by lia. rewrite lookup_take_lt, lookup_drop by lia.
    rewrite list_lookup_lookup_total_lt by lia. do 2 f_equal. lia.
  - rewrite lookup_app_r by lia. rewrite lookup_drop. apply lookup_replicate_2. lia.
Qed.

(** Every page that the allocator may give is mapped at its own address. *)
Definition ident (t : S) : Prop := forall a, pm_free t a -> pm_tr t (vpage_of a) = Some a.

Lemma page_put_run s p b : pm_tr (ld_src s) (vpage_of p) = Some p -> page_put p b s = Ret tt (mkLoader (ld_src s) (<[p := b]> (ld_pages s))).
Proof. intros E. unfold page_put. by rewrite bind_get, E, bind_option. Qed.

Lemma ld_alloc_run s :
  pm_ok (ld_src s) -> exists p s', ld_alloc s = Ret p s' /\ pm_ok (ld_src s') /\ ld_pages s' = ld_pages s /\
    (forall n, pm_tr (ld_src s') n = pm_tr (ld_src s) n) /\
    (forall a, pm_used (ld_src s) a -> pm_used (ld_src s') a) /\
    (ident (ld_src s) -> ident (ld_src s')) /\
    (p <> 0 -> ~ pm_used (ld_src s) p /\ pm_used (ld_src s') p /\ 0 <= p < 2 ^ 64 /\ pm_free (ld_src s) p).
Proof.
  intros Hok. destruct (pm_alloc_law (ld_src s) Hok) as (p & t & E & Hok' & Htr & Hu & Hf & Hp).
  assert (ident (ld_src s) -> ident t) by (intros Hi a Ha; rewrite Htr; apply Hi, Hf, Ha).
  exists p, (set_src t s). unfold ld_alloc, zoom. rewrite E. done.
Qed.

(** One page: it is mapped with its bytes, and every other user page is as before. *)
Lemma page_round s p bytes v fl s1 :
  pm_ok (ld_src s1) -> ld_pages s1 = ld_pages s ->
  (forall n, pm_tr (ld_src s1) n = pm_tr (ld_src s) n) ->
  (forall a, pm_used (ld_src s) a -> pm_used (ld_src s1) a) ->
  ~ pm_used (ld_src s) p -> pm_used (ld_src s1) p -> 0 <= p < 2 ^ 64 -> 0 <= fl < 4096 ->
  pm_tr (ld_src s1) (vpage_of p) = Some p ->
  (exists msg t, (page_put p bytes ;;; ld_map v p fl) s1 = Panic msg t) \/
  exists s', (page_put p bytes ;;; ld_map v p fl) s1 = Ret v s' /\ pm_ok (ld_src s') /\
    has s' (vpage_of v) p bytes /\ frame (λ n, n = vpage_of v) s s' /\
    (pm_user (vpage_of v) -> ident (ld_src s1) -> ident (ld_src s')).
Proof.
  intros Hok Hpg Htr Hu Hnu Hup Hp Hfl Hid. rewrite (bind_Ret _ _ _ _ _ (page_put_run s1 p bytes Hid)). unfold ld_map, zoom. cbn [ld_src].
  destruct (pm_map_law v p fl (ld_src s1) Hok Hp Hfl Hup) as [(t & E)|(t & E & Hok' & Hv & Hkeep & Hu' & Hfr & Hft)].
  { left. rewrite E. by eexists _, _. }
  right. rewrite E. eexists. split; [done|]. split; [done|]. split; [|split].
  - split; [done|]. split; [by apply Hu'|]. apply lookup_insert_eq.
  - intros n q b Huser Hne (H1 & H2 & H3). split; [|split].
    + cbn [set_src ld_src]. apply Hkeep; [done|done|]. by rewrite Htr.
    + apply Hu', Hu, H2.
    + cbn [set_src ld_pages]. rewrite lookup_insert_ne by congruence. by rewrite Hpg.
  - intros Huser Hi a Ha. cbn [set_src ld_src] in *. apply (Hft Huser a a Ha). by apply Hi, Hfr.
Qed.

Lemma vpage_of_within v i j :
  v mod 4096 = 0 -> 0 <= v -> j mod 4096 = 0 -> j <= i < j + 4096 -> vpage_of (v + i) = vpage_of (v + j).
Proof.
  intros Hv H0 Hj Hi. unfold vpage_of. f_equal.
  rewrite (Z_div_exact_full_2 v 4096), (Z_div_exact_full_2 j 4096) by (done || lia).
  replace (4096 * (v / 4096) + 4096 * (j / 4096)) with ((v / 4096 + j / 4096) * 4096) by lia.
  rewrite Z.div_mul by lia. symmetry. apply (Z.div_unique _ _ _ (i - j)); [lia|].
  pose proof (Z_div_exact_full_2 v 4096 ltac:(lia) Hv). pose proof (Z_div_exact_full_2 j 4096 ltac:(lia) Hj). lia.
Qed.

Lemma vpage_differs v i j :
  v mod 4096 = 0 -> 0 <= v -> j mod 4096 = 0 -> 0 <= i < j -> v + j < 2 ^ 48 -> vpage_of (v + i) <> vpage_of (v + j).
Proof.
  intros Hv H0 Hj Hi Hmax E. unfold vpage_of in E.
  pose proof (Z_div_exact_full_2 v 4096 ltac:(lia) Hv) as Ev. pose proof (Z_div_exact_full_2 j 4096 ltac:(lia) Hj) as Ej.
  rewrite !Z.mod_small in E.
  - assert ((v + j) / 4096 = v / 4096 + j / 4096) as E1
      by (replace (v + j) with ((v / 4096 + j / 4096) * 4096) by lia; by rewrite Z.div_mul by lia).
    assert ((v + i) / 4096 < v / 4096 + j / 4096); [|lia]. apply Z.div_lt_upper_bound; lia.
  - split; [apply Z.div_pos; lia|apply Z.div_lt_upper_bound; lia].
  - split; [apply Z.div_pos; lia|apply Z.div_lt_upper_bound; lia].
Qed.

Lemma section_loop_run data sd fl n j s :
  sect_ok data sd -> 0 <= fl < 4 -> 0 <= j -> j mod 4096 = 0 -> memsz sd <= j + Z.of_nat n * 4096 ->
  pm_ok (ld_src s) -> ident (ld_src s) -> placed data sd j s ->
  (exists msg t, section_loop n data sd fl j s = Panic msg t) \/
  (exists s', section_loop n data sd fl j s = Ret false s' /\ pm_ok (ld_src s')) \/
  (exists s', section_loop n data sd fl j s = Ret true s' /\ pm_ok (ld_src s') /\ ident (ld_src s') /\ placed data sd (memsz sd) s' /\
     frame (in_section sd) s s').
Proof.
  intros Hok Hfl. revert j s. induction n as [|n IH]; intros j s Hj Hmod Hn Hpm Hid Hpl.
  { cbn [section_loop]. destruct (Z.ltb_spec j (memsz sd)); [lia|]. right; right. exists s.
    split; [done|]. split; [done|]. split; [done|]. split; [|apply frame_refl]. intros i Hi. apply Hpl. lia. }
  cbn [section_loop]. destruct (Z.ltb_spec j (memsz sd)) as [Hlt|Hge].
  2: { right; right. exists s. split; [done|]. split; [done|]. split; [done|]. split; [|apply frame_refl]. intros i Hi. apply Hpl. lia. }
  destruct (ld_alloc_run s Hpm) as (p & s1 & E1 & Hpm1 & Hpg & Htr & Hu & Hid1 & Hp). rewrite (bind_Ret _ _ _ _ _ E1).
  destruct (Z.eqb_spec p 0) as [->|Hpz]; [right; left; by exists s1|]. destruct (Hp Hpz) as (Hnu & Hup & Hpb & Hpf).
  destruct (page_fill_run data sd j Hok ltac:(lia)) as (bytes & E2 & Hb). rewrite E2. run_step.
  pose proof (so_space _ _ Hok) as [Hv0 Hvm]. rewrite (wrap_small 64 (vaddr sd + j)) by lia.
  assert (0 <= Z.lor fl PAGE_WRITE < 4096) as Hfl2.
  { assert (0 <= PAGE_WRITE < 2 ^ 2) as Hw by (split; [discriminate|reflexivity]).
    pose proof (lor_bound 2 fl PAGE_WRITE ltac:(lia) ltac:(lia) Hw). lia. }
  destruct (page_round s p bytes (vaddr sd + j) (Z.lor fl PAGE_WRITE) s1) as [(msg & t & E3)|(s2 & E3 & Hpm2 & Hhas & Hfr & Hid2)];
    try done; [by rewrite Htr; apply Hid|rewrite <- bind_assoc..].
  { left. exists msg, t. by apply bind_Panic. }
  rewrite (bind_Ret _ _ _ _ _ E3). rewrite wrap_small by lia.
  pose proof (so_aligned _ _ Hok) as Hal.
  assert (placed data sd (j + 4096) s2) as Hpl2.
  { intros i Hi. destruct (decide (i < j)) as [Hij|Hij].
    - destruct (Hpl i) as (q & b & Hq & Hbi); [lia|]. exists q, b. split; [|done]. apply Hfr; [|by apply vpage_differs; lia|done].
      apply (so_user _ _ Hok). lia.
    - exists p, bytes. rewrite (vpage_of_within _ i j) by (done || lia). split; [done|].
      replace (i mod 4096) with (i - j).
      + rewrite Hb by lia. do 2 f_equal. lia.
      + pose proof (Z_div_exact_full_2 j 4096 ltac:(lia) Hmod). apply (Z.mod_unique_pos _ _ (j / 4096)); lia. }
  assert (frame (in_section sd) s s2) as Hfr2.
  { intros m q b Hm Hnot Hh. apply Hfr; [done| |done]. intros ->. apply Hnot. exists (vaddr sd + j). split; [lia|done]. }
  assert ((j + 4096) mod 4096 = 0) as Hmod2 by (rewrite <- (Z.mul_1_l 4096) at 1; by rewrite Z.mod_add).
  specialize (Hid2 (so_user _ _ Hok (vaddr sd + j) ltac:(lia)) (Hid1 Hid)).
  destruct (IH (j + 4096) s2) as [H1|[H1|(s3 & E4 & Hpm3 & Hid3 & Hpl3 & Hfr3)]]; [lia|done|lia|done|done|done|by left|by right; left|].
  right; right. exists s3. split; [done|]. split; [done|]. split; [done|]. split; [done|]. by eapply frame_trans.
Qed.

Definition disjoint_sects sd sd' : Prop := forall n, in_section sd n -> ~ in_section sd' n.

Lemma placed_frame data sd X s s' :
  sect_ok data sd -> (forall n, in_section sd n -> ~ X n) -> frame X s s' ->
  placed data sd (memsz sd) s -> placed data sd (memsz sd) s'.
Proof.
  intros Hok Hd Hf Hp i Hi. destruct (Hp i Hi) as (p & bytes & Hh & Hb). exists p, bytes. split; [|done].
  assert (in_section sd (vpage_of (vaddr sd + i))) as Hin by (exists (vaddr sd + i); split; [lia|done]).
  apply Hf; [apply (so_user _ _ Hok); lia|by apply Hd|done].
Qed.

Lemma placed_none data sd s : placed data sd 0 s.
Proof. intros i Hi. lia. Qed.

Lemma section_rounds_enough sd : 0 <= memsz sd -> memsz sd <= Z.of_nat (section_rounds sd) * 4096.
Proof.
  intros. unfold section_rounds. pose proof (Z.div_pos (memsz sd) 4096 ltac:(lia) ltac:(lia)).
  pose proof (Z.mul_succ_div_gt (memsz sd) 4096 ltac:(lia)). lia.
Qed.

(** The two checks every loader makes pass for a section that is in the file. *)
Lemma sect_checks data sd :
  sect_ok data sd -> (memsz sd <? filesz sd) = false /\ (size_of data <? u64 (file_off sd + filesz sd)) = false.
Proof.
  intros [Hfs Hf _ _ _]. rewrite wrap_small by lia. split; apply Z.ltb_ge; lia.
Qed.

Lemma exec_flags_bound a b : 0 <= exec_flags_to_paging a b < 4.
Proof.
  unfold exec_flags_to_paging. repeat case_match; split; try discriminate; reflexivity.
Qed.

Lemma map_flags_bound a : 0 <= mira_flags_to_paging a < 4.
Proof. unfold mira_flags_to_paging. repeat case_match; split; try discriminate; reflexivity. Qed.

Lemma whole_section_run data sd fl s :
  sect_ok data sd -> 0 <= fl < 4 -> pm_ok (ld_src s) -> ident (ld_src s) ->
  (exists msg t, section_loop (section_rounds sd) data sd fl 0 s = Panic msg t) \/
  (exists s', section_loop (section_rounds sd) data sd fl 0 s = Ret false s' /\ pm_ok (ld_src s')) \/
  (exists s', section_loop (section_rounds sd) data sd fl 0 s = Ret true s' /\ pm_ok (ld_src s') /\ ident (ld_src s') /\
     placed data sd (memsz sd) s' /\ frame (in_section sd) s s').
Proof.
  intros Hok Hfl Hpm Hid. apply section_loop_run; [done|done|lia|done| |done|done|apply placed_none].
  pose proof (section_rounds_enough sd). pose proof (so_filesz _ _ Hok). lia.
Qed.

Lemma sections_loop_run data off sds i s :
  (forall k sd, sds !! k = Some sd -> read_sect data (off + (i + Z.of_nat k) * 40) = Some sd /\ sect_ok data sd) ->
  (forall k k' sd sd', (k < k')%nat -> sds !! k = Some sd -> sds !! k' = Some sd' -> disjoint_sects sd sd') ->
  pm_ok (ld_src s) -> ident (ld_src s) ->
  (exists msg t, sections_loop (length sds) data off i s = Panic msg t) \/
  (exists s', sections_loop (length sds) data off i s = Ret false s') \/
  (exists s', sections_loop (length sds) data off i s = Ret true s' /\
     (forall sd, sd ∈ sds -> placed data sd (memsz sd) s') /\ frame (λ n, exists sd, sd ∈ sds /\ in_section sd n) s s').
Proof.
  revert i s. induction sds as [|sd sds IH]; intros i s Hr Hd Hpm Hid.
  { right; right. exists s. split; [done|]. split; [by intros sd ?%not_elem_of_nil|apply frame_refl]. }
  cbn [length sections_loop]. destruct (Hr 0%nat sd eq_refl) as [E0 Hok]. rewrite Z.add_0_r in E0. rewrite E0. run_step.
  destruct (sect_checks data sd Hok) as [-> ->].
  destruct (whole_section_run data sd (exec_flags_to_paging (sect_type sd) (sect_flags sd)) s Hok (exec_flags_bound _ _) Hpm Hid)
    as [(msg & t & E)|[(s' & E & _)|(s1 & E & Hpm1 & Hid1 & Hpl & Hfr)]].
  { left. exists msg, t. by apply bind_Panic. }
  { right; left. exists s'. by rewrite (bind_Ret _ _ _ _ _ E). }
  rewrite (bind_Ret _ _ _ _ _ E). cbn [negb].
  destruct (IH (i + 1) s1) as [H1|[H1|(s2 & E2 & Hpl2 & Hfr2)]]; [| |done|done|by left|by right; left|].
  { intros k sd' Hk. destruct (Hr (Datatypes.S k) sd' Hk) as [E1 Hok1]. split; [|done].
    by replace (i + 1 + Z.of_nat k) with (i + Z.of_nat (Datatypes.S k)) by lia. }
  { intros k k' sd1 sd2 Hkk. apply (Hd (Datatypes.S k) (Datatypes.S k')). lia. }
  right; right. exists s2. split; [done|]. split.
  - intros sd' [->|Hin]%elem_of_cons; [|by apply Hpl2].
    eapply placed_frame; [exact Hok| |exact Hfr2|exact Hpl]. intros n Hn (sd2 & Hin & Hn2).
    apply list_elem_of_lookup in Hin as [k Hk]. by eapply (Hd 0%nat (Datatypes.S k) sd sd2); [lia|done|done| |].
  - intros n p b Hu Hnot Hh. apply Hfr2; [done| |].
    + intros (sd2 & Hin & Hn). apply Hnot. exists sd2. split; [by right|done].
    + apply Hfr; [done| |done]. intros Hn. apply Hnot. exists sd. split; [by left|done].
Qed.
End loading.

(** The first page of a segment keeps the old bytes past the file's. *)
Lemma elf_fill_run data ph page :
  length page = 4096%nat -> 0 < ph_filesz ph < ph_memsz ph -> ph_memsz ph <= 4096 ->
  0 <= ph_offset ph -> ph_offset ph + ph_filesz ph <= size_of data ->
  exists bytes, elf_fill data ph 0 page = Some bytes /\
    forall k, ph_filesz ph <= k < 4096 -> bytes !! Z.to_nat k = page !! Z.to_nat k.
Proof.
  intros Hl Hf Hm Ho Hsz. unfold elf_fill, size_of in *. rewrite (wrap_small 64 (0 + 4096)) by lia.
  destruct (Z.leb_spec (0 + 4096) (ph_filesz ph)); [lia|].
  destruct (Z.ltb_spec 0 (ph_filesz ph)) as [Hlt|Hge]; [|lia].
  rewrite Z.min_l, Z.sub_0_r by lia. rewrite buf_slice_in by lia. cbn [mbind option_bind].
  assert (length (take (Z.to_nat (ph_filesz ph)) (drop (Z.to_nat (ph_offset ph + 0)) data)) = Z.to_nat (ph_filesz ph)) as Hc
    by (rewrite length_take, length_drop; lia).
  rewrite buf_store_in by (rewrite ?Hc, ?Hl; lia). eexists. split; [reflexivity|]. intros k Hk.
  change (Z.to_nat 0) with 0%nat. rewrite take_0. cbn [app Nat.add].
  rewrite lookup_app_r by lia. rewrite lookup_drop, Hc. f_equal. lia.
Qed.

(** ** The paging code is a page mapper *)

Section paging_mapper.

Definition paging_used (s : paging) (a : Z) : Prop :=
  exists q, 0 <= q /\ a = q * 4096 /\ page_used (pg_pmm s) q = true.
Definition paging_free (s : paging) (a : Z) : Prop := exists q, a = q * 4096 /\ free_page s q.
Definition paging_tr (s : paging) (n : Z) : option Z := translate s (n * 4096).

Lemma vpage_of_page n : 0 <= n < 2 ^ 36 -> vpage (n * 4096) = n.
Proof. intros. unfold vpage. rewrite Z.div_mul by lia. by apply Z.mod_small. Qed.

Lemma land_page n : Z.land (n * 4096) 0xFFF = 0.
Proof. change 0xFFF with (Z.ones 12). rewrite Z.land_ones by lia. change (2 ^ 12) with 4096. by apply Z.mod_mul. Qed.

Lemma paging_alloc_law s :
  (exists T, pt_wf T s) -> exists p s', paging_get s = Ret p s' /\ (exists T, pt_wf T s') /\
    (forall n, paging_tr s' n = paging_tr s n) /\ (forall a, paging_used s a -> paging_used s' a) /\
    (forall a, paging_free s' a -> paging_free s a) /\
    (p <> 0 -> ~ paging_used s p /\ paging_used s' p /\ 0 <= p < 2 ^ 64 /\ paging_free s p).
Proof.
  intros [T Hw]. unfold paging_get, zoom.
  destruct (pmm_alloc_page_cases _ (pw_pmm _ _ Hw)) as [(q & p & Hr & Hu & _ & -> & Hp & Hm)|[_ ->]].
  - pose proof (in_range_page _ _ (pw_pmm _ _ Hw) Hr) as Hq. unfold MAX_PHYS_PAGES in Hq.
    destruct (ext_take T s p q _ Hw Hr Hp Hm) as [Hw1 Hx]. eexists _, _. split; [done|]. split; [by exists T|].
    split; [done|]. split.
    + intros a (r & Hr0 & -> & Hru). exists r. split; [done|]. split; [done|].
      exact (ex_used _ _ _ _ Hx r Hr0 Hru).
    + split.
      { intros a (r & -> & Hr1 & Hu1). exists r. split; [done|]. cbn [pg_pmm with_pmm] in *. apply (marked_in_range _ _ _ _ _ r Hm) in Hr1.
        split; [done|]. rewrite (mk_used _ _ _ _ _ Hm) in Hu1 by (by apply (in_range_pos _ _ (pw_pmm _ _ Hw))). by case_decide. }
      intros _. split; [|split; [|split; [lia|by exists q]]].
      * intros (r & _ & E & Hru). assert (q = r) as -> by lia. congruence.
      * exists q. split; [lia|]. split; [done|]. cbn [pg_pmm with_pmm]. rewrite (mk_used _ _ _ _ _ Hm) by lia.
        by rewrite decide_True.
  - eexists _, _. split; [done|]. destruct s. split; [by exists T|]. done.
Qed.

Lemma paging_mapper_map_law v p fl s :
  (exists T, pt_wf T s) -> 0 <= p < 2 ^ 64 -> 0 <= fl < 4096 -> paging_used s p ->
  (exists s', paging_map v p fl s = Panic "paging oom" s') \/
  exists s', paging_map v p fl s = Ret v s' /\ (exists T, pt_wf T s') /\ paging_tr s' (vpage_of v) = Some p /\
    (forall n, MAX_PHYS_PAGES <= n < 2 ^ 36 -> n <> vpage_of v ->
       forall a, paging_tr s n = Some a -> paging_tr s' n = Some a) /\
    (forall a, paging_used s a -> paging_used s' a) /\ (forall a, paging_free s' a -> paging_free s a) /\
    (MAX_PHYS_PAGES <= vpage_of v < 2 ^ 36 -> forall a b, paging_free s' a -> paging_tr s (vpage_of a) = Some b -> paging_tr s' (vpage_of a) = Some b).
Proof.
  intros [T Hw] Hp Hf (q & Hq & -> & _). unfold paging_map.
  destruct (paging_map_page_run T s (S (free_count (pg_pmm s))) v (q * 4096) fl Hw Hp Hf (Nat.lt_succ_diag_r _))
    as [(T' & s' & E & Hw' & HT & Hv & Hk & Hu & Hrg)|Hpanic]; [right|by left].
  exists s'. split; [done|]. split; [by exists T'|].
  assert (0 <= vpage_of v < 2 ^ 36) as Hvb by (by apply Z.mod_pos_bound).
  assert (forall a, paging_free s' a -> paging_free s a) as Hfr.
  { intros a (r & -> & Hr & Hru). apply Hrg in Hr. exists r. split; [done|]. split; [done|].
    destruct (page_used (pg_pmm s) r) eqn:Eu; [|done]. by rewrite (Hu r (in_range_pos _ _ (pw_pmm _ _ Hw) Hr) Eu) in Hru. }
  split; [|split; [|split; [|split; [done|]]]].
  - unfold paging_tr. rewrite Hv by (by apply vpage_of_page). rewrite land_page, Z.add_0_r. f_equal.
    rewrite page_mask_eq, Z.mod_mul by lia. lia.
  - intros n Hn Hne a Ha. apply Hk; [rewrite vpage_of_page by (unfold MAX_PHYS_PAGES in Hn; lia); done|done|].
    intros r [Hr _] _. pose proof (in_range_page _ _ (pw_pmm _ _ Hw) Hr).
    unfold MAX_PHYS_PAGES in *. rewrite !vpage_of_page by lia. lia.
  - intros a (r & Hr0 & -> & Hru). exists r. auto.
  - intros Hvu a b Ha Hb. destruct Ha as (r & -> & Hr & Hru). apply Hrg in Hr. pose proof (in_range_page _ _ (pw_pmm _ _ Hw) Hr) as Hrb.
    unfold MAX_PHYS_PAGES in *. assert (vpage_of (r * 4096) = r) as Er by (unfold vpage_of; rewrite Z.div_mul, Z.mod_small by lia; done).
    rewrite Er in *. unfold paging_tr in *. apply Hk; [rewrite vpage_of_page by lia; unfold vpage_of in Hvu; unfold vpage; lia|done|].
    intros r' [Hr' Hu1] Hu2. pose proof (in_range_page _ _ (pw_pmm _ _ Hw) Hr'). unfold MAX_PHYS_PAGES in *. rewrite !vpage_of_page by lia. congruence.
Qed.

#[export] Instance paging_mapper : PageMapper paging := {|
  pm_alloc := paging_get;
  pm_map := paging_map;
  pm_ok s := exists T, pt_wf T s;
  pm_used := paging_used;
  pm_tr := paging_tr;
  pm_user n := MAX_PHYS_PAGES <= n < 2 ^ 36;
  pm_free := paging_free;
  pm_alloc_law := paging_alloc_law;
  pm_map_law := paging_mapper_map_law
|}.
End paging_mapper.

(** ** Properties *)

Section image_properties.
Implicit Types (data : list Z).

Lemma field_some data off n :
  0 <= off -> 0 <= n -> off + n <= size_of data -> exists x, field data off n = Some x.
Proof. intros. unfold field. rewrite buf_slice_in by done. by eexists. Qed.

Lemma field_none data off n : size_of data < off + n -> field data off n = None.
Proof. intros. unfold field. by rewrite buf_slice_out. Qed.

Lemma read_header_some data : 64 <= size_of data -> exists hdr, read_header data = Some hdr.
Proof.
  intros. unfold read_header.
  repeat (match goal with |- context [field data ?o ?n] =>
    destruct (field_some data o n) as [? ->]; [lia|lia|lia|]; cbn [mbind option_bind] end).
  by eexists.
Qed.

(** Neither validator reads outside the image, and they agree up to the header size:
    the loader's own check accepts exactly the images that [mira_validate_header]
    accepts and whose [header_size] is 64. *)
Theorem validators_agree data type :
  exists v, mira_validate_header (Some data) type = Some v /\
    mira_bin_is_valid (Some data) type =
      Some (v && match read_header data with Some hdr => header_size hdr =? 64 | None => false end).
Proof.
  unfold mira_bin_is_valid, exec_validate_header, mira_validate_header.
  destruct (Z.ltb_spec (size_of data) 64) as [Hs|Hs]; [by exists false|].
  destruct (read_header_some data Hs) as [hdr ->]. cbn [mbind option_bind].
  repeat (match goal with |- context [if negb ?b then _ else _] => destruct b; cbn [negb]; [|by exists false] end).
  destruct (Z.ltb_spec (header_size hdr) 64); [by exists false|].
  do 4 (match goal with |- context [if ?b then Some false else _] =>
    lazymatch b with context [64 <? header_size hdr] => fail | _ => destruct b; [by exists false|] end end).
  destruct (Z.ltb_spec 64 (header_size hdr)), (Z.eqb_spec (header_size hdr) 64); try lia.
  - eexists. split; [done|]. by rewrite andb_false_r.
  - eexists. split; [done|]. by rewrite andb_true_r.
Qed.

(** C11. The checksum protects the whole file: an image that validates is rejected after any
    change of a single byte, be it in the header, in the checksum field or in the rest. *)
Theorem tampered_image_rejected type a x y b :
  Forall is_byte (a ++ x :: b) -> is_byte y -> x <> y ->
  mira_validate_header (Some (a ++ x :: b)) type = Some true ->
  mira_validate_header (Some (a ++ y :: b)) type = Some false.
Proof.
  intros Hbytes Hy Hxy Hv. destruct (validators_agree (a ++ y :: b) type) as ([|] & Hv2 & _); [|done]. exfalso.
  apply validate_checksum in Hv as [Hsz Hc], Hv2 as [_ Hc2].
  apply Forall_app in Hbytes as [Ha [Hx Hb]%Forall_cons]. unfold size_of in Hsz. rewrite length_app in Hsz. cbn [length] in Hsz.
  destruct (decide (length a < 56)%nat) as [H1|H1]; [|destruct (decide (length a < 64)%nat) as [H2|H2]].
  - set (b1 := take (55 - length a) b). set (c := take 8 (drop (55 - length a) b)). set (r := drop 8 (drop (55 - length a) b)).
    assert (forall z, a ++ z :: b = (a ++ z :: b1) ++ c ++ r) as E
      by (intros z; rewrite <- (assoc_L (++)); cbn [app]; subst b1 c r; by rewrite !take_drop).
    assert (forall z, length (a ++ z :: b1) = 56%nat) as Hp
      by (intros z; rewrite length_app; cbn [length]; subst b1; rewrite length_take; lia).
    assert (length c = 8%nat) as Hcl by (subst c; rewrite length_take, length_drop; lia).
    rewrite !E, !checksum_field, !image_hash_parts in * by done. rewrite Hc in Hc2. injection Hc2 as Hc2.
    rewrite <- !(assoc_L (++)) in Hc2. cbn [app] in Hc2. revert Hc2. apply fnv_differs; [apply basis_bound|done|done| |done].
    rewrite Forall_app. split; [by apply Forall_take|].
    repeat (apply Forall_cons; split; [unfold is_byte; lia|]). by repeat apply Forall_drop.
  - set (c1 := drop 56 a). set (c2 := take (63 - length a) b). set (r := drop (63 - length a) b).
    assert (forall z, a ++ z :: b = take 56 a ++ (c1 ++ z :: c2) ++ r) as E.
    { intros z. rewrite <- (take_drop 56 a) at 1. rewrite <- !(assoc_L (++)). cbn [app]. subst c1 c2 r. by rewrite take_drop. }
    assert (length (take 56 a) = 56%nat) as Hp by (rewrite length_take; lia).
    assert (forall z, length (c1 ++ z :: c2) = 8%nat) as Hcl.
    { intros z. rewrite length_app. cbn [length]. subst c1 c2. rewrite length_drop, length_take. lia. }
    rewrite !E, !checksum_field, !image_hash_parts in * by done. rewrite <- Hc2 in Hc. injection Hc as Hc.
    by apply le_differs in Hc.
  - assert (forall z, a ++ z :: b = take 56 a ++ take 8 (drop 56 a) ++ (drop 8 (drop 56 a) ++ z :: b)) as E.
    { intros z. by rewrite (assoc_L (++) (take 8 _)), take_drop, (assoc_L (++)), take_drop. }
    assert (length (take 56 a) = 56%nat) as Hp by (rewrite length_take; lia).
    assert (length (take 8 (drop 56 a)) = 8%nat) as Hcl by (rewrite length_take, length_drop; lia).
    rewrite !E, !checksum_field, !image_hash_parts in * by done. rewrite Hc in Hc2. apply (inj Some) in Hc2.
    revert Hc2. rewrite !(assoc_L (++) (replicate 8 0)), !(assoc_L (++) (take 56 a)). 
    by apply fnv_differs; [apply basis_bound| | | |].
Qed.
End image_properties.

Section loader_properties.
Context {S : Type} `{!PageMapper S} (dirty : Z -> list Z).
Implicit Types s : loader S.

(** C10. [mira_load] of an accepted image, when every page that the allocator may give is mapped at its own
    address ([ident]) and the sections lie in the file and in user space, start on page
    boundaries and share no page: it panics or returns false when memory runs out, or
    returns the entry point with every byte of every section at its virtual address,
    the file's bytes first and zeroes up to [memsz]. *)
Theorem mira_load_spec data type hdr sds s :
  pm_ok (ld_src s) -> ident (ld_src s) -> 64 <= size_of data ->
  exec_validate_header (Some data) type = Some true -> read_header data = Some hdr ->
  sect_count hdr = Z.of_nat (length sds) ->
  (forall k sd, sds !! k = Some sd ->
     read_sect data (sect_table_off hdr + Z.of_nat k * 40) = Some sd /\ sect_ok data sd) ->
  (forall k k' sd sd', (k < k')%nat -> sds !! k = Some sd -> sds !! k' = Some sd' -> disjoint_sects sd sd') ->
  (exists msg t, mira_load (Some data) type s = Panic msg t) \/
  (exists s', mira_load (Some data) type s = Ret None s') \/
  (exists s', mira_load (Some data) type s = Ret (Some (mkImage (entry_point hdr) 0 0)) s' /\
     forall sd, sd ∈ sds -> forall i, 0 <= i < memsz sd -> exists p bytes,
       pm_tr (ld_src s') (vpage_of (vaddr sd + i)) = Some p /\ ld_pages s' !! p = Some bytes /\
       bytes !! Z.to_nat (i mod 4096) =
         Some (if i <? filesz sd then data !!! Z.to_nat (file_off sd + i) else 0)).
Proof.
  intros Hpm Hid Hsz Hv Hh Hn Hr Hd. unfold mira_load. destruct (Z.ltb_spec (size_of data) 64); [lia|].
  rewrite Hv. run_step. cbn [negb]. rewrite Hh. run_step. rewrite Hn, Nat2Z.id.
  destruct (sections_loop_run data (sect_table_off hdr) sds 0 s Hr Hd Hpm Hid)
    as [(msg & t & E)|[(s' & E)|(s' & E & Hpl & _)]].
  - left. exists msg, t. by apply bind_Panic.
  - right; left. exists s'. by rewrite (bind_Ret _ _ _ _ _ E).
  - right; right. exists s'. rewrite (bind_Ret _ _ _ _ _ E). split; [done|].
    intros sd Hin i Hi. destruct (Hpl sd Hin i) as (p & bytes & (H1 & H2 & H3) & Hb); [lia|]. by exists p, bytes.
Qed.

(** A page that is not mapped at its own address - [paging_init] maps the first 2 MB only - is a page
    fault: nothing of the image is loaded. *)
Theorem section_page_faults data sd s p t :
  0 < memsz sd -> 0 <= filesz sd <= memsz sd -> 0 <= file_off sd -> file_off sd + filesz sd <= size_of data < 2 ^ 64 ->
  pm_alloc (ld_src s) = Ret p t -> p <> 0 -> pm_tr t (vpage_of p) = None ->
  mira_map_section (Some data) sd s = Stuck.
Proof.
  intros Hm Hf Ho Hsz E Hp Ht. unfold mira_map_section. destruct (Z.ltb_spec (memsz sd) (filesz sd)); [lia|].
  rewrite wrap_small by lia. destruct (Z.ltb_spec (size_of data) (file_off sd + filesz sd)); [lia|].
  destruct (section_rounds sd) as [|n] eqn:En; [unfold section_rounds in En; pose proof (Z.div_pos (memsz sd) 4096); lia|].
  cbn [section_loop]. destruct (Z.ltb_spec 0 (memsz sd)); [|lia].
  assert (ld_alloc s = Ret p (set_src t s)) as E1 by (unfold ld_alloc, zoom; by rewrite E).
  rewrite (bind_Ret _ _ _ _ _ E1). destruct (Z.eqb_spec p 0); [done|].
  destruct (page_fill data (file_off sd) (filesz sd) 0 (replicate 4096 0)) as [bytes|]; [|done]. rewrite bind_option.
  unfold bind at 1. unfold page_put. rewrite bind_get. cbn [ld_src set_src]. by rewrite Ht.
Qed.

(** [file_off + filesz] wraps in the section check: a section that begins just below
    2^64 passes it, and the copy then reads outside the image. *)
Theorem map_section_wraps data sd s :
  pm_ok (ld_src s) -> 0 < filesz sd <= memsz sd -> memsz sd < 2 ^ 64 -> size_of data <= file_off sd < 2 ^ 64 ->
  2 ^ 64 <= file_off sd + filesz sd <= 2 ^ 64 + size_of data ->
  mira_map_section (Some data) sd s = Stuck \/ exists s', mira_map_section (Some data) sd s = Ret false s'.
Proof.
  intros Hpm Hf Hm Ho Hw. unfold mira_map_section. destruct (Z.ltb_spec (memsz sd) (filesz sd)); [lia|].
  assert (u64 (file_off sd + filesz sd) = file_off sd + filesz sd - 2 ^ 64) as ->.
  { symmetry. apply (Z.mod_unique_pos _ _ 1); unfold size_of in *; lia. }
  destruct (Z.ltb_spec (size_of data) (file_off sd + filesz sd - 2 ^ 64)); [lia|].
  destruct (section_rounds sd) as [|n] eqn:En; [unfold section_rounds in En; pose proof (Z.div_pos (memsz sd) 4096); lia|].
  cbn [section_loop]. destruct (Z.ltb_spec 0 (memsz sd)); [|lia].
  destruct (ld_alloc_run s Hpm) as (p & s1 & E1 & _). rewrite (bind_Ret _ _ _ _ _ E1).
  destruct (p =? 0); [right; by exists s1|left]. unfold page_fill. destruct (Z.ltb_spec 0 (filesz sd)); [|lia].
  rewrite buf_slice_out; [done|]. unfold size_of in *. destruct (Z.ltb_spec (filesz sd - 0) 4096); lia.
Qed.

(** [elf_load] does not look at the size of the image: an image that ends before its
    program headers is read outside its bytes. *)
Theorem elf_load_unchecked data s phoff phentsize phnum entry :
  field data 0 4 = Some ELF_MAGIC -> field data 18 2 = Some 0x3E -> field data 24 8 = Some entry ->
  field data 32 8 = Some phoff -> field data 54 2 = Some phentsize -> field data 56 2 = Some phnum ->
  0 < phnum -> size_of data <= phoff -> elf_load dirty data s = Stuck.
Proof.
  intros E1 E2 E3 E4 E5 E6 Hn Ho. unfold elf_load. rewrite E1, bind_option. cbn [negb Z.eqb].
  rewrite Z.eqb_refl. cbn [negb]. rewrite E2, bind_option. rewrite Z.eqb_refl. cbn [negb].
  rewrite E3, bind_option, E4, bind_option, E5, bind_option, E6, bind_option.
  destruct (Z.to_nat phnum) as [|n] eqn:En; [lia|]. cbn [elf_segments]. unfold read_ph.
  by rewrite Z.mul_0_l, Z.add_0_r, (field_none data phoff 4) by lia.
Qed.

(** [elf_load] never clears a page: of a segment that fits one page and has bytes in the file, the
    bytes past the file's are those the page happened to hold. *)
Theorem elf_bss_dirty data ph s :
  pm_ok (ld_src s) -> ident (ld_src s) -> ld_pages s = ∅ -> (forall p, length (dirty p) = 4096%nat) ->
  0 < ph_filesz ph < ph_memsz ph -> ph_memsz ph <= 4096 -> 0 <= ph_vaddr ph < 2 ^ 48 ->
  0 <= ph_offset ph -> ph_offset ph + ph_filesz ph <= size_of data ->
  (exists msg t, elf_page_loop dirty 1 data ph 0 s = Panic msg t) \/
  (exists s', elf_page_loop dirty 1 data ph 0 s = Ret false s') \/
  (exists s' p bytes, elf_page_loop dirty 1 data ph 0 s = Ret true s' /\
     has s' (vpage_of (ph_vaddr ph)) p bytes /\
     forall k, ph_filesz ph <= k < 4096 -> bytes !! Z.to_nat k = dirty p !! Z.to_nat k).
Proof.
  intros Hpm Hid Hpg Hd Hf Hm Hv Ho Hsz. cbn [elf_page_loop]. destruct (Z.ltb_spec 0 (ph_memsz ph)); [|lia].
  destruct (ld_alloc_run s Hpm) as (p & s1 & E1 & Hpm1 & Hpg1 & Htr & Hu & Hid1 & Hp). rewrite (bind_Ret _ _ _ _ _ E1).
  destruct (Z.eqb_spec p 0) as [->|Hpz]; [right; left; by exists s1|]. destruct (Hp Hpz) as (Hnu & Hup & Hpb & Hpf).
  assert (pm_tr (ld_src s1) (vpage_of p) = Some p) as Hpi by (rewrite Htr; by apply Hid).
  assert (page_get dirty p s1 = Ret (dirty p) s1) as Eg.
  { unfold page_get. rewrite bind_get, Hpi, bind_option. unfold page_bytes. by rewrite Hpg1, Hpg, lookup_empty. }
  destruct (elf_fill_run data ph (dirty p)) as (bytes & E2 & Hb); [done..|].
  destruct (Z.ltb_spec 0 (ph_filesz ph)); [|lia]. rewrite bind_assoc, (bind_Ret _ _ _ _ _ Eg), E2, bind_assoc, bind_option. rewrite <- bind_assoc.
  destruct (page_round s p bytes (u64 (ph_vaddr ph + 0)) (Z.lor PAGE_PRESENT PAGE_WRITE) s1)
    as [(msg & t & E3)|(s2 & E3 & Hpm2 & Hhas & Hfr & _)]; try done.
  { left. exists msg, t. by apply bind_Panic. }
  rewrite (bind_Ret _ _ _ _ _ E3). rewrite (wrap_small 64 (ph_vaddr ph + 0)), Z.add_0_r in Hhas by lia.
  rewrite wrap_small by lia. destruct (Z.ltb_spec (0 + 4096) (ph_memsz ph)); [lia|].
  right; right. exists s2, p, bytes. done.
Qed.
End loader_properties.

(** ** Concrete images *)

Section image_witnesses.

(** Up to 99 pages, given out in order; pages are mapped at their own address until they are mapped elsewhere,
    and user space is above them. *)
Record toy := mkToy { ty_next : Z; ty_tr : gmap Z Z }.
Definition toy_tr (s : toy) (n : Z) : option Z :=
  match ty_tr s !! n with Some p => Some p | None => if (1 <=? n) && (n <? 100) then Some (n * 4096) else None end.
Definition toy_alloc : M toy Z := λ s,
  if ty_next s <? 100 then Ret (ty_next s * 4096) (mkToy (ty_next s + 1) (ty_tr s)) else Ret 0 s.
Definition toy_map (v p fl : Z) : M toy Z := λ s, Ret v (mkToy (ty_next s) (<[vpage_of v := p]> (ty_tr s))).
Definition toy_ok (s : toy) : Prop := 1 <= ty_next s <= 100.
Definition toy_free (s : toy) (a : Z) : Prop := exists q, ty_next s <= q < 100 /\ a = q * 4096.
Definition toy_used (s : toy) (a : Z) : Prop := exists q, 1 <= q < ty_next s /\ a = q * 4096.

Lemma toy_alloc_law s : toy_ok s -> exists p s', toy_alloc s = Ret p s' /\ toy_ok s' /\
  (forall n, toy_tr s' n = toy_tr s n) /\ (forall a, toy_used s a -> toy_used s' a) /\ (forall a, toy_free s' a -> toy_free s a) /\
  (p <> 0 -> ~ toy_used s p /\ toy_used s' p /\ 0 <= p < 2 ^ 64 /\ toy_free s p).
Proof.
  unfold toy_ok, toy_alloc, toy_used, toy_free. intros Hs. destruct (Z.ltb_spec (ty_next s) 100).
  - eexists _, _. split; [done|]. cbn [ty_next ty_tr]. split; [lia|]. split; [done|]. split; [|split].
    + intros a (q & Hq & ->). exists q. split; [lia|done].
    + intros a (q & Hq & ->). exists q. split; [lia|done].
    + intros _. split; [intros (q & Hq & E); lia|]. split; [|split; [lia|]]; exists (ty_next s); (split; [lia|done]).
  - eexists _, _. split; [done|]. split; [lia|]. done.
Qed.

Lemma toy_map_law v p fl s : toy_ok s -> 0 <= p < 2 ^ 64 -> 0 <= fl < 4096 -> toy_used s p ->
  (exists s', toy_map v p fl s = Panic "paging oom" s') \/
  exists s', toy_map v p fl s = Ret v s' /\ toy_ok s' /\ toy_tr s' (vpage_of v) = Some p /\
    (forall n, 100 <= n -> n <> vpage_of v -> forall a, toy_tr s n = Some a -> toy_tr s' n = Some a) /\
    (forall a, toy_used s a -> toy_used s' a) /\ (forall a, toy_free s' a -> toy_free s a) /\
    (100 <= vpage_of v -> forall a b, toy_free s' a -> toy_tr s (vpage_of a) = Some b -> toy_tr s' (vpage_of a) = Some b).
Proof.
  intros Hs _ _ Hu. right. eexists. split; [done|]. split; [done|]. unfold toy_tr. cbn [ty_tr].
  split; [by rewrite lookup_insert_eq|]. split; [intros n _ Hne a Ha; by rewrite lookup_insert_ne|]. split; [done|]. split; [done|].
  intros Hv a b (q & Hq & ->) Hb. unfold toy_ok in Hs. cbn [ty_next] in Hq.
  assert (vpage_of (q * 4096) = q) as Eq by (unfold vpage_of; rewrite Z.div_mul, Z.mod_small by lia; done).
  by rewrite Eq in *; rewrite lookup_insert_ne by lia.
Qed.

#[local] Instance toy_mapper : PageMapper toy := {|
  pm_alloc := toy_alloc;
  pm_map := toy_map;
  pm_ok := toy_ok;
  pm_used := toy_used;
  pm_tr := toy_tr;
  pm_user n := 100 <= n;
  pm_free := toy_free;
  pm_alloc_law := toy_alloc_law;
  pm_map_law := toy_map_law
|}.

Lemma toy_ident s : toy_ok s -> ty_tr s = ∅ -> ident s.
Proof.
  intros Hs E a (q & Hq & ->). unfold toy_ok in Hs. change (toy_tr s (vpage_of (q * 4096)) = Some (q * 4096)).
  assert (vpage_of (q * 4096) = q) as -> by (unfold vpage_of; rewrite Z.div_mul, Z.mod_small by lia; done).
  unfold toy_tr. rewrite E, lookup_empty. by destruct (Z.leb_spec 1 q), (Z.ltb_spec q 100); try lia.
Qed.

Definition toy_loader : loader toy := mkLoader (mkToy 1 ∅) ∅.

(** One section of four bytes in the file and eight in memory at 0x400000. *)
Definition small_image : list Z :=
  [130; 85; 132; 149; 212; 4; 0; 0; 1; 0; 1; 0; 64; 0; 0; 0; 0; 0; 0; 0; 0; 0; 64; 0; 0; 0; 0; 0;
   0; 0; 64; 0; 0; 0; 0; 0; 1; 0; 0; 0; 64; 0; 0; 0; 0; 0; 0; 0; 0; 0; 0; 0; 0; 0; 0; 0; 233; 244;
   2; 14; 235; 24; 34; 83; 1; 0; 0; 0; 5; 0; 0; 0; 0; 0; 64; 0; 0; 0; 0; 0; 8; 0; 0; 0; 0; 0; 0;
   0; 4; 0; 0; 0; 0; 0; 0; 0; 104; 0; 0; 0; 0; 0; 0; 0; 144; 144; 235; 254].
Definition small_header : mira_bin_header := mkHdr 5311088055682 1 1 64 0 4194304 4194304 1 64 0 5990377852187636969.
Definition small_sect : mira_sect_desc := mkSect 1 5 0x400000 8 4 104.

Lemma small_image_valid : mira_validate_header (Some small_image) 1 = Some true.
Proof. vm_compute. reflexivity. Qed.

Lemma small_sect_ok : sect_ok small_image small_sect.
Proof.
  split; cbn [filesz memsz file_off vaddr small_sect]; [lia| |reflexivity|lia|].
  - change (size_of small_image) with 108. lia.
  - intros v Hv. change (100 <= vpage_of v). unfold vpage_of. rewrite Z.mod_small; [apply Z.div_le_lower_bound; lia|].
    split; [apply Z.div_pos; lia|apply Z.div_lt_upper_bound; lia].
Qed.

Lemma tampered_image_rejected_witness :
  mira_validate_header (Some (take 100 small_image ++ 1 :: drop 101 small_image)) 1 = Some false.
Proof.
  apply (tampered_image_rejected 1 (take 100 small_image) 0 1 (drop 101 small_image)).
  - apply (bool_decide_unpack _). vm_compute. exact I.
  - unfold is_byte. lia.
  - lia.
  - exact small_image_valid.
Defined.

Lemma mira_load_spec_witness :
  exists s', mira_load (Some small_image) 1 toy_loader = Ret (Some (mkImage 0x400000 0 0)) s'.
Proof.
  destruct (mira_load_spec small_image 1 small_header [small_sect] toy_loader)
    as [(msg & t & E)|[(s' & E)|(s' & E & _)]].
  - split; cbn; lia.
  - by apply toy_ident.
  - change (size_of small_image) with 108. lia.
  - vm_compute. reflexivity.
  - vm_compute. reflexivity.
  - reflexivity.
  - intros [|k] sd; [|by destruct k]. intros [= <-]. split; [vm_compute; reflexivity|exact small_sect_ok].
  - intros [|k] [|k'] sd sd' Hk; [lia| |lia|]; intros [= ] E'; by destruct k'.
  - exfalso. revert E. vm_compute. discriminate.
  - exfalso. revert E. vm_compute. discriminate.
  - exists s'. exact E.
Defined.

Lemma map_section_wraps_witness :
  let sd := mkSect 1 5 0x400000 32 32 (2 ^ 64 - 16) in
  mira_map_section (Some small_image) sd toy_loader = Stuck \/
  exists s', mira_map_section (Some small_image) sd toy_loader = Ret false s'.
Proof.
  apply map_section_wraps; cbn [filesz memsz file_off]; try (change (size_of small_image) with 108); try lia.
  split; cbn; lia.
Defined.

(** An ELF header alone, which announces one program header at offset 64. *)
Definition elf_stub : list Z :=
  [127; 69; 76; 70; 0; 0; 0; 0; 0; 0; 0; 0; 0; 0; 0; 0; 2; 0; 62; 0; 1; 0; 0; 0; 0; 0; 64; 0; 0;
   0; 0; 0; 64; 0; 0; 0; 0; 0; 0; 0; 0; 0; 0; 0; 0; 0; 0; 0; 0; 0; 0; 0; 64; 0; 56; 0; 1; 0; 0; 0;
   0; 0; 0; 0].
Definition no_bytes (p : Z) : list Z := replicate 4096 (p / 4096).

Lemma elf_load_unchecked_witness : elf_load no_bytes elf_stub toy_loader = Stuck.
Proof.
  apply (elf_load_unchecked no_bytes elf_stub toy_loader 64 56 1 0x400000);
    [vm_compute; reflexivity..|lia|change (size_of elf_stub) with 64; lia].
Defined.

Lemma elf_bss_dirty_witness :
  let ph := mkPh 1 0 0x400000 4 8 in
  (exists msg t, elf_page_loop no_bytes 1 elf_stub ph 0 toy_loader = Panic msg t) \/
  (exists s', elf_page_loop no_bytes 1 elf_stub ph 0 toy_loader = Ret false s') \/
  (exists s' p bytes, elf_page_loop no_bytes 1 elf_stub ph 0 toy_loader = Ret true s' /\
     has s' 0x400 p bytes /\ forall k, 4 <= k < 4096 -> bytes !! Z.to_nat k = no_bytes p !! Z.to_nat k).
Proof.
  apply (elf_bss_dirty no_bytes elf_stub (mkPh 1 0 0x400000 4 8) toy_loader);
    cbn [ph_filesz ph_memsz ph_vaddr ph_offset]; try lia.
  - split; cbn; lia.
  - by apply toy_ident.
  - reflexivity.
  - intros p. unfold no_bytes. by rewrite length_replicate.
  - change (size_of elf_stub) with 64. lia.
Defined.
End image_witnesses.
