(* ===== verification/Ports.v ===== *)
(** * Port input and output (arch/x86_64/cpu.h)

    The devices are outside the program: what they answer to [inb] and [inw] is a list,
    taken from the front, and every access is recorded, the last one first.  When the
    list is used up the program waits forever, which is the outcome [NoFuel]. *)

From S2P Require Import Prelude.

Inductive port_event :=
  | Inb (port val : Z)
  | Outb (port val : Z)
  | Inw (port val : Z)
  | Outw (port val : Z).

Record pio := mkPio { answers : list Z; port_log : list port_event }.

Definition outb (port val : Z) : M pio unit := modify (λ s, mkPio (answers s) (Outb port (u8 val) :: port_log s)).
Definition outw (port val : Z) : M pio unit := modify (λ s, mkPio (answers s) (Outw port (u16 val) :: port_log s)).
Definition inb (port : Z) : M pio Z := λ s,
  match answers s with
  | [] => NoFuel
  | v :: r => Ret (u8 v) (mkPio r (Inb port (u8 v) :: port_log s))
  end.
Definition inw (port : Z) : M pio Z := λ s,
  match answers s with
  | [] => NoFuel
  | v :: r => Ret (u16 v) (mkPio r (Inw port (u16 v) :: port_log s))
  end.

(** [do { v = inb(port); } while (!done(v));], [n] more answers being there. *)
Fixpoint poll_loop (n : nat) (port : Z) (done : Z -> bool) : M pio unit :=
  match n with
  | O => nofuel
  | S n' => v <-- inb port ;; if done v then ret tt else poll_loop n' port done
  end.
Definition poll_until (port : Z) (done : Z -> bool) : M pio unit :=
  s <-- get ;; poll_loop (S (length (answers s))) port done.

Lemma inb_run port v r l : 0 <= v < 256 -> inb port (mkPio (v :: r) l) = Ret v (mkPio r (Inb port v :: l)).
Proof. intros. unfold inb. simpl. by rewrite !wrap_small by lia. Qed.

Lemma poll_loop_run n port done busy v r l :
  Forall (λ b, 0 <= b < 256 /\ done b = false) busy -> 0 <= v < 256 -> done v = true -> (length busy < n)%nat ->
  poll_loop n port done (mkPio (busy ++ v :: r) l) =
    Ret tt (mkPio r (Inb port v :: rev (Inb port <$> busy) ++ l)).
Proof.
  intros Hb Hv Hd. revert n l. induction Hb as [|b busy [Hbb Hbd] Hb IH]; intros [|n] l Hn; try (simpl in Hn; lia).
  - cbn [poll_loop app]. rewrite (bind_Ret _ _ _ _ _ (inb_run port v r l Hv)), Hd. done.
  - cbn [poll_loop app]. rewrite (bind_Ret _ _ _ _ _ (inb_run port b _ l Hbb)), Hbd.
    rewrite IH by (simpl in Hn; lia). cbn [fmap list_fmap rev]. by rewrite <- app_assoc.
Qed.

(** Waiting ends with the first answer that satisfies the condition. *)
Lemma poll_until_run port done busy v r l :
  Forall (λ b, 0 <= b < 256 /\ done b = false) busy -> 0 <= v < 256 -> done v = true ->
  poll_until port done (mkPio (busy ++ v :: r) l) =
    Ret tt (mkPio r (Inb port v :: rev (Inb port <$> busy) ++ l)).
Proof.
  intros. unfold poll_until. rewrite bind_get. apply poll_loop_run; [done..|].
  simpl. rewrite length_app. simpl. lia.
Qed.
