(* ===== verification/Input.v ===== *)
(** * Keyboard, mouse and line input (drivers/ps2/keyboard.c, drivers/ps2/mouse.c, ui/input.c)

    The ring buffer of scancodes, the translation to characters, the packets of the mouse
    and the line that [input_poll] edits. *)

From S2P Require Import Prelude Ports.

(** ** Keyboard *)

Definition KBD_BUF_SIZE : Z := 128.

Record kbd := mkKbd {
  kbd_buffer : list Z;
  kbd_head : Z;
  kbd_tail : Z;
  shift_pressed : Z;
  caps_lock : Z
}.

(** The tables of [scancode_map], as character codes. *)
Definition normal : list Z :=
  [0; 27; 49; 50; 51; 52; 53; 54; 55; 56; 57; 48; 45; 61; 8;
   9; 113; 119; 101; 114; 116; 121; 117; 105; 111; 112; 91; 93; 10;
   0; 97; 115; 100; 102; 103; 104; 106; 107; 108; 59; 39; 96;
   0; 92; 122; 120; 99; 118; 98; 110; 109; 44; 46; 47; 0;
   42; 0; 32].
Definition shifted : list Z :=
  [0; 27; 33; 64; 35; 36; 37; 94; 38; 42; 40; 41; 95; 43; 8;
   9; 81; 87; 69; 82; 84; 89; 85; 73; 79; 80; 123; 125; 10;
   0; 65; 83; 68; 70; 71; 72; 74; 75; 76; 58; 34; 126;
   0; 124; 90; 88; 67; 86; 66; 78; 77; 60; 62; 63; 0;
   42; 0; 32].

Definition scancode_map (caps sc shift : Z) : option Z :=
  if Z.of_nat (length normal) <=? sc then Some 0
  else
    c ← aget (if truth shift then shifted else normal) sc;
    let c := if negb (truth shift) && truth caps && (97 <=? c) && (c <=? 122) then c - 97 + 65 else c in
    Some (if truth shift && truth caps && (65 <=? c) && (c <=? 90) then c - 65 + 97 else c).

Definition keyboard_scancode_to_ascii (k : kbd) (scancode : Z) : option Z :=
  if 0x80 <=? scancode then Some 0
  else scancode_map (caps_lock k) scancode (Z.lxor (shift_pressed k) (caps_lock k)).

Record console := mkCon { c_io : pio; c_kbd : kbd }.
Definition with_io (i : pio) (s : console) : console := mkCon i (c_kbd s).
Definition with_kbd (k : kbd) (s : console) : console := mkCon (c_io s) k.
Definition c_inb (port : Z) : M console Z := zoom c_io with_io (inb port).

Definition kbd_push (sc : Z) : M kbd Z :=
  k <-- get ;;
  let next := (kbd_head k + 1) mod KBD_BUF_SIZE in
  if next =? kbd_tail k then ret (-1)
  else
    b <-- of_option (aset (kbd_buffer k) (kbd_head k) sc) ;;
    put (mkKbd b next (kbd_tail k) (shift_pressed k) (caps_lock k)) ;;;
    ret 0.

(** [while (inb(0x64) & 1) inb(0x60);], [n] bounds the rounds. *)
Fixpoint drain_loop (n : nat) : M console unit :=
  match n with
  | O => nofuel
  | S n' =>
      v <-- c_inb 0x64 ;;
      if truth (Z.land v 1) then c_inb 0x60 ;;; drain_loop n' else ret tt
  end.

Definition keyboard_init : M console unit :=
  s <-- get ;;
  put (with_kbd (mkKbd (kbd_buffer (c_kbd s)) 0 0 0 0) s) ;;;
  drain_loop (S (length (answers (c_io s)))).

Definition set_shift (b : Z) (k : kbd) : kbd := mkKbd (kbd_buffer k) (kbd_head k) (kbd_tail k) b (caps_lock k).
Definition set_caps (b : Z) (k : kbd) : kbd := mkKbd (kbd_buffer k) (kbd_head k) (kbd_tail k) (shift_pressed k) b.

(** [keyboard_on_irq] after the scancode was read. *)
Definition kbd_scan (sc : Z) : M kbd unit :=
  if (sc =? 0x2A) || (sc =? 0x36) then modify (set_shift 1)
  else if (sc =? 0xAA) || (sc =? 0xB6) then modify (set_shift 0)
  else if sc =? 0x3A then modify (λ k, set_caps (if caps_lock k =? 0 then 1 else 0) k)
  else if sc <? 0x80 then kbd_push sc ;;; ret tt
  else ret tt.

Definition keyboard_on_irq : M console unit :=
  sc <-- c_inb 0x60 ;; zoom c_kbd with_kbd (kbd_scan sc).

Definition keyboard_poll : M kbd (option Z) :=
  k <-- get ;;
  if kbd_head k =? kbd_tail k then ret None
  else
    sc <-- of_option (aget (kbd_buffer k) (kbd_tail k)) ;;
    put (mkKbd (kbd_buffer k) (kbd_head k) ((kbd_tail k + 1) mod KBD_BUF_SIZE) (shift_pressed k) (caps_lock k)) ;;;
    ret (Some sc).

(** ** Line input *)

Definition INPUT_MAX : Z := 256.

Record input := mkInput { input_buf : list Z; input_len : Z; input_changed : bool }.

Definition buf_set (i c : Z) (s : input) : option (list Z) := aset (input_buf s) i c.

Definition input_init : M input unit :=
  s <-- get ;; b <-- of_option (buf_set 0 0 s) ;; put (mkInput b 0 false).

Definition input_clear : M input unit :=
  s <-- get ;; b <-- of_option (buf_set 0 0 s) ;; put (mkInput b 0 true).

(** What [input_poll] does with one character. *)
Definition input_char (c : Z) : M input unit :=
  s <-- get ;;
  if c =? 8 then
    if 0 <? input_len s then
      b <-- of_option (buf_set (input_len s - 1) 0 s) ;; put (mkInput b (input_len s - 1) true)
    else ret tt
  else if c =? 10 then
    b <-- of_option (buf_set (input_len s) 0 s) ;;
    put (mkInput b 0 (input_changed s)) ;;;
    s <-- get ;;
    b <-- of_option (buf_set 0 0 s) ;; put (mkInput b 0 true)
  else if (32 <=? s8 c) && (input_len s <? INPUT_MAX - 1) then
    b <-- of_option (buf_set (input_len s) c s) ;;
    put (mkInput b (input_len s + 1) (input_changed s)) ;;;
    s <-- get ;;
    b <-- of_option (buf_set (input_len s) 0 s) ;; put (mkInput b (input_len s) true)
  else ret tt.

Record terminal := mkTerm { t_kbd : kbd; t_input : input }.
Definition term_kbd (k : kbd) (t : terminal) : terminal := mkTerm k (t_input t).
Definition term_input (i : input) (t : terminal) : terminal := mkTerm (t_kbd t) i.

(** [while (keyboard_poll(&sc)) ...] *)
Fixpoint input_loop (n : nat) : M terminal unit :=
  match n with
  | O => nofuel
  | S n' =>
      r <-- zoom t_kbd term_kbd keyboard_poll ;;
      match r with
      | None => ret tt
      | Some sc =>
          t <-- get ;;
          c <-- of_option (keyboard_scancode_to_ascii (t_kbd t) sc) ;;
          zoom t_input term_input (input_char c) ;;;
          input_loop n'
      end
  end.

(** The ring holds fewer than [KBD_BUF_SIZE] scancodes. *)
Definition input_poll : M terminal unit := input_loop (Z.to_nat KBD_BUF_SIZE).

Definition input_buffer : M input (list Z) := gets input_buf.
Definition input_length : M input Z := gets input_len.
Definition input_dirty : M input bool := gets input_changed.
Definition input_clear_dirty : M input unit := modify (λ s, mkInput (input_buf s) (input_len s) false).

(** [shell_tick] (ui/shell.c) up to the call of the interpreter: the command that is
    executed, if one is, and the text that the command field shows. *)
Definition shell_tick : M terminal (option (list Z) * list Z) :=
  prev <-- zoom t_input term_input input_length ;;
  buf <-- zoom t_input term_input input_buffer ;;
  let snap_len := if prev <? INPUT_MAX then prev else INPUT_MAX - 1 in
  let snapshot := take (Z.to_nat snap_len) buf in
  input_poll ;;;
  buf <-- zoom t_input term_input input_buffer ;;
  len <-- zoom t_input term_input input_length ;;
  let len := if INPUT_MAX <=? len then INPUT_MAX - 1 else len in
  let cmd_buf := take (Z.to_nat len) buf in
  if (0 <? prev) && (len =? 0) then
    ret (if truth (default 0 (head snapshot)) then Some snapshot else None, [])
  else ret (None, cmd_buf).

(** ** Mouse *)

Record mouse := mkMouse {
  mouse_x : Z;
  mouse_y : Z;
  mouse_buttons : Z;
  mouse_moved : bool;
  mouse_cycle : Z;
  mouse_packet : list Z
}.

Definition mouse_set (m : mouse) (cycle : Z) (p : list Z) : mouse :=
  mkMouse (mouse_x m) (mouse_y m) (mouse_buttons m) (mouse_moved m) cycle p.

(** The movement byte [d], with [sign] the sign bit of the packet: [int8_t d; d |= 0xF0]. *)
Definition mouse_delta (d sign : Z) : Z :=
  if truth sign then s8 (Z.lor (s8 d) 0xF0) else s8 d.

(** The byte [b] arrives. *)
Definition mouse_byte (b : Z) (m : mouse) : mouse :=
  let p := <[Z.to_nat (mouse_cycle m) := b]> (mouse_packet m) in
  if mouse_cycle m =? 0 then mouse_set m (if truth (Z.land b 0x08) then 1 else 0) p
  else if mouse_cycle m =? 1 then mouse_set m 2 p
  else if mouse_cycle m =? 2 then
    let flags := p !!! 0%nat in
    let dx := mouse_delta (p !!! 1%nat) (Z.land flags 0x10) in
    let dy := mouse_delta (p !!! 2%nat) (Z.land flags 0x20) in
    let x := s32 (mouse_x m + dx) in
    let y := s32 (mouse_y m - dy) in
    mkMouse (if x <? 0 then 0 else x) (if y <? 0 then 0 else y) (Z.land flags 0x07) true 0 p
  else m.

Definition mouse_get_button (button : Z) (m : mouse) : bool :=
  truth (Z.land (mouse_buttons m) (Z.shiftl 1 button)).
Definition mouse_clear_moved (m : mouse) : mouse :=
  mkMouse (mouse_x m) (mouse_y m) (mouse_buttons m) false (mouse_cycle m) (mouse_packet m).

(** [mouse_wait]: at most 100000 reads of the status port. *)
Fixpoint mouse_wait_loop (timeout : nat) (type : Z) : M pio unit :=
  match timeout with
  | O => ret tt
  | S t =>
      v <-- inb 0x64 ;;
      if type =? 0 then (if truth (Z.land v 1) then ret tt else mouse_wait_loop t type)
      else if truth (Z.land v 2) then mouse_wait_loop t type else ret tt
  end.
Definition mouse_wait (type : Z) : M pio unit := mouse_wait_loop (Z.to_nat 100000) type.

Definition mouse_write (data : Z) : M pio unit :=
  mouse_wait 1 ;;; outb 0x64 0xD4 ;;; mouse_wait 1 ;;; outb 0x60 data.
Definition mouse_read : M pio Z := mouse_wait 0 ;;; inb 0x60.

(** [mouse_irq_handler]: a byte is read in each of the three cycles. *)
Definition mouse_irq_handler : M (pio * mouse) unit :=
  s <-- get ;;
  if (0 <=? mouse_cycle s.2) && (mouse_cycle s.2 <=? 2) then
    b <-- zoom fst (λ i s, (i, s.2)) (inb 0x60) ;;
    modify (λ s, (s.1, mouse_byte b s.2))
  else ret tt.

Definition mouse_init_driver : M (pio * mouse) Z :=
  zoom fst (λ i s, (i, s.2)) (mouse_wait 1 ;;; outb 0x64 0xA8 ;;; mouse_wait 1 ;;; mouse_write 0xF4 ;;; mouse_read) ;;;
  modify (λ s, (s.1, mkMouse 0 0 0 false 0 (mouse_packet s.2))) ;;;
  ret 0.

(** ** The ring buffer holds a queue *)

Section ring.
Implicit Types (k : kbd) (q : list Z).

(** The scancodes waiting in [k], oldest first, are [q]. *)
Record ring k q : Prop := {
  rg_length : length (kbd_buffer k) = Z.to_nat KBD_BUF_SIZE;
  rg_head : 0 <= kbd_head k < KBD_BUF_SIZE;
  rg_tail : 0 <= kbd_tail k < KBD_BUF_SIZE;
  rg_count : Z.of_nat (length q) = (kbd_head k - kbd_tail k) mod KBD_BUF_SIZE;
  rg_items : forall j, 0 <= j < Z.of_nat (length q) ->
    kbd_buffer k !! Z.to_nat ((kbd_tail k + j) mod KBD_BUF_SIZE) = q !! Z.to_nat j
}.

Lemma mod_128_cases x : -128 <= x < 256 -> x mod 128 = x \/ x mod 128 = x - 128 \/ x mod 128 = x + 128.
Proof.
  intros. destruct (decide (x < 0)); [right; right|destruct (decide (x < 128)); [left|right; left]].
  - symmetry. apply (Z.mod_unique_pos _ _ (-1)); lia.
  - apply Z.mod_small. lia.
  - symmetry. apply (Z.mod_unique_pos _ _ 1); lia.
Qed.

Ltac mod128 := unfold KBD_BUF_SIZE in *;
  repeat match goal with
  | |- context [?x mod 128] => let E := fresh in pose proof (mod_128_cases x ltac:(lia)) as E;
      pose proof (Z.mod_pos_bound x 128 ltac:(lia)); generalize dependent (x mod 128); intros
  | H : context [?x mod 128] |- _ => pose proof (mod_128_cases x ltac:(lia));
      pose proof (Z.mod_pos_bound x 128 ltac:(lia)); generalize dependent (x mod 128); intros
  end.

Lemma kbd_push_run k q sc :
  ring k q ->
  (Z.of_nat (length q) < KBD_BUF_SIZE - 1 /\ exists k', kbd_push sc k = Ret 0 k' /\ ring k' (q ++ [sc]) /\
     shift_pressed k' = shift_pressed k /\ caps_lock k' = caps_lock k) \/
  (Z.of_nat (length q) = KBD_BUF_SIZE - 1 /\ kbd_push sc k = Ret (-1) k).
Proof.
  intros [Hl Hh Ht Hc Hi]. unfold kbd_push. run_step.
  destruct (Z.eqb_spec ((kbd_head k + 1) mod KBD_BUF_SIZE) (kbd_tail k)) as [E|E].
  { right. split; [|done]. rewrite Hc. clear Hi Hc. mod128; lia. }
  assert (Z.of_nat (length q) < KBD_BUF_SIZE - 1) as Hlt by (rewrite Hc; clear Hi Hc; mod128; lia).
  left. split; [done|]. rewrite aset_in by (rewrite Hl; unfold KBD_BUF_SIZE in *; lia). do 2 run_step.
  eexists. split; [reflexivity|]. split; [|done]. split; cbn [kbd_buffer kbd_head kbd_tail].
  - by rewrite length_insert.
  - by apply Z.mod_pos_bound.
  - done.
  - rewrite length_app. cbn [length]. clear Hi. mod128; lia.
  - intros j Hj. rewrite length_app in Hj. cbn [length] in Hj.
    assert (j < Z.of_nat (length q) \/ j = Z.of_nat (length q)) as [Hjq| ->] by lia.
    + rewrite lookup_app_l by lia. rewrite <- Hi by lia. apply list_lookup_insert_ne.
      clear Hi. assert ((kbd_tail k + j) mod KBD_BUF_SIZE <> kbd_head k) by (mod128; lia).
      pose proof (Z.mod_pos_bound (kbd_tail k + j) KBD_BUF_SIZE ltac:(done)). lia.
    + rewrite Nat2Z.id, lookup_app_r, Nat.sub_diag by lia. cbn [lookup list_lookup].
      replace ((kbd_tail k + Z.of_nat (length q)) mod KBD_BUF_SIZE) with (kbd_head k).
      * apply list_lookup_insert_eq. rewrite Hl. unfold KBD_BUF_SIZE in *. lia.
      * clear Hi. mod128; lia.
Qed.

Lemma keyboard_poll_run k q :
  ring k q ->
  match q with
  | [] => keyboard_poll k = Ret None k
  | sc :: r => exists k', keyboard_poll k = Ret (Some sc) k' /\ ring k' r /\
      shift_pressed k' = shift_pressed k /\ caps_lock k' = caps_lock k
  end.
Proof.
  intros [Hl Hh Ht Hc Hi]. unfold keyboard_poll. destruct q as [|sc r]; run_step.
  - destruct (Z.eqb_spec (kbd_head k) (kbd_tail k)); [done|]. exfalso. cbn [length] in Hc. clear Hi. mod128; lia.
  - destruct (Z.eqb_spec (kbd_head k) (kbd_tail k)) as [E|E].
    { rewrite E, Z.sub_diag in Hc. cbn [length] in Hc. by rewrite Z.mod_0_l in Hc. }
    pose proof (Hi 0 ltac:(simpl; lia)) as H0. rewrite Z.add_0_r, Z.mod_small in H0 by done. cbn [lookup list_lookup] in H0.
    rewrite (proj2 (aget_Some _ _ sc)) by (split; [lia|done]). do 2 run_step. eexists. split; [reflexivity|].
    split; [|done]. cbn [length] in Hc, Hi. split; cbn [kbd_buffer kbd_head kbd_tail].
    + done.
    + done.
    + by apply Z.mod_pos_bound.
    + clear Hi. mod128; lia.
    + intros j Hj. replace (((kbd_tail k + 1) mod KBD_BUF_SIZE + j) mod KBD_BUF_SIZE) with ((kbd_tail k + (j + 1)) mod KBD_BUF_SIZE).
      * rewrite Hi by lia. by replace (Z.to_nat (j + 1)) with (S (Z.to_nat j)) by lia.
      * rewrite Z.add_mod_idemp_l by done. f_equal. lia.
Qed.
End ring.

(** ** The edited line *)

Section line.
Implicit Types (l : list Z) (i : input).

(** The input buffer holds the line [l], terminated. *)
Record line_rep i l : Prop := {
  ln_length : length (input_buf i) = Z.to_nat INPUT_MAX;
  ln_len : input_len i = Z.of_nat (length l);
  ln_max : Z.of_nat (length l) < INPUT_MAX;
  ln_chars : take (length l) (input_buf i) = l;
  ln_end : input_buf i !! length l = Some 0
}.

(** What a character does to a line. *)
Definition edit l (c : Z) : list Z :=
  if c =? 8 then take (length l - 1) l
  else if c =? 10 then []
  else if (32 <=? c) && (Z.of_nat (length l) <? INPUT_MAX - 1) then l ++ [c]
  else l.

Lemma cut_rep i n b :
  length (input_buf i) = Z.to_nat INPUT_MAX -> (n < Z.to_nat INPUT_MAX)%nat ->
  line_rep (mkInput (<[n := 0]> (input_buf i)) (Z.of_nat n) b) (take n (input_buf i)).
Proof.
  intros Hl Hn. assert (length (take n (input_buf i)) = n) as Et by (rewrite length_take; lia).
  split; cbn [input_buf input_len].
  - by rewrite length_insert.
  - by rewrite Et.
  - rewrite Et. unfold INPUT_MAX in *. lia.
  - rewrite Et. by rewrite take_insert_ge by lia.
  - rewrite Et. apply list_lookup_insert_eq. lia.
Qed.

Lemma input_char_run i l c :
  line_rep i l -> 0 <= c < 128 -> exists i', input_char c i = Ret tt i' /\ line_rep i' (edit l c).
Proof.
  intros [Hb Hl Hm Hc He] Hcb. unfold input_char, edit, buf_set. run_step. unfold INPUT_MAX in *.
  destruct (Z.eqb_spec c 8) as [->|H8].
  - rewrite Hl. destruct (Z.ltb_spec 0 (Z.of_nat (length l))) as [Hpos|Hz].
    + rewrite aset_in by lia. run_step. eexists. split; [reflexivity|].
      pose proof (cut_rep i (length l - 1) true Hb ltac:(unfold INPUT_MAX; lia)) as Hr.
      replace (take (length l - 1) l) with (take (length l - 1) (input_buf i)) 
        by (transitivity (take (length l - 1) (take (length l) (input_buf i))); [rewrite take_take; f_equal; lia|by rewrite Hc]).
      replace (Z.of_nat (length l) - 1) with (Z.of_nat (length l - 1)) by lia. by rewrite Nat2Z.id.
    + exists i. split; [done|]. destruct l; [|simpl in Hz; lia]. by split.
  - destruct (Z.eqb_spec c 10) as [->|H10].
    + rewrite Hl, aset_in by lia. run_step. run_step. run_step. cbn [input_buf].
      rewrite aset_in by (rewrite length_insert; lia). run_step. eexists. split; [reflexivity|].
      rewrite Nat2Z.id. change (Z.to_nat 0) with 0%nat.
      apply (cut_rep (mkInput (<[length l := 0]> (input_buf i)) 0 (input_changed i)) 0 true);
        [exact (eq_trans (length_insert _ _ _) Hb)|unfold INPUT_MAX; lia].
    + assert (s8 c = c) as -> by (unfold signed; rewrite wrap_small by lia; by destruct (Z.ltb_spec c (2 ^ (8 - 1))); [|lia]).
      destruct (Z.leb_spec 32 c); cbn [andb]; [|by exists i].
      rewrite Hl. destruct (Z.ltb_spec (Z.of_nat (length l)) (256 - 1)) as [Hlt|Hge]; [|by exists i].
      rewrite aset_in by lia. do 3 run_step. cbn [input_buf input_len].
      rewrite aset_in by (rewrite length_insert; lia). run_step. eexists. split; [reflexivity|].
      pose proof (cut_rep (mkInput (<[length l := c]> (input_buf i)) 0 true) (S (length l)) true) as Hr.
      change (input_buf (mkInput (<[length l := c]> (input_buf i)) 0 true)) with (<[length l := c]> (input_buf i)) in Hr.
      rewrite length_insert in Hr.
      assert (take (S (length l)) (<[length l := c]> (input_buf i)) = l ++ [c]) as Et.
      { rewrite (take_S_r _ _ c) by (apply list_lookup_insert_eq; lia). rewrite take_insert_ge by lia. by rewrite Hc. }
      rewrite Et in Hr. replace (Z.of_nat (length l) + 1) with (Z.of_nat (S (length l))) by lia.
      rewrite !Nat2Z.id. apply Hr; [done|unfold INPUT_MAX; lia].
Qed.

Definition ascii_or0 (k : kbd) (sc : Z) : Z := default 0 (keyboard_scancode_to_ascii k sc).

Definition is_bit (x : Z) : Prop := x = 0 \/ x = 1.

(** Both tables at once: letters have their upper case shifted, nothing else has. *)
Lemma tables_agree :
  Forall (λ p, 0 <= p.1 < 128 /\ 0 <= p.2 < 128 /\
    (97 <= p.1 <= 122 /\ p.2 = p.1 - 32 \/ ~ 97 <= p.1 <= 122 /\ ~ 65 <= p.2 <= 90)) (zip normal shifted).
Proof. apply (bool_decide_unpack _). vm_compute. exact I. Qed.

Lemma tables_at sc :
  0 <= sc < 58 -> exists n s, aget normal sc = Some n /\ aget shifted sc = Some s /\ 0 <= n < 128 /\ 0 <= s < 128 /\
    (97 <= n <= 122 /\ s = n - 32 \/ ~ 97 <= n <= 122 /\ ~ 65 <= s <= 90).
Proof.
  intros Hsc. destruct (aget_is_Some normal sc) as [n Hn]; [change (length normal) with 58%nat; lia|].
  destruct (aget_is_Some shifted sc) as [s Hs]; [change (length shifted) with 58%nat; lia|].
  exists n, s. split; [done|]. split; [done|].
  apply aget_Some in Hn as [_ Hn], Hs as [_ Hs]. pose proof tables_agree as Ht. rewrite Forall_lookup in Ht.
  apply (Ht (Z.to_nat sc) (n, s)). apply lookup_zip_with_Some. by exists n, s.
Qed.

(** The translation of every key, in every state of shift and caps lock. *)
Lemma ascii_run k sc n s :
  is_bit (shift_pressed k) -> is_bit (caps_lock k) -> aget normal sc = Some n -> aget shifted sc = Some s ->
  keyboard_scancode_to_ascii k sc =
    Some (if (97 <=? n) && (n <=? 122) then if truth (shift_pressed k) then s else n
          else if truth (Z.lxor (shift_pressed k) (caps_lock k)) then s else n).
Proof.
  intros Hs Hc En Es. pose proof (aget_bound _ _ _ En) as Hb. change (length normal) with 58%nat in Hb.
  destruct (tables_at sc Hb) as (n' & s' & En' & Es' & Hnb & Hsb & Hcase). simplify_eq.
  unfold keyboard_scancode_to_ascii, scancode_map. destruct (Z.leb_spec 0x80 sc); [lia|].
  change (Z.of_nat (length normal)) with 58. destruct (Z.leb_spec 58 sc); [lia|].
  destruct Hs as [-> | ->], Hc as [-> | ->]; change (Z.lxor 0 0) with 0; change (Z.lxor 0 1) with 1;
    change (Z.lxor 1 0) with 1; change (Z.lxor 1 1) with 0; change (truth 0) with false; change (truth 1) with true;
    cbn [negb andb]; cbv iota; rewrite ?En, ?Es; cbn [mbind option_bind].
  all: repeat match goal with |- context [?a <=? ?b] => destruct (Z.leb_spec a b); cbn [andb] end.
  all: first [reflexivity | f_equal; lia | exfalso; lia].
Qed.

Lemma ascii_total k sc :
  is_bit (shift_pressed k) -> is_bit (caps_lock k) -> 0 <= sc ->
  exists c, keyboard_scancode_to_ascii k sc = Some c /\ 0 <= c < 128.
Proof.
  intros Hs Hc Hsc. destruct (decide (sc < 58)) as [Hlt|Hge].
  - destruct (tables_at sc) as (n & s & En & Es & Hn & Hsb & _); [lia|].
    rewrite (ascii_run k sc n s Hs Hc En Es). eexists. split; [done|]. repeat case_match; lia.
  - exists 0. split; [|lia]. unfold keyboard_scancode_to_ascii, scancode_map.
    destruct (0x80 <=? sc); [done|]. change (Z.of_nat (length normal)) with 58. by destruct (Z.leb_spec 58 sc); [|lia].
Qed.

Lemma input_loop_run n k i q l :
  ring k q -> Forall (λ sc, 0 <= sc) q -> is_bit (shift_pressed k) -> is_bit (caps_lock k) -> line_rep i l ->
  (length q < n)%nat ->
  exists k' i', input_loop n (mkTerm k i) = Ret tt (mkTerm k' i') /\ ring k' [] /\
    line_rep i' (foldl edit l (ascii_or0 k <$> q)) /\ shift_pressed k' = shift_pressed k /\ caps_lock k' = caps_lock k.
Proof.
  revert k i q l. induction n as [|n IH]; intros k i q l Hr Hq Hs Hc Hl Hn; [lia|].
  cbn [input_loop]. pose proof (keyboard_poll_run k q Hr) as Hp. destruct q as [|sc q].
  - rewrite (bind_Ret _ _ _ None (mkTerm k i)) by (unfold zoom; cbn [t_kbd]; by rewrite Hp). by exists k, i.
  - destruct Hp as (k' & E & Hr' & Es & Ec). apply Forall_cons in Hq as [Hsc Hq].
    rewrite (bind_Ret _ _ _ (Some sc) (mkTerm k' i)) by (unfold zoom; cbn [t_kbd]; by rewrite E).
    run_step. cbn [t_kbd]. destruct (ascii_total k' sc) as (c & Ea & Hcb); [congruence..|]. rewrite Ea. run_step.
    destruct (input_char_run i l c Hl Hcb) as (i' & Ei & Hl').
    rewrite (bind_Ret _ _ _ tt (mkTerm k' i')) by (unfold zoom; cbn [t_input]; by rewrite Ei).
    destruct (IH k' i' q (edit l c)) as (k2 & i2 & E2 & Hr2 & Hl2 & Es2 & Ec2); [done|done|congruence..|done|simpl in Hn; lia|].
    exists k2, i2. split; [done|]. split; [done|]. split; [|by rewrite Es2, Ec2]. cbn [fmap list_fmap foldl].
    assert (forall x, ascii_or0 k' x = ascii_or0 k x) as Eext
      by (intros x; unfold ascii_or0, keyboard_scancode_to_ascii; by rewrite Es, Ec).
    replace (ascii_or0 k sc) with c by (rewrite <- Eext; unfold ascii_or0; by rewrite Ea).
    by rewrite (list_fmap_ext _ (ascii_or0 k') q) by auto.
Qed.

Lemma input_poll_run k i q l :
  ring k q -> Forall (λ sc, 0 <= sc) q -> is_bit (shift_pressed k) -> is_bit (caps_lock k) -> line_rep i l ->
  exists k' i', input_poll (mkTerm k i) = Ret tt (mkTerm k' i') /\ ring k' [] /\
    line_rep i' (foldl edit l (ascii_or0 k <$> q)) /\ shift_pressed k' = shift_pressed k /\ caps_lock k' = caps_lock k.
Proof.
  intros Hr Hq Hs Hc Hl. apply input_loop_run; [done..|]. pose proof (rg_count _ _ Hr) as Hn.
  pose proof (Z.mod_pos_bound (kbd_head k - kbd_tail k) KBD_BUF_SIZE ltac:(done)). unfold KBD_BUF_SIZE in *. lia.
Qed.

(** The characters of the line are bytes, and none ends it. *)
Lemma edit_bytes l c : Forall (λ x, 0 < x < 256) l -> 0 <= c < 128 -> Forall (λ x, 0 < x < 256) (edit l c).
Proof.
  intros Hl Hc. unfold edit. destruct (c =? 8); [by apply Forall_take|]. destruct (c =? 10); [constructor|].
  destruct (Z.leb_spec 32 c); cbn [andb]; [|done]. case_match; [|done]. apply Forall_app. split; [done|]. constructor; [lia|constructor].
Qed.
Lemma edits_bytes k q : is_bit (shift_pressed k) -> is_bit (caps_lock k) -> Forall (λ sc, 0 <= sc) q -> forall l,
  Forall (λ x, 0 < x < 256) l -> Forall (λ x, 0 < x < 256) (foldl edit l (ascii_or0 k <$> q)).
Proof.
  intros Hs Hc. induction 1 as [|sc q Hsc _ IH]; intros l Hl; cbn [fmap list_fmap foldl]; [done|]. apply IH, edit_bytes; [done|].
  destruct (ascii_total k sc Hs Hc Hsc) as (c & E & Hb). unfold ascii_or0. by rewrite E.
Qed.

(** A whole tick. *)
Lemma shell_tick_run k i q l :
  ring k q -> Forall (λ sc, 0 <= sc) q -> is_bit (shift_pressed k) -> is_bit (caps_lock k) -> line_rep i l ->
  Forall (λ c, c <> 0) l ->
  let l' := foldl edit l (ascii_or0 k <$> q) in
  exists k' i', shell_tick (mkTerm k i) =
      Ret (if decide (l <> [] /\ l' = []) then (Some l, []) else (None, l')) (mkTerm k' i') /\
    ring k' [] /\ line_rep i' l' /\ shift_pressed k' = shift_pressed k /\ caps_lock k' = caps_lock k.
Proof.
  intros Hr Hq Hs Hc Hl Hnz l'. destruct (input_poll_run k i q l Hr Hq Hs Hc Hl) as (k' & i' & E & Hr' & Hl' & Hsc).
  fold l' in Hl'. exists k', i'. split; [|done]. unfold shell_tick. do 2 (erewrite bind_Ret by reflexivity).
  cbv zeta. change (term_input (t_input (mkTerm k i)) (term_input (t_input (mkTerm k i)) (mkTerm k i))) with (mkTerm k i).
  rewrite (bind_Ret _ _ _ _ _ E). do 2 (erewrite bind_Ret by reflexivity). cbn [t_input term_input].
  destruct Hl as [_ Hlen Hmax Hch _], Hl' as [_ Hlen' Hmax' Hch' _]. rewrite Hlen, Hlen'.
  destruct (Z.ltb_spec (Z.of_nat (length l)) INPUT_MAX); [|lia].
  destruct (Z.leb_spec INPUT_MAX (Z.of_nat (length l'))); [lia|]. rewrite !Nat2Z.id, Hch, Hch'.
  destruct l as [|c l]; [by rewrite decide_False by (by intros [? _])|]. apply Forall_cons in Hnz as [Hcz _].
  cbn [length head]. destruct (Z.ltb_spec 0 (Z.of_nat (S (length l)))); [|lia]. cbn [andb].
  unfold truth. change (default 0 (Some c)) with c. destruct (Z.eqb_spec c 0); [done|]. cbn [negb].
  clearbody l'. destruct l' as [|c' l'']; [by rewrite decide_True|].
  rewrite decide_False by (intros [_ [=]]). cbn [length]. by destruct (Z.eqb_spec (Z.of_nat (S (length l''))) 0); [lia|].
Qed.
End line.

(** ** Properties *)

Section input_properties.

(** The keyboard buffer is a bounded queue: [kbd_push] appends a scancode, or drops it
    and returns -1 when 127 are waiting, and [keyboard_poll] takes the oldest one out;
    no access is outside the array. *)
Theorem keyboard_ring_refines k q sc :
  ring k q ->
  ((Z.of_nat (length q) < 127 /\ exists k', kbd_push sc k = Ret 0 k' /\ ring k' (q ++ [sc])) \/
   (Z.of_nat (length q) = 127 /\ kbd_push sc k = Ret (-1) k)) /\
  match q with
  | [] => keyboard_poll k = Ret None k
  | x :: r => exists k', keyboard_poll k = Ret (Some x) k' /\ ring k' r
  end.
Proof.
  intros Hr. split.
  - destruct (kbd_push_run k q sc Hr) as [(Hl & k' & E & Hr' & _)|[Hl E]]; [left|right]; split; try done.
    by exists k'.
  - pose proof (keyboard_poll_run k q Hr) as Hp. destruct q as [|x r]; [done|].
    destruct Hp as (k' & E & Hr' & _). by exists k'.
Qed.

(** [input_poll] empties the keyboard buffer and edits the line with every character in
    turn: a backspace takes the last character, a newline empties the line, and a
    printable character is appended while there is room.  It never leaves its buffer. *)
Theorem input_poll_spec k i q l :
  ring k q -> Forall (λ sc, 0 <= sc) q -> is_bit (shift_pressed k) -> is_bit (caps_lock k) -> line_rep i l ->
  exists k' i', input_poll (mkTerm k i) = Ret tt (mkTerm k' i') /\ ring k' [] /\
    line_rep i' (foldl edit l (ascii_or0 k <$> q)).
Proof. intros Hr Hq Hs Hc Hl. destruct (input_poll_run k i q l Hr Hq Hs Hc Hl) as (k' & i' & E & Hr' & Hl' & _). by exists k', i'. Qed.

(** [shell_tick] executes the line as it was before the keys of this tick, when there was
    one and these keys leave the line empty, by a newline or by backspaces alone;
    in every other case nothing is executed and the edited line is shown. *)
Theorem shell_tick_spec k i q l :
  ring k q -> Forall (λ sc, 0 <= sc) q -> is_bit (shift_pressed k) -> is_bit (caps_lock k) -> line_rep i l ->
  Forall (λ c, c <> 0) l ->
  let l' := foldl edit l (ascii_or0 k <$> q) in
  exists k' i', shell_tick (mkTerm k i) =
      Ret (if decide (l <> [] /\ l' = []) then (Some l, []) else (None, l')) (mkTerm k' i') /\
    ring k' [] /\ line_rep i' l'.
Proof.
  intros Hr Hq Hs Hc Hl Hnz l'. destruct (shell_tick_run k i q l Hr Hq Hs Hc Hl Hnz) as (k' & i' & E & Hr' & Hl' & _). by exists k', i'.
Qed.

(** Caps lock does the opposite of what it should: it never changes the case of a letter,
    which follows shift alone, and it acts as shift on every other key. *)
Theorem caps_lock_inverted k sc n s :
  is_bit (shift_pressed k) -> is_bit (caps_lock k) -> aget normal sc = Some n -> aget shifted sc = Some s ->
  keyboard_scancode_to_ascii k sc =
    Some (if (97 <=? n) && (n <=? 122) then if truth (shift_pressed k) then s else n
          else if truth (Z.lxor (shift_pressed k) (caps_lock k)) then s else n).
Proof. apply ascii_run. Qed.

(** The movement that a byte and its sign bit stand for, in nine bits. *)
Definition true_delta (d sign : Z) : Z := if truth sign then d - 256 else d.

(** The movement of the mouse is right from -16 to 127 only: a larger one to the right
    or down turns negative, and of a larger one to the left or up all but the low four
    bits are lost. *)
Theorem mouse_delta_range d sign :
  0 <= d < 256 ->
  mouse_delta d sign =
    let t := true_delta d sign in
    if decide (-16 <= t <= 127) then t else if decide (127 < t) then t - 256 else t mod 16 - 16.
Proof.
  intros Hd. unfold mouse_delta, true_delta. destruct (truth sign).
  - assert (Forall (λ d, s8 (Z.lor (s8 d) 0xF0) = if decide (-16 <= d - 256 <= 127) then d - 256 else (d - 256) mod 16 - 16) (seqZ 0 256)) as H.
    { apply (bool_decide_unpack _). vm_compute. exact I. }
    rewrite Forall_forall in H. rewrite H by (apply elem_of_seqZ; lia). cbv zeta.
    repeat case_decide; try done; lia.
  - unfold signed. rewrite wrap_small by lia. change (2 ^ (8 - 1)) with 128. change (2 ^ 8) with 256. cbv zeta.
    destruct (Z.ltb_spec d 128); repeat case_decide; lia.
Qed.

(** A packet of three bytes whose first has bit 3 set moves the pointer once: by both
    movements, not below zero, with the buttons of the first byte; a first byte without
    that bit is thrown away, so the handler finds the start of a packet again. *)
Theorem mouse_packet_spec m b0 b1 b2 :
  length (mouse_packet m) = 3%nat -> mouse_cycle m = 0 ->
  if truth (Z.land b0 0x08) then
    mouse_byte b2 (mouse_byte b1 (mouse_byte b0 m)) =
      mkMouse (Z.max 0 (s32 (mouse_x m + mouse_delta b1 (Z.land b0 0x10))))
              (Z.max 0 (s32 (mouse_y m - mouse_delta b2 (Z.land b0 0x20))))
              (Z.land b0 0x07) true 0 [b0; b1; b2]
  else mouse_cycle (mouse_byte b0 m) = 0 /\ mouse_x (mouse_byte b0 m) = mouse_x m /\
       mouse_y (mouse_byte b0 m) = mouse_y m /\ mouse_buttons (mouse_byte b0 m) = mouse_buttons m.
Proof.
  intros Hl Hc. destruct m as [x y bt mv cyc p]. cbn [mouse_packet mouse_cycle] in Hl, Hc. subst cyc.
  destruct p as [|p0 [|p1 [|p2 [|? ?]]]]; try done.
  destruct (truth (Z.land b0 0x08)) eqn:Ht.
  2: { unfold mouse_byte. cbn [mouse_cycle Z.eqb]. by rewrite Ht. }
  assert (mouse_byte b0 (mkMouse x y bt mv 0 [p0; p1; p2]) = mkMouse x y bt mv 1 [b0; p1; p2]) as ->
    by (unfold mouse_byte; cbn [mouse_cycle Z.eqb]; by rewrite Ht).
  change (mouse_byte b1 (mkMouse x y bt mv 1 [b0; p1; p2])) with (mkMouse x y bt mv 2 [b0; b1; p2]).
  unfold mouse_byte. cbn [mouse_cycle mouse_packet mouse_x mouse_y Z.eqb Pos.eqb].
  change (<[Z.to_nat 2 := b2]> [b0; b1; p2]) with [b0; b1; b2].
  change ([b0; b1; b2] !!! 0%nat) with b0. change ([b0; b1; b2] !!! 1%nat) with b1. change ([b0; b1; b2] !!! 2%nat) with b2.
  f_equal.
  - case_match eqn:Ex; [apply Z.ltb_lt in Ex|apply Z.ltb_ge in Ex]; lia.
  - case_match eqn:Ey; [apply Z.ltb_lt in Ey|apply Z.ltb_ge in Ey]; lia.
Qed.
End input_properties.

(** ** Concrete input *)

Section input_witnesses.

(** The keys h and i wait at the end of the ring, shift is not pressed, caps lock is on. *)
Definition kbd_hi : kbd := mkKbd (<[127%nat := 35]> (<[0%nat := 23]> (replicate 128 0))) 1 127 0 1.
Definition line_oh : input := mkInput (111 :: replicate 255 0) 1 false.

Lemma kbd_hi_ring : ring kbd_hi [35; 23].
Proof.
  split; cbn [kbd_hi kbd_buffer kbd_head kbd_tail].
  - by rewrite !length_insert, length_replicate.
  - unfold KBD_BUF_SIZE. lia.
  - unfold KBD_BUF_SIZE. lia.
  - reflexivity.
  - intros j Hj. cbn [length] in Hj. assert (j = 0 \/ j = 1) as [-> | ->] by lia; reflexivity.
Qed.

Lemma line_oh_rep : line_rep line_oh [111].
Proof. by split. Qed.

Lemma keyboard_ring_refines_witness :
  exists k', keyboard_poll kbd_hi = Ret (Some 35) k' /\ ring k' [23].
Proof. exact (proj2 (keyboard_ring_refines kbd_hi [35; 23] 30 kbd_hi_ring)). Defined.

Lemma input_poll_spec_witness :
  exists k' i', input_poll (mkTerm kbd_hi line_oh) = Ret tt (mkTerm k' i') /\ ring k' [] /\ line_rep i' [111; 104; 105].
Proof.
  apply (input_poll_spec kbd_hi line_oh [35; 23] [111] kbd_hi_ring);
    [repeat constructor; lia|by left|by right|apply line_oh_rep].
Defined.

(** A line of one character and a waiting backspace. *)
Definition kbd_back : kbd := mkKbd (<[0%nat := 14]> (replicate 128 0)) 1 0 0 0.

Lemma kbd_back_ring : ring kbd_back [14].
Proof.
  split; cbn [kbd_back kbd_buffer kbd_head kbd_tail].
  - by rewrite length_insert, length_replicate.
  - unfold KBD_BUF_SIZE. lia.
  - unfold KBD_BUF_SIZE. lia.
  - reflexivity.
  - intros j Hj. cbn [length] in Hj. assert (j = 0) as -> by lia. reflexivity.
Qed.

(** Deleting the last character of a line executes the line. *)
Lemma shell_tick_spec_witness :
  exists k' i', shell_tick (mkTerm kbd_back line_oh) = Ret (Some [111], []) (mkTerm k' i').
Proof.
  destruct (shell_tick_spec kbd_back line_oh [14] [111] kbd_back_ring) as (k' & i' & E & _);
    [repeat constructor; lia|by left|by left|apply line_oh_rep|repeat constructor; lia|].
  exists k', i'. exact E.
Defined.

Lemma caps_lock_inverted_witness :
  keyboard_scancode_to_ascii kbd_hi 30 = Some 97 /\ keyboard_scancode_to_ascii kbd_hi 2 = Some 33.
Proof.
  split; [apply (caps_lock_inverted kbd_hi 30 97 65)|apply (caps_lock_inverted kbd_hi 2 49 33)];
    try reflexivity; [by left|by right|by left|by right].
Defined.

Lemma mouse_delta_range_witness : mouse_delta 0x9C 0x10 = -4.
Proof. rewrite (mouse_delta_range 0x9C 0x10) by lia. reflexivity. Defined.

Lemma mouse_packet_spec_witness :
  mouse_byte 3 (mouse_byte 5 (mouse_byte 9 (mkMouse 10 20 0 false 0 [0; 0; 0]))) = mkMouse 15 17 1 true 0 [9; 5; 3].
Proof. exact (mouse_packet_spec (mkMouse 10 20 0 false 0 [0; 0; 0]) 9 5 3 eq_refl eq_refl). Defined.
End input_witnesses.
