(* ===== verification/Irq.v ===== *)
(** * Interrupts and drivers (drivers/*.c, arch/x86_64/isr.c, net/eth/net.c)

    A driver is a record with its functions, the registry is the list of the registered
    drivers.  The handlers of the three interrupt driven drivers work on one
    machine state: the ports, the keyboard, the mouse, the clock and the scheduler. *)

From S2P Require Import Prelude Ports Input.

(** ** The registry (drivers/driver.c) *)

Definition MAX_DRIVERS : Z := 32.

Record driver (S : Type) := mkDriver {
  drv_id : Z;
  drv_init : option (M S Z);
  drv_irq : option (Z -> M S unit)
}.
Arguments mkDriver {S}.
Arguments drv_id {S}.
Arguments drv_init {S}.
Arguments drv_irq {S}.

Section drivers.
Context {S : Type}.
Implicit Types (drivers : list (driver S)).

Definition driver_register drivers (d : driver S) : Z * list (driver S) :=
  if MAX_DRIVERS <=? Z.of_nat (length drivers) then (-1, drivers) else (0, drivers ++ [d]).

(** The first loop of [driver_subsystem_init], over the linker's table. *)
Fixpoint register_all drivers (table : list (option (driver S))) : list (driver S) :=
  match table with
  | [] => drivers
  | None :: r => register_all drivers r
  | Some d :: r => register_all (driver_register drivers d).2 r
  end.

Fixpoint init_all drivers : M S unit :=
  match drivers with
  | [] => ret tt
  | d :: r => (match drv_init d with Some f => f ;;; ret tt | None => ret tt end) ;;; init_all r
  end.

Definition driver_subsystem_init (table : list (option (driver S))) : M S (list (driver S)) :=
  let drivers := register_all [] table in init_all drivers ;;; ret drivers.

Fixpoint driver_find drivers (id : Z) : option (driver S) :=
  match drivers with
  | [] => None
  | d :: r => if drv_id d =? id then Some d else driver_find r id
  end.

Fixpoint driver_dispatch_irq drivers (irq : Z) : M S unit :=
  match drivers with
  | [] => ret tt
  | d :: r => (match drv_irq d with Some f => f irq | None => ret tt end) ;;; driver_dispatch_irq r irq
  end.
End drivers.

(** ** Interrupt controller (drivers/pic.c) *)

Definition PIC1_CMD : Z := 0x20.
Definition PIC1_DATA : Z := 0x21.
Definition PIC2_CMD : Z := 0xA0.
Definition PIC2_DATA : Z := 0xA1.
Definition PIC_EOI : Z := 0x20.
Definition PIC1_OFFSET : Z := 0x20.
Definition PIC2_OFFSET : Z := 0x28.

Definition pic_init : M pio unit :=
  outb PIC1_CMD 0x11 ;;; outb PIC2_CMD 0x11 ;;;
  outb PIC1_DATA PIC1_OFFSET ;;; outb PIC2_DATA PIC2_OFFSET ;;;
  outb PIC1_DATA 0x04 ;;; outb PIC2_DATA 0x02 ;;;
  outb PIC1_DATA 0x01 ;;; outb PIC2_DATA 0x01 ;;;
  outb PIC1_DATA 0xFF ;;; outb PIC2_DATA 0xFF.

Definition drivers_pic_send_eoi (irq : Z) : M pio unit :=
  (if 8 <=? irq then outb PIC2_CMD PIC_EOI else ret tt) ;;; outb PIC1_CMD PIC_EOI.
Definition pic_send_eoi : Z -> M pio unit := drivers_pic_send_eoi.

(** The data port and the bit of a line. *)
Definition pic_line (irq : Z) : Z * Z := if irq <? 8 then (PIC1_DATA, irq) else (PIC2_DATA, u8 (irq - 8)).

Definition pic_mask_irq (irq : Z) : M pio unit :=
  let (port, bit) := pic_line irq in
  v <-- inb port ;; outb port (u8 (Z.lor v (Z.shiftl 1 bit))).
Definition pic_unmask_irq (irq : Z) : M pio unit :=
  let (port, bit) := pic_line irq in
  v <-- inb port ;; outb port (u8 (Z.land v (Z.lnot (Z.shiftl 1 bit)))).
Definition pic_read_irq : M pio Z := inb PIC1_CMD.

(** [pic_remap] of isr.c. *)
Definition pic_remap : M pio unit :=
  outb 0x20 0x11 ;;; outb 0xA0 0x11 ;;; outb 0x21 0x20 ;;; outb 0xA1 0x28 ;;;
  outb 0x21 0x04 ;;; outb 0xA1 0x02 ;;; outb 0x21 0x01 ;;; outb 0xA1 0x01 ;;;
  outb 0x21 0x0 ;;; outb 0xA1 0x0.

(** ** The machine the handlers work on *)

Record machine (T : Type) := mkMachine {
  y_io : pio;
  y_kbd : kbd;
  y_mouse : mouse;
  tick_count : Z;
  y_sched : T
}.
Arguments mkMachine {T}.
Arguments y_io {T}.
Arguments y_kbd {T}.
Arguments y_mouse {T}.
Arguments tick_count {T}.
Arguments y_sched {T}.

Section machine.
Context {T : Type} (scheduler_tick : M T unit).
Local Abbreviation machine := (machine T).

Definition on_io {A} (m : M pio A) : M machine A :=
  zoom y_io (λ i s, mkMachine i (y_kbd s) (y_mouse s) (tick_count s) (y_sched s)) m.
Definition on_console {A} (m : M console A) : M machine A :=
  zoom (λ s, mkCon (y_io s) (y_kbd s))
    (λ c s, mkMachine (c_io c) (c_kbd c) (y_mouse s) (tick_count s) (y_sched s)) m.
Definition on_mouse {A} (m : M (pio * mouse) A) : M machine A :=
  zoom (λ s, (y_io s, y_mouse s)) (λ c s, mkMachine c.1 (y_kbd s) c.2 (tick_count s) (y_sched s)) m.
Definition on_sched {A} (m : M T A) : M machine A :=
  zoom y_sched (λ t s, mkMachine (y_io s) (y_kbd s) (y_mouse s) (tick_count s) t) m.

Definition timer_on_irq : M machine unit :=
  modify (λ s, mkMachine (y_io s) (y_kbd s) (y_mouse s) (u64 (tick_count s + 1)) (y_sched s)).
Definition timer_init : M machine unit :=
  modify (λ s, mkMachine (y_io s) (y_kbd s) (y_mouse s) 0 (y_sched s)) ;;;
  let divisor := 1193182 / 100 in
  on_io (outb 0x43 0x36 ;;; outb 0x40 (Z.land divisor 0xFF) ;;; outb 0x40 (Z.land (Z.shiftr divisor 8) 0xFF)).
Definition timer_ticks : M machine Z := gets tick_count.

Definition timer_driver_init : M machine Z := timer_init ;;; ret 0.
Definition timer_driver_irq (irq : Z) : M machine unit := timer_on_irq ;;; on_sched scheduler_tick.
Definition timer_driver : driver machine := mkDriver 1 (Some timer_driver_init) (Some timer_driver_irq).

Definition keyboard_driver_init : M machine Z := on_console keyboard_init ;;; ret 0.
Definition keyboard_driver_irq (irq : Z) : M machine unit := on_console keyboard_on_irq.
Definition keyboard_driver : driver machine := mkDriver 2 (Some keyboard_driver_init) (Some keyboard_driver_irq).

Definition mouse_driver : driver machine :=
  mkDriver 4 (Some (on_mouse mouse_init_driver)) (Some (λ irq, on_mouse mouse_irq_handler)).

(** ** Dispatch (arch/x86_64/isr.c) *)

(** [handlers] has a handler or NULL for each of the 256 vectors. *)
Definition isr_handler (handlers : list (option (M machine unit))) (drivers : list (driver machine)) (int_no : Z)
  : M machine unit :=
  (if int_no <? 32 then
     if int_no =? 14 then panic "page fault" else panic "cpu exception"
   else ret tt) ;;;
  h <-- of_option (aget handlers int_no) ;;
  (match h with
   | Some f => f
   | None => if (32 <=? int_no) && (int_no <? 48) then driver_dispatch_irq drivers (int_no - 32) else ret tt
   end) ;;;
  if (32 <=? int_no) && (int_no <? 48) then on_io (drivers_pic_send_eoi (int_no - 32)) else ret tt.

Definition isr_register_handler (handlers : list (option (M machine unit))) (num : Z) (h : option (M machine unit))
  : option (list (option (M machine unit))) := aset handlers num h.
End machine.

(** ** Disk (drivers/storage/ata.c) *)

Definition ATA_PRIMARY_IO : Z := 0x1F0.
Definition ATA_CMD_READ_PIO : Z := 0x20.
Definition ATA_CMD_WRITE_PIO : Z := 0x30.
Definition ATA_SR_BSY : Z := 0x80.
Definition ATA_SR_DRQ : Z := 0x08.
Definition ATA_SR_ERR : Z := 0x01.
Definition ATA_REG_DATA : Z := 0x00.
Definition ATA_REG_SECCOUNT : Z := 0x02.
Definition ATA_REG_LBA_LO : Z := 0x03.
Definition ATA_REG_LBA_MID : Z := 0x04.
Definition ATA_REG_LBA_HI : Z := 0x05.
Definition ATA_REG_DRIVE : Z := 0x06.
Definition ATA_REG_STATUS : Z := 0x07.
Definition ATA_REG_COMMAND : Z := 0x07.

Definition ata_wait_ready : M pio unit :=
  poll_until (ATA_PRIMARY_IO + ATA_REG_STATUS) (λ status, negb (truth (Z.land status ATA_SR_BSY))).
Definition ata_wait_drq : M pio unit :=
  poll_until (ATA_PRIMARY_IO + ATA_REG_STATUS) (λ status, truth (Z.land status ATA_SR_DRQ)).

(** The register writes of both transfers. *)
Definition ata_select (lba count cmd : Z) : M pio unit :=
  outb (ATA_PRIMARY_IO + ATA_REG_DRIVE) (Z.lor 0xE0 (Z.land (Z.shiftr lba 24) 0x0F)) ;;;
  outb (ATA_PRIMARY_IO + ATA_REG_SECCOUNT) count ;;;
  outb (ATA_PRIMARY_IO + ATA_REG_LBA_LO) (Z.land lba 0xFF) ;;;
  outb (ATA_PRIMARY_IO + ATA_REG_LBA_MID) (Z.land (Z.shiftr lba 8) 0xFF) ;;;
  outb (ATA_PRIMARY_IO + ATA_REG_LBA_HI) (Z.land (Z.shiftr lba 16) 0xFF) ;;;
  outb (ATA_PRIMARY_IO + ATA_REG_COMMAND) cmd.

(** [for (int j = 0; j < n; j++) dst[j] = inw(data);] with [dst] at word [i] of the buffer. *)
Fixpoint read_words (n : nat) (i : Z) (buffer : list Z) : M pio (list Z) :=
  match n with
  | O => ret buffer
  | S n' =>
      w <-- inw (ATA_PRIMARY_IO + ATA_REG_DATA) ;;
      buffer <-- of_option (aset buffer i w) ;;
      read_words n' (i + 1) buffer
  end.
Fixpoint write_words (n : nat) (i : Z) (buffer : list Z) : M pio unit :=
  match n with
  | O => ret tt
  | S n' =>
      w <-- of_option (aget buffer i) ;;
      outw (ATA_PRIMARY_IO + ATA_REG_DATA) w ;;;
      write_words n' (i + 1) buffer
  end.

(** The word of the buffer at which sector [i] starts; [i * 512] is computed in 32 bits. *)
Definition sector_word (i : Z) : Z := u32 (i * 512) / 2.

Fixpoint read_sectors (n : nat) (i : Z) (buffer : list Z) : M pio (list Z) :=
  match n with
  | O => ret buffer
  | S n' =>
      ata_wait_drq ;;;
      buffer <-- read_words 256 (sector_word i) buffer ;;
      read_sectors n' (i + 1) buffer
  end.
Fixpoint write_sectors (n : nat) (i : Z) (buffer : list Z) : M pio unit :=
  match n with
  | O => ret tt
  | S n' =>
      ata_wait_drq ;;;
      write_words 256 (sector_word i) buffer ;;;
      write_sectors n' (i + 1) buffer
  end.

Definition ata_status_ok : M pio bool :=
  status <-- inb (ATA_PRIMARY_IO + ATA_REG_STATUS) ;; ret (negb (truth (Z.land status ATA_SR_ERR))).

(** The buffer is a list of 16-bit words, or NULL; the result and the buffer afterwards. *)
Definition ata_read_sectors (lba : Z) (buffer : option (list Z)) (count : Z) : M pio (bool * option (list Z)) :=
  match buffer with
  | None => ret (false, None)
  | Some b =>
      if count =? 0 then ret (false, Some b)
      else
        ata_wait_ready ;;;
        ata_select lba count ATA_CMD_READ_PIO ;;;
        b <-- read_sectors (Z.to_nat count) 0 b ;;
        ok <-- ata_status_ok ;;
        ret (ok, Some b)
  end.

Definition ata_write_sectors (lba : Z) (buffer : option (list Z)) (count : Z) : M pio bool :=
  match buffer with
  | None => ret false
  | Some b =>
      if count =? 0 then ret false
      else
        ata_wait_ready ;;;
        ata_select lba count ATA_CMD_WRITE_PIO ;;;
        write_sectors (Z.to_nat count) 0 b ;;;
        ata_status_ok
  end.

(** ** Network (net/eth/net.c): no card is driven, only the address is kept *)

Record net := mkNet { net_mac : list Z; net_initialized : bool }.
Definition net_init : M net unit := modify (λ s, mkNet (net_mac s) true).
Definition net_send (data size : Z) : M net unit :=
  s <-- get ;; if negb (net_initialized s) || negb (truth data) || (size =? 0) then ret tt else ret tt.
(** The result, and what is stored through [size], if anything is. *)
Definition net_receive (buffer size : Z) : M net (bool * option Z) :=
  s <-- get ;;
  if negb (net_initialized s) || negb (truth buffer) || negb (truth size) then ret (false, None) else ret (false, Some 0).

(** [for (int i = 0; i < n; i++) net_mac[i] = mac[i];] *)
Fixpoint mac_loop (n : nat) (i : Z) (mac : list Z) : M net unit :=
  match n with
  | O => ret tt
  | S n' =>
      v <-- of_option (aget mac i) ;;
      s <-- get ;;
      m <-- of_option (aset (net_mac s) i v) ;;
      put (mkNet m (net_initialized s)) ;;;
      mac_loop n' (i + 1) mac
  end.
Definition net_set_mac (mac : option (list Z)) : M net unit :=
  match mac with None => ret tt | Some mac => mac_loop 6 0 mac end.
(** What is stored through [mac]. *)
Definition net_get_mac (mac : Z) : M net (option (list Z)) :=
  s <-- get ;; ret (if truth mac then Some (take 6 (net_mac s)) else None).

(** ** What the disk sees *)

Section disk.

Definition status_port : Z := ATA_PRIMARY_IO + ATA_REG_STATUS.
Definition data_port : Z := ATA_PRIMARY_IO + ATA_REG_DATA.

(** The answers of the status port while a condition does not hold, and the one with which it does. *)
Definition waits (done : Z -> bool) (w : list Z * Z) : Prop :=
  Forall (λ b, 0 <= b < 256 /\ done b = false) w.1 /\ 0 <= w.2 < 256 /\ done w.2 = true.
Definition wait_answers (w : list Z * Z) : list Z := w.1 ++ [w.2].
Definition wait_events (w : list Z * Z) : list port_event := Inb status_port <$> wait_answers w.

Definition disk_ready (status : Z) : bool := negb (truth (Z.land status ATA_SR_BSY)).
Definition drq (status : Z) : bool := truth (Z.land status ATA_SR_DRQ).

(** A sector that the disk sends: the wait for it and its words. *)
Definition sector : Type := (list Z * Z) * list Z.
Definition sector_ok (x : sector) : Prop :=
  waits drq x.1 /\ length x.2 = 256%nat /\ Forall (λ w, 0 <= w < 65536) x.2.
Definition sector_answers (x : sector) : list Z := wait_answers x.1 ++ x.2.
Definition sector_events (x : sector) : list port_event := wait_events x.1 ++ (Inw data_port <$> x.2).

(** The writes of the command. *)
Definition select_events (lba count cmd : Z) : list port_event :=
  [Outb (ATA_PRIMARY_IO + ATA_REG_DRIVE) (u8 (Z.lor 0xE0 (Z.land (Z.shiftr lba 24) 0x0F)));
   Outb (ATA_PRIMARY_IO + ATA_REG_SECCOUNT) (u8 count);
   Outb (ATA_PRIMARY_IO + ATA_REG_LBA_LO) (u8 (Z.land lba 0xFF));
   Outb (ATA_PRIMARY_IO + ATA_REG_LBA_MID) (u8 (Z.land (Z.shiftr lba 8) 0xFF));
   Outb (ATA_PRIMARY_IO + ATA_REG_LBA_HI) (u8 (Z.land (Z.shiftr lba 16) 0xFF));
   Outb (ATA_PRIMARY_IO + ATA_REG_COMMAND) (u8 cmd)].

(** The block address that the disk puts together, and its sector count, where 0 is 256. *)
Definition disk_lba (l : list port_event) : option Z :=
  match l with
  | [Outb _ d; _; Outb _ lo; Outb _ mid; Outb _ hi; _] =>
      Some (lo + Z.shiftl mid 8 + Z.shiftl hi 16 + Z.shiftl (Z.land d 0x0F) 24)
  | _ => None
  end.
Definition disk_count (l : list port_event) : option Z :=
  match l with
  | [_; Outb _ c; _; _; _; _] => Some (if c =? 0 then 256 else c)
  | _ => None
  end.

Lemma wait_run done w r l :
  waits done w -> poll_until status_port done (mkPio (wait_answers w ++ r) l) = Ret tt (mkPio r (rev (wait_events w) ++ l)).
Proof.
  intros (Hb & Hv & Hd). unfold wait_events, wait_answers. rewrite <- app_assoc. cbn [app].
  rewrite (poll_until_run _ _ _ _ _ _ Hb Hv Hd). by rewrite fmap_app, rev_app_distr.
Qed.

Lemma inw_run port v r l : 0 <= v < 65536 -> inw port (mkPio (v :: r) l) = Ret v (mkPio r (Inw port v :: l)).
Proof. intros. unfold inw. simpl. by rewrite !wrap_small by lia. Qed.

Lemma outw_run port v r l : 0 <= v < 65536 -> outw port v (mkPio r l) = Ret tt (mkPio r (Outw port v :: l)).
Proof. intros. unfold outw, modify. simpl. by rewrite wrap_small by lia. Qed.

Lemma read_words_run ws pre old post r l :
  Forall (λ w, 0 <= w < 65536) ws -> length old = length ws ->
  read_words (length ws) (Z.of_nat (length pre)) (pre ++ old ++ post) (mkPio (ws ++ r) l) =
    Ret (pre ++ ws ++ post) (mkPio r (rev (Inw data_port <$> ws) ++ l)).
Proof.
  intros Hw. revert pre old l. induction Hw as [|w ws Hv Hw IH]; intros pre old l Ho.
  { by destruct old. }
  destruct old as [|o old]; [done|]. cbn [length read_words app].
  rewrite (bind_Ret _ _ _ _ _ (inw_run _ w (ws ++ r) l Hv)), aset_in by (rewrite length_app; simpl; lia).
  run_step. rewrite Nat2Z.id, insert_app_r_alt, Nat.sub_diag by lia. cbn [insert list_insert].
  pose proof (IH (pre ++ [w]) old (Inw data_port w :: l) ltac:(simpl in Ho; lia)) as E.
  rewrite <- !app_assoc in E. cbn [app] in E.
  replace (Z.of_nat (length pre) + 1) with (Z.of_nat (length (pre ++ [w]))) by (rewrite length_app; simpl; lia).
  unfold data_port in *. rewrite E. cbn [fmap list_fmap rev]. by rewrite <- app_assoc.
Qed.

Lemma write_words_run ws pre post r l :
  Forall (λ w, 0 <= w < 65536) ws ->
  write_words (length ws) (Z.of_nat (length pre)) (pre ++ ws ++ post) (mkPio r l) =
    Ret tt (mkPio r (rev (Outw data_port <$> ws) ++ l)).
Proof.
  intros Hw. revert pre l. induction Hw as [|w ws Hv Hw IH]; intros pre l; [done|].
  cbn [length write_words app].
  rewrite (proj2 (aget_Some _ _ w)) by (split; [lia|]; by rewrite Nat2Z.id, lookup_app_r, Nat.sub_diag by lia).
  run_step. rewrite (bind_Ret _ _ _ _ _ (outw_run _ w r l Hv)).
  pose proof (IH (pre ++ [w]) (Outw data_port w :: l)) as E. rewrite <- !app_assoc in E. cbn [app] in E.
  replace (Z.of_nat (length pre) + 1) with (Z.of_nat (length (pre ++ [w]))) by (rewrite length_app; simpl; lia).
  unfold data_port in *. rewrite E. cbn [fmap list_fmap rev]. by rewrite <- app_assoc.
Qed.

Lemma sector_word_eq i : 0 <= i -> i < 2 ^ 23 -> sector_word i = i * 256.
Proof. intros. unfold sector_word. rewrite wrap_small by lia. replace (i * 512) with (i * 256 * 2) by lia. by apply Z.div_mul. Qed.

Lemma read_sectors_run xs pre old post i r l :
  Forall sector_ok xs -> length pre = (Z.to_nat i * 256)%nat -> length old = (length xs * 256)%nat ->
  0 <= i -> i + Z.of_nat (length xs) <= 2 ^ 23 ->
  read_sectors (length xs) i (pre ++ old ++ post) (mkPio ((xs ≫= sector_answers) ++ r) l) =
    Ret (pre ++ (xs ≫= snd) ++ post) (mkPio r (rev (xs ≫= sector_events) ++ l)).
Proof.
  intros Hx. revert pre old i l. induction Hx as [|[w ws] xs (Hwt & Hlen & Hw) Hx IH]; intros pre old i l Hp Ho Hi0 Hi.
  { by destruct old. }
  cbn [length] in Ho, Hi. cbn [snd fst] in *. change (((w, ws) :: xs) ≫= snd) with (ws ++ (xs ≫= snd)).
  change (((w, ws) :: xs) ≫= sector_answers) with ((wait_answers w ++ ws) ++ (xs ≫= sector_answers)).
  change (((w, ws) :: xs) ≫= sector_events) with ((wait_events w ++ (Inw data_port <$> ws)) ++ (xs ≫= sector_events)).
  cbn [length read_sectors]. rewrite <- !app_assoc. unfold ata_wait_drq.
  rewrite (bind_Ret _ _ _ _ _ (wait_run drq w _ l Hwt)), sector_word_eq by lia.
  rewrite <- (take_drop 256 old), <- (app_assoc (take 256 old)).
  pose proof (read_words_run ws pre (take 256 old) (drop 256 old ++ post) ((xs ≫= sector_answers) ++ r)
    (rev (wait_events w) ++ l) Hw ltac:(rewrite length_take; lia)) as E.
  rewrite Hlen in E. replace (Z.of_nat (length pre)) with (i * 256) in E by lia. rewrite (bind_Ret _ _ _ _ _ E).
  pose proof (IH (pre ++ ws) (drop 256 old) (i + 1) (rev (Inw data_port <$> ws) ++ rev (wait_events w) ++ l)
    ltac:(rewrite length_app; lia) ltac:(rewrite length_drop; lia) ltac:(lia) ltac:(lia)) as E2.
  rewrite <- !app_assoc in E2. rewrite E2. by rewrite !rev_app_distr, <- !app_assoc.
Qed.

Lemma write_sectors_run (xs : list sector) pre post i r l :
  Forall sector_ok xs -> length pre = (Z.to_nat i * 256)%nat ->
  0 <= i -> i + Z.of_nat (length xs) <= 2 ^ 23 ->
  write_sectors (length xs) i (pre ++ (xs ≫= snd) ++ post) (mkPio ((xs ≫= λ x, wait_answers x.1) ++ r) l) =
    Ret tt (mkPio r (rev (xs ≫= λ x, wait_events x.1 ++ (Outw data_port <$> x.2)) ++ l)).
Proof.
  intros Hx. revert pre i l. induction Hx as [|[w ws] xs (Hwt & Hlen & Hw) Hx IH]; intros pre i l Hp Hi0 Hi; [done|].
  cbn [length] in Hi. cbn [snd fst] in *. cbn [mbind list_bind fst snd length write_sectors]. rewrite <- !app_assoc. unfold ata_wait_drq.
  rewrite (bind_Ret _ _ _ _ _ (wait_run drq w _ l Hwt)), sector_word_eq by lia.
  pose proof (write_words_run ws pre ((xs ≫= snd) ++ post) ((xs ≫= λ x, wait_answers x.1) ++ r) (rev (wait_events w) ++ l) Hw) as E.
  rewrite Hlen in E. replace (Z.of_nat (length pre)) with (i * 256) in E by lia. rewrite (bind_Ret _ _ _ _ _ E).
  pose proof (IH (pre ++ ws) (i + 1) (rev (Outw data_port <$> ws) ++ rev (wait_events w) ++ l)
    ltac:(rewrite length_app; lia) ltac:(lia) ltac:(lia)) as E2.
  rewrite <- !app_assoc in E2. rewrite E2. by rewrite !rev_app_distr, <- !app_assoc.
Qed.

Lemma select_run lba count cmd r l :
  ata_select lba count cmd (mkPio r l) = Ret tt (mkPio r (rev (select_events lba count cmd) ++ l)).
Proof. done. Qed.

Lemma lba_parts lba :
  0 <= lba ->
  u8 (Z.land lba 0xFF) + Z.shiftl (u8 (Z.land (Z.shiftr lba 8) 0xFF)) 8 + Z.shiftl (u8 (Z.land (Z.shiftr lba 16) 0xFF)) 16 +
    Z.shiftl (Z.land (u8 (Z.lor 0xE0 (Z.land (Z.shiftr lba 24) 0x0F))) 0x0F) 24 = lba mod 2 ^ 28.
Proof.
  intros H0. change 0xFF with (Z.ones 8). change 0x0F with (Z.ones 4). rewrite !Z.land_ones by lia.
  rewrite !Z.shiftr_div_pow2, !Z.shiftl_mul_pow2 by lia.
  assert (Forall (λ x, u8 (Z.lor 0xE0 x) mod 2 ^ 4 = x) (seqZ 0 16)) as Hf by (apply (bool_decide_unpack _); vm_compute; exact I).
  rewrite Forall_forall in Hf. rewrite Hf by (apply elem_of_seqZ; pose proof (Z.mod_pos_bound (lba / 2 ^ 24) (2 ^ 4)); lia).
  unfold wrap. rewrite !Z.mod_mod by done. change (2 ^ 24) with (2 ^ 8 * (2 ^ 8 * 2 ^ 8)). change (2 ^ 16) with (2 ^ 8 * 2 ^ 8).
  rewrite <- !Z.div_div by done. change (2 ^ 28) with (2 ^ 8 * (2 ^ 8 * (2 ^ 8 * 2 ^ 4))).
  rewrite (Z.rem_mul_r lba), (Z.rem_mul_r (lba / 2 ^ 8)), (Z.rem_mul_r (lba / 2 ^ 8 / 2 ^ 8)) by done. lia.
Qed.

Lemma disk_lba_run lba count cmd : 0 <= lba -> disk_lba (select_events lba count cmd) = Some (lba mod 2 ^ 28).
Proof. intros. unfold disk_lba, select_events. f_equal. by apply lba_parts. Qed.

Lemma status_ok_run st r l :
  0 <= st < 256 -> ata_status_ok (mkPio (st :: r) l) = Ret (negb (Z.testbit st 0)) (mkPio r (Inb status_port st :: l)).
Proof.
  intros. unfold ata_status_ok. rewrite (bind_Ret _ _ _ _ _ (inb_run _ st r l ltac:(done))).
  change ATA_SR_ERR with (Z.shiftl 1 0). by rewrite land_pow2_truth.
Qed.
End disk.

(** ** Interrupts *)

Section interrupts.
Context {T : Type} (scheduler_tick : M T unit).
Implicit Types (k : kbd) (m : mouse).

(** The drivers with an interrupt function, in any order the linker puts them. *)
Definition irq_drivers : list (option (driver (machine T))) :=
  [Some (timer_driver scheduler_tick); Some keyboard_driver; Some mouse_driver].

Definition eoi_events (irq : Z) : list port_event :=
  (if 8 <=? irq then [Outb PIC2_CMD PIC_EOI] else []) ++ [Outb PIC1_CMD PIC_EOI].

Lemma kbd_scan_run k q sc :
  ring k q -> 0 <= sc ->
  exists k', kbd_scan sc k = Ret tt k' /\
    ring k' (if bool_decide (sc ∉ [0x2A; 0x36; 0x3A]) && (sc <? 0x80) && (Z.of_nat (length q) <? KBD_BUF_SIZE - 1)
             then q ++ [sc] else q).
Proof.
  intros Hr Hsc. assert (forall k', kbd_buffer k' = kbd_buffer k -> kbd_head k' = kbd_head k -> kbd_tail k' = kbd_tail k -> ring k' q) as Hsame.
  { destruct Hr. intros k' E1 E2 E3. split; rewrite ?E1, ?E2, ?E3; done. }
  unfold kbd_scan. destruct (Z.eqb_spec sc 0x2A) as [->|H1]; [eexists; split; [reflexivity|]; by apply Hsame|].
  destruct (Z.eqb_spec sc 0x36) as [->|H2]; [eexists; split; [reflexivity|]; by apply Hsame|]. cbn [orb].
  destruct (Z.eqb_spec sc 0xAA) as [->|H3]; [eexists; split; [reflexivity|]; rewrite andb_false_r; by apply Hsame|].
  destruct (Z.eqb_spec sc 0xB6) as [->|H4]; [eexists; split; [reflexivity|]; rewrite andb_false_r; by apply Hsame|]. cbn [orb].
  destruct (Z.eqb_spec sc 0x3A) as [->|H5]; [eexists; split; [reflexivity|]; by apply Hsame|].
  rewrite bool_decide_true by set_solver. cbn [andb]. destruct (Z.ltb_spec sc 0x80); cbn [andb]; [|by exists k].
  destruct (kbd_push_run k q sc Hr) as [(Hl & k' & E & Hr' & _)|[Hl E]]; rewrite (bind_Ret _ _ _ _ _ E).
  - exists k'. split; [done|]. by destruct (Z.ltb_spec (Z.of_nat (length q)) (KBD_BUF_SIZE - 1)); [|lia].
  - exists k. split; [done|]. by destruct (Z.ltb_spec (Z.of_nat (length q)) (KBD_BUF_SIZE - 1)); [lia|].
Qed.
Lemma kbd_scan_bits k sc k' : kbd_scan sc k = Ret tt k' -> is_bit (shift_pressed k) -> is_bit (caps_lock k) -> is_bit (shift_pressed k') /\ is_bit (caps_lock k').
Proof.
  intros E Hs Hc. unfold kbd_scan in E. destruct (_ || _); [injection E as <-; split; [by right|done]|].
  destruct (_ || _); [injection E as <-; split; [by left|done]|].
  destruct (sc =? 0x3A); [injection E as <-; split; [done|]; cbn; destruct (caps_lock k =? 0); [by right|by left]|].
  destruct (sc <? 0x80); [|by injection E as <-]. apply bind_Ret_inv in E as (v & k1 & E & [= <-]).
  unfold kbd_push in E. rewrite bind_get in E. destruct (_ =? _); [by injection E as _ <-|].
  destruct (aset _ _ _); [|done]. rewrite bind_option, bind_put in E. by injection E as _ <-.
Qed.

End interrupts.

(** A hardware interrupt, whatever its number: the clock, a key and a mouse byte. *)
Lemma isr_run {T} (scheduler_tick : M T unit) handlers irq a b r l k m q t sc sc' :
  0 <= irq < 16 -> aget handlers (32 + irq) = Some None ->
  ring k q -> 0 <= mouse_cycle m <= 2 -> 0 <= a < 256 -> 0 <= b < 256 -> scheduler_tick sc = Ret tt sc' ->
  exists k',
    isr_handler handlers (register_all [] (irq_drivers scheduler_tick)) (32 + irq) (mkMachine (mkPio (a :: b :: r) l) k m t sc) =
      Ret tt (mkMachine (mkPio r (rev (eoi_events irq) ++ Inb 0x60 b :: Inb 0x60 a :: l)) k' (mouse_byte b m) (u64 (t + 1)) sc') /\
    ring k' (if bool_decide (a ∉ [0x2A; 0x36; 0x3A]) && (a <? 0x80) && (Z.of_nat (length q) <? KBD_BUF_SIZE - 1)
             then q ++ [a] else q) /\
    (is_bit (shift_pressed k) -> is_bit (caps_lock k) -> is_bit (shift_pressed k') /\ is_bit (caps_lock k')).
Proof.
  intros Hirq Hh Hr Hm Ha Hb Hsc. destruct (kbd_scan_run k q a Hr ltac:(lia)) as (k' & Ek & Hk). exists k'. split; [|split; [done|by apply (kbd_scan_bits k a)]].
  unfold isr_handler. destruct (Z.ltb_spec (32 + irq) 32); [lia|]. rewrite bind_ret, Hh, bind_option.
  destruct (Z.leb_spec 32 (32 + irq)); [|lia]. destruct (Z.ltb_spec (32 + irq) 48); [|lia]. cbn [andb].
  replace (32 + irq - 32) with irq by lia.
  change (register_all [] (irq_drivers scheduler_tick)) with [timer_driver scheduler_tick; keyboard_driver; mouse_driver].
  cbn [driver_dispatch_irq drv_irq timer_driver keyboard_driver mouse_driver]. rewrite !bind_assoc.
  unfold timer_driver_irq, timer_on_irq. run_step. cbn [y_io y_kbd y_mouse tick_count y_sched].
  erewrite bind_Ret by (unfold on_sched, zoom; cbn [y_sched]; by rewrite Hsc). rewrite !bind_assoc.
  erewrite bind_Ret.
  2: { unfold keyboard_driver_irq, on_console, zoom, keyboard_on_irq. cbn [y_io y_kbd].
       erewrite bind_Ret by (unfold c_inb, zoom; cbn [c_io]; by rewrite inb_run by done).
       unfold zoom. cbn [with_io c_kbd]. by rewrite Ek. }
  rewrite !bind_assoc. erewrite bind_Ret.
  2: { unfold on_mouse, zoom, mouse_irq_handler. cbn [y_io y_mouse with_kbd c_io c_kbd]. rewrite bind_get. cbn [snd].
       destruct (Z.leb_spec 0 (mouse_cycle m)); [|lia]. destruct (Z.leb_spec (mouse_cycle m) 2); [|lia]. cbn [andb].
       erewrite bind_Ret by (unfold zoom, with_kbd, with_io; cbn [fst y_io y_mouse c_io c_kbd]; by rewrite inb_run by done). reflexivity. }
  unfold drivers_pic_send_eoi, eoi_events. by destruct (8 <=? irq).
Qed.

(** ** Properties *)

Section irq_properties.

(** C36. The handlers do not look at the number of the interrupt, so every hardware interrupt,
    the clock's included, advances the clock, runs the scheduler, takes one byte from
    the keyboard port as a key and the next one as a mouse byte, and then acknowledges. *)
Theorem irq_feeds_all_drivers {T} (scheduler_tick : M T unit) handlers irq a b r l k m q t sc sc' :
  0 <= irq < 16 -> aget handlers (32 + irq) = Some None ->
  ring k q -> 0 <= mouse_cycle m <= 2 -> 0 <= a < 256 -> 0 <= b < 256 -> scheduler_tick sc = Ret tt sc' ->
  exists k',
    isr_handler handlers (register_all [] (irq_drivers scheduler_tick)) (32 + irq) (mkMachine (mkPio (a :: b :: r) l) k m t sc) =
      Ret tt (mkMachine (mkPio r (rev (eoi_events irq) ++ Inb 0x60 b :: Inb 0x60 a :: l)) k' (mouse_byte b m) (u64 (t + 1)) sc') /\
    ring k' (if bool_decide (a ∉ [0x2A; 0x36; 0x3A]) && (a <? 0x80) && (Z.of_nat (length q) <? KBD_BUF_SIZE - 1)
             then q ++ [a] else q).
Proof.
  intros Hirq Hh Hr Hm Ha Hb Hsc. destruct (isr_run scheduler_tick handlers irq a b r l k m q t sc sc' Hirq Hh Hr Hm Ha Hb Hsc) as (k' & E & Hk & _). by exists k'.
Qed.

(** C37. A disk transfer of up to 2^23 sectors fills or sends exactly the sectors of the buffer
    once the disk has been ready and asked for each of them, and its result is the error bit;
    the disk receives the low 28 bits of the block address, and the count modulo 256. *)
Theorem ata_transfer_spec lba count buffer rw (xs : list sector) st rest l :
  0 <= lba -> waits disk_ready rw -> Forall sector_ok xs -> 0 <= st < 256 ->
  0 < count < 2 ^ 23 -> Z.of_nat (length xs) = count -> (length xs * 256 <= length buffer)%nat ->
  ata_read_sectors lba (Some buffer) count (mkPio (wait_answers rw ++ (xs ≫= sector_answers) ++ st :: rest) l) =
    Ret (negb (Z.testbit st 0), Some ((xs ≫= snd) ++ drop (length xs * 256) buffer))
        (mkPio rest (Inb status_port st :: rev (wait_events rw ++ select_events lba count ATA_CMD_READ_PIO ++ (xs ≫= sector_events)) ++ l)) /\
  ata_write_sectors lba (Some ((xs ≫= snd) ++ drop (length xs * 256) buffer)) count
      (mkPio (wait_answers rw ++ (xs ≫= λ x, wait_answers x.1) ++ st :: rest) l) =
    Ret (negb (Z.testbit st 0))
        (mkPio rest (Inb status_port st :: rev (wait_events rw ++ select_events lba count ATA_CMD_WRITE_PIO ++
           (xs ≫= λ x, wait_events x.1 ++ (Outw data_port <$> x.2))) ++ l)) /\
  (forall cmd, disk_lba (select_events lba count cmd) = Some (lba mod 2 ^ 28) /\
     disk_count (select_events lba count cmd) = Some (if u8 count =? 0 then 256 else u8 count)).
Proof.
  intros Hlba Hrw Hxs Hst Hc Hn Hlen. split; [|split; [|by intros; rewrite disk_lba_run by done]].
  all: unfold ata_read_sectors, ata_write_sectors; destruct (Z.eqb_spec count 0); [lia|];
    unfold ata_wait_ready; rewrite (bind_Ret _ _ _ _ _ (wait_run disk_ready rw _ l Hrw)), (bind_Ret _ _ _ _ _ (select_run _ _ _ _ _));
    replace (Z.to_nat count) with (length xs) by lia.
  - rewrite <- (take_drop (length xs * 256) buffer) at 1.
    rewrite (bind_Ret _ _ _ _ _ (read_sectors_run xs [] (take (length xs * 256) buffer) (drop (length xs * 256) buffer) 0 (st :: rest) _
      Hxs eq_refl ltac:(rewrite length_take; lia) ltac:(lia) ltac:(lia))).
    rewrite (bind_Ret _ _ _ _ _ (status_ok_run st _ _ Hst)). cbn [app]. by rewrite !rev_app_distr, <- !app_assoc.
  - rewrite (bind_Ret _ _ _ _ _ (write_sectors_run xs [] (drop (length xs * 256) buffer) 0 (st :: rest) _
      Hxs eq_refl ltac:(lia) ltac:(lia))).
    rewrite (status_ok_run st _ _ Hst). by rewrite !rev_app_distr, <- !app_assoc.
Qed.
End irq_properties.

(** ** Concrete input *)

Section irq_witnesses.

(** A timer interrupt types the letter a once more. *)
Lemma irq_feeds_all_drivers_witness :
  exists k', isr_handler (replicate 256 None) (register_all [] (irq_drivers (ret tt))) 32
      (mkMachine (mkPio [30; 30] []) kbd_hi (mkMouse 0 0 0 false 0 [0; 0; 0]) 7 tt) =
    Ret tt (mkMachine (mkPio [] [Outb 0x20 0x20; Inb 0x60 30; Inb 0x60 30]) k' (mkMouse 0 0 0 false 1 [30; 0; 0]) 8 tt) /\
    ring k' [35; 23; 30].
Proof.
  apply (irq_feeds_all_drivers (ret tt) (replicate 256 None) 0 30 30 [] [] kbd_hi (mkMouse 0 0 0 false 0 [0; 0; 0]) [35; 23] 7 tt tt);
    [lia|reflexivity|apply kbd_hi_ring|simpl; lia|lia|lia|reflexivity].
Defined.

Definition one_sector : sector := (([0x80], 0x48), replicate 256 0x1234).

Lemma one_sector_ok : Forall sector_ok [one_sector].
Proof.
  repeat constructor; simpl; try lia.
Qed.

(** A read of one sector at a block address above 28 bits. *)
Lemma ata_transfer_spec_witness :
  exists s, ata_read_sectors 0x10000002 (Some (replicate 300 0)) 1
      (mkPio (wait_answers ([0x80], 0x50) ++ ([one_sector] ≫= sector_answers) ++ [0x50]) []) =
    Ret (true, Some (replicate 256 0x1234 ++ replicate 44 0)) s /\
    disk_lba (select_events 0x10000002 1 ATA_CMD_READ_PIO) = Some 2.
Proof.
  destruct (ata_transfer_spec 0x10000002 1 (replicate 300 0) ([0x80], 0x50) [one_sector] 0x50 [] []) as (E & _ & Hc);
    [lia| |apply one_sector_ok|lia|lia|reflexivity|cbn [length]; rewrite length_replicate; lia|].
  { repeat constructor; simpl; lia. }
  eexists. split; [exact E|apply (Hc ATA_CMD_READ_PIO)].
Defined.
End irq_witnesses.
