(* ===== verification/Tables.v ===== *)
(** * Descriptor tables (arch/x86_64/gdt.c, idt.c, isr.c) and the system call registers *)

From S2P Require Import Prelude.

(** ** Global descriptor table *)

Definition GDT_ENTRIES : Z := 7.
Definition GDT_KERNEL_CODE : Z := 0x08.
Definition GDT_KERNEL_DATA : Z := 0x10.
Definition GDT_USER_CODE : Z := 0x18.
Definition GDT_USER_DATA : Z := 0x20.
Definition GDT_TSS : Z := 0x28.

Record gdt_entry := mkGdt {
  limit_low : Z; base_low : Z; base_mid : Z; access : Z; granularity : Z; base_high : Z
}.

Definition gdt_set_entry (gdt : list gdt_entry) (idx base limit acc gran : Z) : option (list gdt_entry) :=
  aset gdt idx (mkGdt (Z.land limit 0xFFFF) (Z.land base 0xFFFF) (Z.land (Z.shiftr base 16) 0xFF) acc
    (Z.lor (Z.land (Z.shiftr limit 16) 0x0F) (Z.land gran 0xF0)) (Z.land (Z.shiftr base 24) 0xFF)).

(** The task descriptor fills the entries [idx] and [idx + 1]; the eight bytes of the second
    are the upper half of the base and a reserved word. *)
Definition gdt_set_tss (gdt : list gdt_entry) (idx base limit : Z) : option (list gdt_entry) :=
  gdt ← aset gdt idx (mkGdt (Z.land limit 0xFFFF) (Z.land base 0xFFFF) (Z.land (Z.shiftr base 16) 0xFF) 0x89
    (Z.land (Z.shiftr limit 16) 0x0F) (Z.land (Z.shiftr base 24) 0xFF));
  let base_upper := u32 (Z.shiftr base 32) in
  aset gdt (idx + 1) (mkGdt (Z.land base_upper 0xFFFF) (Z.shiftr base_upper 16) 0 0 0 0).

(** [sizeof(tss)]. *)
Definition tss_size : Z := 104.

(** [gdt_init] up to the loading of the registers, with the task segment at [tss]. *)
Definition gdt_init (gdt : list gdt_entry) (tss : Z) : option (list gdt_entry) :=
  gdt ← gdt_set_entry gdt 0 0 0 0 0;
  gdt ← gdt_set_entry gdt 1 0 0xFFFFF 0x9A 0xA0;
  gdt ← gdt_set_entry gdt 2 0 0xFFFFF 0x92 0xA0;
  gdt ← gdt_set_entry gdt 3 0 0xFFFFF 0xFA 0xA0;
  gdt ← gdt_set_entry gdt 4 0 0xFFFFF 0xF2 0xA0;
  gdt_set_tss gdt 5 tss (tss_size - 1).

Definition gdt_user_code_selector : Z := Z.lor GDT_USER_CODE 3.
Definition gdt_user_data_selector : Z := Z.lor GDT_USER_DATA 3.
Definition gdt_tss_selector : Z := GDT_TSS.

(** ** Interrupt descriptor table *)

Definition IDT_ENTRIES : Z := 256.

Record idt_entry := mkIdt {
  offset_low : Z; selector : Z; ist : Z; type_attr : Z; offset_mid : Z; offset_high : Z; zero : Z
}.

Definition idt_set_gate (idt : list idt_entry) (num handler attr : Z) : option (list idt_entry) :=
  aset idt num (mkIdt (Z.land handler 0xFFFF) 0x08 0 attr (Z.land (Z.shiftr handler 16) 0xFFFF)
    (Z.land (Z.shiftr handler 32) 0xFFFFFFFF) 0).

(** [for (int i = 0; i < n; i++) idt_set_gate(i, handler(i), attr);] *)
Fixpoint gates_loop (n : nat) (i : Z) (handler : Z -> Z) (attr : Z) (idt : list idt_entry) : option (list idt_entry) :=
  match n with
  | O => Some idt
  | S n' => idt ← idt_set_gate idt i (handler i) attr; gates_loop n' (i + 1) handler attr idt
  end.

(** The loop of [idt_init]. *)
Definition idt_init (idt : list idt_entry) : option (list idt_entry) :=
  gates_loop (Z.to_nat IDT_ENTRIES) 0 (λ _, 0) 0 idt.

(** The loop of [isr_init]; [stub i] is the address of [isr_stubs[i]]. *)
Definition isr_init (stub : Z -> Z) (idt : list idt_entry) : option (list idt_entry) :=
  gates_loop 48 0 stub 0x8E idt.

(** ** System call registers (kernel/syscall.c) *)

(** The value that [syscall_init] writes to the STAR register. *)
Definition star : Z := Z.lor (Z.shiftl GDT_KERNEL_CODE 32) (Z.shiftl (Z.lor GDT_USER_CODE 3) 48).

(** What the processor takes from the tables: the base and the limit of a segment, the
    base of a task segment, the handler of a gate. *)
Definition seg_base (g : gdt_entry) : Z := base_low g + Z.shiftl (base_mid g) 16 + Z.shiftl (base_high g) 24.
Definition seg_limit (g : gdt_entry) : Z := limit_low g + Z.shiftl (Z.land (granularity g) 0x0F) 16.
Definition tss_base (g g' : gdt_entry) : Z := seg_base g + Z.shiftl (limit_low g' + Z.shiftl (base_low g') 16) 32.
Definition gate_handler (e : idt_entry) : Z := offset_low e + Z.shiftl (offset_mid e) 16 + Z.shiftl (offset_high e) 32.

(** The selectors that SYSRET loads in 64-bit mode. *)
Definition sysret_cs : Z := Z.lor (Z.shiftr star 48 + 16) 3.
Definition sysret_ss : Z := Z.lor (Z.shiftr star 48 + 8) 3.

Section tables.

Lemma split16 x : 0 <= x -> Z.land x 0xFFFF + Z.shiftl (Z.shiftr x 16) 16 = x.
Proof.
  intros. change 0xFFFF with (Z.ones 16). rewrite Z.land_ones, Z.shiftl_mul_pow2, Z.shiftr_div_pow2 by lia.
  pose proof (Z.div_mod x (2 ^ 16)). lia.
Qed.

Lemma split8 x : 0 <= x -> Z.land x 0xFF + Z.shiftl (Z.shiftr x 8) 8 = x.
Proof.
  intros. change 0xFF with (Z.ones 8). rewrite Z.land_ones, Z.shiftl_mul_pow2, Z.shiftr_div_pow2 by lia.
  pose proof (Z.div_mod x (2 ^ 8)). lia.
Qed.

Lemma land_small x n : 0 <= x < 2 ^ n -> 0 <= n -> Z.land x (Z.ones n) = x.
Proof. intros. rewrite Z.land_ones by lia. by apply Z.mod_small. Qed.

Lemma shiftr_bound x n m : 0 <= x < 2 ^ (n + m) -> 0 <= n -> 0 <= m -> 0 <= Z.shiftr x n < 2 ^ m.
Proof.
  intros. rewrite Z.shiftr_div_pow2 by lia. rewrite Z.pow_add_r in * by lia.
  split; [apply Z.div_pos; lia|apply Z.div_lt_upper_bound; lia].
Qed.

(** A 32-bit base comes back from its three fields. *)
Lemma base_fields x :
  0 <= x < 2 ^ 32 ->
  Z.land x 0xFFFF + Z.shiftl (Z.land (Z.shiftr x 16) 0xFF) 16 + Z.shiftl (Z.land (Z.shiftr x 24) 0xFF) 24 = x.
Proof.
  intros Hx. change 0xFFFF with (Z.ones 16). change 0xFF with (Z.ones 8).
  rewrite !Z.land_ones, !Z.shiftl_mul_pow2, !Z.shiftr_div_pow2 by lia.
  change (2 ^ 16) with 65536. change (2 ^ 8) with 256. change (2 ^ 24) with (65536 * 256).
  rewrite <- Z.div_div by lia. pose proof (Z.div_mod x 65536). pose proof (Z.div_mod (x / 65536) 256).
  assert (0 <= x / 65536 / 256 < 256); [|rewrite (Z.mod_small (x / 65536 / 256)) by done; lia].
  split; [by repeat apply Z.div_pos; lia|]. repeat (apply Z.div_lt_upper_bound; [lia|]). lia.
Qed.

Lemma gates_loop_run n i handler attr idt :
  0 <= i -> i + Z.of_nat n <= Z.of_nat (length idt) ->
  exists idt', gates_loop n i handler attr idt = Some idt' /\ length idt' = length idt /\
    forall j, 0 <= j -> aget idt' j = if decide (i <= j < i + Z.of_nat n) then
        Some (mkIdt (Z.land (handler j) 0xFFFF) 0x08 0 attr (Z.land (Z.shiftr (handler j) 16) 0xFFFF)
                (Z.land (Z.shiftr (handler j) 32) 0xFFFFFFFF) 0)
      else aget idt j.
Proof.
  revert i idt. induction n as [|n IH]; intros i idt Hi Hn; cbn [gates_loop].
  { exists idt. split; [done|]. split; [done|]. intros j Hj. by rewrite decide_False by lia. }
  unfold idt_set_gate at 1. rewrite aset_in by lia. cbn [mbind option_bind].
  destruct (IH (i + 1) (<[Z.to_nat i := mkIdt (Z.land (handler i) 0xFFFF) 0x08 0 attr
    (Z.land (Z.shiftr (handler i) 16) 0xFFFF) (Z.land (Z.shiftr (handler i) 32) 0xFFFFFFFF) 0]> idt))
    as (idt' & E & Hl & Hj); [lia|rewrite length_insert; lia|].
  exists idt'. split; [done|]. split; [by rewrite Hl, length_insert|]. intros j Hj0. rewrite Hj by done.
  rewrite aget_insert by lia. repeat case_decide; try lia; by subst.
Qed.
End tables.

(** ** Properties *)

Section table_properties.

(** Every gate that [isr_init] writes after [idt_init] makes the processor call the stub
    of its vector as a kernel interrupt gate, and every other vector is absent. *)
Theorem idt_handlers stub idt :
  Z.of_nat (length idt) = IDT_ENTRIES -> (forall i, 0 <= i < 48 -> 0 <= stub i < 2 ^ 64) ->
  exists idt', (i ← idt_init idt; isr_init stub i) = Some idt' /\
    forall j, 0 <= j < 256 -> exists e, aget idt' j = Some e /\ selector e = GDT_KERNEL_CODE /\
      if decide (j < 48) then gate_handler e = stub j /\ type_attr e = 0x8E
      else gate_handler e = 0 /\ type_attr e = 0.
Proof.
  intros Hl Hs. unfold IDT_ENTRIES in Hl. unfold idt_init, isr_init.
  destruct (gates_loop_run (Z.to_nat IDT_ENTRIES) 0 (λ _, 0) 0 idt) as (i1 & -> & Hl1 & H1); [lia|unfold IDT_ENTRIES; lia|].
  cbn [mbind option_bind]. destruct (gates_loop_run 48 0 stub 0x8E i1) as (i2 & E2 & Hl2 & H2); [lia|lia|].
  exists i2. split; [done|]. intros j Hj. rewrite H2, H1 by lia. unfold IDT_ENTRIES.
  destruct (decide (j < 48)); repeat first [rewrite decide_True by lia | rewrite decide_False by lia];
    eexists; (split; [done|]); (split; [done|]); [|done].
  split; [|done]. specialize (Hs j ltac:(lia)). unfold gate_handler. cbn [offset_low offset_mid offset_high].
  change 0xFFFFFFFF with (Z.ones 32). rewrite (land_small (Z.shiftr (stub j) 32)) by (try apply shiftr_bound; lia).
  pose proof (split16 (stub j) ltac:(lia)) as Ea.
  pose proof (split16 (Z.shiftr (stub j) 16) ltac:(apply Z.shiftr_nonneg; lia)) as Eb.
  rewrite Z.shiftr_shiftr in Eb by lia. change (16 + 16) with 32 in Eb.
  rewrite !Z.shiftl_mul_pow2 in * by lia. change (2 ^ 32) with (2 ^ 16 * 2 ^ 16). lia.
Qed.

(** [gdt_init] fills the table without leaving it: the code and data segments cover the
    whole space from 0, the task segment has the base of the task state and its size, and
    the selectors of the kernel are those of its entries. *)
Theorem gdt_init_spec gdt tss :
  Z.of_nat (length gdt) = GDT_ENTRIES -> 0 <= tss < 2 ^ 64 ->
  exists g, gdt_init gdt tss = Some g /\
    (forall i a, (i, a) ∈ [(1, 0x9A); (2, 0x92); (3, 0xFA); (4, 0xF2)] -> exists e, aget g i = Some e /\
       seg_base e = 0 /\ seg_limit e = 0xFFFFF /\ access e = a /\ Z.land (granularity e) 0xF0 = 0xA0) /\
    (exists e e', aget g (GDT_TSS / 8) = Some e /\ aget g (GDT_TSS / 8 + 1) = Some e' /\
       tss_base e e' = tss /\ seg_limit e = tss_size - 1 /\ access e = 0x89).
Proof.
  intros Hl Ht. destruct gdt as [|g0 [|g1 [|g2 [|g3 [|g4 [|g5 [|g6 [|? ?]]]]]]]]; try (cbn in Hl; unfold GDT_ENTRIES in Hl; lia).
  unfold gdt_init, gdt_set_entry, gdt_set_tss, aset. eexists. split; [reflexivity|]. split.
  - intros i a Hin. repeat (apply elem_of_cons in Hin as [[= -> ->]|Hin]; [eexists; split; [reflexivity|]; repeat split|]).
    by apply not_elem_of_nil in Hin.
  - eexists _, _. split; [reflexivity|]. split; [reflexivity|]. split; [|split; reflexivity].
    unfold tss_base, seg_base. cbn [base_low base_mid base_high limit_low].
    assert (0 <= Z.shiftr tss 32 < 2 ^ 32) as Hu by (apply shiftr_bound; lia).
    assert (u32 (Z.shiftr tss 32) = Z.shiftr tss 32) as -> by (by apply wrap_small).
    rewrite split16 by lia.
    assert (Z.land tss (2 ^ 32 - 1) = tss mod 2 ^ 32) as Hm by (change (2 ^ 32 - 1) with (Z.ones 32); by rewrite Z.land_ones).
    pose proof (base_fields (tss mod 2 ^ 32) ltac:(by apply Z.mod_pos_bound)) as Hb.
    assert (forall n k, 0 <= n -> n + k <= 32 -> 0 <= k -> Z.land (Z.shiftr (tss mod 2 ^ 32) n) (Z.ones k) = Z.land (Z.shiftr tss n) (Z.ones k)) as Hc.
    { intros n k Hn Hk Hk0. apply Z.bits_inj'. intros i Hi. rewrite !Z.land_spec, !Z.shiftr_spec by lia.
      rewrite Z.testbit_ones_nonneg by lia. destruct (Z.ltb_spec i k); [|by rewrite !andb_false_r].
      rewrite Z.mod_pow2_bits_low by lia. done. }
    pose proof (Hc 0 16 ltac:(lia) ltac:(lia) ltac:(lia)) as H0. rewrite !Z.shiftr_0_r in H0.
    change (Z.ones 16) with 0xFFFF in H0. rewrite H0 in Hb.
    change 0xFF with (Z.ones 8) in *. rewrite (Hc 16 8), (Hc 24 8) in Hb by lia. rewrite Hb.
    rewrite Z.shiftl_mul_pow2, Z.shiftr_div_pow2 by lia. pose proof (Z.div_mod tss (2 ^ 32)). lia.
Qed.

(** The selectors that SYSRET takes from the STAR register of [syscall_init] are not the
    user segments: the code selector it loads is that of the task segment. *)
Theorem sysret_loads_tss :
  Z.land sysret_cs (Z.lnot 3) = GDT_TSS /\ sysret_cs <> gdt_user_code_selector /\ sysret_ss = gdt_user_data_selector.
Proof. repeat split; vm_compute; done. Qed.
End table_properties.

Section table_witnesses.
Definition empty_idt : list idt_entry := replicate 256 (mkIdt 0 0 0 0 0 0 0).
Definition empty_gdt : list gdt_entry := replicate 7 (mkGdt 0 0 0 0 0 0).

Lemma idt_handlers_witness :
  exists idt', (i ← idt_init empty_idt; isr_init (λ i, 0x100000 + 16 * i) i) = Some idt' /\
    exists e, aget idt' 33 = Some e /\ gate_handler e = 0x100210.
Proof.
  destruct (idt_handlers (λ i, 0x100000 + 16 * i) empty_idt) as (idt' & E & Hj); [reflexivity|lia|].
  exists idt'. split; [exact E|]. destruct (Hj 33 ltac:(lia)) as (e & He & _ & Hd). exists e. split; [exact He|exact (proj1 Hd)].
Defined.

Lemma gdt_init_spec_witness : exists g, gdt_init empty_gdt 0x200000 = Some g.
Proof. destruct (gdt_init_spec empty_gdt 0x200000 eq_refl ltac:(lia)) as (g & E & _). exists g. exact E. Defined.
End table_witnesses.
