(* ===== verification/Framebuffer.v ===== *)
(** * Drawing (drivers/framebuffer.c, ui/layout/gfx.c)

    The screen and its back buffer are bytes of the one memory that the heap works on.
    The primitives are specified by the set of pixels that they give a colour. *)

From S2P Require Import Prelude CMem PageSource Heap Pmm.

(** ** State *)

Record framebuffer_t := mkFb { fb_addr : Z; fb_pitch : Z; fb_width : Z; fb_height : Z; fb_bpp : Z }.

Record display (OS : Type) := mkDisplay {
  d_heap : heap OS;
  fb : framebuffer_t;
  back_buffer : Z;
  use_double_buffer : bool
}.
Arguments mkDisplay {OS}.
Arguments d_heap {OS}.
Arguments fb {OS}.
Arguments back_buffer {OS}.
Arguments use_double_buffer {OS}.

Section framebuffer_code.
Context {OS : Type} `{!PageSource OS} (junk : Z -> Z).
Local Abbreviation display := (display OS).
Implicit Types (s d : display) (f : framebuffer_t).

Definition d_with_heap (h : heap OS) s : display := mkDisplay h (fb s) (back_buffer s) (use_double_buffer s).
Definition on_heap {A} (m : M (heap OS) A) : M display A := zoom d_heap d_with_heap m.
Definition put32 (a v : Z) : M display unit := on_heap (st 4 a v).

Definition ready f : bool := truth (fb_addr f) && (fb_bpp f =? 32).
Definition fb_ready : M display bool := gets (λ s, ready (fb s)).
Definition fb_info : M display framebuffer_t := gets fb.
Definition fb_driver_init : M display Z := r <-- fb_ready ;; ret (if r then 0 else -1).

(** ** Set-up *)

Fixpoint fb_tag_loop (fuel : nat) (tag : Z) : M display bool :=
  match fuel with
  | O => nofuel
  | S fuel' =>
      type <-- on_heap (ld 4 tag) ;;
      if type =? 0 then ret false
      else if type =? 8 then
        addr <-- on_heap (ld 8 (tag + 8)) ;;
        pitch <-- on_heap (ld 4 (tag + 16)) ;;
        width <-- on_heap (ld 4 (tag + 20)) ;;
        height <-- on_heap (ld 4 (tag + 24)) ;;
        bpp <-- on_heap (ld 1 (tag + 28)) ;;
        modify (λ s, mkDisplay (d_heap s) (mkFb addr pitch width height bpp) (back_buffer s) (use_double_buffer s)) ;;;
        let buf_size := u32 (height * pitch) in
        p <-- on_heap (kmalloc junk fuel' buf_size) ;;
        modify (λ s, mkDisplay (d_heap s) (fb s) p (if truth p then true else use_double_buffer s)) ;;;
        ret (bpp =? 32)
      else
        size <-- on_heap (ld 4 (tag + 4)) ;;
        fb_tag_loop fuel' (mbi_next tag size)
  end.
Definition fb_init (fuel : nat) (mbi : Z) : M display bool := fb_tag_loop fuel (mbi + 8).

Definition fb_shutdown : M display unit :=
  p <-- gets back_buffer ;;
  (if truth p then
     on_heap (kfree p) ;;; modify (λ s, mkDisplay (d_heap s) (fb s) 0 (use_double_buffer s))
   else ret tt) ;;;
  modify (λ s, mkDisplay (d_heap s) (mkFb 0 (fb_pitch (fb s)) 0 0 0) (back_buffer s) false).

(** ** Pixels and rectangles *)

(** The address of the pixel [x] of the line [y]. *)
Definition line_ptr s (x y : Z) : Z :=
  let f := fb s in
  if use_double_buffer s then u64 (back_buffer s + 4 * u32 (u32 (y * (fb_pitch f / 4)) + x))
  else u64 (u64 (fb_addr f + u32 (y * fb_pitch f)) + u32 (x * 4)).

Definition fb_write_pixel (x y color : Z) : M display unit :=
  f <-- gets fb ;;
  if negb (ready f) || (fb_width f <=? x) || (fb_height f <=? y) then ret tt
  else pixel <-- gets (λ s, line_ptr s x y) ;; put32 pixel color.
Definition fb_put_pixel : Z -> Z -> Z -> M display unit := fb_write_pixel.

Definition fill_row (x w row color : Z) : M display unit :=
  line <-- gets (λ s, line_ptr s x row) ;;
  for_range 0 w (λ col, put32 (u64 (line + 4 * col)) color).

Definition fb_fill_rect (x y w h color : Z) : M display unit :=
  f <-- gets fb ;;
  if negb (ready f) then ret tt
  else if (fb_width f <=? x) || (fb_height f <=? y) then ret tt
  else
    let w := if fb_width f <? u32 (x + w) then u32 (fb_width f - x) else w in
    let h := if fb_height f <? u32 (y + h) then u32 (fb_height f - y) else h in
    for_range y (u32 (y + h)) (λ row, fill_row x w row color).

Definition fb_draw_rect : Z -> Z -> Z -> Z -> Z -> M display unit := fb_fill_rect.

(** The round [t] of the outline. *)
Definition outline_ring (x y w h color t : Z) : M display unit :=
  fb_fill_rect (u32 (x + t)) (u32 (y + t)) (u32 (w - 2 * t)) 1 color ;;;
  fb_fill_rect (u32 (x + t)) (u32 (y + h - 1 - t)) (u32 (w - 2 * t)) 1 color ;;;
  fb_fill_rect (u32 (x + t)) (u32 (y + t)) 1 (u32 (h - 2 * t)) color ;;;
  fb_fill_rect (u32 (x + w - 1 - t)) (u32 (y + t)) 1 (u32 (h - 2 * t)) color.
Definition fb_draw_rect_outline (x y w h color thickness : Z) : M display unit :=
  for_range 0 thickness (outline_ring x y w h color).

Definition fb_clear (color : Z) : M display unit :=
  f <-- gets fb ;; fb_fill_rect 0 0 (fb_width f) (fb_height f) color.

(** ** Lines and circles *)

Fixpoint line_loop (fuel : nat) (x0 y0 x1 y1 dx dy sx sy err color : Z) : M display unit :=
  match fuel with
  | O => nofuel
  | S fuel' =>
      fb_put_pixel x0 y0 color ;;;
      if (x0 =? x1) && (y0 =? y1) then ret tt
      else
        let e2 := s32 (2 * err) in
        let (err, x0) := if - dy <? e2 then (s32 (err - dy), u32 (x0 + sx)) else (err, x0) in
        let (err, y0) := if e2 <? dx then (s32 (err + dx), u32 (y0 + sy)) else (err, y0) in
        line_loop fuel' x0 y0 x1 y1 dx dy sx sy err color
  end.
Definition fb_draw_line (fuel : nat) (x0 y0 x1 y1 color : Z) : M display unit :=
  let dx := Z.abs (s32 (s32 x1 - s32 x0)) in
  let dy := Z.abs (s32 (s32 y1 - s32 y0)) in
  let sx := if x0 <? x1 then 1 else -1 in
  let sy := if y0 <? y1 then 1 else -1 in
  line_loop fuel x0 y0 x1 y1 dx dy sx sy (dx - dy) color.

Definition circle_step (cx cy x y color : Z) (filled : bool) : M display unit :=
  if filled then
    fb_fill_rect (u32 (cx - x)) (u32 (cy - y)) (u32 (2 * x + 1)) 1 color ;;;
    fb_fill_rect (u32 (cx - x)) (u32 (cy + y)) (u32 (2 * x + 1)) 1 color ;;;
    fb_fill_rect (u32 (cx - y)) (u32 (cy - x)) (u32 (2 * y + 1)) 1 color ;;;
    fb_fill_rect (u32 (cx - y)) (u32 (cy + x)) (u32 (2 * y + 1)) 1 color
  else
    fb_put_pixel (u32 (cx + x)) (u32 (cy + y)) color ;;;
    fb_put_pixel (u32 (cx + y)) (u32 (cy + x)) color ;;;
    fb_put_pixel (u32 (cx - y)) (u32 (cy + x)) color ;;;
    fb_put_pixel (u32 (cx - x)) (u32 (cy + y)) color ;;;
    fb_put_pixel (u32 (cx - x)) (u32 (cy - y)) color ;;;
    fb_put_pixel (u32 (cx - y)) (u32 (cy - x)) color ;;;
    fb_put_pixel (u32 (cx + y)) (u32 (cy - x)) color ;;;
    fb_put_pixel (u32 (cx + x)) (u32 (cy - y)) color.

Fixpoint circle_loop (fuel : nat) (cx cy x y err color : Z) (filled : bool) : M display unit :=
  match fuel with
  | O => nofuel
  | S fuel' =>
      if y <=? x then
        circle_step cx cy x y color filled ;;;
        let y := s32 (y + 1) in
        let err := if err <=? 0 then s32 (err + (2 * y + 1)) else err in
        let x' := if 0 <? err then s32 (x - 1) else x in
        let err := if 0 <? err then s32 (err - (2 * x' + 1)) else err in
        circle_loop fuel' cx cy x' y err color filled
      else ret tt
  end.
Definition fb_draw_circle (fuel : nat) (cx cy radius color : Z) (filled : bool) : M display unit :=
  f <-- gets fb ;;
  if negb (ready f) then ret tt else circle_loop fuel cx cy (s32 radius) 0 0 color filled.

(** ** Copies *)

(** [for (row = 0; row < h && dy + row < fb.height; row++)], [w] changing on the way. *)
Fixpoint blit_loop (n : nat) (dx dy w h src src_pitch row : Z) : M display unit :=
  match n with
  | O => nofuel
  | S n' =>
      f <-- gets fb ;;
      if (row <? h) && (u32 (dy + row) <? fb_height f) then
        let w := if fb_width f <? u32 (dx + w) then u32 (fb_width f - dx) else w in
        dst_line <-- gets (λ s, line_ptr s dx (u32 (dy + row))) ;;
        let src_line := u64 (src + u32 (row * src_pitch)) in
        for_range 0 w (λ col,
          v <-- on_heap (ld 4 (u64 (src_line + 4 * col))) ;; put32 (u64 (dst_line + 4 * col)) v) ;;;
        blit_loop n' dx dy w h src src_pitch (row + 1)
      else ret tt
  end.
Definition fb_blit (dx dy w h src src_pitch : Z) : M display unit :=
  f <-- gets fb ;;
  if negb (ready f) || (src =? 0) then ret tt
  else blit_loop (S (Z.to_nat h)) dx dy w h src src_pitch 0.

(** A routine of lib/common/mem.c on the memory; its count is a [size_t]. *)
Definition on_mem (g : mem -> option mem) : M display unit :=
  s <-- get ;; m <-- of_option (g (hp_mem (d_heap s))) ;; put (d_with_heap (hp_with_mem m (d_heap s)) s).

Definition fb_scroll (lines : Z) : M display unit :=
  s <-- get ;;
  let f := fb s in
  if negb (ready f) || (lines =? 0) then ret tt
  else
    let row_bytes := fb_pitch f in
    let total_bytes := u32 (fb_height f * fb_pitch f) in
    let scroll_bytes := u64 (lines * row_bytes) in
    let base := if use_double_buffer s then back_buffer s else fb_addr f in
    on_mem (λ m, memmove m base (u64 (base + scroll_bytes)) (Z.to_nat (u64 (total_bytes - scroll_bytes)))) ;;;
    on_mem (λ m, memset m (u64 (base + total_bytes - scroll_bytes)) 0 (Z.to_nat scroll_bytes)).

Definition fb_swap_buffers : M display unit :=
  s <-- get ;;
  if negb (use_double_buffer s) || (back_buffer s =? 0) then ret tt
  else
    let total_bytes := u32 (fb_height (fb s) * fb_pitch (fb s)) in
    on_mem (λ m, memcpy m (fb_addr (fb s)) (back_buffer s) (Z.to_nat total_bytes)).

(** ** ui/layout/gfx.c *)

Definition gfx_draw_rect : Z -> Z -> Z -> Z -> Z -> M display unit := fb_draw_rect.
Definition gfx_draw_rect_outline : Z -> Z -> Z -> Z -> Z -> Z -> M display unit := fb_draw_rect_outline.
Definition gfx_draw_line : nat -> Z -> Z -> Z -> Z -> Z -> M display unit := fb_draw_line.
Definition gfx_draw_circle : nat -> Z -> Z -> Z -> Z -> bool -> M display unit := fb_draw_circle.
Definition gfx_blit : Z -> Z -> Z -> Z -> Z -> Z -> M display unit := fb_blit.
Definition gfx_scroll : Z -> M display unit := fb_scroll.
Definition gfx_swap_buffers : M display unit := fb_swap_buffers.
Definition gfx_clear : Z -> M display unit := fb_clear.
End framebuffer_code.

(** ** What a primitive paints *)

Section painting.
Context {OS : Type} `{!PageSource OS}.
Local Abbreviation display := (display OS).
Implicit Types (s d : display) (mm : mem) (P Q : Z -> Z -> bool).

(** [d] with the memory [mm]. *)
Definition at_mem mm d : display := d_with_heap (hp_with_mem mm (d_heap d)) d.

Definition scr_base d : Z := if use_double_buffer d then back_buffer d else fb_addr (fb d).
Definition scr_size d : Z := fb_height (fb d) * fb_pitch (fb d).

(** A 32-bit mode whose pixels are in the address space. *)
Record display_wf d : Prop := {
  dw_ready : ready (fb d) = true;
  dw_pitch : fb_pitch (fb d) mod 4 = 0 /\ 4 * fb_width (fb d) <= fb_pitch (fb d);
  dw_width : 0 <= fb_width (fb d);
  dw_height : 0 <= fb_height (fb d);
  dw_size : scr_size d < 2 ^ 32;
  dw_base : 0 <= scr_base d /\ scr_base d + scr_size d < 2 ^ 64
}.

(** Row, column and pixel of an address. *)
Definition a_row d (a : Z) : Z := (a - scr_base d) / fb_pitch (fb d).
Definition a_col d (a : Z) : Z := (a - scr_base d) mod fb_pitch (fb d) / 4.
Definition on_screen d (a : Z) : bool :=
  (scr_base d <=? a) && (a <? scr_base d + scr_size d) && (a_col d a <? fb_width (fb d)).

(** Memory [mm'] is [mm] with the pixels [P] of colour [c]. *)
Definition painted d (c : Z) P mm mm' : Prop :=
  forall a, mm' !! a = if on_screen d a && P (a_col d a) (a_row d a)
                       then Some (c / 256 ^ ((a - scr_base d) mod 4) mod 256) else mm !! a.

(** [m] gives exactly the pixels [P] of the screen the colour [c] and changes nothing else. *)
Definition paints d (c : Z) P (m : M display unit) : Prop :=
  forall mm, mapped mm (scr_base d) (scr_size d) ->
  exists mm', m (at_mem mm d) = Ret tt (at_mem mm' d) /\ mapped mm' (scr_base d) (scr_size d) /\ painted d c P mm mm'.

(** The colour of a pixel. *)
Definition pixel d mm (x y : Z) : option Z := load 4 mm (scr_base d + y * fb_pitch (fb d) + 4 * x).

Definition in_rect (x y w h px py : Z) : bool := (x <=? px) && (px <? x + w) && (y <=? py) && (py <? y + h).

Lemma at_mem_at mm mm' d : at_mem mm (at_mem mm' d) = at_mem mm d.
Proof. done. Qed.

Lemma paints_ext d c P Q m :
  (forall x y, 0 <= x < fb_width (fb d) -> 0 <= y < fb_height (fb d) -> P x y = Q x y) ->
  display_wf d -> paints d c P m -> paints d c Q m.
Proof.
  intros H Hw Hp mm Hmm. destruct (Hp mm Hmm) as (mm' & E & Hm' & Hpt). exists mm'. split; [done|]. split; [done|].
  intros a. rewrite (Hpt a). destruct (on_screen d a) eqn:Ea; [|done]. cbn [andb]. rewrite H; [done| |].
  - unfold on_screen in Ea. apply andb_prop in Ea as [Ea Ec]. apply andb_prop in Ea as [Ea Eb].
    split; [|lia]. apply Z.div_pos; [|lia]. apply Z.mod_pos_bound. unfold scr_size in *. pose proof (dw_height _ Hw). nia.
  - unfold on_screen in Ea. apply andb_prop in Ea as [Ea Ec]. apply andb_prop in Ea as [Ea Eb].
    unfold a_row, scr_size in *. pose proof (dw_height _ Hw). assert (0 < fb_pitch (fb d)) by nia.
    split; [apply Z.div_pos; lia|apply Z.div_lt_upper_bound; lia].
Qed.

Lemma paints_ret d c : paints d c (λ _ _, false) (ret tt).
Proof. intros mm Hmm. exists mm. split; [done|]. split; [done|]. intros a. by rewrite andb_false_r. Qed.

Lemma paints_seq d c P Q m1 m2 :
  paints d c P m1 -> paints d c Q m2 -> paints d c (λ x y, P x y || Q x y) (m1 ;;; m2).
Proof.
  intros H1 H2 mm Hmm. destruct (H1 mm Hmm) as (m' & E1 & Hm1 & Hp1). destruct (H2 m' Hm1) as (m'' & E2 & Hm2 & Hp2).
  exists m''. rewrite (bind_Ret _ _ _ _ _ E1). split; [done|]. split; [done|]. intros a. rewrite (Hp2 a), (Hp1 a).
  destruct (on_screen d a), (P (a_col d a) (a_row d a)), (Q (a_col d a) (a_row d a)); done.
Qed.

Lemma paints_gets {A} d c P (g : display -> A) (k : A -> M display unit) :
  (forall mm, g (at_mem mm d) = g d) -> paints d c P (k (g d)) -> paints d c P (bind (gets g) k).
Proof. intros Hg Hk mm Hmm. rewrite bind_gets, Hg. by apply Hk. Qed.

Lemma paints_for_n d c (P : Z -> Z -> Z -> bool) (body : Z -> M display unit) n i :
  (forall j, i <= j < i + Z.of_nat n -> paints d c (P j) (body j)) ->
  paints d c (λ x y, existsb (λ j, P j x y) (seqZ i (Z.of_nat n))) (for_n n i body).
Proof.
  revert i. induction n as [|n IH]; intros i H.
  { apply paints_ret. }
  cbn [for_n]. assert (seqZ i (Z.of_nat (S n)) = i :: seqZ (i + 1) (Z.of_nat n)) as ->.
  { rewrite seqZ_cons by lia. f_equal. f_equal; lia. }
  cbn [existsb]. apply paints_seq; [apply H; lia|]. apply IH. intros. apply H. lia.
Qed.

Lemma paints_for d c (P : Z -> Z -> Z -> bool) (body : Z -> M display unit) lo hi :
  lo <= hi -> (forall j, lo <= j < hi -> paints d c (P j) (body j)) ->
  paints d c (λ x y, existsb (λ j, P j x y) (seqZ lo (hi - lo))) (for_range lo hi body).
Proof.
  intros Hle H. pose proof (paints_for_n d c P body (Z.to_nat (hi - lo)) lo) as Hn. rewrite Z2Nat.id in Hn by lia.
  apply Hn. intros. apply H. lia.
Qed.

(** The four bytes of a pixel are those with its row and column. *)
Lemma pixel_bytes d x y a :
  display_wf d -> 0 <= x < fb_width (fb d) -> 0 <= y < fb_height (fb d) ->
  let p := scr_base d + y * fb_pitch (fb d) + 4 * x in
  scr_base d <= p /\ p + 4 <= scr_base d + scr_size d /\
  (on_screen d a && ((a_col d a =? x) && (a_row d a =? y)) = true <-> p <= a < p + 4) /\
  (p <= a < p + 4 -> (a - scr_base d) mod 4 = a - p).
Proof.
  intros Hw Hx Hy. destruct (dw_pitch _ Hw) as [Hp4 Hpw]. unfold on_screen, a_col, a_row, scr_size.
  set (b := scr_base d). set (pt := fb_pitch (fb d)) in *. set (wd := fb_width (fb d)) in *. set (ht := fb_height (fb d)) in *.
  cbv zeta. set (o := a - b). assert (0 < pt) by lia.
  assert (b <= b + y * pt + 4 * x) by nia. assert (b + y * pt + 4 * x + 4 <= b + ht * pt) by nia.
  split; [done|]. split; [done|].
  assert (b + y * pt + 4 * x <= a < b + y * pt + 4 * x + 4 -> o / pt = y /\ o mod pt = o - y * pt) as Hin.
  { intros Ha. assert (o / pt = y) as Ed by (symmetry; apply (Z.div_unique_pos _ _ y (o - y * pt)); subst o; lia).
    split; [done|]. rewrite Z.mod_eq, Ed by lia. lia. }
  split.
  - rewrite !andb_true_iff, !Z.eqb_eq, Z.leb_le, !Z.ltb_lt. split.
    + intros (((Hb & He) & Hc) & Ec & Er). pose proof (Z.div_mod o pt ltac:(lia)) as Hdm. rewrite Er in Hdm.
      pose proof (Z.div_mod (o mod pt) 4 ltac:(lia)) as Hd4. rewrite Ec in Hd4.
      pose proof (Z.mod_pos_bound (o mod pt) 4 ltac:(lia)). subst o. lia.
    + intros Ha. destruct (Hin Ha) as [Er Em]. rewrite Em, Er.
      assert ((o - y * pt) / 4 = x) as Ec by (symmetry; apply (Z.div_unique_pos _ _ x (o - y * pt - 4 * x)); subst o; lia).
      rewrite Ec. repeat split; lia.
  - intros Ha. assert (pt = 4 * (pt / 4)) as Ept by (pose proof (Z.div_mod pt 4 ltac:(lia)); lia).
    symmetry. apply (Z.mod_unique_pos _ _ (y * (pt / 4) + x)); subst o; lia.
Qed.

(** Reading back a pixel that was painted. *)
Lemma painted_pixel d c P mm mm' x y :
  display_wf d -> painted d c P mm mm' -> 0 <= x < fb_width (fb d) -> 0 <= y < fb_height (fb d) -> 0 <= c < 2 ^ 32 ->
  pixel d mm' x y = if P x y then Some c else pixel d mm x y.
Proof.
  intros Hw Hp Hx Hy Hc. unfold pixel. set (p := scr_base d + y * fb_pitch (fb d) + 4 * x).
  assert (forall a, p <= a < p + 4 -> on_screen d a = true /\ a_col d a = x /\ a_row d a = y /\ (a - scr_base d) mod 4 = a - p) as Hat.
  { intros a Ha. destruct (pixel_bytes d x y a Hw Hx Hy) as (_ & _ & Hi & Hm). fold p in Hi, Hm.
    apply Hi in Ha as Hb. apply andb_prop in Hb as [Hs Hb]. apply andb_prop in Hb as [Hcol Hrow].
    split; [done|]. split; [lia|]. split; [lia|]. by apply Hm. }
  destruct (P x y) eqn:EP.
  - rewrite (load_bytes 4 mm' p c); [by rewrite Z.mod_small by (simpl; lia)|lia|].
    intros a Ha. destruct (Hat a Ha) as (E1 & E2 & E3 & E4). by rewrite (Hp a), E1, E2, E3, EP, E4.
  - apply load_ext. intros a Ha. destruct (Hat a Ha) as (E1 & E2 & E3 & E4). by rewrite (Hp a), E1, E2, E3, EP.
Qed.

Lemma line_ptr_eq d x y :
  display_wf d -> 0 <= x < fb_width (fb d) -> 0 <= y < fb_height (fb d) ->
  line_ptr d x y = scr_base d + y * fb_pitch (fb d) + 4 * x.
Proof.
  intros Hw Hx Hy. destruct (dw_pitch _ Hw) as [Hp4 Hpw], (dw_base _ Hw) as [Hb0 Hb1]. pose proof (dw_size _ Hw) as Hsz.
  unfold line_ptr, scr_base, scr_size in *. set (pt := fb_pitch (fb d)) in *. set (ht := fb_height (fb d)) in *.
  assert (pt = 4 * (pt / 4)) as Ept by (pose proof (Z.div_mod pt 4 ltac:(lia)); lia).
  set (q := pt / 4) in *. clearbody q. assert (0 <= y * q) by nia.
  assert (y * pt + 4 * x + 4 <= ht * pt) by nia. assert (y * pt = 4 * (y * q)) as Eyp by (rewrite Ept; ring).
  destruct (use_double_buffer d).
  - rewrite (wrap_small 32 (y * q)) by lia. rewrite (wrap_small 32) by lia. rewrite wrap_small by lia. lia.
  - rewrite (wrap_small 32 (y * pt)) by lia. rewrite (wrap_small 32 (x * 4)) by lia.
    rewrite (wrap_small 64 (fb_addr (fb d) + y * pt)) by lia. rewrite wrap_small by lia. lia.
Qed.

(** Storing the pixel at its address. *)
Lemma put32_paints d c x y :
  display_wf d -> 0 <= x < fb_width (fb d) -> 0 <= y < fb_height (fb d) ->
  paints d c (λ px py, (px =? x) && (py =? y)) (put32 (scr_base d + y * fb_pitch (fb d) + 4 * x) c).
Proof.
  intros Hw Hx Hy mm Hmm. set (p := scr_base d + y * fb_pitch (fb d) + 4 * x).
  destruct (pixel_bytes d x y p Hw Hx Hy) as (Hlo & Hhi & _). fold p in Hlo, Hhi.
  destruct (store_mapped 4 mm p c) as [mm' E].
  { apply (mapped_sub _ _ _ _ _ Hmm); lia. }
  exists mm'. split; [|split; [by apply (store_keeps_mapped _ _ _ _ _ _ _ E)|]].
  - unfold put32, on_heap, zoom, st, at_mem. cbn [d_heap d_with_heap]. rewrite bind_get. cbn [hp_mem hp_with_mem].
    rewrite E, bind_option. reflexivity.
  - intros a. rewrite (store_lookup _ _ _ _ _ E a). destruct (pixel_bytes d x y a Hw Hx Hy) as (_ & _ & Hi & Hm).
    fold p in Hi, Hm. destruct (on_screen d a && ((a_col d a =? x) && (a_row d a =? y))) eqn:Eb.
    + destruct (proj1 Hi eq_refl). rewrite decide_True by (simpl; lia). by rewrite Hm by lia.
    + rewrite decide_False; [done|]. intros Ha. change (Z.of_nat 4) with 4 in Ha. by apply Hi in Ha.
Qed.

Lemma fill_row_paints d c x w y :
  display_wf d -> 0 <= x -> 0 <= w -> x + w <= fb_width (fb d) -> x < fb_width (fb d) -> 0 <= y < fb_height (fb d) ->
  paints d c (in_rect x y w 1) (fill_row x w y c).
Proof.
  intros Hw Hx Hw0 Hxw Hx1 Hy. unfold fill_row. apply paints_gets; [done|]. rewrite line_ptr_eq by (done || lia).
  assert (paints d c (λ px py, existsb (λ j, (px =? x + j) && (py =? y)) (seqZ 0 (w - 0)))
    (for_range 0 w (λ col, put32 (u64 (scr_base d + y * fb_pitch (fb d) + 4 * x + 4 * col)) c))) as Hp.
  { apply paints_for; [done|]. intros j Hj. destruct (pixel_bytes d (x + j) y 0 Hw) as (Hlo & Hhi & _); [lia|done|].
    destruct (dw_base _ Hw). rewrite wrap_small by lia.
    replace (scr_base d + y * fb_pitch (fb d) + 4 * x + 4 * j) with (scr_base d + y * fb_pitch (fb d) + 4 * (x + j)) by lia.
    apply put32_paints; [done|lia|done]. }
  eapply paints_ext; [|done|exact Hp]. intros px py Hpx Hpy. apply eq_true_iff_eq. unfold in_rect.
  rewrite existsb_exists, !andb_true_iff. split.
  - intros (j & Hj & Hb). apply list_elem_of_In, elem_of_seqZ in Hj. lia.
  - intros Hr. exists (px - x). split; [apply list_elem_of_In, elem_of_seqZ; lia|lia].
Qed.

(** A rectangle is clipped to the screen, as long as its edges do not wrap. *)
Lemma fill_rect_paints d c x y w h :
  display_wf d -> 0 <= x -> 0 <= y -> 0 <= w -> 0 <= h ->
  fb_width (fb d) <= x \/ fb_height (fb d) <= y \/ x + w < 2 ^ 32 /\ y + h < 2 ^ 32 ->
  paints d c (in_rect x y w h) (fb_fill_rect x y w h c).
Proof.
  intros Hw Hx Hy Hw0 Hh0 Hno. unfold fb_fill_rect. apply paints_gets; [done|]. rewrite (dw_ready _ Hw). cbn [negb].
  pose proof (dw_width _ Hw). pose proof (dw_height _ Hw). destruct (dw_pitch _ Hw) as [_ Hpw]. pose proof (dw_size _ Hw) as Hsz.
  destruct ((fb_width (fb d) <=? x) || (fb_height (fb d) <=? y)) eqn:Eo.
  { eapply paints_ext; [|done|apply paints_ret]. intros px py Hpx Hpy. symmetry. unfold in_rect.
    apply orb_true_iff in Eo. apply not_true_iff_false. rewrite !andb_true_iff. lia. }
  apply orb_false_elim in Eo as [Ex Ey]. destruct Hno as [|[|[Hxw Hyh]]]; [lia|lia|].
  assert (fb_width (fb d) < 2 ^ 32 /\ fb_height (fb d) < 2 ^ 32) as [Hw32 Hh32] by (unfold scr_size in Hsz; nia).
  rewrite (wrap_small 32 (x + w)), (wrap_small 32 (y + h)) by lia.
  set (w' := if fb_width (fb d) <? x + w then u32 (fb_width (fb d) - x) else w).
  set (h' := if fb_height (fb d) <? y + h then u32 (fb_height (fb d) - y) else h).
  assert (w' = Z.min w (fb_width (fb d) - x)) as Ew.
  { subst w'. destruct (Z.ltb_spec (fb_width (fb d)) (x + w)); [rewrite wrap_small by lia|]; lia. }
  assert (h' = Z.min h (fb_height (fb d) - y)) as Eh.
  { subst h'. destruct (Z.ltb_spec (fb_height (fb d)) (y + h)); [rewrite wrap_small by lia|]; lia. }
  clearbody w' h'. rewrite (wrap_small 32 (y + h')) by lia.
  assert (paints d c (λ px py, existsb (λ j, in_rect x j w' 1 px py) (seqZ y (y + h' - y)))
    (for_range y (y + h') (λ row, fill_row x w' row c))) as Hp.
  { apply paints_for; [lia|]. intros j Hj. apply fill_row_paints; (done || lia). }
  eapply paints_ext; [|done|exact Hp]. intros px py Hpx Hpy. apply eq_true_iff_eq.
  rewrite existsb_exists. unfold in_rect. rewrite !andb_true_iff. split.
  - intros (j & Hj & Hb). apply list_elem_of_In, elem_of_seqZ in Hj. rewrite !andb_true_iff in Hb. lia.
  - intros Hr. exists py. rewrite !andb_true_iff. split; [apply list_elem_of_In, elem_of_seqZ; lia|lia].
Qed.

Lemma put_pixel_paints d c x y :
  display_wf d -> 0 <= x -> 0 <= y -> paints d c (λ px py, (px =? x) && (py =? y)) (fb_put_pixel x y c).
Proof.
  intros Hw Hx Hy. unfold fb_put_pixel, fb_write_pixel. apply paints_gets; [done|]. rewrite (dw_ready _ Hw). cbn [negb orb].
  destruct ((fb_width (fb d) <=? x) || (fb_height (fb d) <=? y)) eqn:Eo.
  - eapply paints_ext; [|done|apply paints_ret]. intros px py Hpx Hpy. symmetry. apply andb_false_iff.
    apply orb_true_iff in Eo as [?|?]; [left|right]; lia.
  - apply orb_false_elim in Eo as [Ex Ey]. apply paints_gets; [done|]. rewrite line_ptr_eq by (done || lia).
    apply put32_paints; (done || lia).
Qed.
End painting.

(** ** Outlines, lines and circles *)

Section shapes.
Context {OS : Type} `{!PageSource OS}.
Local Abbreviation display := (display OS).
Implicit Types d : display.

Definition frame (x y w h t px py : Z) : bool :=
  in_rect x y w h px py && negb (in_rect (x + t) (y + t) (w - 2 * t) (h - 2 * t) px py).

Lemma outline_paints d c x y w h t :
  display_wf d -> 0 <= x -> 0 <= y -> 0 <= t -> 2 * t <= w -> 2 * t <= h -> x + w < 2 ^ 32 -> y + h < 2 ^ 32 ->
  paints d c (frame x y w h t) (fb_draw_rect_outline x y w h c t).
Proof.
  intros Hw Hx Hy Ht Htw Hth Hxw Hyh. unfold fb_draw_rect_outline.
  assert (paints d c (λ px py, existsb (λ j,
      in_rect (x + j) (y + j) (w - 2 * j) 1 px py || (in_rect (x + j) (y + h - 1 - j) (w - 2 * j) 1 px py ||
      (in_rect (x + j) (y + j) 1 (h - 2 * j) px py || in_rect (x + w - 1 - j) (y + j) 1 (h - 2 * j) px py)))
      (seqZ 0 (t - 0))) (for_range 0 t (outline_ring x y w h c))) as Hp.
  { apply paints_for; [done|]. intros j Hj. unfold outline_ring. rewrite !wrap_small by lia.
    repeat apply paints_seq; apply fill_rect_paints; (done || lia). }
  eapply paints_ext; [|done|exact Hp]. intros px py Hpx Hpy. apply eq_true_iff_eq.
  unfold frame. rewrite existsb_exists, andb_true_iff, negb_true_iff, <- not_true_iff_false. unfold in_rect.
  setoid_rewrite orb_true_iff. setoid_rewrite orb_true_iff. setoid_rewrite orb_true_iff. rewrite !andb_true_iff. split.
  - intros (j & Hj & Hb). apply list_elem_of_In, elem_of_seqZ in Hj. rewrite !andb_true_iff in Hb. lia.
  - intros [Hr Hn]. exists (Z.min (Z.min (px - x) (x + w - 1 - px)) (Z.min (py - y) (y + h - 1 - py))).
    rewrite !andb_true_iff. split; [apply list_elem_of_In, elem_of_seqZ; lia|lia].
Qed.

(** A path of neighbouring pixels that only moves towards [sx], [sy]. *)
Inductive steps (sx sy : Z) : list (Z * Z) -> Prop :=
  | steps_one q : steps sx sy [q]
  | steps_cons x y a b r :
      a = x \/ a = x + sx -> b = y \/ b = y + sy -> (a, b) <> (x, y) ->
      steps sx sy ((a, b) :: r) -> steps sx sy ((x, y) :: (a, b) :: r).

Definition on_path (l : list (Z * Z)) (px py : Z) : bool := existsb (λ q, (px =? q.1) && (py =? q.2)) l.

(** From [i] and [j] steps on: the error term is that of the two counts, it stays
    between [-2 dy] and [2 dx], and no count passes its end. *)
Lemma line_loop_paints d c X Y x1 y1 sx sy dx dy fuel i j err :
  display_wf d -> (sx = 1 \/ sx = -1) -> (sy = 1 \/ sy = -1) -> X + sx * dx = x1 -> Y + sy * dy = y1 ->
  0 <= X < 2 ^ 28 -> 0 <= Y < 2 ^ 28 -> 0 <= x1 < 2 ^ 28 -> 0 <= y1 < 2 ^ 28 -> 0 <= dx < 2 ^ 28 -> 0 <= dy < 2 ^ 28 ->
  0 <= i <= dx -> 0 <= j <= dy -> err = (j + 1) * dx - (i + 1) * dy -> -2 * dy <= err <= 2 * dx ->
  dx - i + (dy - j) < Z.of_nat fuel ->
  exists l, paints d c (on_path l) (line_loop fuel (X + sx * i) (Y + sy * j) x1 y1 dx dy sx sy err c) /\
    head l = Some (X + sx * i, Y + sy * j) /\ last l = Some (x1, y1) /\ steps sx sy l /\
    Z.of_nat (length l) <= dx - i + (dy - j) + 1.
Proof.
  intros Hw Hsx Hsy Hx1 Hy1 HX HY Hx1b Hy1b Hdx Hdy. revert i j err. induction fuel as [|fuel IH]; intros i j err Hi Hj He Heb Hf; [lia|].
  cbn [line_loop]. assert (0 <= X + sx * i < 2 ^ 28 /\ 0 <= Y + sy * j < 2 ^ 28) as [HXi HYj] by nia.
  pose proof (put_pixel_paints d c (X + sx * i) (Y + sy * j) Hw ltac:(lia) ltac:(lia)) as Hput.
  destruct (decide (i = dx /\ j = dy)) as [[-> ->]|Hne].
  { rewrite Hx1, Hy1 in *. rewrite !Z.eqb_refl. exists [(x1, y1)].
    split; [|split; [done|]; split; [done|]; split; [constructor|simpl; lia]].
    eapply paints_ext; [|done|exact (paints_seq _ _ _ _ _ _ Hput (paints_ret _ _))]. done. }
  assert ((X + sx * i =? x1) && (Y + sy * j =? y1) = false) as ->.
  { apply andb_false_iff. rewrite !Z.eqb_neq. rewrite <- Hx1, <- Hy1. destruct (decide (i = dx)); [right|left]; nia. }
  rewrite (signed_small 32 (2 * err)) by (simpl; lia).
  assert (forall i' j' err', i <= i' -> i' <= i + 1 -> j <= j' -> j' <= j + 1 -> (i', j') <> (i, j) -> i' <= dx -> j' <= dy ->
    err' = (j' + 1) * dx - (i' + 1) * dy -> -2 * dy <= err' <= 2 * dx ->
    exists l, paints d c (on_path l) (fb_put_pixel (X + sx * i) (Y + sy * j) c ;;;
        line_loop fuel (X + sx * i') (Y + sy * j') x1 y1 dx dy sx sy err' c) /\
      head l = Some (X + sx * i, Y + sy * j) /\ last l = Some (x1, y1) /\ steps sx sy l /\
      Z.of_nat (length l) <= dx - i + (dy - j) + 1) as Hgo.
  { intros i' j' err' Hi1 Hi2 Hj1 Hj2 Hneq Hi3 Hj3 Ee Hb.
    assert (i' <> i \/ j' <> j) as Hor by (destruct (decide (i' = i)); [right|left]; congruence).
    destruct (IH i' j' err') as (l & Hp & Hh & Hl & Hs & Hlen); [lia|lia|done|done|lia|].
    destruct l as [|[a b] r]; [done|]. injection Hh as -> ->. exists ((X + sx * i, Y + sy * j) :: (X + sx * i', Y + sy * j') :: r).
    split; [exact (paints_seq _ _ _ _ _ _ Hput Hp)|]. split; [done|]. split; [done|]. split.
    - constructor; [|clear Hp| |done].
      + assert (i' = i \/ i' = i + 1) as [-> | ->] by lia; [by left|right; lia].
      + assert (j' = j \/ j' = j + 1) as [-> | ->] by lia; [by left|right; lia].
      + intros [= E1 E2]. destruct Hsx, Hsy; subst sx sy; lia.
    - change (Z.of_nat (length ((X + sx * i, Y + sy * j) :: (X + sx * i', Y + sy * j') :: r)))
        with (Z.of_nat (S (length ((X + sx * i', Y + sy * j') :: r)))). lia. }
  destruct (Z.ltb_spec (- dy) (2 * err)) as [Hbx|Hbx], (Z.ltb_spec (2 * err) dx) as [Hby|Hby].
  - assert (i < dx) by (destruct (decide (i = dx)); [exfalso; nia|lia]).
    assert (j < dy) by (destruct (decide (j = dy)); [exfalso; nia|lia]).
    rewrite (signed_small 32 (err - dy)) by (simpl; lia). rewrite (signed_small 32 (err - dy + dx)) by (simpl; lia).
    rewrite !wrap_small by nia. replace (X + sx * i + sx) with (X + sx * (i + 1)) by lia.
    replace (Y + sy * j + sy) with (Y + sy * (j + 1)) by lia. apply Hgo; (lia || congruence || (intros [=]; lia)).
  - assert (i < dx) by (destruct (decide (i = dx)); [exfalso; nia|lia]).
    rewrite (signed_small 32 (err - dy)) by (simpl; lia).
    rewrite !wrap_small by nia. replace (X + sx * i + sx) with (X + sx * (i + 1)) by lia.
    apply Hgo; (lia || congruence || (intros [=]; lia)).
  - assert (j < dy) by (destruct (decide (j = dy)); [exfalso; nia|lia]).
    rewrite (signed_small 32 (err + dx)) by (simpl; lia).
    rewrite !wrap_small by nia. replace (Y + sy * j + sy) with (Y + sy * (j + 1)) by lia.
    apply Hgo; (lia || congruence || (intros [=]; lia)).
  - exfalso. assert (dx = 0 /\ dy = 0) as [-> ->] by lia. apply Hne. lia.
Qed.

Lemma steps_box sx sy l x0 y0 x1 y1 px py :
  (sx = 1 \/ sx = -1) -> (sy = 1 \/ sy = -1) -> steps sx sy l -> head l = Some (x0, y0) -> last l = Some (x1, y1) ->
  (px, py) ∈ l -> 0 <= sx * (px - x0) <= sx * (x1 - x0) /\ 0 <= sy * (py - y0) <= sy * (y1 - y0).
Proof.
  intros Hsx Hsy Hs. revert x0 y0 px py. induction Hs as [[x y]|x y a b r Ha Hb _ Hs IH]; intros x0 y0 px py Hh Hl Hin.
  - injection Hh as -> ->. injection Hl as -> ->. apply list_elem_of_singleton in Hin as [= -> ->]. lia.
  - injection Hh as -> ->. change (last ((a, b) :: r) = Some (x1, y1)) in Hl.
    assert ((a, b) ∈ (a, b) :: r) as Hhd by set_solver. pose proof (IH a b a b eq_refl Hl Hhd) as H0.
    apply elem_of_cons in Hin as [[= -> ->]|Hin]; [|pose proof (IH a b px py eq_refl Hl Hin)];
      destruct Hsx, Hsy; subst sx sy; lia.
Qed.

Lemma draw_line_paints d c x0 y0 x1 y1 fuel :
  display_wf d -> 0 <= x0 < 2 ^ 28 -> 0 <= y0 < 2 ^ 28 -> 0 <= x1 < 2 ^ 28 -> 0 <= y1 < 2 ^ 28 ->
  Z.abs (x1 - x0) + Z.abs (y1 - y0) < Z.of_nat fuel ->
  exists sx sy l, (sx = 1 \/ sx = -1) /\ (sy = 1 \/ sy = -1) /\
    paints d c (on_path l) (fb_draw_line fuel x0 y0 x1 y1 c) /\
    head l = Some (x0, y0) /\ last l = Some (x1, y1) /\ steps sx sy l.
Proof.
  intros Hw Hx0 Hy0 Hx1 Hy1 Hf. unfold fb_draw_line.
  rewrite !(signed_small 32 x0), !(signed_small 32 y0), !(signed_small 32 x1), !(signed_small 32 y1) by (simpl; lia).
  rewrite (signed_small 32 (x1 - x0)), (signed_small 32 (y1 - y0)) by (simpl; lia).
  set (sx := if x0 <? x1 then 1 else -1). set (sy := if y0 <? y1 then 1 else -1).
  assert ((sx = 1 \/ sx = -1) /\ x0 + sx * Z.abs (x1 - x0) = x1) as [Hsx Ex] by (subst sx; destruct (Z.ltb_spec x0 x1); lia).
  assert ((sy = 1 \/ sy = -1) /\ y0 + sy * Z.abs (y1 - y0) = y1) as [Hsy Ey] by (subst sy; destruct (Z.ltb_spec y0 y1); lia).
  clearbody sx sy. exists sx, sy. 
  destruct (line_loop_paints d c x0 y0 x1 y1 sx sy (Z.abs (x1 - x0)) (Z.abs (y1 - y0)) fuel 0 0 (Z.abs (x1 - x0) - Z.abs (y1 - y0)))
    as (l & Hp & Hh & Hl & Hs & _); [done|done|done|done|done|lia..|].
  rewrite !Z.mul_0_r, !Z.add_0_r in *. by exists l.
Qed.

(** [m] paints only pixels of [B]. *)
Definition draws_in d (c : Z) (B : Z -> Z -> Prop) (m : M display unit) : Prop :=
  exists P, paints d c P m /\
    forall px py, 0 <= px < fb_width (fb d) -> 0 <= py < fb_height (fb d) -> P px py = true -> B px py.

Definition box (cx cy r px py : Z) : Prop := Z.abs (px - cx) <= r /\ Z.abs (py - cy) <= r.

Lemma draws_ret d c B : draws_in d c B (ret tt).
Proof. exists (λ _ _, false). split; [apply paints_ret|done]. Qed.

Lemma draws_seq d c B m1 m2 : draws_in d c B m1 -> draws_in d c B m2 -> draws_in d c B (m1 ;;; m2).
Proof.
  intros (P & Hp & HP) (Q & Hq & HQ). eexists. split; [by apply paints_seq|]. intros px py Hx Hy [Ht|Ht]%orb_true_iff; auto.
Qed.

Definition small_screen d : Prop := fb_width (fb d) <= 2 ^ 28 /\ fb_height (fb d) <= 2 ^ 28.

(** A coordinate left of the screen is far right of it. *)
Lemma u32_left a : - 2 ^ 28 <= a < 2 ^ 31 -> u32 a = a /\ 0 <= a \/ a < 0 /\ 2 ^ 28 <= u32 a < 2 ^ 32.
Proof.
  intros Ha. destruct (decide (0 <= a)); [left; by rewrite wrap_small by lia|right].
  unfold wrap. rewrite <- (Z.mod_add _ 1), Z.mod_small by lia. lia.
Qed.

Lemma draws_pixel d c cx cy r x y :
  display_wf d -> small_screen d -> - 2 ^ 28 <= x < 2 ^ 30 -> - 2 ^ 28 <= y < 2 ^ 30 -> box cx cy r x y ->
  draws_in d c (box cx cy r) (fb_put_pixel (u32 x) (u32 y) c).
Proof.
  intros Hw [Hs1 Hs2] Hx Hy Hb. eexists. split; [apply put_pixel_paints; [done|apply wrap_bound; lia..]|].
  intros px py Hpx Hpy Hp. apply andb_prop in Hp as [Hp1 Hp2].
  destruct (u32_left x) as [[Ex _]|[_ Hxb]]; [lia| |lia]. destruct (u32_left y) as [[Ey _]|[_ Hyb]]; [lia| |lia].
  assert (px = x) as -> by lia. by assert (py = y) as -> by lia.
Qed.

Lemma draws_span d c cx cy r x y w :
  display_wf d -> small_screen d -> - 2 ^ 28 <= x < 2 ^ 30 -> - 2 ^ 28 <= y < 2 ^ 30 -> 0 <= w < 2 ^ 30 ->
  (forall k, 0 <= k < w -> box cx cy r (x + k) y) ->
  draws_in d c (box cx cy r) (fb_fill_rect (u32 x) (u32 y) (u32 w) 1 c).
Proof.
  intros Hw [Hs1 Hs2] Hx Hy Hwb Hb. rewrite (wrap_small 32 w) by lia. eexists. split.
  { apply fill_rect_paints; [done|apply wrap_bound; lia|apply wrap_bound; lia|lia|lia|].
    destruct (u32_left x) as [[-> ?]|[_ ?]]; [lia| |left; lia].
    destruct (u32_left y) as [[-> ?]|[_ ?]]; [lia|right; right; lia|right; left; lia]. }
  intros px py Hpx Hpy Hp. unfold in_rect in Hp. rewrite !andb_true_iff in Hp.
  destruct (u32_left x) as [[Ex _]|[_ Hxb]]; [lia| |lia]. destruct (u32_left y) as [[Ey _]|[_ Hyb]]; [lia| |lia].
  rewrite Ex, Ey in Hp. assert (py = y) as -> by lia. replace px with (x + (px - x)) by lia. apply Hb. lia.
Qed.

Lemma circle_loop_draws d c cx cy r filled fuel x y err :
  display_wf d -> small_screen d -> 0 <= cx < 2 ^ 28 -> 0 <= cy < 2 ^ 28 -> 0 <= r < 2 ^ 28 ->
  -1 <= x <= r -> 0 <= y <= r + 1 -> (y <= x -> - (2 * r + 1) <= err <= 2 * r + 4) -> x - y + 1 < Z.of_nat fuel -> (0 < fuel)%nat ->
  draws_in d c (box cx cy r) (circle_loop fuel cx cy x y err c filled).
Proof.
  intros Hw Hs Hcx Hcy Hr. revert x y err. induction fuel as [|fuel IH]; intros x y err Hx Hy Herr Hf Hf0; [lia|].
  cbn [circle_loop]. destruct (Z.leb_spec y x) as [Hyx|]; [|apply draws_ret]. specialize (Herr Hyx).
  apply draws_seq.
  - unfold circle_step. destruct filled; repeat apply draws_seq;
      first [apply draws_pixel; unfold box; (done || lia) | apply draws_span; unfold box; (done || lia)].
  - rewrite (signed_small 32 (y + 1)) by (simpl; lia).
    set (e1 := if err <=? 0 then s32 (err + (2 * (y + 1) + 1)) else err).
    assert (- (2 * r + 1) <= e1 <= 2 * r + 4) as He1.
    { subst e1. destruct (Z.leb_spec err 0); [|lia]. rewrite signed_small by (simpl; lia). lia. }
    clearbody e1. destruct (Z.ltb_spec 0 e1).
    + rewrite (signed_small 32 (x - 1)), (signed_small 32 (e1 - _)) by (simpl; lia). apply IH; lia.
    + apply IH; lia.
Qed.

Lemma draw_circle_draws d c cx cy r filled fuel :
  display_wf d -> small_screen d -> 0 <= cx < 2 ^ 28 -> 0 <= cy < 2 ^ 28 -> 0 <= r < 2 ^ 28 ->
  r + 1 < Z.of_nat fuel -> draws_in d c (box cx cy r) (fb_draw_circle fuel cx cy r c filled).
Proof.
  intros Hw Hs Hcx Hcy Hr Hf. unfold fb_draw_circle.
  destruct (circle_loop_draws d c cx cy r filled fuel r 0 0 Hw Hs Hcx Hcy Hr) as (P & Hp & HP); [lia..|].
  exists P. split; [|done]. apply paints_gets; [done|]. rewrite (dw_ready _ Hw). cbn [negb].
  by rewrite (signed_small 32 r) by (simpl; lia).
Qed.
End shapes.

(** ** Scrolling *)

Section scrolling.
Context {OS : Type} `{!PageSource OS}.
Local Abbreviation display := (display OS).
Implicit Types (d : display) (mm : mem).

Lemma on_mem_run (g : mem -> option mem) mm mm' d : g mm = Some mm' -> on_mem g (at_mem mm d) = Ret tt (at_mem mm' d).
Proof. intros E. unfold on_mem. rewrite bind_get. cbn [at_mem d_heap d_with_heap hp_mem hp_with_mem]. by rewrite E. Qed.

Lemma scroll_run d mm lines :
  display_wf d -> byte_mem mm -> mapped mm (scr_base d) (scr_size d) -> 0 < fb_width (fb d) -> 0 < lines <= fb_height (fb d) ->
  exists mm', fb_scroll lines (at_mem mm d) = Ret tt (at_mem mm' d) /\
    forall a, mm' !! a =
      if decide (scr_base d <= a < scr_base d + scr_size d) then
        if decide (a + lines * fb_pitch (fb d) < scr_base d + scr_size d) then mm !! (a + lines * fb_pitch (fb d)) else Some 0
      else mm !! a.
Proof.
  intros Hw Hb Hm Hwd Hl. destruct (dw_pitch _ Hw) as [_ Hpw], (dw_base _ Hw) as [Hb0 Hb1]. pose proof (dw_size _ Hw) as Hsz.
  unfold fb_scroll. rewrite bind_get. change (fb (at_mem mm d)) with (fb d). rewrite (dw_ready _ Hw). cbn [negb orb].
  destruct (Z.eqb_spec lines 0); [lia|].
  change (if use_double_buffer (at_mem mm d) then back_buffer (at_mem mm d) else fb_addr (fb d)) with (scr_base d).
  unfold scr_size in *. set (pt := fb_pitch (fb d)) in *. set (ht := fb_height (fb d)) in *. set (b := scr_base d) in *.
  assert (0 < lines * pt <= ht * pt) as Hlp by nia.
  rewrite (wrap_small 32 (ht * pt)), (wrap_small 64 (lines * pt)), (wrap_small 64 (ht * pt - _)) by lia.
  destruct (copy_up_spec (Z.to_nat (ht * pt - lines * pt)) mm b (b + lines * pt) 0 Hb) as (m1 & E1 & H1).
  { apply (mapped_sub _ _ _ _ _ Hm); lia. }
  { apply (mapped_sub _ _ _ _ _ Hm); lia. }
  { lia. }
  assert (mapped m1 b (ht * pt)) as Hm1.
  { intros a Ha. rewrite (H1 a). case_decide; apply Hm; lia. }
  rewrite (wrap_small 64 (b + lines * pt)), (wrap_small 64 (b + ht * pt - lines * pt)) by lia.
  destruct (memset_loop_spec (Z.to_nat (lines * pt)) m1 (b + ht * pt - lines * pt) 0 0) as (m2 & E2 & H2).
  { apply (mapped_sub _ _ _ _ _ Hm1); lia. }
  exists m2. erewrite bind_Ret.
  2: { apply (on_mem_run _ mm m1 d). unfold memmove. destruct (Z.ltb_spec b (b + lines * pt)); [exact E1|lia]. }
  rewrite (on_mem_run _ m1 m2 d E2). split; [done|]. intros a. rewrite H2, (H1 a).
  repeat case_decide; try lia; try done. f_equal. lia.
Qed.
End scrolling.

(** ** Rectangles that wrap *)

Section wrapping.
Context {OS : Type} `{!PageSource OS}.
Local Abbreviation display := (display OS).
Implicit Types (d : display) (mm : mem).

Lemma put32_hole d mm a v b :
  mm !! b = None ->
  put32 a v (at_mem mm d) = Stuck \/ exists mm', put32 a v (at_mem mm d) = Ret tt (at_mem mm' d) /\ mm' !! b = None /\ a <> b.
Proof.
  intros Hb. unfold put32, on_heap, zoom, st, at_mem. cbn [d_heap d_with_heap]. rewrite bind_get. cbn [hp_mem hp_with_mem].
  destruct (store 4 mm a v) as [mm'|] eqn:E; [right|by left]. exists mm'. split; [done|].
  destruct (decide (a <= b < a + 4)) as [Hin|Hout].
  - exfalso. destruct (store_Some_mapped _ _ _ _ _ E b Hin) as [? ?]. congruence.
  - split; [|lia]. rewrite (store_lookup _ _ _ _ _ E), decide_False; [done|]. change (Z.of_nat 4) with 4. lia.
Qed.

Lemma row_stuck d (line c k : Z) n i mm :
  i <= k < i + Z.of_nat n -> mm !! u64 (line + 4 * k) = None ->
  for_n n i (λ col, put32 (u64 (line + 4 * col)) c) (at_mem mm d) = Stuck.
Proof.
  revert i mm. induction n as [|n IH]; intros i mm Hk Hb; [lia|]. cbn [for_n].
  destruct (put32_hole d mm (u64 (line + 4 * i)) c _ Hb) as [E|(mm' & E & Hb' & Hne)]; [unfold bind; by rewrite E|].
  rewrite (bind_Ret _ _ _ _ _ E). apply IH; [|done]. assert (i <> k) by (intros ->; done). lia.
Qed.

Lemma fill_rect_stuck d mm x y w h c k :
  display_wf d -> 0 <= x < fb_width (fb d) -> 0 <= y < fb_height (fb d) -> w < 2 ^ 32 -> 2 ^ 32 <= x + w ->
  1 <= h -> y + h < 2 ^ 32 -> 0 <= k < w -> mm !! u64 (line_ptr d x y + 4 * k) = None ->
  fb_fill_rect x y w h c (at_mem mm d) = Stuck.
Proof.
  intros Hw Hx Hy Hwb Hxw Hh Hyh Hk Hb. unfold fb_fill_rect. rewrite bind_gets. change (fb (at_mem mm d)) with (fb d).
  rewrite (dw_ready _ Hw). cbn [negb]. pose proof (dw_size _ Hw) as Hsz. destruct (dw_pitch _ Hw) as [_ Hpw]. unfold scr_size in Hsz.
  assert (fb_width (fb d) < 2 ^ 32 /\ fb_height (fb d) < 2 ^ 32) as [Hw32 Hh32] by nia.
  destruct (Z.leb_spec (fb_width (fb d)) x); [lia|]. destruct (Z.leb_spec (fb_height (fb d)) y); [lia|]. cbn [orb].
  assert (u32 (x + w) = x + w - 2 ^ 32) as ->.
  { unfold wrap. rewrite <- (Z.mod_add _ (-1)), Z.mod_small by lia. lia. }
  destruct (Z.ltb_spec (fb_width (fb d)) (x + w - 2 ^ 32)); [lia|]. cbv zeta.
  set (h' := if _ <? _ then _ else h). assert (1 <= h' /\ h' <= h) as [Hh1 Hh2].
  { subst h'. destruct (Z.ltb_spec (fb_height (fb d)) (u32 (y + h))) as [Hc|]; [|lia]. rewrite wrap_small in Hc by lia.
    rewrite wrap_small by lia. lia. }
  clearbody h'. rewrite (wrap_small 32 (y + h')) by lia. unfold for_range.
  destruct (Z.to_nat (y + h' - y)) as [|n] eqn:En; [lia|]. cbn [for_n]. unfold bind at 1, fill_row at 1. rewrite bind_gets.
  unfold for_range. change (line_ptr (at_mem mm d) x y) with (line_ptr d x y). by rewrite (row_stuck d _ c k) by (done || lia).
Qed.
End wrapping.

(** ** Set-up with the kernel heap *)

Section setup.
Context {OS : Type} `{!PageSource OS} (junk : Z -> Z).
Local Abbreviation display := (display OS).
Implicit Types (d : display) (mm : mem).

(** The framebuffer tag is at [t'], [n] tags after [t]. *)
Inductive reaches (m : mem) : Z -> Z -> nat -> Prop :=
  | reaches_here t : load 4 m t = Some 8 -> reaches m t t 0
  | reaches_next t ty size t' n :
      load 4 m t = Some ty -> ty <> 0 -> ty <> 8 -> load 4 m (t + 4) = Some size ->
      reaches m (mbi_next t size) t' n -> reaches m t t' (S n).

(** The fields of the framebuffer tag at [t]. *)
Definition fb_tag (m : mem) (t : Z) (f : framebuffer_t) : Prop :=
  load 8 m (t + 8) = Some (fb_addr f) /\ load 4 m (t + 16) = Some (fb_pitch f) /\
  load 4 m (t + 20) = Some (fb_width f) /\ load 4 m (t + 24) = Some (fb_height f) /\
  load 1 m (t + 28) = Some (fb_bpp f).

Lemma heap_ld_run n a v d : load n (hp_mem (d_heap d)) a = Some v -> on_heap (ld n a) d = Ret v d.
Proof. intros E. unfold on_heap, zoom, ld. rewrite bind_get, E. by destruct d. Qed.

(** The state when the back buffer is asked for. *)
Definition with_fb (f : framebuffer_t) d : display := mkDisplay (d_heap d) f (back_buffer d) (use_double_buffer d).

Lemma fb_tag_loop_reach fuel t t' n d f :
  reaches (hp_mem (d_heap d)) t t' n -> fb_tag (hp_mem (d_heap d)) t' f -> (n < fuel)%nat ->
  fb_tag_loop junk fuel t d =
    (p <-- on_heap (kmalloc junk (fuel - n - 1) (u32 (fb_height f * fb_pitch f))) ;;
     modify (λ s, mkDisplay (d_heap s) (fb s) p (if truth p then true else use_double_buffer s)) ;;;
     ret (fb_bpp f =? 32)) (with_fb f d).
Proof.
  intros Hr (H1 & H2 & H3 & H4 & H5). revert fuel. induction Hr as [t Ht|t ty size t' n Ht H0 H8 Hs Hr IH]; intros [|fuel] Hf; try lia.
  - cbn [fb_tag_loop]. rewrite (bind_Ret _ _ _ _ _ (heap_ld_run _ _ _ _ Ht)).
    change (8 =? 0) with false. change (8 =? 8) with true. cbv iota.
    rewrite (bind_Ret _ _ _ _ _ (heap_ld_run _ _ _ _ H1)), (bind_Ret _ _ _ _ _ (heap_ld_run _ _ _ _ H2)),
      (bind_Ret _ _ _ _ _ (heap_ld_run _ _ _ _ H3)), (bind_Ret _ _ _ _ _ (heap_ld_run _ _ _ _ H4)),
      (bind_Ret _ _ _ _ _ (heap_ld_run _ _ _ _ H5)), bind_modify.
    replace (S fuel - 0 - 1)%nat with fuel by lia. by destruct f.
  - cbn [fb_tag_loop]. rewrite (bind_Ret _ _ _ _ _ (heap_ld_run _ _ _ _ Ht)).
    destruct (Z.eqb_spec ty 0); [done|]. destruct (Z.eqb_spec ty 8); [done|].
    rewrite (bind_Ret _ _ _ _ _ (heap_ld_run _ _ _ _ Hs)), IH by (done || lia).
    by replace (S fuel - S n - 1)%nat with (fuel - n - 1)%nat by lia.
Qed.
End setup.

(** ** Properties *)

Section framebuffer_properties.
Context {OS : Type} `{!PageSource OS} (junk : Z -> Z).
Local Abbreviation display := (display OS).
Implicit Types (d : display) (mm : mem).

(** C30. [fb_fill_rect] gives the pixels of the rectangle that are on the screen the colour and
    changes no other byte of memory, in either buffer, when the far edges do not wrap
    or the near corner is off the screen. *)
Theorem fb_fill_rect_spec d mm x y w h c :
  display_wf d -> mapped mm (scr_base d) (scr_size d) -> 0 <= c < 2 ^ 32 ->
  0 <= x -> 0 <= y -> 0 <= w -> 0 <= h ->
  fb_width (fb d) <= x \/ fb_height (fb d) <= y \/ x + w < 2 ^ 32 /\ y + h < 2 ^ 32 ->
  exists mm', fb_fill_rect x y w h c (at_mem mm d) = Ret tt (at_mem mm' d) /\ painted d c (in_rect x y w h) mm mm' /\
    forall px py, 0 <= px < fb_width (fb d) -> 0 <= py < fb_height (fb d) ->
      pixel d mm' px py = if in_rect x y w h px py then Some c else pixel d mm px py.
Proof.
  intros Hw Hm Hc Hx Hy Hw0 Hh0 Hno. destruct (fill_rect_paints d c x y w h Hw Hx Hy Hw0 Hh0 Hno mm Hm) as (mm' & E & _ & Hp).
  exists mm'. split; [done|]. split; [done|]. intros. by apply painted_pixel.
Qed.

(** A width whose far edge wraps is not clipped: [fb_fill_rect] leaves its row and writes
    4 [w] bytes on, into whatever memory is there, until it meets an address that is not mapped. *)
Theorem fb_fill_rect_wraps d mm x y w h c k :
  display_wf d -> 0 <= x < fb_width (fb d) -> 0 <= y < fb_height (fb d) -> w < 2 ^ 32 -> 2 ^ 32 <= x + w ->
  1 <= h -> y + h < 2 ^ 32 -> 0 <= k < w -> mm !! u64 (line_ptr d x y + 4 * k) = None ->
  fb_fill_rect x y w h c (at_mem mm d) = Stuck.
Proof. apply fill_rect_stuck. Qed.

(** [fb_draw_rect_outline] paints the frame of the given thickness and leaves the inside. *)
Theorem fb_outline_spec d mm x y w h t c :
  display_wf d -> mapped mm (scr_base d) (scr_size d) -> 0 <= c < 2 ^ 32 ->
  0 <= x -> 0 <= y -> 0 <= t -> 2 * t <= w -> 2 * t <= h -> x + w < 2 ^ 32 -> y + h < 2 ^ 32 ->
  exists mm', fb_draw_rect_outline x y w h c t (at_mem mm d) = Ret tt (at_mem mm' d) /\ painted d c (frame x y w h t) mm mm'.
Proof.
  intros. destruct (outline_paints d c x y w h t) with (mm := mm) as (mm' & E & _ & Hp); [done..|]. by exists mm'.
Qed.

(** C31. [fb_draw_line] ends and paints exactly a path of neighbouring pixels from one end to the
    other, which never leaves the box of its ends; pixels off the screen are left out. *)
Theorem fb_draw_line_spec d mm x0 y0 x1 y1 c fuel :
  display_wf d -> mapped mm (scr_base d) (scr_size d) ->
  0 <= x0 < 2 ^ 28 -> 0 <= y0 < 2 ^ 28 -> 0 <= x1 < 2 ^ 28 -> 0 <= y1 < 2 ^ 28 ->
  Z.abs (x1 - x0) + Z.abs (y1 - y0) < Z.of_nat fuel ->
  exists mm' l sx sy, fb_draw_line fuel x0 y0 x1 y1 c (at_mem mm d) = Ret tt (at_mem mm' d) /\
    painted d c (on_path l) mm mm' /\ head l = Some (x0, y0) /\ last l = Some (x1, y1) /\ steps sx sy l /\
    forall px py, (px, py) ∈ l -> Z.min x0 x1 <= px <= Z.max x0 x1 /\ Z.min y0 y1 <= py <= Z.max y0 y1.
Proof.
  intros Hw Hm Hx0 Hy0 Hx1 Hy1 Hf. destruct (draw_line_paints d c x0 y0 x1 y1 fuel) as (sx & sy & l & Hsx & Hsy & Hp & Hh & Hl & Hs); [done..|].
  destruct (Hp mm Hm) as (mm' & E & _ & Hpt). exists mm', l, sx, sy. do 5 (split; [done|]). intros px py Hin.
  pose proof (steps_box sx sy l x0 y0 x1 y1 px py Hsx Hsy Hs Hh Hl Hin). destruct Hsx, Hsy; subst sx sy; lia.
Qed.

(** [fb_draw_circle] ends and changes only pixels of the square around the circle. *)
Theorem fb_draw_circle_spec d mm cx cy r c filled fuel :
  display_wf d -> small_screen d -> mapped mm (scr_base d) (scr_size d) ->
  0 <= cx < 2 ^ 28 -> 0 <= cy < 2 ^ 28 -> 0 <= r < 2 ^ 28 -> r + 1 < Z.of_nat fuel ->
  exists mm' P, fb_draw_circle fuel cx cy r c filled (at_mem mm d) = Ret tt (at_mem mm' d) /\ painted d c P mm mm' /\
    forall px py, 0 <= px < fb_width (fb d) -> 0 <= py < fb_height (fb d) -> P px py = true -> box cx cy r px py.
Proof.
  intros Hw Hs Hm Hcx Hcy Hr Hf. destruct (draw_circle_draws d c cx cy r filled fuel) as (P & Hp & HP); [done..|].
  destruct (Hp mm Hm) as (mm' & E & _ & Hpt). by exists mm', P.
Qed.

(** [fb_scroll] moves every row of the screen up and clears the rows that come in. *)
Theorem fb_scroll_spec d mm lines :
  display_wf d -> byte_mem mm -> mapped mm (scr_base d) (scr_size d) -> 0 < fb_width (fb d) -> 0 < lines <= fb_height (fb d) ->
  exists mm', fb_scroll lines (at_mem mm d) = Ret tt (at_mem mm' d) /\
    (forall a, ~ scr_base d <= a < scr_base d + scr_size d -> mm' !! a = mm !! a) /\
    forall x y, 0 <= x < fb_width (fb d) -> 0 <= y < fb_height (fb d) ->
      pixel d mm' x y = if decide (y + lines < fb_height (fb d)) then pixel d mm x (y + lines) else Some 0.
Proof.
  intros Hw Hb Hm Hwd Hl. destruct (scroll_run d mm lines Hw Hb Hm Hwd Hl) as (mm' & E & H). exists mm'. split; [done|]. split.
  { intros a Ha. rewrite H. by rewrite decide_False. }
  intros x y Hx Hy. unfold pixel, scr_size in *. destruct (dw_pitch _ Hw) as [_ Hpw].
  set (pt := fb_pitch (fb d)) in *. set (ht := fb_height (fb d)) in *. set (b := scr_base d) in *.
  assert (y * pt + pt <= ht * pt) by nia. assert (0 <= y * pt) by nia.
  case_decide as Hd.
  - assert ((y + lines) * pt + pt <= ht * pt) by nia.
    apply load_shift. intros i Hi. change (Z.of_nat 4) with 4 in Hi. rewrite H, !decide_True by lia. f_equal. lia.
  - assert (ht * pt <= (y + lines) * pt) by nia.
    rewrite (load_bytes 4 mm' _ 0); [done|lia|]. intros a Ha. change (Z.of_nat 4) with 4 in Ha.
    rewrite H, decide_True, decide_False by lia. by rewrite Z.div_0_l by lia.
Qed.

(** C38. Booting with a framebuffer never gets past [fb_init]: the back buffer of the whole screen
    is asked from a heap whose blocks are at most a page, and [kmalloc] takes page after page
    until it panics, however much memory there is. *)
Theorem fb_init_panics d bs mbi t n f fuel :
  heap_wf (d_heap d) bs -> caches_ok (d_heap d) -> Forall (λ b, b_size b <= 4064) bs ->
  reaches (hp_mem (d_heap d)) (mbi + 8) t n -> fb_tag (hp_mem (d_heap d)) t f ->
  4064 < u32 (fb_height f * fb_pitch f) ->
  (n + length bs + 2 * pages_left (hp_os (d_heap d)) + 5 < fuel)%nat ->
  exists msg s', fb_init junk fuel mbi d = Panic msg s' /\ (msg = "heap oom" \/ msg = "paging oom")%string.
Proof.
  intros Hw Hc Hall Hr Ht Hsz Hf. unfold fb_init. rewrite (fb_tag_loop_reach junk _ _ _ _ _ _ Hr Ht) by lia.
  set (z := u32 (fb_height f * fb_pitch f)) in *. assert (z < 2 ^ 32) by (apply wrap_bound; lia).
  assert (Forall (λ b, fits (align16 z) b = false) bs) as Hfit.
  { apply (Forall_impl _ _ _ Hall). intros b Hb. unfold fits. destruct (align16_eq z) as (_ & Ha & _); [lia|].
    destruct (Z.leb_spec (align16 z) (b_size b)); [lia|]. by rewrite ?andb_false_r. }
  destruct (kmalloc_big_run junk (d_heap d) bs z (fuel - n - 1) Hw Hc ltac:(lia) Hfit ltac:(lia)) as (s' & [E|E]);
    eexists _, _; (split; [apply bind_Panic; unfold on_heap, zoom, with_fb; cbn [d_heap]; rewrite E; reflexivity|]); auto.
Qed.
End framebuffer_properties.

(** ** Concrete screens *)

Section framebuffer_witnesses.

(** A screen of four by three pixels at 0x1000. *)
Definition tiny : display nat := mkDisplay (mkHeap O ∅ 0 0 0 []) (mkFb 0x1000 16 4 3 32) 0 false.
Definition tiny_mem : mem := bytes_at 0x1000 (replicate 48 7).

Lemma tiny_wf : display_wf tiny.
Proof. split; simpl; try done; lia. Qed.

Lemma tiny_mapped : mapped tiny_mem (scr_base tiny) (scr_size tiny).
Proof. apply mappedb_spec. vm_compute. reflexivity. Qed.

Lemma fb_fill_rect_spec_witness :
  exists mm', fb_fill_rect 2 1 9 1 0xFF00 (at_mem tiny_mem tiny) = Ret tt (at_mem mm' tiny) /\
    pixel tiny mm' 3 1 = Some 0xFF00 /\ pixel tiny mm' 1 1 = Some 0x07070707.
Proof.
  destruct (fb_fill_rect_spec tiny tiny_mem 2 1 9 1 0xFF00 tiny_wf tiny_mapped) as (mm' & E & _ & Hp); [lia..|].
  exists mm'. split; [exact E|]. split; [exact (Hp 3 1 ltac:(simpl; lia) ltac:(simpl; lia))|].
  exact (Hp 1 1 ltac:(simpl; lia) ltac:(simpl; lia)).
Defined.

Lemma fb_fill_rect_wraps_witness : fb_fill_rect 1 0 (2 ^ 32 - 1) 1 5 (at_mem tiny_mem tiny) = Stuck.
Proof.
  apply (fb_fill_rect_wraps tiny tiny_mem 1 0 (2 ^ 32 - 1) 1 5 100 tiny_wf);
    [split; reflexivity || discriminate|split; reflexivity || discriminate|lia|lia|lia|lia|lia|vm_compute; reflexivity].
Defined.

Lemma fb_outline_spec_witness :
  exists mm', fb_draw_rect_outline 0 0 4 3 5 1 (at_mem tiny_mem tiny) = Ret tt (at_mem mm' tiny).
Proof.
  destruct (fb_outline_spec tiny tiny_mem 0 0 4 3 1 5 tiny_wf tiny_mapped) as (mm' & E & _); [lia..|]. exists mm'. exact E.
Defined.

Lemma fb_draw_line_spec_witness :
  exists mm' l, fb_draw_line 9 3 0 0 2 5 (at_mem tiny_mem tiny) = Ret tt (at_mem mm' tiny) /\
    painted tiny 5 (on_path l) tiny_mem mm' /\ head l = Some (3, 0) /\ last l = Some (0, 2).
Proof.
  destruct (fb_draw_line_spec tiny tiny_mem 3 0 0 2 5 9 tiny_wf tiny_mapped) as (mm' & l & sx & sy & E & Hp & Hh & Hl & _); [lia..|].
  exists mm', l. repeat split; assumption.
Defined.

Lemma fb_draw_circle_spec_witness :
  exists mm', fb_draw_circle 5 1 1 2 5 true (at_mem tiny_mem tiny) = Ret tt (at_mem mm' tiny).
Proof.
  destruct (fb_draw_circle_spec tiny tiny_mem 1 1 2 5 true 5 tiny_wf) as (mm' & P & E & _);
    [split; simpl; lia|apply tiny_mapped|lia..|]. exists mm'. exact E.
Defined.

Lemma fb_scroll_spec_witness :
  exists mm', fb_scroll 1 (at_mem tiny_mem tiny) = Ret tt (at_mem mm' tiny) /\ pixel tiny mm' 2 2 = Some 0.
Proof.
  destruct (fb_scroll_spec tiny tiny_mem 1 tiny_wf) as (mm' & E & _ & Hp);
    [apply byte_memb_spec; vm_compute; reflexivity|apply tiny_mapped|simpl; lia|simpl; lia|].
  exists mm'. split; [exact E|]. exact (Hp 2 2 ltac:(simpl; lia) ltac:(simpl; lia)).
Defined.

(** The heap of four blocks, and at 0x100 a boot information with one other tag before
    the framebuffer of 800 by 600 pixels. *)
Definition boot_mem : mem := hp_mem heap_four ∪
  bytes_at 0x100 (le_bytes 8 0 ++ le_bytes 4 4 ++ le_bytes 4 12 ++ le_bytes 8 0 ++
    le_bytes 4 8 ++ le_bytes 4 31 ++ le_bytes 8 0xFD000000 ++ le_bytes 4 3200 ++ le_bytes 4 800 ++ le_bytes 4 600 ++ le_bytes 1 32).
Definition boot_display : display nat :=
  mkDisplay (mkHeap 10%nat boot_mem 0x1000 304 0x1000 [mkCache 32 4096 0 128 0]) (mkFb 0 0 0 0 0) 0 false.

Lemma boot_heap_wf : heap_wf (d_heap boot_display) heap_four_blocks.
Proof.
  split.
  - exact I.
  - reflexivity.
  - repeat (split; [split; vm_compute; reflexivity|]). exact I.
  - simpl. split_and!; lia || done.
  - apply mappedb_spec. vm_compute. reflexivity.
  - simpl. split; [lia|done].
  - simpl. split_and!; [lia|done|lia].
  - done.
Qed.

Lemma fb_init_panics_witness :
  exists msg s', fb_init no_junk 40 0x100 boot_display = Panic msg s' /\ (msg = "heap oom" \/ msg = "paging oom")%string.
Proof.
  apply (fb_init_panics no_junk boot_display heap_four_blocks 0x100 0x118 1 (mkFb 0xFD000000 3200 800 600 32)).
  - apply boot_heap_wf.
  - repeat constructor. simpl. lia.
  - repeat constructor; simpl; lia.
  - apply (reaches_next _ _ 4 12); [vm_compute; reflexivity|lia|lia|vm_compute; reflexivity|].
    apply reaches_here. vm_compute. reflexivity.
  - repeat split; vm_compute; reflexivity.
  - vm_compute. reflexivity.
  - simpl. lia.
Defined.
End framebuffer_witnesses.
