(* ===== verification/ShellState.v ===== *)
(** * The state of the shell (ui/shell.c): numbers, variables, aliases, history, jobs

    A C string is the list of its bytes before the terminator.  The tables of the shell are
    lists with the capacity of their arrays; storing a string in a field of a table is
    undefined when it does not fit, as [ds_strcpy] does not stop at the end of the field.
    History entries and token values are objects of the [Allocator]. *)

From S2P Require Import Prelude Vfs.

(** ** Text *)

Definition str (s : string) : list Z := (λ c, Z.of_N (Ascii.N_of_ascii c)) <$> String.list_ascii_of_string s.

Definition is_digit (c : Z) : bool := (48 <=? c) && (c <=? 57).
Definition is_alpha (c : Z) : bool := (97 <=? c) && (c <=? 122) || (65 <=? c) && (c <=? 90).
Definition is_blank (c : Z) : bool := (c =? 32) || (c =? 9).

Fixpoint skip_while (f : Z -> bool) (l : list Z) : list Z :=
  match l with
  | c :: r => if f c then skip_while f r else l
  | [] => []
  end.

(** [result = result * 10 + (str[i] - '0')] in 32 bits. *)
Fixpoint atoi_digits (l : list Z) (result : Z) : Z :=
  match l with
  | c :: r => if is_digit c then atoi_digits r (s32 (result * 10 + (c - 48))) else result
  | [] => result
  end.
Definition atoi_simple (l : list Z) : Z :=
  match skip_while is_blank l with
  | 45 :: r => s32 (atoi_digits r 0 * -1)
  | 43 :: r => atoi_digits r 0
  | r => atoi_digits r 0
  end.

(** [while (value > 0) { tmp[i++] = '0' + value % 10; value /= 10; }] *)
Fixpoint digits_loop (fuel : nat) (value : Z) (tmp : list Z) : list Z :=
  match fuel with
  | O => tmp
  | S n => if 0 <? value then digits_loop n (value / 10) (tmp ++ [48 + value mod 10]) else tmp
  end.

(** [fuel]: an [int] has at most 10 digits, a [uint64_t] at most 20. *)
Definition int_to_str (value : Z) : list Z :=
  if value =? 0 then [48]
  else
    let sign := value <? 0 in
    let value := if sign then s32 (- value) else value in
    let tmp := digits_loop 10 value [] in
    rev (if sign then tmp ++ [45] else tmp).
Definition uint64_to_str (value : Z) : list Z :=
  if value =? 0 then [48] else rev (digits_loop 20 value []).

(** ** State *)

Definition SHELL_MAX_VARS : Z := 1024.
Definition SHELL_MAX_ALIASES : Z := 256.
Definition SHELL_MAX_HISTORY : Z := 1024.
Definition SHELL_MAX_SCRIPTS : Z := 64.
Definition SHELL_MAX_JOBS : Z := 32.
Definition SHELL_MAX_CMD_LEN : Z := 4096.

Record shell_var_t := mkVar { v_name : list Z; v_value : list Z; v_exported : bool }.
Record shell_alias_t := mkAlias { a_name : list Z; a_value : list Z }.
Record shell_job_t := mkJob { job_id : Z; j_command : list Z; j_pid : Z; j_running : bool; j_stopped : bool }.
Record shell_function_t := mkFun { f_name : list Z; f_ast : Z }.

(** The fields of [shell_ctx] that the shell uses. *)
Record shell_ctx_t := mkCtx { exit_requested : bool; last_exit_status : Z; current_dir : list Z }.

Record shell (H : Type) := mkShell {
  sh_alloc : H;
  sh_strs : gmap Z (list Z);
  global_vars : list shell_var_t;
  global_aliases : list shell_alias_t;
  global_history : list Z;
  global_jobs : list shell_job_t;
  global_functions : list shell_function_t;
  shell_ctx : shell_ctx_t;
  sh_out : list Z
}.
Arguments mkShell {H}.
Arguments sh_alloc {H}.
Arguments sh_strs {H}.
Arguments global_vars {H}.
Arguments global_aliases {H}.
Arguments global_history {H}.
Arguments global_jobs {H}.
Arguments global_functions {H}.
Arguments shell_ctx {H}.
Arguments sh_out {H}.

Section shell_state.
Context {H : Type} `{!Allocator H}.
Local Abbreviation shell := (shell H).
Implicit Types s : shell.

Definition set_alloc (h : H) s : shell := mkShell h (sh_strs s) (global_vars s) (global_aliases s) (global_history s)
  (global_jobs s) (global_functions s) (shell_ctx s) (sh_out s).
Definition set_strs (m : gmap Z (list Z)) s : shell := mkShell (sh_alloc s) m (global_vars s) (global_aliases s) (global_history s)
  (global_jobs s) (global_functions s) (shell_ctx s) (sh_out s).
Definition set_vars (l : list shell_var_t) s : shell := mkShell (sh_alloc s) (sh_strs s) l (global_aliases s) (global_history s)
  (global_jobs s) (global_functions s) (shell_ctx s) (sh_out s).
Definition set_aliases (l : list shell_alias_t) s : shell := mkShell (sh_alloc s) (sh_strs s) (global_vars s) l (global_history s)
  (global_jobs s) (global_functions s) (shell_ctx s) (sh_out s).
Definition set_history (l : list Z) s : shell := mkShell (sh_alloc s) (sh_strs s) (global_vars s) (global_aliases s) l
  (global_jobs s) (global_functions s) (shell_ctx s) (sh_out s).
Definition set_jobs (l : list shell_job_t) s : shell := mkShell (sh_alloc s) (sh_strs s) (global_vars s) (global_aliases s) (global_history s)
  l (global_functions s) (shell_ctx s) (sh_out s).
Definition set_functions (l : list shell_function_t) s : shell := mkShell (sh_alloc s) (sh_strs s) (global_vars s) (global_aliases s)
  (global_history s) (global_jobs s) l (shell_ctx s) (sh_out s).
Definition set_ctx (c : shell_ctx_t) s : shell := mkShell (sh_alloc s) (sh_strs s) (global_vars s) (global_aliases s) (global_history s)
  (global_jobs s) (global_functions s) c (sh_out s).
Definition set_out (l : list Z) s : shell := mkShell (sh_alloc s) (sh_strs s) (global_vars s) (global_aliases s) (global_history s)
  (global_jobs s) (global_functions s) (shell_ctx s) l.

(** [kmalloc] and [kfree].  What freeing an address does that is not allocated is left to the
    allocator: [free_law] says nothing of it, as kernel/heap.c does not look. *)
Definition sh_malloc (n : Z) : M shell Z := zoom sh_alloc set_alloc (malloc n).
Definition sh_free (p : Z) : M shell unit :=
  if p =? 0 then ret tt else zoom sh_alloc set_alloc (free p).

(** The string at [p]. *)
Definition str_at (p : Z) : M shell (list Z) := s <-- get ;; of_option (sh_strs s !! p).
Definition str_put (p : Z) (l : list Z) : M shell unit := modify (λ s, set_strs (<[p := l]> (sh_strs s)) s).

(** [ds_strcpy] into an array of [n] bytes. *)
Definition fit {A} (n : Z) (l : list Z) (m : M shell A) : M shell A := if Z.of_nat (length l) <? n then m else stuck.

(** A character, a string on the screen. *)
Definition draw_char (c : Z) : M shell unit := modify (λ s, set_out (sh_out s ++ [c]) s).
Definition draw_string (l : list Z) : M shell unit := modify (λ s, set_out (sh_out s ++ l) s).
Definition shell_print_error (msg : list Z) : M shell unit := draw_string (str "Error: ") ;;; draw_string msg ;;; draw_char 10.
Definition shell_print_warning (msg : list Z) : M shell unit := draw_string (str "Warning: ") ;;; draw_string msg ;;; draw_char 10.

(** ** Variables *)

Fixpoint var_index (l : list shell_var_t) (name : list Z) : option nat :=
  match l with
  | [] => None
  | v :: r => if bool_decide (v_name v = name) then Some O else S <$> var_index r name
  end.

Definition shell_set_variable (name value : list Z) : M shell unit :=
  s <-- get ;;
  match var_index (global_vars s) name with
  | Some i => fit 256 value (modify (set_vars (alter (λ v, mkVar (v_name v) value (v_exported v)) i (global_vars s))))
  | None =>
      if Z.of_nat (length (global_vars s)) <? SHELL_MAX_VARS then
        fit 64 name (fit 256 value (modify (set_vars (global_vars s ++ [mkVar name value false]))))
      else ret tt
  end.

Definition get_variable (l : list shell_var_t) (name : list Z) : list Z :=
  match var_index l name with
  | Some i => match l !! i with Some v => v_value v | None => [] end
  | None => []
  end.
Definition shell_get_variable (name : list Z) : M shell (list Z) := s <-- get ;; ret (get_variable (global_vars s) name).

Definition shell_export_variable (name : list Z) : M shell unit :=
  s <-- get ;;
  match var_index (global_vars s) name with
  | Some i => modify (set_vars (alter (λ v, mkVar (v_name v) (v_value v) true) i (global_vars s)))
  | None => ret tt
  end.

(** One round of [builtin_unset]: the later variables move down. *)
Definition unset_variable (name : list Z) : M shell unit :=
  s <-- get ;;
  match var_index (global_vars s) name with
  | Some i => modify (set_vars (take i (global_vars s) ++ drop (S i) (global_vars s)))
  | None => ret tt
  end.

Definition shell_set_variable_int (name : list Z) (value : Z) : M shell unit := shell_set_variable name (int_to_str value).

(** ** Aliases *)

Fixpoint alias_index (l : list shell_alias_t) (name : list Z) : option nat :=
  match l with
  | [] => None
  | a :: r => if bool_decide (a_name a = name) then Some O else S <$> alias_index r name
  end.

Definition shell_add_alias (name value : list Z) : M shell unit :=
  s <-- get ;;
  if Z.of_nat (length (global_aliases s)) <? SHELL_MAX_ALIASES then
    fit 64 name (fit 256 value (modify (set_aliases (global_aliases s ++ [mkAlias name value]))))
  else ret tt.

Definition resolve_alias (l : list shell_alias_t) (name : list Z) : list Z :=
  match alias_index l name with
  | Some i => match l !! i with Some a => a_value a | None => name end
  | None => name
  end.
Definition shell_resolve_alias (name : list Z) : M shell (list Z) := s <-- get ;; ret (resolve_alias (global_aliases s) name).

Definition remove_alias (name : list Z) : M shell unit :=
  s <-- get ;;
  match alias_index (global_aliases s) name with
  | Some i => modify (set_aliases (take i (global_aliases s) ++ drop (S i) (global_aliases s)))
  | None => ret tt
  end.

(** ** History *)

(** [ds_strdup]. *)
Definition sh_strdup (l : list Z) : M shell Z :=
  p <-- sh_malloc (Z.of_nat (length l) + 1) ;;
  if p =? 0 then ret 0 else str_put p l ;;; ret p.

Definition shell_add_history (cmd : list Z) : M shell unit :=
  s <-- get ;;
  (if SHELL_MAX_HISTORY <=? Z.of_nat (length (global_history s)) then
     p <-- of_option (global_history s !! 0%nat) ;;
     sh_free p ;;;
     modify (λ s, set_history (drop 1 (global_history s)) s)
   else ret tt) ;;;
  p <-- sh_strdup cmd ;;
  modify (λ s, set_history (global_history s ++ [p]) s).

(** [None] for the empty string of an index past the end. *)
Definition shell_get_history (index : Z) : M shell (option Z) := s <-- get ;; ret (aget (global_history s) index).

(** ** Jobs *)

Fixpoint job_index (l : list shell_job_t) (id : Z) : option nat :=
  match l with
  | [] => None
  | j :: r => if job_id j =? id then Some O else S <$> job_index r id
  end.

Definition shell_job_add (job : shell_job_t) : M shell unit :=
  s <-- get ;;
  let n := Z.of_nat (length (global_jobs s)) in
  if n <? SHELL_MAX_JOBS then
    modify (set_jobs (global_jobs s ++ [mkJob (n + 1) (j_command job) (j_pid job) (j_running job) (j_stopped job)]))
  else ret tt.

Definition shell_job_remove (id : Z) : M shell unit :=
  s <-- get ;;
  match job_index (global_jobs s) id with
  | Some i => modify (set_jobs (take i (global_jobs s) ++ drop (S i) (global_jobs s)))
  | None => ret tt
  end.

Definition shell_job_get (id : Z) : M shell (option shell_job_t) :=
  s <-- get ;; ret (job_index (global_jobs s) id ≫= λ i, global_jobs s !! i).

Definition job_update (id : Z) (f : shell_job_t -> shell_job_t) : M shell unit :=
  s <-- get ;;
  match job_index (global_jobs s) id with
  | Some i => modify (set_jobs (alter f i (global_jobs s)))
  | None => ret tt
  end.
Definition resume (j : shell_job_t) : shell_job_t := mkJob (job_id j) (j_command j) (j_pid j) true false.
Definition stop (j : shell_job_t) : shell_job_t := mkJob (job_id j) (j_command j) (j_pid j) false (j_stopped j).
Definition shell_job_foreground (id : Z) : M shell unit := job_update id resume.
Definition shell_job_background (id : Z) : M shell unit := job_update id resume.
Definition shell_job_kill (id : Z) : M shell unit :=
  j <-- shell_job_get id ;;
  match j with
  | Some _ => job_update id stop ;;; shell_job_remove id
  | None => ret tt
  end.

(** ** Functions *)

Definition shell_function_register (name : list Z) (body : Z) : M shell unit :=
  s <-- get ;;
  if Z.of_nat (length (global_functions s)) <? SHELL_MAX_SCRIPTS then
    fit 64 name (modify (set_functions (global_functions s ++ [mkFun name body])))
  else ret tt.

Fixpoint find_function (l : list shell_function_t) (name : list Z) : option shell_function_t :=
  match l with
  | [] => None
  | f :: r => if bool_decide (f_name f = name) then Some f else find_function r name
  end.
Definition shell_function_get (name : list Z) : M shell (option shell_function_t) :=
  s <-- get ;; ret (find_function (global_functions s) name).
End shell_state.

(** ** Decimal numbers *)

Section numbers.

Fixpoint value_of (l : list Z) (r : Z) : Z :=
  match l with [] => r | c :: t => value_of t (r * 10 + (c - 48)) end.

Lemma value_of_app l1 l2 r : value_of (l1 ++ l2) r = value_of l2 (value_of l1 r).
Proof. revert r. induction l1; intros; simpl; auto. Qed.

(** The digits of [v], most significant first, after those already in [tmp]. *)
Lemma digits_loop_spec fuel v tmp :
  0 <= v < 10 ^ Z.of_nat fuel ->
  exists ds, digits_loop fuel v tmp = tmp ++ ds /\ Forall (λ c, is_digit c = true) ds /\ value_of (rev ds) 0 = v /\
    (v <> 0 -> ds <> []).
Proof.
  revert v tmp. induction fuel as [|fuel IH]; intros v tmp Hv.
  { exists []. rewrite app_nil_r. simpl in Hv. split; [done|]. split; [constructor|]. simpl. split; [lia|lia]. }
  cbn [digits_loop]. destruct (Z.ltb_spec 0 v).
  - destruct (IH (v / 10) (tmp ++ [48 + v mod 10])) as (ds & E & Hd & Hval & _).
    { rewrite Nat2Z.inj_succ, Z.pow_succ_r in Hv by lia. split; [apply Z.div_pos; lia|apply Z.div_lt_upper_bound; lia]. }
    exists ((48 + v mod 10) :: ds). rewrite E, <- app_assoc. split; [done|]. split; [|split; [|done]].
    + constructor; [|done]. unfold is_digit. pose proof (Z.mod_pos_bound v 10). lia.
    + cbn [rev]. rewrite value_of_app, Hval. cbn [value_of]. pose proof (Z.div_mod v 10). lia.
  - exists []. rewrite app_nil_r. split; [done|]. split; [constructor|]. simpl. split; [lia|lia].
Qed.

Lemma value_of_ge l r : Forall (λ c, is_digit c = true) l -> 0 <= r -> r <= value_of l r.
Proof.
  revert r. induction l as [|c l IH]; intros r Hf Hr; simpl; [lia|]. apply Forall_cons in Hf as [Hc Hf].
  unfold is_digit in Hc. transitivity (r * 10 + (c - 48)); [lia|]. apply IH; [done|lia].
Qed.

Lemma atoi_digits_value l r :
  Forall (λ c, is_digit c = true) l -> 0 <= r -> value_of l r < 2 ^ 31 -> atoi_digits l r = value_of l r.
Proof.
  revert r. induction l as [|c l IH]; intros r Hf Hr Hv; [done|]. apply Forall_cons in Hf as [Hc Hf].
  cbn [atoi_digits value_of] in *. rewrite Hc. unfold is_digit in Hc. pose proof (value_of_ge l (r * 10 + (c - 48)) Hf ltac:(lia)).
  rewrite signed_small by (simpl; lia). apply IH; [done|lia|done].
Qed.

Lemma atoi_digits_int l v :
  Forall (λ c, is_digit c = true) l -> l <> [] -> value_of l 0 = v -> v < 2 ^ 31 ->
  atoi_simple l = v /\ atoi_simple (45 :: l) = s32 (- v).
Proof.
  intros Hf Hne Hv Hb. unfold atoi_simple. destruct l as [|c l]; [done|]. pose proof (Forall_inv Hf) as Hc.
  assert (atoi_digits (c :: l) 0 = v) as Ea by (rewrite atoi_digits_value; [done|done|lia|lia]).
  assert (skip_while is_blank (c :: l) = c :: l) as Es.
  { cbn [skip_while]. unfold is_blank, is_digit in *. by destruct (Z.eqb_spec c 32), (Z.eqb_spec c 9); [lia..|]. }
  rewrite Es. split.
  - unfold is_digit in Hc. destruct c as [|p|p]; try lia. assert (p <> 45%positive /\ p <> 43%positive) by lia.
    repeat (destruct p as [p|p|]; try done; try lia).
  - change (skip_while is_blank (45 :: c :: l)) with (45 :: c :: l). cbv iota. rewrite Ea. f_equal. lia.
Qed.

Lemma int_to_str_run v : - 2 ^ 31 < v < 2 ^ 31 -> atoi_simple (int_to_str v) = v.
Proof.
  intros Hv. unfold int_to_str. destruct (Z.eqb_spec v 0) as [->|Hne]; [reflexivity|].
  assert (exists ds, digits_loop 10 (Z.abs v) [] = ds /\ Forall (λ c, is_digit c = true) (rev ds) /\ value_of (rev ds) 0 = Z.abs v /\ rev ds <> [])
    as (ds & E & Hf & Hval & Hnil).
  { destruct (digits_loop_spec 10 (Z.abs v) []) as (ds & E & Hf & Hval & Hn); [simpl; lia|]. exists ds. split; [done|].
    split; [by apply Forall_rev|]. split; [done|]. intros Er. apply (f_equal (@rev Z)) in Er. rewrite rev_involutive in Er. apply Hn; [lia|done]. }
  destruct (atoi_digits_int (rev ds) (Z.abs v) Hf Hnil Hval ltac:(lia)) as [H1 H2]. destruct (Z.ltb_spec v 0).
  - rewrite (signed_small 32 (- v)) by (simpl; lia). replace (- v) with (Z.abs v) by lia. rewrite E, rev_unit, H2.
    rewrite signed_small by (simpl; lia). lia.
  - replace v with (Z.abs v) at 1 by lia. rewrite E, H1. lia.
Qed.

Lemma int_to_str_digits v : 0 <= v < 2 ^ 31 -> Forall (λ c, is_digit c = true) (int_to_str v).
Proof.
  intros Hv. unfold int_to_str. destruct (Z.eqb_spec v 0) as [->|Hne]; [by repeat constructor|].
  destruct (Z.ltb_spec v 0); [lia|]. apply Forall_rev. destruct (digits_loop_spec 10 v []) as (ds & E & Hf & _); [simpl; lia|]. by rewrite E.
Qed.
End numbers.

(** ** The tables as maps *)

Section tables.
Implicit Types (l : list shell_var_t) (al : list shell_alias_t).

(** What the variables stand for: the first entry of a name counts. *)
Definition vars_map l : gmap (list Z) (list Z) := foldr (λ v m, <[v_name v := v_value v]> m) ∅ l.

Record vars_wf l : Prop := {
  vw_names : NoDup (v_name <$> l);
  vw_count : Z.of_nat (length l) <= SHELL_MAX_VARS
}.

Lemma var_index_spec l name :
  match var_index l name with
  | Some i => exists v, l !! i = Some v /\ v_name v = name /\ vars_map l !! name = Some (v_value v)
  | None => vars_map l !! name = None /\ name ∉ v_name <$> l
  end.
Proof.
  induction l as [|v l IH]; simpl.
  { split; [done|]. set_solver. }
  case_bool_decide as Hn.
  - exists v. split; [done|]. split; [done|]. rewrite <- Hn. apply lookup_insert_eq.
  - destruct (var_index l name) as [i|]; simpl.
    + destruct IH as (w & ? & ? & ?). exists w. split; [done|]. split; [done|]. by rewrite lookup_insert_ne.
    + destruct IH as [? ?]. rewrite lookup_insert_ne by done. split; [done|]. rewrite not_elem_of_cons. by split.
Qed.

Lemma get_variable_map l name : get_variable l name = default [] (vars_map l !! name).
Proof.
  unfold get_variable. pose proof (var_index_spec l name) as H. destruct (var_index l name) as [i|].
  - destruct H as (v & E & _ & ->). by rewrite E.
  - by destruct H as [-> _].
Qed.

Lemma vars_map_alter l name i value :
  var_index l name = Some i ->
  vars_map (alter (λ v, mkVar (v_name v) value (v_exported v)) i l) = <[name := value]> (vars_map l) /\
  v_name <$> alter (λ v, mkVar (v_name v) value (v_exported v)) i l = v_name <$> l.
Proof.
  revert i. induction l as [|v l IH]; intros i Hi; simpl in Hi; [done|]. case_bool_decide as Hn.
  - injection Hi as <-. simpl. rewrite Hn. by rewrite insert_insert_eq.
  - destruct (var_index l name) as [j|] eqn:Ej; [|done]. injection Hi as <-. destruct (IH j eq_refl) as [E1 E2].
    cbn. split; [|by f_equal]. cbn [foldr] in *. unfold vars_map in E1. rewrite E1. by rewrite insert_insert_ne.
Qed.

Lemma vars_map_export l name i :
  var_index l name = Some i ->
  vars_map (alter (λ v, mkVar (v_name v) (v_value v) true) i l) = vars_map l /\
  v_name <$> alter (λ v, mkVar (v_name v) (v_value v) true) i l = v_name <$> l.
Proof.
  revert i. induction l as [|v l IH]; intros i Hi; simpl in Hi; [done|]. case_bool_decide as Hn.
  - injection Hi as <-. done.
  - destruct (var_index l name) as [j|] eqn:Ej; [|done]. injection Hi as <-. destruct (IH j eq_refl) as [E1 E2].
    cbn. split; [|by f_equal]. unfold vars_map in E1. by rewrite E1.
Qed.

Lemma vars_map_snoc l v : v_name v ∉ v_name <$> l -> vars_map (l ++ [v]) = <[v_name v := v_value v]> (vars_map l).
Proof.
  induction l as [|w l IH]; intros Hn; [done|]. cbn in *. apply not_elem_of_cons in Hn as [Hne Hn].
  unfold vars_map in IH. rewrite IH by done. by rewrite insert_insert_ne.
Qed.

Lemma vars_map_remove l name i :
  NoDup (v_name <$> l) -> var_index l name = Some i ->
  vars_map (take i l ++ drop (S i) l) = delete name (vars_map l) /\ NoDup (v_name <$> (take i l ++ drop (S i) l)).
Proof.
  revert i. induction l as [|v l IH]; intros i Hnd Hi; simpl in Hi; [done|]. cbn in Hnd. apply NoDup_cons in Hnd as [Hv Hnd].
  case_bool_decide as Hn.
  - injection Hi as <-. cbn. split; [|done]. rewrite Hn in *. rewrite delete_insert_id; [done|].
    pose proof (var_index_spec l name) as H. destruct (var_index l name) as [j|]; [|by destruct H].
    destruct H as (w & Ew & Hw & _). exfalso. apply Hv. apply list_elem_of_fmap. exists w. split; [done|]. by eapply list_elem_of_lookup_2.
  - destruct (var_index l name) as [j|] eqn:Ej; [|done]. injection Hi as <-. destruct (IH j Hnd eq_refl) as [E1 E2].
    cbn. unfold vars_map in E1. rewrite E1. split; [by rewrite delete_insert_ne|]. apply NoDup_cons. split; [|done].
    intros Hin. apply Hv. rewrite fmap_app, fmap_drop, fmap_take in Hin. apply elem_of_app in Hin as [(k & Hk & _)%elem_of_take|Hin].
    + by eapply list_elem_of_lookup_2.
    + by eapply subseteq_drop.
Qed.

(** The first alias of a name counts. *)
Lemma alias_snoc al a name :
  resolve_alias (al ++ [a]) name =
    match alias_index al name with
    | Some _ => resolve_alias al name
    | None => if decide (a_name a = name) then a_value a else name
    end.
Proof.
  unfold resolve_alias. induction al as [|b al IH]; cbn [alias_index app].
  - case_bool_decide; [by rewrite decide_True|by rewrite decide_False].
  - case_bool_decide; [done|]. destruct (alias_index al name) as [i|] eqn:Ei; cbn [fmap option_fmap option_map].
    + destruct (alias_index (al ++ [a]) name) as [k|]; cbn [fmap option_fmap option_map]; [exact IH|].
      cbn [lookup list_lookup]. exact IH.
    + destruct (alias_index (al ++ [a]) name) as [k|]; cbn [fmap option_fmap option_map]; exact IH.
Qed.
End tables.

(** ** The operations on variables *)

Section variables.
Context {H : Type} `{!Allocator H}.
Local Abbreviation shell := (shell H).
Implicit Types s : shell.

Lemma set_vars_same s : set_vars (global_vars s) s = s.
Proof. by destruct s. Qed.

Lemma vars_wf_names (l l' : list shell_var_t) : v_name <$> l' = v_name <$> l -> vars_wf l -> vars_wf l'.
Proof. intros E [H1 H2]. split; [by rewrite E|]. rewrite <- (length_fmap v_name), E, length_fmap. done. Qed.

Lemma set_variable_run s name value :
  vars_wf (global_vars s) -> Z.of_nat (length name) < 64 -> Z.of_nat (length value) < 256 ->
  let m := vars_map (global_vars s) in
  exists l, shell_set_variable name value s = Ret tt (set_vars l s) /\ vars_wf l /\
    vars_map l = if decide (is_Some (m !! name) \/ Z.of_nat (length (global_vars s)) < SHELL_MAX_VARS) then <[name := value]> m else m.
Proof.
  intros Hw Hn Hv m. pose proof (var_index_spec (global_vars s) name) as Hi. fold m in Hi. unfold shell_set_variable, fit. rewrite bind_get.
  assert (Z.of_nat (length value) <? 256 = true) as -> by lia. assert (Z.of_nat (length name) <? 64 = true) as -> by lia.
  destruct (var_index (global_vars s) name) as [i|] eqn:Ei.
  - destruct (vars_map_alter (global_vars s) name i value Ei) as [E1 E2]. eexists. split; [reflexivity|].
    split; [by eapply vars_wf_names|]. rewrite decide_True; [done|]. destruct Hi as (v & _ & _ & ->). by left.
  - destruct Hi as [Hm Hni]. destruct (Z.ltb_spec (Z.of_nat (length (global_vars s))) SHELL_MAX_VARS) as [Hlt|Hge].
    + eexists. split; [reflexivity|]. rewrite decide_True by (by right). split; [|by apply (vars_map_snoc (global_vars s) (mkVar name value false))].
      destruct Hw as [Hnd Hc]. split; [|rewrite length_app; cbn [length]; lia]. rewrite fmap_app. apply NoDup_app. split; [done|].
      split; [set_solver|apply NoDup_singleton].
    + exists (global_vars s). split; [by rewrite set_vars_same|]. split; [done|]. rewrite decide_False; [done|].
      rewrite Hm. intros [[? ?]|?]; [done|lia].
Qed.

Lemma var_index_export l name i :
  var_index l name = Some i ->
  var_index (alter (λ v, mkVar (v_name v) (v_value v) true) i l) name = Some i /\
  v_exported <$> alter (λ v, mkVar (v_name v) (v_value v) true) i l !! i = Some true.
Proof.
  revert i. induction l as [|v l IH]; intros i Hi; simpl in Hi; [done|]. case_bool_decide as Hn.
  - injection Hi as <-. simpl. by rewrite bool_decide_true.
  - destruct (var_index l name) as [j|] eqn:Ej; [|done]. injection Hi as <-. destruct (IH j eq_refl) as [E1 E2].
    cbn. rewrite bool_decide_false by done. cbn in *. by rewrite E1.
Qed.

Lemma export_variable_run s name :
  vars_wf (global_vars s) ->
  exists l, shell_export_variable name s = Ret tt (set_vars l s) /\ vars_wf l /\ vars_map l = vars_map (global_vars s) /\
    (is_Some (vars_map (global_vars s) !! name) -> exists i, var_index l name = Some i /\ v_exported <$> l !! i = Some true).
Proof.
  intros Hw. pose proof (var_index_spec (global_vars s) name) as Hi. unfold shell_export_variable. rewrite bind_get.
  destruct (var_index (global_vars s) name) as [i|] eqn:Ei.
  - destruct (vars_map_export (global_vars s) name i Ei) as [E1 E2]. eexists. split; [reflexivity|]. split; [by eapply vars_wf_names|].
    split; [done|]. intros _. exists i. by apply var_index_export.
  - exists (global_vars s). split; [by rewrite set_vars_same|]. split; [done|]. split; [done|]. destruct Hi as [-> _]. by intros [].
Qed.
End variables.

(** ** The history *)

Section history.
Context {H : Type} `{!Allocator H}.
Local Abbreviation shell := (shell H).
Implicit Types (s : shell) (hs : list (list Z)).

(** The history of [s] is [hs], oldest first; its entries are distinct allocated strings. *)
Record history_rep s hs : Prop := {
  hr_strs : Forall2 (λ p x, sh_strs s !! p = Some x) (global_history s) hs;
  hr_live : Forall (λ p, p <> 0 /\ p ∈ live (sh_alloc s)) (global_history s);
  hr_nodup : NoDup (global_history s);
  hr_count : Z.of_nat (length hs) <= SHELL_MAX_HISTORY
}.

Definition keep_last (n : nat) (l : list (list Z)) : list (list Z) := drop (length l - n) l.

Lemma sh_malloc_cases n s :
  (exists msg t, sh_malloc n s = Panic msg t) \/
  exists p h, sh_malloc n s = Ret p (set_alloc h s) /\
    ((p = 0 /\ live h = live (sh_alloc s)) \/ (p <> 0 /\ p ∉ live (sh_alloc s) /\ live h = {[p]} ∪ live (sh_alloc s))).
Proof.
  unfold sh_malloc, zoom. destruct (malloc_law n (sh_alloc s)) as [(msg & t & ->)|(p & h & -> & Hp)]; [left; eauto|right].
  exists p, h. split; [done|]. destruct Hp as [?|(? & ? & ?)]; [by left|right]. set_solver.
Qed.

Lemma sh_free_run p s :
  p <> 0 -> p ∈ live (sh_alloc s) -> exists h, sh_free p s = Ret tt (set_alloc h s) /\ live h = live (sh_alloc s) ∖ {[p]}.
Proof.
  intros Hp Hl. unfold sh_free. destruct (Z.eqb_spec p 0); [done|].
  destruct (free_law p (sh_alloc s) Hl) as (h & E & Eh). exists h. split; [|done]. unfold zoom. by rewrite E.
Qed.

Lemma strdup_cases l s :
  (exists msg t, sh_strdup l s = Panic msg t) \/
  (exists h, sh_strdup l s = Ret 0 (set_alloc h s) /\ live h = live (sh_alloc s)) \/
  exists p h, sh_strdup l s = Ret p (set_strs (<[p := l]> (sh_strs s)) (set_alloc h s)) /\
    p <> 0 /\ p ∉ live (sh_alloc s) /\ live h = {[p]} ∪ live (sh_alloc s).
Proof.
  unfold sh_strdup. destruct (sh_malloc_cases (Z.of_nat (length l) + 1) s) as [(msg & t & E)|(p & h & E & Hp)].
  - left. exists msg, t. by apply bind_Panic.
  - rewrite (bind_Ret _ _ _ _ _ E). destruct Hp as [[-> Hl]|(Hp & Hn & Hl)].
    + right; left. by exists h.
    + right; right. exists p, h. destruct (Z.eqb_spec p 0); [done|]. unfold str_put. run_step. done.
Qed.

Lemma history_snoc s hs p h x :
  history_rep s hs -> Z.of_nat (length hs) < SHELL_MAX_HISTORY -> p <> 0 -> p ∉ live (sh_alloc s) -> live h = {[p]} ∪ live (sh_alloc s) ->
  history_rep (set_history (global_history s ++ [p]) (set_strs (<[p := x]> (sh_strs s)) (set_alloc h s))) (hs ++ [x]).
Proof.
  intros [H1 H2 H3 H4] Hc Hp Hn Hl. assert (p ∉ global_history s) as Hnin.
  { intros Hin. rewrite Forall_forall in H2. by destruct (H2 _ Hin). }
  split; cbn [global_history sh_strs sh_alloc set_history set_strs set_alloc].
  - apply Forall2_app; [|by repeat constructor; apply lookup_insert_eq].
    eapply Forall2_impl_in; [exact H1|]. intros q y Hq _ E. by rewrite lookup_insert_ne by set_solver.
  - apply Forall_app. split; [|repeat constructor; set_solver]. eapply Forall_impl; [exact H2|]. set_solver.
  - apply NoDup_app. split; [done|]. split; [set_solver|]. apply NoDup_singleton.
  - rewrite length_app. cbn [length]. lia.
Qed.

Lemma history_drop s hs p r x xs h :
  global_history s = p :: r -> hs = x :: xs -> history_rep s hs -> live h = live (sh_alloc s) ∖ {[p]} ->
  history_rep (set_history (drop 1 (global_history s)) (set_alloc h s)) xs.
Proof.
  intros E -> [H1 H2 H3 H4] Hl. rewrite E in *. cbn [drop]. apply Forall2_cons in H1 as [_ H1]. apply Forall_cons in H2 as [_ H2].
  apply NoDup_cons in H3 as [Hp H3]. split; cbn [global_history sh_strs sh_alloc set_history set_alloc].
  - done.
  - apply Forall_forall. intros q Hq. rewrite Forall_forall in H2. destruct (H2 _ Hq) as [? ?]. split; [done|]. set_solver.
  - done.
  - cbn [length] in H4. lia.
Qed.

Lemma add_history_run s hs cmd :
  history_rep s hs ->
  (exists msg t, shell_add_history cmd s = Panic msg t) \/
  exists s', shell_add_history cmd s = Ret tt s' /\
    (last (global_history s') = Some 0 \/ history_rep s' (keep_last (Z.to_nat SHELL_MAX_HISTORY) (hs ++ [cmd]))).
Proof.
  intros Hr. pose proof (Forall2_length _ _ _ (hr_strs _ _ Hr)) as Hlen. pose proof (hr_count _ _ Hr) as Hc.
  assert (forall s1 hs1, history_rep s1 hs1 -> Z.of_nat (length hs1) < SHELL_MAX_HISTORY ->
    hs1 ++ [cmd] = keep_last (Z.to_nat SHELL_MAX_HISTORY) (hs ++ [cmd]) ->
    (exists msg t, (p <-- sh_strdup cmd ;; modify (λ s, set_history (global_history s ++ [p]) s)) s1 = Panic msg t) \/
    exists s', (p <-- sh_strdup cmd ;; modify (λ s, set_history (global_history s ++ [p]) s)) s1 = Ret tt s' /\
      (last (global_history s') = Some 0 \/ history_rep s' (keep_last (Z.to_nat SHELL_MAX_HISTORY) (hs ++ [cmd])))) as Hgo.
  { intros s1 hs1 Hr1 Hc1 <-. destruct (strdup_cases cmd s1) as [(msg & t & E)|[(h & E & _)|(p & h & E & Hp & Hn & Hl)]].
    - left. exists msg, t. by apply bind_Panic.
    - right. rewrite (bind_Ret _ _ _ _ _ E). eexists. split; [reflexivity|]. left. cbn. by rewrite last_snoc.
    - right. rewrite (bind_Ret _ _ _ _ _ E). eexists. split; [reflexivity|]. right. exact (history_snoc s1 hs1 p h cmd Hr1 Hc1 Hp Hn Hl). }
  unfold shell_add_history. rewrite bind_get. destruct (Z.leb_spec SHELL_MAX_HISTORY (Z.of_nat (length (global_history s)))).
  - destruct (global_history s) as [|p r] eqn:Eh; [cbn in *; unfold SHELL_MAX_HISTORY in *; lia|].
    destruct hs as [|x xs]; [done|]. cbn [lookup list_lookup]. rewrite !bind_assoc, bind_option.
    pose proof (hr_live _ _ Hr) as Hlv. rewrite Eh in Hlv. apply Forall_cons in Hlv as [[Hp0 Hpl] _].
    destruct (sh_free_run p s Hp0 Hpl) as (h & E & Hl). rewrite !bind_assoc, (bind_Ret _ _ _ _ _ E), bind_modify.
    cbn [length] in *. apply (Hgo _ xs).
    + change (global_history (set_alloc h s)) with (global_history s). by eapply history_drop.
    + lia.
    + unfold keep_last. rewrite length_app. cbn [length]. assert (S (length xs) = Z.to_nat SHELL_MAX_HISTORY) as <- by lia.
      by replace (S (length xs) + 1 - S (length xs))%nat with 1%nat by lia.
  - rewrite bind_ret. apply (Hgo _ hs); [done|lia|]. unfold keep_last. rewrite length_app. cbn [length].
    by replace (length hs + 1 - Z.to_nat SHELL_MAX_HISTORY)%nat with 0%nat by lia.
Qed.
End history.

(** ** While memory lasts *)

(** An allocator that does not run out. *)
Class NeverOut (H : Type) `{!Allocator H} : Prop :=
  never_out : forall n (h : H), exists p h', malloc n h = Ret p h' /\ p <> 0 /\ p ∉ live h /\ live h' = {[p]} ∪ live h.

Section memory.
Context {H : Type} `{!Allocator H}.
Local Abbreviation shell := (shell H).
Implicit Types s : shell.

Definition live_of s : gset Z := live (sh_alloc s).

Lemma sh_malloc_run `{!NeverOut H} n s :
  exists p h, sh_malloc n s = Ret p (set_alloc h s) /\ p <> 0 /\ p ∉ live_of s /\ live h = {[p]} ∪ live_of s.
Proof. unfold sh_malloc, zoom. destruct (never_out n (sh_alloc s)) as (p & h & -> & Hp). by exists p, h. Qed.

(** The objects [ps] are allocated beside those of [B]: the shell may free each of [ps] once. *)
Record holds (B : gset Z) (ps : list Z) s : Prop := {
  h_nodup : NoDup ps;
  h_nonzero : 0 ∉ ps;
  h_apart : forall p, p ∈ ps -> p ∉ B;
  h_live : forall p, p ∈ live_of s <-> p ∈ ps \/ p ∈ B
}.

Lemma holds_nil s : holds (live_of s) [] s.
Proof. split; [apply NoDup_nil_2|set_solver..]. Qed.

Lemma holds_perm B ps qs s : ps ≡ₚ qs -> holds B ps s -> holds B qs s.
Proof.
  intros E [H1 H2 H3 H4]. split; [by rewrite <- E|by rewrite <- E|intros p; rewrite <- E; apply H3|intros p; rewrite <- E; apply H4].
Qed.

Lemma holds_in B ps s p : holds B ps s -> p ∈ ps -> p <> 0 /\ p ∈ live_of s.
Proof. intros [_ H2 _ H4] Hp. split; [by intros ->|]. apply H4. by left. Qed.

Lemma holds_malloc `{!NeverOut H} n B ps s :
  holds B ps s -> exists p h, sh_malloc n s = Ret p (set_alloc h s) /\ (p =? 0) = false /\ p ∉ live_of s /\ holds B (p :: ps) (set_alloc h s).
Proof.
  intros [H1 H2 H3 H4]. destruct (sh_malloc_run n s) as (p & h & E & Hp & Hn & El). exists p, h.
  split; [done|]. split; [lia|]. split; [done|]. split.
  - apply NoDup_cons. split; [|done]. intros Hin. apply Hn, H4. by left.
  - set_solver.
  - intros q [->|Hq]%elem_of_cons; [|by apply H3]. intros Hb. apply Hn, H4. by right.
  - intros q. unfold live_of at 1. cbn [sh_alloc set_alloc]. rewrite El. set_solver.
Qed.

Lemma holds_free B p ps s :
  holds B (p :: ps) s -> exists h, sh_free p s = Ret tt (set_alloc h s) /\ holds B ps (set_alloc h s).
Proof.
  intros Hh. destruct (holds_in _ _ _ p Hh ltac:(set_solver)) as [Hp Hl]. destruct Hh as [H1 H2 H3 H4].
  apply NoDup_cons in H1 as [Hn H1]. unfold sh_free. destruct (Z.eqb_spec p 0); [done|].
  destruct (free_law p (sh_alloc s) Hl) as (h & E & El). exists h. split; [unfold zoom; by rewrite E|]. split.
  - done.
  - set_solver.
  - set_solver.
  - intros q. unfold live_of at 1. cbn [sh_alloc set_alloc]. rewrite El. pose proof (H4 q). pose proof (H3 p ltac:(set_solver)).
    unfold live_of in *. set_solver.
Qed.

End memory.

(** ** Properties *)

Section shell_state_properties.
Context {H : Type} `{!Allocator H}.
Local Abbreviation shell := (shell H).
Implicit Types (s : shell) (name value : list Z).

(** [atoi_simple] reads back what [int_to_str] writes, for every [int] but the smallest. *)
Theorem atoi_int_to_str v : - 2 ^ 31 < v < 2 ^ 31 -> atoi_simple (int_to_str v) = v.
Proof. apply int_to_str_run. Qed.

(** C35. The variables implement a finite map of 1024 names at most: setting a variable that is
    there or for which there is room updates the map, a full table drops it, reading gives the value
    or the empty string, unsetting deletes, and exporting leaves the map as it is. *)
Theorem variables_refine s name value :
  vars_wf (global_vars s) -> Z.of_nat (length name) < 64 -> Z.of_nat (length value) < 256 ->
  let m := vars_map (global_vars s) in
  (exists l, shell_set_variable name value s = Ret tt (set_vars l s) /\ vars_wf l /\
     vars_map l = if decide (is_Some (m !! name) \/ Z.of_nat (length (global_vars s)) < SHELL_MAX_VARS) then <[name := value]> m else m) /\
  shell_get_variable name s = Ret (default [] (m !! name)) s /\
  (exists l, unset_variable name s = Ret tt (set_vars l s) /\ vars_wf l /\ vars_map l = delete name m) /\
  (exists l, shell_export_variable name s = Ret tt (set_vars l s) /\ vars_wf l /\ vars_map l = m).
Proof.
  intros Hw Hn Hv m. split; [by apply set_variable_run|]. split; [unfold shell_get_variable; rewrite bind_get; unfold ret; by rewrite get_variable_map|].
  split; [|destruct (export_variable_run s name Hw) as (l & E & Hl & Em & _); by exists l].
  pose proof (var_index_spec (global_vars s) name) as Hi. unfold unset_variable. rewrite bind_get.
  destruct (var_index (global_vars s) name) as [i|] eqn:Ei.
  - destruct Hw as [Hnd Hc]. destruct (vars_map_remove (global_vars s) name i Hnd Ei) as [E1 E2]. eexists. split; [reflexivity|].
    split; [|done]. split; [done|]. rewrite length_app, length_take, length_drop. lia.
  - exists (global_vars s). split; [by rewrite set_vars_same|]. split; [done|]. symmetry. apply delete_id, Hi.
Qed.

(** [shell_add_history] keeps the last 1024 commands in their order, unless memory runs out. *)
Theorem history_keeps_last s hs cmd :
  history_rep s hs ->
  (exists msg t, shell_add_history cmd s = Panic msg t) \/
  exists s', shell_add_history cmd s = Ret tt s' /\
    (last (global_history s') = Some 0 \/ history_rep s' (keep_last (Z.to_nat SHELL_MAX_HISTORY) (hs ++ [cmd]))).
Proof. apply add_history_run. Qed.

(** An alias that exists cannot be redefined: the new one is stored behind the old one, which
    [shell_resolve_alias] keeps finding. *)
Theorem alias_not_redefined s name value value' :
  Z.of_nat (length name) < 64 -> Z.of_nat (length value') < 256 -> Z.of_nat (length (global_aliases s)) < SHELL_MAX_ALIASES ->
  alias_index (global_aliases s) name <> None -> resolve_alias (global_aliases s) name = value ->
  exists s', shell_add_alias name value' s = Ret tt s' /\ shell_resolve_alias name s' = Ret value s' /\
    length (global_aliases s') = S (length (global_aliases s)).
Proof.
  intros Hn Hv Hc Hi Hr. unfold shell_add_alias, fit. rewrite bind_get.
  destruct (Z.ltb_spec (Z.of_nat (length (global_aliases s))) SHELL_MAX_ALIASES); [|lia].
  assert (Z.of_nat (length value') <? 256 = true) as -> by lia. assert (Z.of_nat (length name) <? 64 = true) as -> by lia.
  eexists. split; [reflexivity|]. unfold shell_resolve_alias. rewrite bind_get.
  cbn [global_aliases set_aliases]. rewrite alias_snoc, length_app. destruct (alias_index (global_aliases s) name); [|done].
  rewrite Hr. split; [done|]. simpl. lia.
Qed.
End shell_state_properties.

(** ** A concrete shell *)

(** The concrete allocator of the witnesses without its limit. *)
Definition endless_malloc (n : Z) : M (gset Z) Z := λ h,
  let p := foldr Z.max 1000 (elements h) + 1 in Ret p ({[p]} ∪ h).

Lemma endless_malloc_run n h :
  exists p h', endless_malloc n h = Ret p h' /\ p <> 0 /\ p ∉ h ∪ {[16]} /\ h' = {[p]} ∪ h.
Proof.
  pose proof (fold_max_base (elements h)). eexists _, _. split; [done|]. split; [lia|]. split; [|done].
  intros [Hin|Heq%elem_of_singleton]%elem_of_union; [|lia]. apply elem_of_elements, fold_max_ge in Hin. lia.
Qed.

Lemma endless_malloc_law n h : (exists msg t, endless_malloc n h = Panic msg t) \/
  exists p h', endless_malloc n h = Ret p h' /\ ((p = 0 /\ h' = h) \/ (p <> 0 /\ p ∉ h ∪ {[16]} /\ h' = {[p]} ∪ h)).
Proof. right. destruct (endless_malloc_run n h) as (p & h' & E & Hp). exists p, h'. by split; [|right]. Qed.

#[local] Instance endless_allocator : Allocator (gset Z) := {|
  malloc := endless_malloc;
  free := bump_free;
  live h := h;
  static := {[16]};
  malloc_law := endless_malloc_law;
  free_law p h _ := ex_intro _ _ (conj eq_refl eq_refl)
|}.

#[local] Instance endless_never_out : NeverOut (gset Z).
Proof. intros n h. destruct (endless_malloc_run n h) as (p & h' & E & Hp & Hn & El). exists p, h'. set_solver. Qed.

Section shell_state_witnesses.

Definition shell0 : shell (gset Z) :=
  mkShell {[1001]} {[1001 := str "ls"]} [mkVar (str "HOME") (str "/home/root") true; mkVar (str "PS2") (str "> ") false]
    [mkAlias (str "ll") (str "ls")] [1001] [] [] (mkCtx false 0 (str "/")) [].

Lemma atoi_int_to_str_witness : atoi_simple (int_to_str (-2147483647)) = -2147483647.
Proof. apply atoi_int_to_str. lia. Defined.

Lemma variables_refine_witness :
  exists l, shell_set_variable (str "PS2") (str "$ ") shell0 = Ret tt (set_vars l shell0) /\
    vars_map l !! str "PS2" = Some (str "$ ") /\ vars_map l !! str "HOME" = Some (str "/home/root").
Proof.
  destruct (variables_refine shell0 (str "PS2") (str "$ ")) as ((l & E & _ & Em) & _).
  - split; [|simpl; unfold SHELL_MAX_VARS; lia]. apply (bool_decide_unpack _). vm_compute. exact I.
  - simpl. lia.
  - simpl. lia.
  - exists l. split; [exact E|]. rewrite Em. vm_compute. split; reflexivity.
Defined.

Lemma shell0_history : history_rep shell0 [str "ls"].
Proof.
  split.
  - repeat constructor.
  - constructor; [|constructor]. split; [lia|]. simpl. set_solver.
  - apply NoDup_singleton.
  - simpl. unfold SHELL_MAX_HISTORY. lia.
Qed.

Lemma history_keeps_last_witness :
  (exists msg t, shell_add_history (str "pwd") shell0 = Panic msg t) \/
  exists s', shell_add_history (str "pwd") shell0 = Ret tt s' /\
    (last (global_history s') = Some 0 \/ history_rep s' [str "ls"; str "pwd"]).
Proof. exact (history_keeps_last shell0 [str "ls"] (str "pwd") shell0_history). Defined.

Lemma alias_not_redefined_witness :
  exists s', shell_add_alias (str "ll") (str "pwd") shell0 = Ret tt s' /\ shell_resolve_alias (str "ll") s' = Ret (str "ls") s'.
Proof.
  destruct (alias_not_redefined shell0 (str "ll") (str "ls") (str "pwd")) as (s' & E & Er & _);
    [simpl; lia|simpl; lia|simpl; unfold SHELL_MAX_ALIASES; lia|discriminate|reflexivity|]. exists s'. split; assumption.
Defined.
End shell_state_witnesses.
