(* ===== verification/ShellLex.v ===== *)
(** * The tokenizer of the shell (ui/shell.c)

    [scan] reads one token as the branches of [tokenize] do; [None] is a write past its
    buffer of 1024 bytes.  [lex] is the tokenizer without its allocations, [tokenize] the
    one of the code.  Lines and columns are far below 2^32 for every line the shell takes. *)

From S2P Require Import Prelude Vfs ShellState.

Inductive token_type_t :=
  | TOKEN_WORD | TOKEN_STRING | TOKEN_NUMBER | TOKEN_OPERATOR | TOKEN_PIPE | TOKEN_REDIRECT_IN
  | TOKEN_REDIRECT_OUT | TOKEN_REDIRECT_APPEND | TOKEN_BACKGROUND | TOKEN_SEMICOLON | TOKEN_AND
  | TOKEN_OR | TOKEN_LPAREN | TOKEN_RPAREN | TOKEN_EOF | TOKEN_ERROR.
#[global] Instance token_type_eq_dec : EqDecision token_type_t.
Proof. solve_decision. Defined.

Record lexeme := mkLex { lx_type : token_type_t; lx_value : list Z; lx_line : Z; lx_column : Z }.

(** ** One token *)

Definition name_char (c : Z) : bool := is_alpha c || is_digit c || (c =? 95).
Definition word_start (c : Z) : bool := is_alpha c || (c =? 95) || (c =? 46).
Definition word_char (c : Z) : bool := is_alpha c || is_digit c || (c =? 95) || (c =? 46) || (c =? 45) || (c =? 47).
Definition op_char (c : Z) : bool := (c =? 43) || (c =? 45) || (c =? 42) || (c =? 47) || (c =? 37).
Definition quote_char (c : Z) : bool := (c =? 34) || (c =? 39).

(** [while (f( *p)) buf[bi++] = *p++;] *)
Fixpoint take_while (f : Z -> bool) (l : list Z) : list Z * list Z :=
  match l with
  | c :: r => if f c then let (a, b) := take_while f r in (c :: a, b) else ([], l)
  | [] => ([], [])
  end.

(** [while ( *p && f( *p) && bi < n) buf[bi++] = *p++;] *)
Fixpoint take_max (n : nat) (f : Z -> bool) (l : list Z) : list Z * list Z :=
  match n, l with
  | S n', c :: r => if f c then let (a, b) := take_max n' f r in (c :: a, b) else ([], l)
  | _, _ => ([], l)
  end.

Definition escape_of (c : Z) : Z := if c =? 110 then 10 else if c =? 116 then 9 else c.

(** The loop of a quoted string: the characters, the rest and the columns it counts. *)
Fixpoint quoted_loop (n : nat) (quote : Z) (l : list Z) : list Z * list Z :=
  match n with
  | O => ([], l)
  | S n' =>
      match l with
      | [] => ([], [])
      | c :: r =>
          if c =? quote then ([], l)
          else
            match r with
            | d :: r' =>
                if c =? 92 then let (a, b) := quoted_loop n' quote r' in (escape_of d :: a, b)
                else let (a, b) := quoted_loop n' quote r in (c :: a, b)
            | [] => ([c], [])
            end
      end
  end.

(** [buf[bi] = 0;] stays in [buf[1024]]. *)
Definition in_buf {A} (buf : list Z) (x : A) : option A := if Z.of_nat (length buf) <? 1024 then Some x else None.

(** [if ( *p == c) p++;] *)
Definition skip_char (c : Z) (l : list Z) : list Z * Z :=
  match l with
  | d :: r => if d =? c then (r, 1) else (l, 0)
  | [] => ([], 0)
  end.

(** [*p] and [*(p+1)] for a pointer at [l]. *)
Definition char_at (l : list Z) : Z := match l with c :: _ => c | [] => 0 end.

(** The operators at [c] with [d] behind it, in the order they are tried. *)
Definition scan_op (c d : Z) : option (token_type_t * list Z) :=
  if (c =? 124) && (d =? 124) then Some (TOKEN_OR, [124; 124])
  else if (c =? 38) && (d =? 38) then Some (TOKEN_AND, [38; 38])
  else if (c =? 62) && (d =? 62) then Some (TOKEN_REDIRECT_APPEND, [62; 62])
  else if (c =? 60) && (d =? 60) then Some (TOKEN_REDIRECT_IN, [60; 60])
  else if c =? 124 then Some (TOKEN_PIPE, [124])
  else if c =? 62 then Some (TOKEN_REDIRECT_OUT, [62])
  else if c =? 60 then Some (TOKEN_REDIRECT_IN, [60])
  else if c =? 38 then Some (TOKEN_BACKGROUND, [38])
  else if c =? 59 then Some (TOKEN_SEMICOLON, [59])
  else if c =? 40 then Some (TOKEN_LPAREN, [40])
  else if c =? 41 then Some (TOKEN_RPAREN, [41])
  else None.

(** A quoted string behind its quote [c]; a variable behind [$]; a run of characters. *)
Definition scan_string (c : Z) (r : list Z) (line column : Z) : option (lexeme * list Z * Z) :=
  let (buf, rest) := quoted_loop 1023 c r in
  let bi := Z.of_nat (length buf) in
  let (rest, n) := skip_char c rest in
  let column := column + 1 + bi + n in
  in_buf buf (mkLex TOKEN_STRING buf line (u32 (column - bi)), rest, column).

Definition scan_dollar (r : list Z) (line column : Z) : option (lexeme * list Z * Z) :=
  if char_at r =? 123 then
    let (buf, rest) := take_max 1023 (λ d, negb (d =? 125)) (drop 1 r) in
    let bi := Z.of_nat (length buf) in
    let (rest, n) := skip_char 125 rest in
    let column := column + 2 + bi + n in
    in_buf buf (mkLex TOKEN_WORD buf line (u32 (column - bi)), rest, column)
  else
    let (buf, rest) := take_while name_char r in
    in_buf buf (mkLex TOKEN_WORD buf line (column + 1), rest, column + 1 + Z.of_nat (length buf)).

Definition scan_run (type : token_type_t) (f : Z -> bool) (l : list Z) (line column : Z) : option (lexeme * list Z * Z) :=
  let (buf, rest) := take_while f l in
  in_buf buf (mkLex type buf line column, rest, column + Z.of_nat (length buf)).

(** The branches of [tokenize] at the character [c] with [r] behind it, on [line] and
    [column]: the token, what is left and the new column. *)
Definition scan (c : Z) (r : list Z) (line column : Z) : option (lexeme * list Z * Z) :=
  match scan_op c (char_at r) with
  | Some (type, v) =>
      Some (mkLex type v line column, drop (length v) (c :: r), column + Z.of_nat (length v))
  | None =>
      if quote_char c then scan_string c r line column
      else if c =? 36 then scan_dollar r line column
      else if word_start c then scan_run TOKEN_WORD word_char (c :: r) line column
      else if is_digit c then scan_run TOKEN_NUMBER is_digit (c :: r) line column
      else if c =? 61 then Some (mkLex TOKEN_OPERATOR [61] line column, r, column + 1)
      else if op_char c then Some (mkLex TOKEN_OPERATOR [c] line column, r, column + 1)
      else if (c =? 33) && (char_at r =? 61) then Some (mkLex TOKEN_OPERATOR [33; 61] line column, drop 1 r, column + 2)
      else Some (mkLex TOKEN_ERROR (str "Unexpected character: " ++ [c]) line column, r, column + 1)
  end.

(** ** The tokens of a line *)

Fixpoint lex (fuel : nat) (p : list Z) (line column : Z) : option (list lexeme) :=
  match fuel with
  | O => None
  | S fuel' =>
      match p with
      | [] => Some [mkLex TOKEN_EOF [] line column]
      | c :: r =>
          if c =? 10 then lex fuel' r (line + 1) 1
          else if is_blank c then lex fuel' r line (column + 1)
          else
            match scan c r line column with
            | None => None
            | Some (x, rest, column') => cons x <$> lex fuel' rest line column'
            end
      end
  end.

(** ** The code *)

(** A token at [tk_addr] with its value at [tk_value]; the list of the code is linked by
    [next] in the same order. *)
Record token_t := mkToken { tk_addr : Z; tk_type : token_type_t; tk_value : Z; tk_line : Z; tk_column : Z }.

Section tokenizer.
Context {H : Type} `{!Allocator H}.
Local Abbreviation shell := (shell H).
Implicit Types s : shell.

(** [sizeof(token_t)] is 32. *)
Definition tokenizer_create_token (x : lexeme) : M shell (option token_t) :=
  tok <-- sh_malloc 32 ;;
  if tok =? 0 then ret None
  else
    value <-- sh_malloc (Z.of_nat (length (lx_value x)) + 1) ;;
    if value =? 0 then sh_free tok ;;; ret None
    else str_put value (lx_value x) ;;; ret (Some (mkToken tok (lx_type x) value (lx_line x) (lx_column x))).

Fixpoint tokenizer_free_tokens (l : list token_t) : M shell unit :=
  match l with
  | [] => ret tt
  | t :: r => sh_free (tk_value t) ;;; sh_free (tk_addr t) ;;; tokenizer_free_tokens r
  end.

(** The [while] loop and the end of file token; a token that could not be created is left out. *)
Fixpoint tokenize_loop (fuel : nat) (p : list Z) (line column : Z) (toks : list token_t) : M shell (list token_t) :=
  match fuel with
  | O => nofuel
  | S fuel' =>
      match p with
      | [] =>
          eof <-- tokenizer_create_token (mkLex TOKEN_EOF [] line column) ;;
          ret (toks ++ option_list eof)
      | c :: r =>
          if c =? 10 then tokenize_loop fuel' r (line + 1) 1 toks
          else if is_blank c then tokenize_loop fuel' r line (column + 1) toks
          else
            match scan c r line column with
            | None => stuck
            | Some (x, rest, column') =>
                tok <-- tokenizer_create_token x ;;
                tokenize_loop fuel' rest line column' (toks ++ option_list tok)
            end
      end
  end.
Definition tokenize (input : list Z) : M shell (list token_t) := tokenize_loop (S (length input)) input 1 1 [].
End tokenizer.

(** ** The scanner ends *)

Section scanning.

Lemma take_while_length f l : (length (take_while f l).1 + length (take_while f l).2 = length l)%nat.
Proof. induction l as [|c l IH]; simpl; [done|]. destruct (f c); [|done]. destruct (take_while f l). simpl in *. lia. Qed.

Lemma take_max_length n f l : (length (take_max n f l).1 + length (take_max n f l).2 = length l)%nat /\ (length (take_max n f l).1 <= n)%nat.
Proof.
  revert l. induction n as [|n IH]; intros l; simpl; [by split; [|lia]|]. destruct l as [|c l]; [simpl; lia|].
  destruct (f c); [|simpl; lia]. specialize (IH l). destruct (take_max n f l). simpl in *. lia.
Qed.

Lemma quoted_length n q l : (length (quoted_loop n q l).1 + length (quoted_loop n q l).2 <= length l)%nat /\ (length (quoted_loop n q l).1 <= n)%nat.
Proof.
  revert l. induction n as [|n IH]; intros l; simpl; [lia|]. destruct l as [|c r]; [simpl; lia|].
  destruct (c =? q); [simpl; lia|]. destruct r as [|d r']; [simpl; lia|]. destruct (c =? 92).
  - specialize (IH r'). destruct (quoted_loop n q r'). simpl in *. lia.
  - specialize (IH (d :: r')). destruct (quoted_loop n q (d :: r')). simpl in *. lia.
Qed.

Lemma skip_char_length c l : (length (skip_char c l).1 <= length l)%nat.
Proof. destruct l as [|d l]; [done|]. simpl. destruct (d =? c); simpl; lia. Qed.

Lemma in_buf_some {A} buf (x : A) : (length buf < 1024)%nat -> in_buf buf x = Some x.
Proof. intros. unfold in_buf. by destruct (Z.ltb_spec (Z.of_nat (length buf)) 1024); [|lia]. Qed.

Lemma scan_op_length c r ty v : scan_op c (char_at r) = Some (ty, v) -> (length (drop (length v) (c :: r)) <= length r)%nat.
Proof.
  unfold scan_op. intros E. rewrite length_drop. cbn [length].
  repeat match type of E with (if ?b then _ else _) = _ => destruct b end; simplify_eq; simpl; lia.
Qed.

Lemma scan_run_total ty f c r line column :
  f c = true -> (length r < 1023)%nat ->
  exists x rest column', scan_run ty f (c :: r) line column = Some (x, rest, column') /\ (length rest <= length r)%nat.
Proof.
  intros Hc Hr. unfold scan_run. cbn [take_while]. rewrite Hc. pose proof (take_while_length f r) as Ht.
  destruct (take_while f r) as [buf rest]. cbn [fst snd] in Ht. rewrite in_buf_some by (simpl; lia).
  eexists _, _, _. split; [done|]. lia.
Qed.

(** Every token takes at least its first character, and on a short line fits its buffer. *)
Lemma scan_total c r line column :
  (length r < 1023)%nat -> exists x rest column', scan c r line column = Some (x, rest, column') /\ (length rest <= length r)%nat.
Proof.
  intros Hr. unfold scan. destruct (scan_op c (char_at r)) as [[ty v]|] eqn:Eo.
  { apply scan_op_length in Eo. by eexists _, _, _. }
  destruct (quote_char c).
  { unfold scan_string. pose proof (quoted_length 1023 c r) as Hq. destruct (quoted_loop 1023 c r) as [buf rest]. cbn [fst snd] in Hq.
    pose proof (skip_char_length c rest) as Hs. destruct (skip_char c rest) as [rest' n]. cbn [fst] in Hs.
    rewrite in_buf_some by lia. eexists _, _, _. split; [done|]. lia. }
  destruct (c =? 36).
  { unfold scan_dollar. destruct (char_at r =? 123).
    - pose proof (take_max_length 1023 (λ d, negb (d =? 125)) (drop 1 r)) as Ht.
      destruct (take_max 1023 (λ d, negb (d =? 125)) (drop 1 r)) as [buf rest]. cbn [fst snd] in Ht. rewrite length_drop in Ht.
      pose proof (skip_char_length 125 rest) as Hs. destruct (skip_char 125 rest) as [rest' n]. cbn [fst] in Hs.
      rewrite in_buf_some by lia. eexists _, _, _. split; [done|]. lia.
    - pose proof (take_while_length name_char r) as Ht. destruct (take_while name_char r) as [buf rest]. cbn [fst snd] in Ht.
      rewrite in_buf_some by lia. eexists _, _, _. split; [done|]. lia. }
  destruct (word_start c) eqn:Ew.
  { apply scan_run_total; [|done]. unfold word_start, word_char in *.
    destruct (is_alpha c); [done|]. destruct (c =? 95), (c =? 46), (is_digit c); done. }
  destruct (is_digit c) eqn:Ed; [by apply scan_run_total|].
  destruct (c =? 61); [by eexists _, _, _|]. destruct (op_char c); [by eexists _, _, _|].
  destruct ((c =? 33) && (char_at r =? 61)); eexists _, _, _; (split; [done|]); rewrite ?length_drop; lia.
Qed.

(** A line of up to 1023 characters has tokens, the last of which is the end. *)
Lemma lex_total fuel p line column :
  (length p < fuel)%nat -> (length p <= 1023)%nat ->
  exists xs e, lex fuel p line column = Some (xs ++ [e]) /\ lx_type e = TOKEN_EOF /\ (length xs <= length p)%nat.
Proof.
  revert p line column. induction fuel as [|fuel IH]; intros p line column Hf Hp; [lia|]. cbn [lex].
  destruct p as [|c r]; [by exists [], (mkLex TOKEN_EOF [] line column)|]. cbn [length] in Hf, Hp.
  destruct (c =? 10).
  { destruct (IH r (line + 1) 1) as (xs & e & E & He & Hl); [lia|lia|]. exists xs, e. split; [done|]. split; [done|]. simpl. lia. }
  destruct (is_blank c).
  { destruct (IH r line (column + 1)) as (xs & e & E & He & Hl); [lia|lia|]. exists xs, e. split; [done|]. split; [done|]. simpl. lia. }
  destruct (scan_total c r line column) as (x & rest & column' & -> & Hrest); [lia|].
  destruct (IH rest line column') as (xs & e & -> & He & Hl); [lia|lia|]. exists (x :: xs), e. split; [done|]. split; [done|]. simpl. lia.
Qed.
End scanning.

(** ** The tokens in memory *)

Section tokens.
Context {H : Type} `{!Allocator H, !NeverOut H}.
Local Abbreviation shell := (shell H).
Implicit Types s : shell.

Definition tok_ptrs (toks : list token_t) : list Z := flat_map (λ t, [tk_value t; tk_addr t]) toks.

(** [t] is the token [x]. *)
Record tok_is s (x : lexeme) (t : token_t) : Prop := {
  ti_type : tk_type t = lx_type x;
  ti_value : sh_strs s !! tk_value t = Some (lx_value x);
  ti_place : (tk_line t, tk_column t) = (lx_line x, lx_column x)
}.

Lemma tok_ptrs_snoc toks t : tok_ptrs (toks ++ [t]) ≡ₚ tk_value t :: tk_addr t :: tok_ptrs toks.
Proof. unfold tok_ptrs. rewrite flat_map_app. simpl. by rewrite (Permutation_app_comm _ [_; _]). Qed.

Lemma tok_value_ptr toks t : t ∈ toks -> tk_value t ∈ tok_ptrs toks.
Proof. induction 1; set_solver. Qed.

Lemma create_token_run B ps x s :
  holds B ps s ->
  exists t h, let s' := set_strs (<[tk_value t := lx_value x]> (sh_strs s)) (set_alloc h s) in
    tokenizer_create_token x s = Ret (Some t) s' /\ tok_is s' x t /\ tk_value t ∉ live_of s /\
    holds B (tk_value t :: tk_addr t :: ps) s'.
Proof.
  intros Hh. unfold tokenizer_create_token. destruct (holds_malloc 32 B ps s Hh) as (a & h & E & Ea & _ & Hh1).
  rewrite (bind_Ret _ _ _ _ _ E), Ea.
  destruct (holds_malloc (Z.of_nat (length (lx_value x)) + 1) _ _ _ Hh1) as (v & h' & E' & Ev & Hv & Hh2).
  rewrite (bind_Ret _ _ _ _ _ E'), Ev. unfold str_put. run_step.
  exists (mkToken a (lx_type x) v (lx_line x) (lx_column x)), h'. split; [done|]. split; [split; [done|apply lookup_insert_eq|done]|].
  split; [|by destruct Hh2; split]. cbn [tk_value]. intros Hl. apply Hv. destruct Hh1 as [_ _ _ H4]. apply H4.
  apply (h_live _ _ _ Hh) in Hl. set_solver.
Qed.

(** The loop builds the tokens of [lex], and writes no string but theirs. *)
Lemma tokenize_loop_run B fuel p line column xs0 xs toks s :
  lex fuel p line column = Some xs -> holds B (tok_ptrs toks) s -> Forall2 (tok_is s) xs0 toks ->
  exists toks' h m, let s' := set_strs m (set_alloc h s) in
    tokenize_loop fuel p line column toks s = Ret toks' s' /\ Forall2 (tok_is s') (xs0 ++ xs) toks' /\
    holds B (tok_ptrs toks') s' /\ (forall q, q ∈ live_of s -> m !! q = sh_strs s !! q).
Proof.
  revert p line column xs0 xs toks s. induction fuel as [|fuel IH]; intros p line column xs0 xs toks s E Hh Ht; [done|].
  assert (forall x, exists t h, let s' := set_strs (<[tk_value t := lx_value x]> (sh_strs s)) (set_alloc h s) in
    tokenizer_create_token x s = Ret (Some t) s' /\ holds B (tok_ptrs (toks ++ [t])) s' /\
    Forall2 (tok_is s') (xs0 ++ [x]) (toks ++ [t]) /\ tk_value t ∉ live_of s) as Hnew.
  { intros x. destruct (create_token_run B _ x s Hh) as (t & h & Ec & Hx & Hv & Hh'). exists t, h. split; [exact Ec|].
    split; [by eapply holds_perm; [symmetry; apply tok_ptrs_snoc|]|]. split; [|done]. apply Forall2_app; [|constructor; [exact Hx|constructor]].
    eapply Forall2_impl_in; [exact Ht|]. intros y u _ Hu [H1 H2 H3]. split; [done| |done].
    cbn [sh_strs set_strs set_alloc]. rewrite lookup_insert_ne; [done|]. intros Eq. apply Hv. rewrite Eq.
    apply (holds_in _ _ _ _ Hh). by apply tok_value_ptr. }
  cbn [lex tokenize_loop] in *. destruct p as [|c r].
  { simplify_eq. destruct (Hnew (mkLex TOKEN_EOF [] line column)) as (t & h & Ec & Hh' & Ht' & Hv).
    rewrite (bind_Ret _ _ _ _ _ Ec). eexists _, h, _. split; [reflexivity|]. split; [exact Ht'|]. split; [exact Hh'|].
    intros q Hq. apply lookup_insert_ne. congruence. }
  destruct (c =? 10); [by apply IH|]. destruct (is_blank c); [by apply IH|].
  destruct (scan c r line column) as [[[x rest] column']|]; [|done].
  destruct (lex fuel rest line column') as [ys|] eqn:El; [|done]. cbn in E. simplify_eq.
  destruct (Hnew x) as (t & h & Ec & Hh' & Ht' & Hv). rewrite (bind_Ret _ _ _ _ _ Ec). cbn [option_list].
  destruct (IH _ _ _ _ _ _ _ El Hh' Ht') as (toks' & h' & m & Eq & Ht2 & Hh2 & Hk). exists toks', h', m.
  split; [exact Eq|]. rewrite <- app_assoc in Ht2. split; [exact Ht2|]. split; [exact Hh2|].
  intros q Hq. rewrite Hk.
  - apply lookup_insert_ne. congruence.
  - apply (h_live _ _ _ Hh'). apply (h_live _ _ _ Hh) in Hq as [Hq|Hq]; [|by right]. left. rewrite tok_ptrs_snoc. set_solver.
Qed.

Lemma tokenize_run p s :
  (length p <= 1023)%nat ->
  exists xs e toks h m, let s' := set_strs m (set_alloc h s) in
    lex (S (length p)) p 1 1 = Some (xs ++ [e]) /\ lx_type e = TOKEN_EOF /\
    tokenize p s = Ret toks s' /\ Forall2 (tok_is s') (xs ++ [e]) toks /\ holds (live_of s) (tok_ptrs toks) s' /\
    (forall q, q ∈ live_of s -> m !! q = sh_strs s !! q).
Proof.
  intros Hp. destruct (lex_total (S (length p)) p 1 1) as (xs & e & E & He & _); [lia|done|].
  destruct (tokenize_loop_run _ _ _ _ _ [] _ [] s E (holds_nil s) ltac:(constructor)) as (toks & h & m & Et & Ht & Hh & Hk).
  by exists xs, e, toks, h, m.
Qed.

(** Freeing a token list that is allocated returns. *)
Lemma free_tokens_run B toks ps s :
  holds B (tok_ptrs toks ++ ps) s -> exists h, tokenizer_free_tokens toks s = Ret tt (set_alloc h s) /\ holds B ps (set_alloc h s).
Proof.
  revert s. induction toks as [|t toks IH]; intros s Hh; [exists (sh_alloc s); by destruct s|].
  change (tok_ptrs (t :: toks) ++ ps) with (tk_value t :: tk_addr t :: tok_ptrs toks ++ ps) in Hh. cbn [tokenizer_free_tokens].
  destruct (holds_free _ _ _ _ Hh) as (h & E & Hh1). rewrite (bind_Ret _ _ _ _ _ E).
  destruct (holds_free _ _ _ _ Hh1) as (h' & E' & Hh2). rewrite (bind_Ret _ _ _ _ _ E').
  exact (IH _ Hh2).
Qed.

End tokens.

(** ** Quoting *)

Section quoting.

(** An argument between double quotes. *)
Definition quote_body (a : list Z) : list Z := flat_map (λ c, if (c =? 34) || (c =? 92) then [92; c] else [c]) a.
Definition quote_arg (a : list Z) : list Z := 34 :: quote_body a ++ [34].
Definition quote_line (args : list (list Z)) : list Z := flat_map (λ a, quote_arg a ++ [32]) args.

Lemma quoted_loop_quote n a rest :
  (length a <= n)%nat ->
  quoted_loop n 34 (quote_body a ++ 34 :: rest) = (a, 34 :: rest).
Proof.
  revert n. induction a as [|c a IH]; intros n Hn; [by destruct n|]. destruct n as [|n]; cbn [length] in Hn; [lia|].
  specialize (IH n ltac:(lia)). unfold quote_body in *. cbn [flat_map]. destruct ((c =? 34) || (c =? 92)) eqn:Ec.
  - cbn [app quoted_loop]. change (92 =? 34) with false. cbn match. change (92 =? 92) with true. cbn match. rewrite IH.
    f_equal. f_equal. unfold escape_of. apply orb_true_iff in Ec as [->%Z.eqb_eq| ->%Z.eqb_eq]; done.
  - apply orb_false_iff in Ec as [E1 E2]. cbn [app quoted_loop]. rewrite E1.
    set (tl := flat_map _ a ++ _) in *. assert (exists d r, tl = d :: r) as (d & r & E).
    { unfold tl. destruct a as [|x a']; [by eexists _, _|]. cbn [flat_map]. destruct ((x =? 34) || (x =? 92)); by eexists _, _. }
    rewrite E, E2 in *. by rewrite IH.
Qed.

Lemma scan_quoted a rest line column :
  (length a <= 1023)%nat -> exists x column', scan 34 (quote_body a ++ 34 :: rest) line column = Some (x, rest, column') /\
    lx_type x = TOKEN_STRING /\ lx_value x = a.
Proof.
  intros Ha. unfold scan.
  change (scan_op 34 _) with (@None (token_type_t * list Z)). change (quote_char 34) with true. cbn match. unfold scan_string.
  rewrite quoted_loop_quote by done. cbn [skip_char]. change (34 =? 34) with true. cbn match.
  rewrite in_buf_some by lia. by eexists _, _.
Qed.

(** Quoted arguments are read back. *)
Lemma lex_quoted args fuel line column :
  Forall (λ a, (length a <= 1023)%nat) args -> (length (quote_line args) < fuel)%nat ->
  exists xs, lex fuel (quote_line args) line column = Some xs /\
    (λ x, (lx_type x, lx_value x)) <$> xs = ((λ a, (TOKEN_STRING, a)) <$> args) ++ [(TOKEN_EOF, [])].
Proof.
  intros Ha. revert fuel line column. induction Ha as [|a args Ha _ IH]; intros fuel line column Hf.
  - destruct fuel; [simpl in Hf; lia|]. by eexists.
  - unfold quote_line in *. cbn [flat_map] in *. rewrite <- app_assoc in *. cbn [app] in *.
    set (tl := flat_map (λ a0, quote_arg a0 ++ [32]) args) in *. rewrite length_app in Hf. destruct fuel as [|fuel]; [lia|].
    destruct (scan_quoted a (32 :: tl) line column Ha) as (x & column' & E & Ht & Hv).
    assert (0 < length (quote_arg a))%nat by (simpl; lia). cbn [length] in Hf. destruct fuel as [|fuel]; [lia|].
    unfold quote_arg. rewrite <- app_comm_cons, <- app_assoc. cbn [app lex].
    change (34 =? 10) with false. change (is_blank 34) with false. cbn match. rewrite E. cbn [lex].
    change (32 =? 10) with false. change (is_blank 32) with true. cbn match.
    destruct (IH fuel line (column' + 1)) as (xs & -> & Exs); [lia|]. exists (x :: xs). split; [done|].
    cbn. by rewrite Ht, Hv, Exs.
Qed.
End quoting.

(** ** Properties *)

Section shell_lex_properties.
Context {H : Type} `{!Allocator H, !NeverOut H}.
Local Abbreviation shell := (shell H).
Implicit Types s : shell.

(** The tokenizer ends on every line of up to 1023 characters: it reads each token inside its
    buffer, and builds the list of the tokens of [lex], the last one the end of file, of distinct
    new objects; no other string changes. *)
Theorem tokenize_total p s :
  (length p <= 1023)%nat ->
  exists xs e toks h m, let s' := set_strs m (set_alloc h s) in
    lex (S (length p)) p 1 1 = Some (xs ++ [e]) /\ lx_type e = TOKEN_EOF /\
    tokenize p s = Ret toks s' /\ Forall2 (tok_is s') (xs ++ [e]) toks /\ holds (live_of s) (tok_ptrs toks) s' /\
    (forall q, q ∈ live_of s -> m !! q = sh_strs s !! q).
Proof. apply tokenize_run. Qed.

(** C17. Quoting: while memory lasts ([NeverOut]), any arguments of up to 1023 characters, between double
    quotes with [\] before each quote and backslash, are read back as string tokens with exactly
    those characters. *)
Theorem tokenize_quoted args s :
  Forall (λ a, (length a <= 1023)%nat) args ->
  exists toks s', tokenize (quote_line args) s = Ret toks s' /\
    Forall2 (λ tv t, tk_type t = tv.1 /\ sh_strs s' !! tk_value t = Some tv.2)
      (((λ a, (TOKEN_STRING, a)) <$> args) ++ [(TOKEN_EOF, [])]) toks.
Proof.
  intros Ha. destruct (lex_quoted args (S (length (quote_line args))) 1 1 Ha ltac:(lia)) as (xs & E & Exs).
  destruct (tokenize_loop_run _ _ _ _ _ [] _ [] s E (holds_nil s) ltac:(constructor)) as (toks & h & m & Et & Ht & _).
  exists toks, (set_strs m (set_alloc h s)). split; [exact Et|]. rewrite <- Exs, Forall2_fmap_l.
  eapply Forall2_impl; [exact Ht|]. intros x t [H1 H2 _]. by split.
Qed.

(** A word of 1024 characters or more is written past the end of the tokenizer's buffer. *)
Theorem long_word_overflows c w s :
  word_start c = true -> Forall (λ d, word_char d = true) (c :: w) -> (1023 <= length w)%nat ->
  tokenize (c :: w) s = Stuck.
Proof.
  intros Hc Hw Hl. unfold tokenize. cbn [length tokenize_loop].
  assert (take_while word_char (c :: w) = (c :: w, [])) as Et.
  { clear Hc Hl. induction Hw as [|d l Hd Hl IH]; [done|]. cbn [take_while]. by rewrite Hd, IH. }
  assert (scan c w 1 1 = None) as Es.
  { unfold scan. assert (scan_op c (char_at w) = None /\ quote_char c = false /\ (c =? 36) = false) as (-> & -> & ->).
    { unfold word_start, is_alpha in Hc. unfold scan_op, quote_char.
      repeat match goal with |- context [c =? ?n] => assert (c =? n = false) as -> by lia end. done. }
    rewrite Hc. unfold scan_run. rewrite Et. unfold in_buf. by destruct (Z.ltb_spec (Z.of_nat (length (c :: w))) 1024); [cbn [length] in *; lia|]. }
  assert ((c =? 10) = false /\ is_blank c = false) as [-> ->] by (unfold word_start, is_alpha, is_blank in *; lia).
  by rewrite Es.
Qed.
End shell_lex_properties.

Section shell_lex_witnesses.
#[local] Existing Instance endless_allocator.
#[local] Existing Instance endless_never_out.

Lemma tokenize_total_witness :
  exists toks s', tokenize (str "ls -a") shell0 = Ret toks s' /\ tk_type <$> toks = [TOKEN_WORD; TOKEN_OPERATOR; TOKEN_WORD; TOKEN_EOF].
Proof.
  destruct (tokenize_total (str "ls -a") shell0) as (xs & e & toks & h & m & El & He & Et & Ht & _); [simpl; lia|].
  exists toks, (set_strs m (set_alloc h shell0)). split; [exact Et|]. revert El. vm_compute (lex _ _ _ _). intros [= El].
  assert (tk_type <$> toks = lx_type <$> (xs ++ [e])) as ->.
  { symmetry. clear - Ht. induction Ht as [|x t l k [Hty _ _] _ IH]; [reflexivity|]. cbn. by rewrite Hty, IH. }
  rewrite <- El. reflexivity.
Defined.

Lemma tokenize_quoted_witness :
  exists toks s', tokenize (quote_line [str "a b"; [34; 92]]) shell0 = Ret toks s' /\
    (λ t, sh_strs s' !! tk_value t) <$> toks = [Some (str "a b"); Some [34; 92]; Some []].
Proof.
  destruct (tokenize_quoted [str "a b"; [34; 92]] shell0) as (toks & s' & E & Ht).
  - repeat constructor; simpl; lia.
  - exists toks, s'. split; [exact E|]. repeat (apply Forall2_cons_inv_l in Ht as (? & ? & [_ ?] & Ht & ->)).
    apply Forall2_nil_inv_l in Ht as ->. cbn in *. congruence.
Defined.

Lemma long_word_overflows_witness : tokenize (replicate 1024 97) shell0 = Stuck.
Proof.
  apply (long_word_overflows 97 (replicate 1023 97) shell0).
  - reflexivity.
  - exact (Forall_replicate (λ d, word_char d = true) 1024 97 eq_refl).
  - rewrite length_replicate. lia.
Defined.
End shell_lex_witnesses.
