(* ===== verification/ShellParse.v ===== *)
(** * The parser of the shell (ui/shell.c)

    A node of the code is [Node addr type children kids cmd]: [addr] is its object,
    [children] the array of pointers to [kids].  A node has one owner at a time, so that
    [ast_add_child] returns the node it changed.  [value] stays null in every node of the
    parser; [error_redirect] and [append_error] stay zero and are left out.  A parser takes
    the tokens that are left and returns those it left over. *)

From S2P Require Import Prelude Vfs ShellState ShellLex.

Inductive ast_node_type_t :=
  | NODE_COMMAND | NODE_PIPELINE | NODE_REDIRECT | NODE_BACKGROUND | NODE_SEQUENCE | NODE_AND | NODE_OR
  | NODE_SUBSHELL | NODE_FOR | NODE_WHILE | NODE_IF | NODE_FUNCTION | NODE_VAR_ASSIGN | NODE_EXPORT | NODE_ALIAS.
#[global] Instance ast_node_type_eq_dec : EqDecision ast_node_type_t.
Proof. solve_decision. Defined.

(** [argv] are the [arg_count] pointers in the array [args]. *)
Record cmd_t := mkCmd {
  args : Z; argv : list Z; input_redirect : Z; output_redirect : Z; append_output : bool; background : bool
}.
Definition cmd_zero : cmd_t := mkCmd 0 [] 0 0 false false.
Definition set_args (a : Z) (l : list Z) (c : cmd_t) : cmd_t :=
  mkCmd a l (input_redirect c) (output_redirect c) (append_output c) (background c).
Definition set_input (p : Z) (c : cmd_t) : cmd_t := mkCmd (args c) (argv c) p (output_redirect c) (append_output c) (background c).
Definition set_output (p : Z) (append : bool) (c : cmd_t) : cmd_t := mkCmd (args c) (argv c) (input_redirect c) p append (background c).
Definition set_background (c : cmd_t) : cmd_t := mkCmd (args c) (argv c) (input_redirect c) (output_redirect c) (append_output c) true.

Inductive ast_node_t := Node (addr : Z) (type : ast_node_type_t) (children : Z) (kids : list ast_node_t) (cmd : cmd_t).
Definition addr (n : ast_node_t) : Z := let (a, _, _, _, _) := n in a.
Definition type (n : ast_node_t) : ast_node_type_t := let (_, t, _, _, _) := n in t.
Definition children (n : ast_node_t) : Z := let (_, _, c, _, _) := n in c.
Definition kids (n : ast_node_t) : list ast_node_t := let (_, _, _, l, _) := n in l.
Definition cmd (n : ast_node_t) : cmd_t := let (_, _, _, _, c) := n in c.

(** [t]'s type is one of [l]. *)
Definition is_type (l : list token_type_t) (t : token_t) : bool := bool_decide (tk_type t ∈ l).
Definition cmd_end : list token_type_t :=
  [TOKEN_EOF; TOKEN_PIPE; TOKEN_REDIRECT_IN; TOKEN_REDIRECT_OUT; TOKEN_REDIRECT_APPEND; TOKEN_SEMICOLON; TOKEN_AND; TOKEN_OR; TOKEN_BACKGROUND].
Definition arg_type : list token_type_t := [TOKEN_WORD; TOKEN_STRING; TOKEN_NUMBER].

Section parser.
Context {H : Type} `{!Allocator H}.
Local Abbreviation shell := (shell H).
Implicit Types s : shell.

(** [sizeof(ast_node_t)] is 88. *)
Definition ast_create_node (type : ast_node_type_t) : M shell (option ast_node_t) :=
  p <-- sh_malloc 88 ;;
  if p =? 0 then ret None else ret (Some (Node p type 0 [] cmd_zero)).

Definition ast_add_child (parent child : option ast_node_t) : M shell (option ast_node_t) :=
  match parent, child with
  | Some (Node a ty ch ks c as n), Some x =>
      new_children <-- sh_malloc (8 * (Z.of_nat (length ks) + 1)) ;;
      if new_children =? 0 then ret (Some n)
      else sh_free ch ;;; ret (Some (Node a ty new_children (ks ++ [x]) c))
  | _, _ => ret parent
  end.

Fixpoint free_all (l : list Z) : M shell unit :=
  match l with
  | [] => ret tt
  | p :: r => sh_free p ;;; free_all r
  end.

Fixpoint ast_free (n : ast_node_t) : M shell unit :=
  let fix free_kids (l : list ast_node_t) : M shell unit :=
    match l with
    | [] => ret tt
    | x :: r => ast_free x ;;; free_kids r
    end in
  match n with
  | Node a ty ch ks c =>
      free_kids ks ;;;
      sh_free ch ;;;
      (if bool_decide (ty = NODE_COMMAND) && negb (args c =? 0) then free_all (argv c) ;;; sh_free (args c) else ret tt) ;;;
      sh_free a
  end.

(** The loop of [parse_command]: the arguments so far are [c]'s, in an array of [arg_cap]. *)
Fixpoint args_loop (curr : list token_t) (arg_cap : Z) (c : cmd_t) : M shell (cmd_t * list token_t) :=
  match curr with
  | [] => ret (c, curr)
  | t :: r =>
      if is_type cmd_end t then ret (c, curr)
      else if is_type arg_type t then
        if arg_cap <=? Z.of_nat (length (argv c)) then
          new_args <-- sh_malloc (8 * (arg_cap * 2)) ;;
          if new_args =? 0 then ret (c, curr)
          else sh_free (args c) ;;; args_loop r (arg_cap * 2) (set_args new_args (argv c ++ [tk_value t]) c)
        else args_loop r arg_cap (set_args (args c) (argv c ++ [tk_value t]) c)
      else if is_type [TOKEN_REDIRECT_IN] t then
        match r with
        | w :: r' => if is_type [TOKEN_WORD] w then args_loop r' arg_cap (set_input (tk_value w) c) else args_loop r arg_cap c
        | [] => ret (c, [])
        end
      else if is_type [TOKEN_REDIRECT_OUT] t then
        match r with
        | w :: r' => if is_type [TOKEN_WORD] w then args_loop r' arg_cap (set_output (tk_value w) false c) else args_loop r arg_cap c
        | [] => ret (c, [])
        end
      else if is_type [TOKEN_REDIRECT_APPEND] t then
        match r with
        | w :: r' => if is_type [TOKEN_WORD] w then args_loop r' arg_cap (set_output (tk_value w) true c) else args_loop r arg_cap c
        | [] => ret (c, [])
        end
      else ret (c, curr)
  end.

Definition parse_command (tokens : list token_t) : M shell (option ast_node_t * list token_t) :=
  match tokens with
  | [] => ret (None, tokens)
  | t :: _ =>
      if is_type [TOKEN_EOF] t then ret (None, tokens)
      else
        o <-- ast_create_node NODE_COMMAND ;;
        match o with
        | None => ret (None, tokens)
        | Some (Node a ty ch ks c as n) =>
            args <-- sh_malloc (8 * 8) ;;
            if args =? 0 then ast_free n ;;; ret (None, tokens)
            else
              res <-- args_loop tokens 8 (set_args args [] c) ;;
              ret (Some (Node a ty ch ks res.1), res.2)
        end
  end.

(** [while ( *tokens && ( *tokens)->type == TOKEN_PIPE)]; [fuel]: a round takes a token. *)
Fixpoint pipeline_loop (fuel : nat) (pipeline : option ast_node_t) (tokens : list token_t) : M shell (option ast_node_t * list token_t) :=
  match fuel with
  | O => nofuel
  | S fuel' =>
      match tokens with
      | t :: r =>
          if is_type [TOKEN_PIPE] t then
            res <-- parse_command r ;;
            match res.1 with
            | None => ret (pipeline, res.2)
            | Some c =>
                pipeline <-- ast_add_child pipeline (Some c) ;;
                pipeline_loop fuel' pipeline res.2
            end
          else ret (pipeline, tokens)
      | [] => ret (pipeline, tokens)
      end
  end.

Definition parse_pipeline (tokens : list token_t) : M shell (option ast_node_t * list token_t) :=
  o <-- ast_create_node NODE_PIPELINE ;;
  match o with
  | None => ret (None, tokens)
  | Some pipeline =>
      res <-- parse_command tokens ;;
      match res.1 with
      | None => ast_free pipeline ;;; ret (None, res.2)
      | Some c =>
          p <-- ast_add_child (Some pipeline) (Some c) ;;
          pipeline_loop (S (length res.2)) p res.2
      end
  end.

Fixpoint parse_expression (tokens : list token_t) : M shell (option ast_node_t * list token_t) :=
  match tokens with
  | [] => ret (None, tokens)
  | t :: r =>
      if is_type [TOKEN_LPAREN] t then
        subshell <-- ast_create_node NODE_SUBSHELL ;;
        res <-- parse_expression r ;;
        subshell <-- ast_add_child subshell res.1 ;;
        ret (subshell, match res.2 with
                       | t' :: r' => if is_type [TOKEN_RPAREN] t' then r' else res.2
                       | [] => []
                       end)
      else parse_pipeline tokens
  end.

(** The [while] loop of [parse_sequence]. *)
Fixpoint sequence_loop (fuel : nat) (seq : option ast_node_t) (tokens : list token_t) : M shell (option ast_node_t * list token_t) :=
  match fuel with
  | O => nofuel
  | S fuel' =>
      match tokens with
      | t :: r =>
          if is_type [TOKEN_SEMICOLON; TOKEN_AND; TOKEN_OR] t then
            res <-- parse_expression r ;;
            match res.1 with
            | None => ret (seq, res.2)
            | Some e =>
                seq <-- (if is_type [TOKEN_AND] t then
                           n <-- ast_create_node NODE_AND ;;
                           n <-- ast_add_child n seq ;;
                           ast_add_child n (Some e)
                         else if is_type [TOKEN_OR] t then
                           n <-- ast_create_node NODE_OR ;;
                           n <-- ast_add_child n seq ;;
                           ast_add_child n (Some e)
                         else ast_add_child seq (Some e)) ;;
                sequence_loop fuel' seq res.2
            end
          else ret (seq, tokens)
      | [] => ret (seq, tokens)
      end
  end.

Definition parse_sequence (tokens : list token_t) : M shell (option ast_node_t * list token_t) :=
  o <-- ast_create_node NODE_SEQUENCE ;;
  match o with
  | None => ret (None, tokens)
  | Some seq =>
      res <-- parse_expression tokens ;;
      match res.1 with
      | None => ast_free seq ;;; ret (None, res.2)
      | Some e =>
          p <-- ast_add_child (Some seq) (Some e) ;;
          res <-- sequence_loop (S (length res.2)) p res.2 ;;
          match res.2 with
          | t :: r =>
              if is_type [TOKEN_BACKGROUND] t then
                match res.1 with
                | Some (Node a ty ch ks c) => ret (Some (Node a ty ch ks (set_background c)), r)
                | None => stuck
                end
              else ret res
          | [] => ret res
          end
      end
  end.

Definition parse_tokens (tokens : list token_t) : M shell (option ast_node_t) :=
  res <-- parse_sequence tokens ;; ret res.1.
End parser.

(** ** The language *)

Section grammar.

(** A node without its addresses. *)
Inductive tree := Tree (ty : ast_node_type_t) (ks : list tree) (words : list Z) (bg : bool).
Fixpoint shape (n : ast_node_t) : tree :=
  match n with
  | Node _ ty _ ks c => Tree ty (shape <$> ks) (argv c) (background c)
  end.
Definition add_kid (t x : tree) : tree := let (ty, ks, ws, bg) := t in Tree ty (ks ++ [x]) ws bg.

(** [EPipe c l] is [c | ...], [ESub] an expression in parentheses, a line expressions with
    separators between them and perhaps an ampersand behind them. *)
Inductive expr :=
  | EPipe (c : list token_t) (l : list (token_t * list token_t))
  | ESub (lp : token_t) (e : expr) (rp : token_t).
Record line := mkLine { first : expr; others : list (token_t * expr); amp : option token_t }.

Fixpoint expr_tokens (e : expr) : list token_t :=
  match e with
  | EPipe c l => c ++ flat_map (λ x, x.1 :: x.2) l
  | ESub lp e rp => lp :: expr_tokens e ++ [rp]
  end.
Definition others_tokens (l : list (token_t * expr)) : list token_t := flat_map (λ x, x.1 :: expr_tokens x.2) l.
Definition line_tokens (l : line) : list token_t := expr_tokens (first l) ++ others_tokens (others l) ++ option_list (amp l).

Definition is_cmd (c : list token_t) : bool := match c with [] => false | _ => forallb (is_type arg_type) c end.
Fixpoint is_expr (e : expr) : bool :=
  match e with
  | EPipe c l => is_cmd c && forallb (λ x, is_type [TOKEN_PIPE] x.1 && is_cmd x.2) l
  | ESub lp e rp => is_type [TOKEN_LPAREN] lp && is_expr e && is_type [TOKEN_RPAREN] rp
  end.
Definition is_line (l : line) : bool :=
  is_expr (first l) && forallb (λ x, is_type [TOKEN_SEMICOLON; TOKEN_AND; TOKEN_OR] x.1 && is_expr x.2) (others l) &&
  match amp l with Some t => is_type [TOKEN_BACKGROUND] t | None => true end.

(** The tree of a line: each [&&] and [||] takes all that is before it on its left; a [;]
    appends to the node made last. *)
Definition cmd_tree (c : list token_t) : tree := Tree NODE_COMMAND [] (tk_value <$> c) false.
Fixpoint expr_tree (e : expr) : tree :=
  match e with
  | EPipe c l => Tree NODE_PIPELINE (cmd_tree <$> c :: l.*2) [] false
  | ESub _ e _ => Tree NODE_SUBSHELL [expr_tree e] [] false
  end.
Definition sequence_step (t : tree) (x : token_t * expr) : tree :=
  if is_type [TOKEN_AND] x.1 then Tree NODE_AND [t; expr_tree x.2] [] false
  else if is_type [TOKEN_OR] x.1 then Tree NODE_OR [t; expr_tree x.2] [] false
  else add_kid t (expr_tree x.2).
Definition in_background (t : tree) : tree := let (ty, ks, ws, _) := t in Tree ty ks ws true.
Definition line_tree (l : line) : tree :=
  let t := foldl sequence_step (Tree NODE_SEQUENCE [expr_tree (first l)] [] false) (others l) in
  match amp l with Some _ => in_background t | None => t end.

(** The tokens at which a command, a pipeline, a line ends. *)
Definition ends_cmd (t : token_t) : bool := negb (is_type arg_type t).
Definition ends_expr (t : token_t) : bool := ends_cmd t && negb (is_type [TOKEN_PIPE] t).
Definition ends_line (t : token_t) : bool := ends_expr t && negb (is_type [TOKEN_SEMICOLON; TOKEN_AND; TOKEN_OR; TOKEN_BACKGROUND] t).
End grammar.

(** Decides the type tests on the token [t] from the tests known of it. *)
Ltac token t := unfold ends_line, ends_expr, ends_cmd, is_type, cmd_end, arg_type in *; destruct (tk_type t); try done.

(** ** The objects of a tree *)

Section ownership.
Context {H : Type} `{!Allocator H}.
Local Abbreviation shell := (shell H).
Implicit Types s : shell.

Definition nonnull (p : Z) : list Z := if p =? 0 then [] else [p].
Fixpoint own (n : ast_node_t) : list Z :=
  match n with
  | Node a _ ch ks c => a :: nonnull ch ++ nonnull (args c) ++ flat_map own ks
  end.

(** The argument strings that [ast_free] frees. *)
Fixpoint arg_ptrs (n : ast_node_t) : list Z :=
  match n with
  | Node _ ty _ ks c => (if bool_decide (ty = NODE_COMMAND) && negb (args c =? 0) then argv c else []) ++ flat_map arg_ptrs ks
  end.

(** Only commands have an argument array. *)
Fixpoint ast_ok (n : ast_node_t) : Prop :=
  match n with
  | Node _ ty _ ks c => (ty = NODE_COMMAND \/ args c = 0) /\ foldr (λ x P, ast_ok x /\ P) True ks
  end.

Lemma ast_ind' (P : ast_node_t -> Prop) :
  (forall a ty ch ks c, Forall P ks -> P (Node a ty ch ks c)) -> forall n, P n.
Proof.
  intros Hn. fix IH 1. intros [a ty ch ks c]. apply Hn. induction ks as [|x ks IHks]; constructor; [apply IH|apply IHks].
Qed.

Lemma nonnull_pos p : (p =? 0) = false -> nonnull p = [p].
Proof. unfold nonnull. by intros ->. Qed.

Lemma free_nonnull B p ps s :
  holds B (nonnull p ++ ps) s -> exists h, sh_free p s = Ret tt (set_alloc h s) /\ holds B ps (set_alloc h s).
Proof.
  unfold nonnull. destruct (Z.eqb_spec p 0) as [->|Hp]; intros Hh; [|by apply holds_free].
  exists (sh_alloc s). by destruct s.
Qed.

Lemma free_all_run B l ps s :
  holds B (l ++ ps) s -> exists h, free_all l s = Ret tt (set_alloc h s) /\ holds B ps (set_alloc h s).
Proof.
  revert s. induction l as [|p l IH]; intros s Hh; [exists (sh_alloc s); by destruct s|]. cbn [free_all].
  destruct (holds_free _ _ _ _ Hh) as (h & E & Hh1). rewrite (bind_Ret _ _ _ _ _ E). exact (IH _ Hh1).
Qed.

Lemma own_pos n s B ps : holds B (own n ++ ps) s -> addr n <> 0.
Proof. destruct n as [a ty ch ks c]. intros Hh. by apply (holds_in _ _ _ a Hh); left. Qed.

(** [ast_free] frees the objects of the tree and the arguments of its commands, once each. *)
Lemma ast_free_run B n ps s :
  ast_ok n -> holds B (own n ++ arg_ptrs n ++ ps) s ->
  exists h, ast_free n s = Ret tt (set_alloc h s) /\ holds B ps (set_alloc h s).
Proof.
  revert ps s. induction n as [a ty ch ks c IH] using ast_ind'. intros ps s [Hc Hk] Hh. cbn [ast_free].
  set (free_kids := fix free_kids l := match l with [] => ret tt | x :: r => ast_free x ;;; free_kids r end).
  assert (forall qs s, holds B (flat_map own ks ++ flat_map arg_ptrs ks ++ qs) s ->
    exists h, free_kids ks s = Ret tt (set_alloc h s) /\ holds B qs (set_alloc h s)) as Hkids.
  { clear -IH Hk. induction IH as [|x ks Hx _ IHks]; intros qs s Hh; [exists (sh_alloc s); by destruct s|]. destruct Hk as [Hkx Hk].
    change (free_kids (x :: ks)) with (ast_free x ;;; free_kids ks). cbn [flat_map] in Hh.
    destruct (Hx (flat_map own ks ++ flat_map arg_ptrs ks ++ qs) s Hkx) as (h & E & Hh1).
    { eapply holds_perm; [|exact Hh]. solve_Permutation. }
    rewrite (bind_Ret _ _ _ _ _ E). exact (IHks Hk _ _ Hh1). }
  cbn [own arg_ptrs] in Hh. set (avs := if bool_decide _ && _ then argv c else []) in Hh.
  destruct (Hkids (nonnull ch ++ avs ++ nonnull (args c) ++ [a] ++ ps) s) as (h & E & Hh1).
  { eapply holds_perm; [|exact Hh]. solve_Permutation. }
  rewrite (bind_Ret _ _ _ _ _ E). destruct (free_nonnull _ _ _ _ Hh1) as (h2 & E2 & Hh2). rewrite (bind_Ret _ _ _ _ _ E2).
  assert (exists h3, (if bool_decide (ty = NODE_COMMAND) && negb (args c =? 0) then free_all (argv c) ;;; sh_free (args c) else ret tt)
    (set_alloc h2 (set_alloc h s)) = Ret tt (set_alloc h3 s) /\ holds B (a :: ps) (set_alloc h3 s)) as (h3 & E3 & Hh3).
  { unfold avs in Hh2. destruct (bool_decide (ty = NODE_COMMAND) && negb (args c =? 0)) eqn:Eb.
    - destruct (free_all_run _ _ _ _ Hh2) as (h3 & E3 & Hh3). destruct (free_nonnull _ _ _ _ Hh3) as (h4 & E4 & Hh4).
      exists h4. rewrite (bind_Ret _ _ _ _ _ E3). by split.
    - exists h2. split; [done|]. destruct Hc as [->|Ec]; [|by rewrite Ec in Hh2].
      rewrite bool_decide_true in Eb by done. apply negb_false_iff, Z.eqb_eq in Eb. by rewrite Eb in Hh2. }
  rewrite (bind_Ret _ _ _ _ _ E3). exact (holds_free _ _ _ _ Hh3).
Qed.
End ownership.

(** ** What the parser reads *)

Section reading.
Context {H : Type} `{!Allocator H, !NeverOut H}.
Local Abbreviation shell := (shell H).
Implicit Types s : shell.

(** [m] returns the tree [t] in new objects and the tokens [rest]. *)
Definition reads B ps s (m : M shell (option ast_node_t * list token_t)) (t : tree) (rest : list token_t) : Prop :=
  exists n h, m s = Ret (Some n, rest) (set_alloc h s) /\ shape n = t /\ ast_ok n /\ holds B (own n ++ ps) (set_alloc h s).

Lemma create_node_run B ps ty s :
  holds B ps s -> exists p h, ast_create_node ty s = Ret (Some (Node p ty 0 [] cmd_zero)) (set_alloc h s) /\
    holds B (own (Node p ty 0 [] cmd_zero) ++ ps) (set_alloc h s).
Proof.
  intros Hh. unfold ast_create_node. destruct (holds_malloc 88 _ _ _ Hh) as (p & h & E & Ep & _ & Hh1).
  rewrite (bind_Ret _ _ _ _ _ E), Ep. by exists p, h.
Qed.

Lemma ast_child_run B n x ps s :
  ast_ok n -> ast_ok x -> holds B (own n ++ own x ++ ps) s ->
  exists n' h, ast_add_child (Some n) (Some x) s = Ret (Some n') (set_alloc h s) /\
    shape n' = add_kid (shape n) (shape x) /\ ast_ok n' /\ holds B (own n' ++ ps) (set_alloc h s).
Proof.
  destruct n as [a ty ch ks c]. intros [Hc Hk] Hx Hh. cbn [ast_add_child].
  destruct (holds_malloc (8 * (Z.of_nat (length ks) + 1)) _ _ _ Hh) as (p & h & E & Ep & _ & Hh1).
  rewrite (bind_Ret _ _ _ _ _ E), Ep.
  destruct (free_nonnull B ch (p :: a :: nonnull (args c) ++ flat_map own ks ++ own x ++ ps) (set_alloc h s)) as (h2 & E2 & Hh2).
  { eapply holds_perm; [|exact Hh1]. cbn [own]. solve_Permutation. }
  rewrite (bind_Ret _ _ _ _ _ E2). exists (Node a ty p (ks ++ [x]) c), h2. split; [done|].
  split; [cbn [shape add_kid]; by rewrite fmap_app|]. split.
  - split; [done|]. clear -Hk Hx. induction ks as [|k ks IH]; cbn in *; [done|]. destruct Hk. by split; [|apply IH].
  - eapply holds_perm; [|exact Hh2]. cbn [own]. rewrite flat_map_app, (nonnull_pos p) by done. simpl. solve_Permutation.
Qed.

Lemma args_loop_stop t r cap c s : ends_cmd t = true -> args_loop (t :: r) cap c s = Ret (c, t :: r) s.
Proof. intros Ht. cbn [args_loop]. token t. Qed.

Lemma args_loop_run B l t r cap c ps s :
  forallb (is_type arg_type) l = true -> ends_cmd t = true -> holds B (nonnull (args c) ++ ps) s -> args c <> 0 ->
  exists p h, args_loop (l ++ t :: r) cap c s = Ret (set_args p (argv c ++ (tk_value <$> l)) c, t :: r) (set_alloc h s) /\
    p <> 0 /\ holds B (nonnull p ++ ps) (set_alloc h s).
Proof.
  revert cap c s. induction l as [|u l IH]; intros cap c s Hl Ht Hh Hc.
  - exists (args c), (sh_alloc s). cbn [app]. rewrite args_loop_stop by done. rewrite app_nil_r. by destruct c, s.
  - cbn [forallb] in Hl. apply andb_true_iff in Hl as [Hu Hl]. cbn [app args_loop].
    assert (is_type cmd_end u = false) as -> by token u. rewrite Hu. destruct (cap <=? Z.of_nat (length (argv c))).
    + destruct (holds_malloc (8 * (cap * 2)) _ _ _ Hh) as (p & h & E & Ep & _ & Hh1). rewrite (bind_Ret _ _ _ _ _ E), Ep.
      destruct (free_nonnull B (args c) (p :: ps) (set_alloc h s)) as (h2 & E2 & Hh2).
      { eapply holds_perm; [|exact Hh1]. solve_Permutation. }
      rewrite (bind_Ret _ _ _ _ _ E2).
      destruct (IH (cap * 2) (set_args p (argv c ++ [tk_value u]) c) (set_alloc h2 s)) as (q & h3 & E3 & Hq & Hh3); [done|done| |cbn; lia|].
      { cbn [args set_args]. by rewrite nonnull_pos. }
      exists q, h3. split; [|done]. etransitivity; [exact E3|]. cbn [argv set_args]. by rewrite <- app_assoc.
    + destruct (IH cap (set_args (args c) (argv c ++ [tk_value u]) c) s) as (q & h3 & E3 & Hq & Hh3); [done..|].
      exists q, h3. split; [|done]. etransitivity; [exact E3|]. cbn [argv set_args]. by rewrite <- app_assoc.
Qed.

Lemma command_reads B c t r ps s :
  is_cmd c = true -> ends_cmd t = true -> holds B ps s -> reads B ps s (parse_command (c ++ t :: r)) (cmd_tree c) (t :: r).
Proof.
  intros Hc Ht Hh. destruct c as [|u c]; [done|]. unfold reads, parse_command. cbn [app].
  assert (is_type [TOKEN_EOF] u = false) as ->.
  { cbn [is_cmd forallb] in Hc. apply andb_true_iff in Hc as [Hu _]. token u. }
  destruct (create_node_run B ps NODE_COMMAND s Hh) as (a & h & E & Hh1). rewrite (bind_Ret _ _ _ _ _ E).
  destruct (holds_malloc (8 * 8) _ _ _ Hh1) as (p & h2 & E2 & Ep & _ & Hh2). rewrite (bind_Ret _ _ _ _ _ E2), Ep.
  destruct (args_loop_run B (u :: c) t r 8 (set_args p [] cmd_zero) (a :: ps) (set_alloc h2 (set_alloc h s))) as (q & h3 & E3 & Hq & Hh3);
    [done|done| |cbn; lia|].
  { cbn [args set_args]. by rewrite nonnull_pos. }
  cbn [app] in E3. rewrite (bind_Ret _ _ _ _ _ E3).
  eexists _, h3. split; [reflexivity|]. split; [done|]. split; [by split; [left|]|].
  eapply holds_perm; [|exact Hh3]. cbn [own args set_args flat_map]. simpl. solve_Permutation.
Qed.

(** A separator or a parenthesis ends a command. *)
Lemma pipeline_loop_reads B l t r n ps fuel s :
  forallb (λ x, is_type [TOKEN_PIPE] x.1 && is_cmd x.2) l = true -> ends_expr t = true ->
  ast_ok n -> holds B (own n ++ ps) s -> (length l < fuel)%nat ->
  reads B ps s (pipeline_loop fuel (Some n) (flat_map (λ x, x.1 :: x.2) l ++ t :: r))
    (foldl add_kid (shape n) (cmd_tree <$> l.*2)) (t :: r).
Proof.
  revert n fuel s. induction l as [|[u c] l IH]; intros n fuel s Hl Ht Hn Hh Hf; (destruct fuel as [|fuel]; [simpl in Hf; lia|]).
  - cbn [flat_map app pipeline_loop]. assert (is_type [TOKEN_PIPE] t = false) as -> by token t.
    exists n, (sh_alloc s). by destruct s.
  - cbn [forallb fst snd length flat_map app pipeline_loop] in *. apply andb_true_iff in Hl as [[Hu Hc]%andb_true_iff Hl]. rewrite Hu.
    rewrite <- app_assoc.
    assert (exists t' r', flat_map (λ x : token_t * list token_t, x.1 :: x.2) l ++ t :: r = t' :: r' /\ ends_cmd t' = true) as (t' & r' & Er & Ht').
    { destruct l as [|[u' c'] l]; [exists t, r; split; [done|]; token t|]. eexists _, _. split; [reflexivity|].
      cbn [forallb fst] in Hl. apply andb_true_iff in Hl as [[Hu' _]%andb_true_iff _]. cbn [fst]. token u'. }
    rewrite Er in *. destruct (command_reads B c t' r' _ _ Hc Ht' Hh) as (x & h & E & Hx & Hxo & Hh1). unfold reads. rewrite (bind_Ret _ _ _ _ _ E).
    cbn [fst snd]. destruct (ast_child_run B n x ps (set_alloc h s)) as (n' & h2 & E2 & Hs & Ho & Hh2); [done|done| |].
    { eapply holds_perm; [|exact Hh1]. solve_Permutation. }
    rewrite (bind_Ret _ _ _ _ _ E2). cbn [fmap list_fmap foldl snd]. rewrite <- Hx, <- Hs. apply (IH n' fuel (set_alloc h2 s)); [done..|lia].
Qed.

Lemma add_kids ty ks l ws bg : foldl add_kid (Tree ty ks ws bg) l = Tree ty (ks ++ l) ws bg.
Proof. revert ks. induction l as [|x l IH]; intros ks; cbn; [by rewrite app_nil_r|]. by rewrite IH, <- app_assoc. Qed.

Lemma others_first l t r :
  forallb (λ x, is_type [TOKEN_SEMICOLON; TOKEN_AND; TOKEN_OR] x.1 && is_expr x.2) l = true ->
  ends_expr t = true -> exists t' r', others_tokens l ++ t :: r = t' :: r' /\ ends_expr t' = true.
Proof.
  intros Hl Ht. destruct l as [|[u e] l]; [by exists t, r|]. eexists _, _. split; [reflexivity|]. cbn [forallb fst] in *.
  apply andb_true_iff in Hl as [[Hu _]%andb_true_iff _]. token u.
Qed.

Lemma expression_reads B e t r ps s :
  is_expr e = true -> ends_expr t = true -> holds B ps s ->
  reads B ps s (parse_expression (expr_tokens e ++ t :: r)) (expr_tree e) (t :: r).
Proof.
  revert t r ps s. induction e as [c l|lp e IH rp]; intros t r ps s He Ht Hh.
  - cbn [is_expr expr_tokens expr_tree] in *. apply andb_true_iff in He as [Hc Hl]. rewrite <- app_assoc.
    assert (parse_expression (c ++ flat_map (λ x, x.1 :: x.2) l ++ t :: r) = parse_pipeline (c ++ flat_map (λ x, x.1 :: x.2) l ++ t :: r)) as ->.
    { destruct c as [|u c]; [done|]. cbn [app parse_expression is_cmd forallb] in *. apply andb_true_iff in Hc as [Hu _].
      assert (is_type [TOKEN_LPAREN] u = false) as -> by token u. done. }
    unfold reads, parse_pipeline. destruct (create_node_run B ps NODE_PIPELINE s Hh) as (p & h & E & Hh1). rewrite (bind_Ret _ _ _ _ _ E).
    assert (exists t' r', flat_map (λ x : token_t * list token_t, x.1 :: x.2) l ++ t :: r = t' :: r' /\ ends_cmd t' = true) as (t' & r' & Er & Ht').
    { destruct l as [|[u c'] l]; [exists t, r; split; [done|]; token t|]. eexists _, _. split; [reflexivity|].
      cbn [forallb fst] in Hl. apply andb_true_iff in Hl as [[Hu _]%andb_true_iff _]. cbn [fst]. token u. }
    rewrite Er. destruct (command_reads B c t' r' _ _ Hc Ht' Hh1) as (x & h2 & E2 & Hx & Hxo & Hh2). rewrite (bind_Ret _ _ _ _ _ E2).
    cbn [fst snd]. destruct (ast_child_run B (Node p NODE_PIPELINE 0 [] cmd_zero) x ps (set_alloc h2 s)) as (n & h3 & E3 & Hn & Hno & Hh3);
      [by split; [right|]|done|eapply holds_perm; [|exact Hh2]; solve_Permutation|].
    rewrite (bind_Ret _ _ _ _ _ E3), <- Er.
    destruct (pipeline_loop_reads B l t r n ps (S (length (t' :: r'))) (set_alloc h3 s)) as (n' & h4 & E4 & Hs & Hr); [done..| |].
    { rewrite <- Er, length_app. assert (length l <= length (flat_map (λ x : token_t * list token_t, x.1 :: x.2) l))%nat; [|lia].
      clear. induction l as [|[u c] l IH]; cbn; [lia|]. rewrite length_app. lia. }
    exists n', h4. split; [rewrite <- Er in E4; exact E4|]. split; [|exact Hr]. rewrite Hs, Hn, Hx. cbn [shape add_kid]. by rewrite add_kids.
  - cbn [is_expr expr_tokens expr_tree app parse_expression] in *. apply andb_true_iff in He as [[Hlp He]%andb_true_iff Hrp]. rewrite Hlp.
    rewrite <- app_assoc. cbn [app]. unfold reads.
    destruct (create_node_run B ps NODE_SUBSHELL s Hh) as (p & h & E & Hh1). rewrite (bind_Ret _ _ _ _ _ E).
    destruct (IH rp (t :: r) _ _ He ltac:(token rp) Hh1) as (x & h2 & E2 & Hx & Hxo & Hh2). rewrite (bind_Ret _ _ _ _ _ E2).
    cbn [fst snd]. destruct (ast_child_run B (Node p NODE_SUBSHELL 0 [] cmd_zero) x ps (set_alloc h2 s)) as (n & h3 & E3 & Hn & Hno & Hh3);
      [by split; [right|]|done|eapply holds_perm; [|exact Hh2]; solve_Permutation|].
    rewrite (bind_Ret _ _ _ _ _ E3), Hrp. exists n, h3. split; [done|]. split; [|done]. by rewrite Hn, Hx.
Qed.

(** The node that [&&] and [||] make of a sequence and an expression. *)
Lemma pair_run B ty n x ps s :
  ast_ok n -> ast_ok x -> holds B (own n ++ own x ++ ps) s ->
  exists n' h, (m <-- ast_create_node ty ;; m <-- ast_add_child m (Some n) ;; ast_add_child m (Some x)) s = Ret (Some n') (set_alloc h s) /\
    shape n' = Tree ty [shape n; shape x] [] false /\ ast_ok n' /\ holds B (own n' ++ ps) (set_alloc h s).
Proof.
  intros Hn Hx Hh. destruct (create_node_run B _ ty s Hh) as (p & h & E & Hh1). rewrite (bind_Ret _ _ _ _ _ E).
  destruct (ast_child_run B (Node p ty 0 [] cmd_zero) n (own x ++ ps) (set_alloc h s)) as (n1 & h1 & E1 & Hs1 & Ho1 & Hh2); [by split; [right|]|done|done|].
  rewrite (bind_Ret _ _ _ _ _ E1).
  destruct (ast_child_run B n1 x ps (set_alloc h1 (set_alloc h s))) as (n2 & h2 & E2 & Hs2 & Ho2 & Hh3); [done..|].
  exists n2, h2. split; [exact E2|]. split; [|by split]. rewrite Hs2, Hs1. done.
Qed.

Lemma sequence_loop_reads B l t r n ps fuel s :
  forallb (λ x, is_type [TOKEN_SEMICOLON; TOKEN_AND; TOKEN_OR] x.1 && is_expr x.2) l = true ->
  ends_expr t = true -> is_type [TOKEN_SEMICOLON; TOKEN_AND; TOKEN_OR] t = false ->
  ast_ok n -> holds B (own n ++ ps) s -> (length l < fuel)%nat ->
  reads B ps s (sequence_loop fuel (Some n) (others_tokens l ++ t :: r)) (foldl sequence_step (shape n) l) (t :: r).
Proof.
  revert n fuel s. induction l as [|[u e] l IH]; intros n fuel s Hl Ht Ht2 Hn Hh Hf; (destruct fuel as [|fuel]; [simpl in Hf; lia|]).
  - cbn [others_tokens flat_map app sequence_loop]. rewrite Ht2. exists n, (sh_alloc s). by destruct s.
  - unfold others_tokens. cbn [forallb fst snd length flat_map app sequence_loop] in *. apply andb_true_iff in Hl as [[Hu He]%andb_true_iff Hl].
    rewrite Hu, <- app_assoc. fold (others_tokens l). destruct (others_first l t r Hl Ht) as (t' & r' & Er & Ht').
    rewrite Er in *. destruct (expression_reads B e t' r' _ _ He Ht' Hh) as (x & h & E & Hx & Hxo & Hh1). unfold reads.
    rewrite (bind_Ret _ _ _ _ _ E). cbn [fst snd].
    assert (holds B (own n ++ own x ++ ps) (set_alloc h s)) as Hh2 by (eapply holds_perm; [|exact Hh1]; solve_Permutation).
    assert (exists n' h', (if is_type [TOKEN_AND] u then m <-- ast_create_node NODE_AND ;; m <-- ast_add_child m (Some n) ;; ast_add_child m (Some x)
      else if is_type [TOKEN_OR] u then m <-- ast_create_node NODE_OR ;; m <-- ast_add_child m (Some n) ;; ast_add_child m (Some x)
      else ast_add_child (Some n) (Some x)) (set_alloc h s) = Ret (Some n') (set_alloc h' s) /\
      shape n' = sequence_step (shape n) (u, e) /\ ast_ok n' /\ holds B (own n' ++ ps) (set_alloc h' s)) as (n' & h' & E2 & Hs & Ho & Hh3).
    { unfold sequence_step. cbn [fst snd]. rewrite <- Hx. destruct (is_type [TOKEN_AND] u); [exact (pair_run B NODE_AND n x ps (set_alloc h s) Hn Hxo Hh2)|].
      destruct (is_type [TOKEN_OR] u); [exact (pair_run B NODE_OR n x ps (set_alloc h s) Hn Hxo Hh2)|].
      exact (ast_child_run B n x ps (set_alloc h s) Hn Hxo Hh2). }
    rewrite (bind_Ret _ _ _ _ _ E2). cbn [foldl]. rewrite <- Hs. apply (IH n' fuel (set_alloc h' s)); [done..|lia].
Qed.

Lemma others_length l : (length l <= length (others_tokens l))%nat.
Proof. induction l as [|[u e] l IH]; cbn; [lia|]. unfold others_tokens in IH. rewrite length_app. lia. Qed.

Lemma line_reads B l t r ps s :
  is_line l = true -> ends_line t = true -> holds B ps s ->
  reads B ps s (parse_sequence (line_tokens l ++ t :: r)) (line_tree l) (t :: r).
Proof.
  destruct l as [e l a]. unfold is_line, line_tokens, line_tree. cbn [first others amp].
  intros [[He Hl]%andb_true_iff Ha]%andb_true_iff Ht Hh. rewrite <- !app_assoc.
  assert (exists t1 r1, option_list a ++ t :: r = t1 :: r1 /\ ends_expr t1 = true /\ is_type [TOKEN_SEMICOLON; TOKEN_AND; TOKEN_OR] t1 = false)
    as (t1 & r1 & Er & Ht1 & Hs1).
  { destruct a as [u|]; eexists _, _; (split; [reflexivity|]); [split; token u|split; token t]. }
  rewrite Er. destruct (others_first l t1 r1 Hl Ht1) as (t2 & r2 & Er2 & Ht2). rewrite Er2.
  unfold reads, parse_sequence. destruct (create_node_run B ps NODE_SEQUENCE s Hh) as (p & h & E & Hh1). rewrite (bind_Ret _ _ _ _ _ E).
  destruct (expression_reads B e t2 r2 _ _ He Ht2 Hh1) as (x & h2 & E2 & Hx & Hxo & Hh2). rewrite (bind_Ret _ _ _ _ _ E2). cbn [fst snd].
  destruct (ast_child_run B (Node p NODE_SEQUENCE 0 [] cmd_zero) x ps (set_alloc h2 s)) as (n & h3 & E3 & Hn & Hno & Hh3);
    [by split; [right|]|done|eapply holds_perm; [|exact Hh2]; solve_Permutation|].
  rewrite (bind_Ret _ _ _ _ _ E3), <- Er2.
  destruct (sequence_loop_reads B l t1 r1 n ps (S (length (t2 :: r2))) (set_alloc h3 s)) as (n' & h4 & E4 & Hs & Ho & Hh4); [done..| |].
  { rewrite <- Er2, length_app. pose proof (others_length l). lia. }
  rewrite <- Er2 in E4. rewrite (bind_Ret _ _ _ _ _ E4). cbn [fst snd]. rewrite Hn, Hx in Hs. cbn [shape add_kid fmap list_fmap app argv background cmd_zero] in Hs.
  destruct a as [u|]; cbn [option_list app] in Er; injection Er as <- <-.
  - assert (is_type [TOKEN_BACKGROUND] u = true) as -> by done. destruct n' as [a' ty' ch' ks' c']. eexists _, h4. split; [reflexivity|].
    split; [|by split]. rewrite <- Hs. done.
  - assert (is_type [TOKEN_BACKGROUND] t = false) as -> by token t. exists n', h4. by split.
Qed.
End reading.

(** ** The parser on any tokens, whether memory lasts or not *)

(** An allocator whose states tell whether an allocation has returned 0. *)
Class Watched (H : Type) `{!Allocator H} := {
  failed : H -> Prop;
  failed_malloc n (h : H) p h' : malloc n h = Ret p h' -> p = 0 \/ failed h -> failed h';
  failed_free p (h h' : H) : free p h = Ret tt h' -> failed h -> failed h'
}.

Section parsing.
Context {H : Type} `{!Allocator H, !Watched H}.
Local Abbreviation shell := (shell H).
Implicit Types s : shell.

Definition opt_own (o : option ast_node_t) : list Z := match o with Some n => own n | None => [] end.
Definition opt_ok (o : option ast_node_t) : Prop := match o with Some n => ast_ok n | None => True end.

(** The arguments of [o] are among those of [o']. *)
Definition grows (o o' : option ast_node_t) : Prop :=
  match o with Some n => exists n', o' = Some n' /\ arg_ptrs n ⊆ arg_ptrs n' | None => True end.

(** The first token, if it is an argument, is one of the tree. *)
Definition starts (l : list token_t) (o : option ast_node_t) : Prop :=
  match l with
  | t :: _ => is_type arg_type t = true -> exists n, o = Some n /\ tk_value t ∈ arg_ptrs n
  | [] => True
  end.

Lemma grows_trans o1 o2 o3 : grows o1 o2 -> grows o2 o3 -> grows o1 o3.
Proof. destruct o1; [|done]. intros (n' & -> & H1) (n'' & -> & H2). exists n''. split; [done|]. set_solver. Qed.

Lemma starts_grows l o o' : starts l o -> grows o o' -> starts l o'.
Proof. destruct l as [|t l]; [done|]. intros Hs Hg Ht. destruct (Hs Ht) as (n & -> & Hv). destruct Hg as (n' & -> & Hn). exists n'. set_solver. Qed.

(** Each of three steps keeps what starts the tree, or has run out. *)
Lemma starts_end l o1 o2 o3 (P1 P2 P3 : Prop) :
  starts l o1 \/ P1 -> grows o1 o2 \/ P2 -> grows o2 o3 \/ P3 -> (P1 -> P2) -> (P2 -> P3) -> starts l o3 \/ P3.
Proof. intros [H1|?] [H2|?] [H3|?] H4 H5; try by right; auto. left. eapply starts_grows; [exact H1|]. by eapply grows_trans. Qed.

Definition out s : Prop := failed (sh_alloc s).
(** As [holds], but after a failed allocation there may be more objects: those of the trees that were dropped. *)
Definition held (B : gset Z) (ps : list Z) s : Prop := exists B', B ⊆ B' /\ (B' = B \/ out s) /\ holds B' ps s.

(** [m] panics in the heap, or returns and has changed the heap only; [out] stays. *)
Definition ends {A} (P : A -> shell -> Prop) (m : M shell A) s : Prop :=
  (exists msg t, m s = Panic msg t /\ exists n (h h' : H), malloc n h = Panic msg h') \/
  (exists a h, m s = Ret a (set_alloc h s) /\ (out s -> failed h) /\ P a (set_alloc h s)).

Lemma ends_ret {A} (P : A -> shell -> Prop) a s : P a s -> ends P (ret a) s.
Proof. intros HP. right. exists a, (sh_alloc s). by destruct s. Qed.

Lemma ends_bind {A B} (P : A -> shell -> Prop) (Q : B -> shell -> Prop) m k s :
  ends P m s -> (forall a h, (out s -> failed h) -> P a (set_alloc h s) -> ends Q (k a) (set_alloc h s)) -> ends Q (bind m k) s.
Proof.
  intros [(msg & t & E & Hm)|(a & h & E & Ho & HP)] Hk; [left; exists msg, t; split; [by apply bind_Panic|done]|].
  destruct (Hk a h Ho HP) as [(msg & t & Ek & Hm)|(b & h' & Ek & Ho' & HQ)]; [left; exists msg, t|right; exists b, h']; rewrite (bind_Ret _ _ _ _ _ E);
    [done|split; [done|split; [tauto|done]]].
Qed.

Lemma ends_weaken {A} (P Q : A -> shell -> Prop) m s :
  ends P m s -> (forall a h, (out s -> failed h) -> P a (set_alloc h s) -> Q a (set_alloc h s)) -> ends Q m s.
Proof. intros [?|(a & h & E & Ho & HP)] HQ; [by left|]. right. exists a, h. auto. Qed.

Lemma held_nil s : held (live_of s) [] s.
Proof. exists (live_of s). split; [done|]. split; [by left|apply holds_nil]. Qed.

Lemma held_perm B ps qs s : ps ≡ₚ qs -> held B ps s -> held B qs s.
Proof. intros E (B' & H1 & H2 & H3). exists B'. split; [done|]. split; [done|]. by eapply holds_perm. Qed.

Lemma holds_lose B qs ps s : holds B (qs ++ ps) s -> holds (B ∪ list_to_set qs) ps s.
Proof.
  intros [H1 H2 H3 H4]. apply NoDup_app in H1 as (H1 & H5 & H6). split; [done|set_solver| |].
  - intros p Hp. rewrite elem_of_union, elem_of_list_to_set. intros [Hb|Hq]; [by apply (H3 p); [set_solver|]|by apply (H5 p)].
  - intros p. rewrite H4, elem_of_union, elem_of_list_to_set, elem_of_app. tauto.
Qed.

Lemma held_lose B qs ps s : out s -> held B (qs ++ ps) s -> held B ps s.
Proof. intros Ho (B' & H1 & H2 & H3). exists (B' ∪ list_to_set qs). split; [set_solver|]. split; [by right|]. by apply holds_lose. Qed.

Lemma held_malloc n B ps s :
  held B ps s -> ends (λ p s', (p = 0 /\ out s' /\ held B ps s') \/ (p <> 0 /\ held B (p :: ps) s')) (sh_malloc n) s.
Proof.
  intros (B' & Hb & Hor & Hh). unfold sh_malloc, zoom. destruct (malloc_law n (sh_alloc s)) as [(msg & t & E)|(p & h & E & Hp)].
  { left. exists msg, (set_alloc t s). rewrite E. eauto. }
  right. exists p, h. rewrite E. split; [done|]. split; [intros Ho; eapply failed_malloc; eauto|].
  assert (out s -> failed h) as Ho by (intros Ho; eapply failed_malloc; eauto).
  destruct Hh as [H1 H2 H3 H4]. destruct Hp as [[-> Hl]|(Hp & Hn & Hl)]; [left|right; split; [done|]].
  - assert (failed h) as Hf by (eapply failed_malloc; eauto). split; [done|]. split; [done|]. exists B'. split; [done|]. split; [by right|].
    split; [done..|]. intros q. unfold live_of in *. cbn [sh_alloc set_alloc]. by rewrite Hl.
  - exists B'. split; [done|]. split; [destruct Hor as [?|?]; [by left|right; by apply Ho]|]. unfold live_of in *. split.
    + apply NoDup_cons. split; [|done]. intros Hin. apply Hn, elem_of_union. left. apply H4. by left.
    + set_solver.
    + intros q [->|Hq]%elem_of_cons; [|by apply H3]. intros Hq. apply Hn, elem_of_union. left. apply H4. by right.
    + intros q. unfold live_of at 1. cbn [sh_alloc set_alloc]. rewrite Hl. set_solver.
Qed.

Lemma held_free B p ps s : held B (nonnull p ++ ps) s -> ends (λ _ s', held B ps s') (sh_free p) s.
Proof.
  intros (B' & Hb & Hor & Hh). right. destruct (free_nonnull _ _ _ _ Hh) as (h & E & Hh'). exists tt, h. split; [done|].
  assert (out s -> failed h) as Ho.
  { unfold sh_free in E. destruct (p =? 0); [injection E as Es; intros Ho; by rewrite Es in Ho|]. unfold zoom in E.
    destruct (free p (sh_alloc s)) as [[] h'| | |] eqn:Ef; try done. injection E as <-. by apply (failed_free _ _ _ Ef). }
  split; [done|]. exists B'. split; [done|]. split; [destruct Hor; [by left|right; by apply Ho]|done].
Qed.

(** [ast_free] of a node that has just been made. *)
Lemma node_free_ends B p ty ps s : held B (p :: ps) s -> ends (λ _ s', held B ps s') (ast_free (Node p ty 0 [] cmd_zero)) s.
Proof.
  intros Hh. assert (ast_free (Node p ty 0 [] cmd_zero) s = sh_free p s) as E.
  { cbn [ast_free]. cbn [args cmd_zero Z.eqb negb]. by rewrite andb_false_r. }
  unfold ends. rewrite E. apply (held_free B p ps). destruct Hh as (B' & H1 & H2 & H3). exists B'. split; [done|]. split; [done|].
  destruct (holds_in _ _ _ p H3 ltac:(left)) as [Hp _]. by rewrite nonnull_pos by (by apply Z.eqb_neq).
Qed.

Lemma create_ends B ps ty s :
  held B ps s ->
  ends (λ o s', (o = None /\ out s' /\ held B ps s') \/ exists p, o = Some (Node p ty 0 [] cmd_zero) /\ held B (p :: ps) s') (ast_create_node ty) s.
Proof.
  intros Hh. eapply ends_bind; [by apply held_malloc|]. intros p h _ [(-> & Ho & Hh')|[Hp Hh']]; [apply ends_ret; by left|].
  destruct (Z.eqb_spec p 0); [done|]. apply ends_ret. right. by exists p.
Qed.

Lemma child_ends B o o' ps s :
  opt_ok o -> opt_ok o' -> (o = None -> out s) -> held B (opt_own o ++ opt_own o' ++ ps) s ->
  ends (λ r s', opt_ok r /\ (r = None -> out s') /\ grows o r /\ (grows o' r \/ out s') /\ held B (opt_own r ++ ps) s') (ast_add_child o o') s.
Proof.
  intros Hn Hx Hm Hh. destruct o as [n|].
  2: { apply ends_ret. pose proof (Hm eq_refl) as Ho. split; [done|]. split; [done|]. split; [done|]. split; [by right|]. by apply (held_lose _ (opt_own o')). }
  assert (grows (Some n) (Some n)) as Hg by (by exists n).
  destruct o' as [x|]; [|by destruct n; apply ends_ret; split; [|split; [|split; [|split; [left|]]]]].
  destruct n as [a ty ch ks c]. cbn [ast_add_child]. eapply ends_bind; [by apply held_malloc|]. intros p h _ [(-> & Ho & Hh')|[Hp Hh']].
  - apply ends_ret. split; [done|]. split; [done|]. split; [done|]. split; [by right|]. cbn [opt_own] in *.
    eapply (held_lose _ (own x)); [done|]. eapply held_perm; [|exact Hh']. solve_Permutation.
  - destruct (Z.eqb_spec p 0) as [?|Hp']; [done|]. eapply ends_bind.
    { apply (held_free B ch (p :: a :: nonnull (args c) ++ flat_map own ks ++ own x ++ ps)). eapply held_perm; [|exact Hh'].
      cbn [opt_own own]. solve_Permutation. }
    intros [] h' _ Hf. apply ends_ret. split.
    { destruct Hn as [Hc Hk]. split; [done|]. clear -Hk Hx. induction ks as [|y ks IH]; [done|]. destruct Hk as [Hy Hk]. split; [done|]. by apply IH. }
    split; [done|]. split; [|split].
    + eexists. split; [done|]. cbn [arg_ptrs]. rewrite flat_map_app. set_solver.
    + left. eexists. split; [done|]. cbn [arg_ptrs]. rewrite flat_map_app. cbn [flat_map]. set_solver.
    + eapply held_perm; [|exact Hf]. cbn [opt_own own]. rewrite flat_map_app, (nonnull_pos p) by (by apply Z.eqb_neq). cbn [flat_map]. solve_Permutation.
Qed.

(** The array of the arguments is allocated, and starts with the arguments of [c]. *)
Definition collected B ps c n (r : cmd_t * list token_t) s : Prop :=
  (length r.2 <= n)%nat /\ args r.1 <> 0 /\ (exists q, argv r.1 = argv c ++ q) /\ held B (nonnull (args r.1) ++ ps) s.

Lemma args_loop_ends B l cap c ps s :
  held B (nonnull (args c) ++ ps) s -> args c <> 0 -> ends (collected B ps c (length l)) (args_loop l cap c) s.
Proof.
  assert (forall (c : cmd_t) s (l : list token_t), held B (nonnull (args c) ++ ps) s -> args c <> 0 -> ends (collected B ps c (length l)) (ret (c, l)) s) as Hstop.
  { intros c0 s0 l0 Hh Hc. apply ends_ret. split; [done|]. split; [done|]. split; [exists []; by rewrite app_nil_r|done]. }
  assert (forall (c : cmd_t) p t n r s, collected B ps (set_args p (argv c ++ [tk_value t]) c) n r s -> collected B ps c (S n) r s) as Hmore.
  { intros c0 p t n r s0 (H1 & H2 & [q Eq] & H4). split; [lia|]. split; [done|]. split; [|done]. exists (tk_value t :: q). rewrite Eq. cbn. by rewrite <- app_assoc. }
  revert cap c s. induction l as [|t r IH]; intros cap c s Hh Hc; cbn [args_loop]; [by apply (Hstop c s [])|].
  destruct (is_type cmd_end t) eqn:Ee; [by apply Hstop|].
  assert (is_type [TOKEN_REDIRECT_IN] t = false /\ is_type [TOKEN_REDIRECT_OUT] t = false /\ is_type [TOKEN_REDIRECT_APPEND] t = false)
    as (-> & -> & ->) by (split; [|split]; token t).
  destruct (is_type arg_type t); [|by apply Hstop]. destruct (cap <=? Z.of_nat (length (argv c))).
  - eapply ends_bind; [by apply held_malloc|]. intros p h _ [(-> & Ho & Hh')|[Hp Hh']]; [by apply Hstop|].
    destruct (Z.eqb_spec p 0); [done|]. eapply ends_bind.
    { apply (held_free B (args c) (p :: ps)). eapply held_perm; [|exact Hh']. solve_Permutation. }
    intros [] h' _ Hf. eapply ends_weaken; [apply IH; [by cbn [args set_args]; rewrite nonnull_pos by (by apply Z.eqb_neq)|done]|].
    intros a h2 _. apply Hmore.
  - eapply ends_weaken; [by apply IH|]. intros a h2 _. apply Hmore.
Qed.

Lemma first_args_ends B t r p ps s :
  held B (nonnull p ++ ps) s -> p <> 0 ->
  ends (λ res s', (length res.2 <= length (t :: r))%nat /\ args res.1 <> 0 /\ (is_type arg_type t = true -> tk_value t ∈ argv res.1) /\
    held B (nonnull (args res.1) ++ ps) s') (args_loop (t :: r) 8 (set_args p [] cmd_zero)) s.
Proof.
  intros Hh Hp. destruct (is_type arg_type t) eqn:Ht.
  - assert (args_loop (t :: r) 8 (set_args p [] cmd_zero) = args_loop r 8 (set_args p [tk_value t] cmd_zero)) as ->.
    { cbn [args_loop]. assert (is_type cmd_end t = false) as -> by token t. by rewrite Ht. }
    eapply ends_weaken; [by apply args_loop_ends|]. intros res h _ (H1 & H2 & [q Eq] & H4). split; [cbn; lia|]. split; [done|]. split; [|done].
    intros _. rewrite Eq. by left.
  - eapply ends_weaken; [by apply args_loop_ends|]. intros res h _ (H1 & H2 & _ & H4). by split.
Qed.

(** A parser: it returns no more tokens than it was given, and all it has allocated is the tree's. *)
Definition parsed B ps (l : list token_t) (Q : option ast_node_t -> Prop) (r : option ast_node_t * list token_t) s : Prop :=
  (length r.2 <= length l)%nat /\ opt_ok r.1 /\ (Q r.1 \/ out s) /\ held B (opt_own r.1 ++ ps) s.

Lemma parsed_none B ps l Q r s : (length r <= length l)%nat -> Q None \/ out s -> held B ps s -> parsed B ps l Q (None, r) s.
Proof. by intros Hl HQ Hh. Qed.

Lemma command_ends B l ps s : held B ps s -> ends (parsed B ps l (starts l)) (parse_command l) s.
Proof.
  intros Hh. destruct l as [|t r]; [by apply ends_ret, parsed_none; [|left|]|]. cbn [parse_command]. destruct (is_type [TOKEN_EOF] t) eqn:Et.
  { apply ends_ret, parsed_none; [done| |done]. left. intros Ha. token t. }
  eapply ends_bind; [by apply create_ends|]. intros o h _ [(-> & Ho & Hh')|(a & -> & Hh')]; [by apply ends_ret, parsed_none; [|right|]|].
  eapply ends_bind; [by apply held_malloc|]. intros p h1 _ [(-> & Ho & Hh1)|[Hp Hh1]].
  { cbn [Z.eqb]. eapply ends_bind; [apply (node_free_ends B a NODE_COMMAND ps); exact Hh1|]. intros [] h2 Hk Hh2. apply ends_ret, parsed_none; [done| |done]. right. by apply Hk. }
  destruct (Z.eqb_spec p 0) as [?|Hp0]; [done|]. apply Z.eqb_neq in Hp0. set (c := set_args p [] cmd_zero).
  assert (held B (nonnull (args c) ++ a :: ps) (set_alloc h1 (set_alloc h s))) as Hh2 by (cbn [args c set_args]; by rewrite nonnull_pos).
  eapply ends_bind; [by apply first_args_ends|]. intros [c' rest] h3 _ (Hl & Hc & Hv & Hf). apply ends_ret. split; [exact Hl|]. split; [by split; [left|]|].
  split; [left; intros Ht; eexists; split; [done|]|].
  - cbn [arg_ptrs flat_map fst]. rewrite bool_decide_true by done. apply Z.eqb_neq in Hc. cbn [fst] in Hc. rewrite Hc. cbn [negb andb]. rewrite app_nil_r. by apply Hv.
  - eapply held_perm; [|exact Hf]. cbn [opt_own own flat_map fst]. simpl. solve_Permutation.
Qed.

Lemma pipeline_loop_ends B n l ps fuel s :
  ast_ok n -> held B (own n ++ ps) s -> (length l < fuel)%nat -> ends (parsed B ps l (grows (Some n))) (pipeline_loop fuel (Some n) l) s.
Proof.
  revert n l s. induction fuel as [|fuel IH]; intros n l s Hn Hh Hf; [lia|]. cbn [pipeline_loop].
  assert (forall rest s, (length rest <= length l)%nat -> held B (own n ++ ps) s -> parsed B ps l (grows (Some n)) (Some n, rest) s) as Hstop.
  { intros rest s0 Hl Hs. split; [done|]. split; [done|]. split; [left; by exists n|done]. }
  destruct l as [|t r]; [by apply ends_ret, Hstop|]. destruct (is_type [TOKEN_PIPE] t); [|by apply ends_ret, Hstop].
  eapply ends_bind; [by apply command_ends|]. intros [[x|] rest] h _ (Hl & Hx & _ & Hh1); cbn [fst snd length] in *; [|by apply ends_ret, Hstop; [lia|]].
  eapply ends_bind; [apply (child_ends B (Some n) (Some x) ps); [done|done|done|eapply held_perm; [|exact Hh1]; cbn [opt_own]; solve_Permutation]|].
  intros [n'|] h1 _ (Hn' & Hm & (n1 & E & Hg) & _ & Hh2); [injection E as <-|done].
  eapply ends_weaken; [apply IH; [done|done|lia]|]. intros [o rest'] h2 Hk (Hl' & Ho & Hq & Hh3). cbn [fst snd] in *.
  split; [cbn; lia|]. split; [done|]. split; [|done]. destruct Hq as [Hq|?]; [left|by right]. eapply grows_trans; [|exact Hq]. by exists n'.
Qed.

Lemma pipeline_ends B l ps s : held B ps s -> ends (parsed B ps l (starts l)) (parse_pipeline l) s.
Proof.
  intros Hh. eapply ends_bind; [by apply create_ends|]. intros o h _ [(-> & Ho & Hh')|(p & -> & Hh')]; [by apply ends_ret, parsed_none; [|right|]|].
  eapply ends_bind; [by apply command_ends|]. intros [[x|] rest] h1 _ (Hl & Hx & Hs & Hh1); cbn [fst snd] in *.
  - eapply ends_bind; [apply (child_ends B (Some (Node p NODE_PIPELINE 0 [] cmd_zero)) (Some x) ps);
      [by split; [right|]|done|done|eapply held_perm; [|exact Hh1]; cbn [opt_own]; solve_Permutation]|].
    intros [n|] h2 Hk (Hn & _ & (n1 & E & _) & Hg & Hh2); [|done]. clear n1 E.
    eapply ends_weaken; [apply pipeline_loop_ends; [done|done|lia]|]. intros [o rest'] h3 Hk3 (Hl' & Ho & Hq & Hh3). cbn [fst snd] in *.
    split; [cbn; lia|]. split; [done|]. split; [|done]. eapply starts_end; [exact Hs|exact Hg|exact Hq|exact Hk|exact Hk3].
  - eapply ends_bind; [by apply (node_free_ends B p NODE_PIPELINE ps)|]. intros [] h2 Hk Hf. apply ends_ret, parsed_none; [done| |done]. destruct Hs as [Hs|Hs]; [by left|right; by apply Hk].
Qed.

Lemma create_opt_ends B ps ty s :
  held B ps s -> ends (λ o s', opt_ok o /\ (o = None -> out s') /\ held B (opt_own o ++ ps) s') (ast_create_node ty) s.
Proof.
  intros Hh. eapply ends_weaken; [by apply create_ends|]. intros o h _ [(-> & Ho & Hh')|(p & -> & Hh')]; [done|].
  split; [by split; [right|]|]. by split.
Qed.

Lemma expression_ends B l ps s : held B ps s -> ends (parsed B ps l (starts l)) (parse_expression l) s.
Proof.
  revert ps s. induction l as [|t r IH]; intros ps s Hh; [by apply ends_ret, parsed_none; [|left|]|]. cbn [parse_expression].
  destruct (is_type [TOKEN_LPAREN] t) eqn:Et; [|by apply pipeline_ends].
  eapply ends_bind; [by apply create_opt_ends|]. intros o h _ (Ho & Hm & Hh1).
  eapply ends_bind; [by apply IH|]. intros [x rest] h1 Hk1 (Hl & Hx & _ & Hh2). cbn [fst snd] in *.
  eapply ends_bind; [apply (child_ends B o x ps); [done|done|intros E; by apply Hk1, Hm|eapply held_perm; [|exact Hh2]; solve_Permutation]|].
  intros o' h2 _ (Ho' & _ & _ & _ & Hh3). apply ends_ret. split; [|split; [done|split; [left; intros Ha; token t|done]]].
  cbn [snd]. destruct rest as [|t' r']; cbn in *; [lia|]. destruct (is_type [TOKEN_RPAREN] t'); cbn; lia.
Qed.

Lemma pair_ends B ty o x ps s :
  opt_ok o -> ast_ok x -> held B (opt_own o ++ own x ++ ps) s ->
  ends (λ r s', opt_ok r /\ (r = None -> out s') /\ (grows o r \/ out s') /\ held B (opt_own r ++ ps) s')
    (m <-- ast_create_node ty ;; m <-- ast_add_child m o ;; ast_add_child m (Some x)) s.
Proof.
  intros Ho Hx Hh. eapply ends_bind; [by apply create_opt_ends|]. intros n h _ (Hn & Hm & Hh1).
  eapply ends_bind; [by apply (child_ends B n o (own x ++ ps))|]. intros n1 h1 Hk1 (Hn1 & Hm1 & _ & Hg1 & Hh2).
  eapply ends_weaken; [by apply (child_ends B n1 (Some x) ps)|]. intros n2 h2 Hk2 (Hn2 & Hm2 & Hg2 & _ & Hh3).
  split; [done|]. split; [done|]. split; [|done]. destruct Hg1 as [Hg1|?]; [left; by eapply grows_trans|right; by apply Hk2].
Qed.

Lemma sequence_loop_ends B o l ps fuel s :
  opt_ok o -> (o = None -> out s) -> held B (opt_own o ++ ps) s -> (length l < fuel)%nat ->
  ends (λ r s', parsed B ps l (grows o) r s' /\ (r.1 = None -> out s')) (sequence_loop fuel o l) s.
Proof.
  revert o l s. induction fuel as [|fuel IH]; intros o l s Ho Hm Hh Hf; [lia|]. cbn [sequence_loop].
  assert (forall o, grows o o) as Hrefl by (intros [n|]; [by exists n|done]).
  assert (forall rest s, (length rest <= length l)%nat -> (o = None -> out s) -> held B (opt_own o ++ ps) s ->
    parsed B ps l (grows o) (o, rest) s /\ (o = None -> out s)) as Hstop.
  { intros rest s0 Hl Hm0 Hs. split; [|done]. split; [done|]. split; [done|]. split; [by left|done]. }
  destruct l as [|t r]; [by apply ends_ret, Hstop|]. destruct (is_type [TOKEN_SEMICOLON; TOKEN_AND; TOKEN_OR] t); [|by apply ends_ret, Hstop].
  eapply ends_bind; [by apply expression_ends|]. intros [[x|] rest] h Hk (Hl & Hx & _ & Hh1); cbn [fst snd length] in *.
  2: { apply ends_ret, Hstop; [lia|intros E; by apply Hk, Hm|done]. }
  eapply (ends_bind (λ r s', opt_ok r /\ (r = None -> out s') /\ (grows o r \/ out s') /\ held B (opt_own r ++ ps) s')).
  { assert (held B (opt_own o ++ own x ++ ps) (set_alloc h s)) as Hh2 by (eapply held_perm; [|exact Hh1]; cbn [opt_own]; solve_Permutation).
    destruct (is_type [TOKEN_AND] t); [by apply pair_ends|]. destruct (is_type [TOKEN_OR] t); [by apply pair_ends|].
    eapply ends_weaken; [apply (child_ends B o (Some x) ps); [done|done|intros E; by apply Hk, Hm|done]|].
    intros r' h' _ (H1 & H2 & H3 & _ & H5). split; [done|]. split; [done|]. by split; [left|]. }
  intros o' h1 _ (Ho' & Hm' & Hg & Hh2). eapply ends_weaken; [apply IH; [done|done|done|lia]|].
  intros [o2 rest'] h2 Hk2 ((Hl' & Ho2 & Hg2 & Hh3) & Hm2). cbn [fst snd] in *. split; [|done]. split; [cbn; lia|]. split; [done|]. split; [|done].
  destruct Hg as [Hg|?]; [|right; by apply Hk2]. destruct Hg2 as [Hg2|?]; [|by right]. left. by eapply grows_trans.
Qed.

(** The whole parser: [&] behind a line whose node could not be made is written through NULL. *)
Definition ends_or_null {A} (P : A -> shell -> Prop) (m : M shell A) s : Prop := ends P m s \/ (m s = Stuck /\ exists h : H, failed h).

Lemma null_bind {A B} (P : A -> shell -> Prop) (Q : B -> shell -> Prop) m k s :
  ends P m s -> (forall a h, (out s -> failed h) -> P a (set_alloc h s) -> ends_or_null Q (k a) (set_alloc h s)) -> ends_or_null Q (bind m k) s.
Proof.
  intros [(msg & t & E & Hm)|(a & h & E & Ho & HP)] Hk; [left; left; exists msg, t; split; [by apply bind_Panic|done]|].
  destruct (Hk a h Ho HP) as [[(msg & t & Ek & Hm)|(b & h' & Ek & Ho' & HQ)]|[Ek Hf]]; [left; left; exists msg, t|left; right; exists b, h'|right];
    rewrite (bind_Ret _ _ _ _ _ E); [done|split; [done|split; [tauto|done]]|done].
Qed.

Lemma sequence_ends B l ps s : held B ps s -> ends_or_null (parsed B ps l (starts l)) (parse_sequence l) s.
Proof.
  intros Hh. eapply null_bind; [by apply create_ends|]. intros o h _ [(-> & Ho & Hh')|(p & -> & Hh')]; [by left; apply ends_ret, parsed_none; [|right|]|].
  eapply null_bind; [by apply expression_ends|]. intros [[x|] rest] h1 _ (Hl & Hx & Hs & Hh1); cbn [fst snd] in *.
  2: { left. eapply ends_bind; [by apply (node_free_ends B p NODE_SEQUENCE ps)|]. intros [] h2 Hk Hf. apply ends_ret, parsed_none; [done| |done].
       destruct Hs as [Hs|Hs]; [by left|right; by apply Hk]. }
  eapply null_bind; [apply (child_ends B (Some (Node p NODE_SEQUENCE 0 [] cmd_zero)) (Some x) ps);
    [by split; [right|]|done|done|eapply held_perm; [|exact Hh1]; cbn [opt_own]; solve_Permutation]|].
  intros o h2 Hk2 (Ho & Hm & _ & Hg & Hh2). eapply null_bind; [by apply sequence_loop_ends; [done..|lia]|].
  intros [o' rest'] h3 Hk3 ((Hl' & Ho' & Hg' & Hh3) & Hm'). cbn [fst snd] in *. pose proof (starts_end _ _ _ _ _ _ _ Hs Hg Hg' Hk2 Hk3) as Hst.
  assert (parsed B ps l (starts l) (o', rest') (set_alloc h3 (set_alloc h2 (set_alloc h1 (set_alloc h s))))) as Hp by (split; [cbn; lia|done]).
  destruct rest' as [|t r]; [left; by apply ends_ret|]. destruct (is_type [TOKEN_BACKGROUND] t); [|left; by apply ends_ret].
  destruct o' as [[a ty ch ks c]|]; [left; apply ends_ret|right; split; [done|exists h3; by apply Hm']].
  split; [cbn in *; lia|]. split; [done|]. split; [|done]. destruct Hst as [Hst|?]; [left|by right].
  destruct l as [|t' l']; [done|]. intros Ht. destruct (Hst Ht) as (n' & [= <-] & Hv). by eexists.
Qed.

Lemma parse_tokens_ends l s : ends_or_null (λ o s', opt_ok o /\ (starts l o \/ out s') /\ held (live_of s) (opt_own o) s') (parse_tokens l) s.
Proof.
  pose proof (sequence_ends (live_of s) l [] s (held_nil s)) as [Hs|[E Hf]]; [|right; split; [|done]; unfold parse_tokens, bind; by rewrite E].
  left. eapply ends_bind; [exact Hs|]. intros [o rest] h _ (_ & Ho & Hst & Hh). rewrite app_nil_r in Hh. by apply ends_ret.
Qed.
End parsing.

(** Any allocator can be watched. *)
Section watching.
Context {H : Type} `{!Allocator H}.

Definition watched_malloc (n : Z) : M (H * bool) Z := λ h,
  match malloc n h.1 with
  | Ret p h' => Ret p (h', h.2 || (p =? 0))
  | Panic msg h' => Panic msg (h', h.2)
  | Stuck => Stuck
  | NoFuel => NoFuel
  end.
Definition watched_free (p : Z) : M (H * bool) unit := zoom fst (λ t h, (t, h.2)) (free p).

Lemma watched_malloc_law n (h : H * bool) : (exists msg t, watched_malloc n h = Panic msg t) \/
  exists p h', watched_malloc n h = Ret p h' /\
    ((p = 0 /\ live h'.1 = live h.1) \/ (p <> 0 /\ p ∉ live h.1 ∪ static /\ live h'.1 = {[p]} ∪ live h.1)).
Proof. unfold watched_malloc. destruct (malloc_law n h.1) as [(msg & t & ->)|(p & h' & -> & Hp)]; [left; eauto|right]. by eexists _, _. Qed.

Lemma watched_free_law p (h : H * bool) : p ∈ live h.1 -> exists h', watched_free p h = Ret tt h' /\ live h'.1 = live h.1 ∖ {[p]}.
Proof. intros Hp. destruct (free_law p h.1 Hp) as (h' & E & El). exists (h', h.2). unfold watched_free, zoom. by rewrite E. Qed.

Definition watched_allocator : Allocator (H * bool) := {|
  malloc := watched_malloc;
  free := watched_free;
  live h := live h.1;
  static := static;
  malloc_law := watched_malloc_law;
  free_law := watched_free_law
|}.

Definition watched : @Watched (H * bool) watched_allocator.
Proof.
  refine (@Build_Watched (H * bool) watched_allocator (λ h, h.2 = true) _ _).
  - intros n h p h' E Hf. cbn in E. unfold watched_malloc in E. destruct (malloc n h.1); try done. injection E as <- <-. cbn.
    destruct Hf as [Hp|Hf]; [rewrite Hp; apply orb_true_r|by rewrite Hf].
  - intros p h h' E Hf. cbn in E. unfold watched_free, zoom in E. destruct (free p h.1) as [[] t| | |]; try done. by injection E as <-.
Defined.
End watching.

(** With memory that lasts no allocation fails. *)
Section lasting.
Context {H : Type} `{!Allocator H, !NeverOut H}.
Local Abbreviation shell := (shell H).
Implicit Types s : shell.

#[local] Instance never_failed : Watched H.
Proof. refine {| failed _ := False |}; [|done]. intros n h p h' E [->|[]]. destruct (never_out n h) as (q & t & E' & Hq & _). congruence. Defined.

Lemma lasting_ends {A} (P : A -> shell -> Prop) m s : ends_or_null P m s -> exists a h, m s = Ret a (set_alloc h s) /\ P a (set_alloc h s).
Proof.
  intros [[(msg & t & _ & n & h & h' & E)|(a & h & E & _ & HP)]|[_ [_ []]]]; [|by exists a, h]. destruct (never_out n h) as (q & u & E' & _). congruence.
Qed.

Lemma sequence_finishes B l ps s :
  holds B ps s -> exists o rest h, parse_sequence l s = Ret (o, rest) (set_alloc h s) /\ starts l o /\ opt_ok o /\
    holds B (opt_own o ++ ps) (set_alloc h s).
Proof.
  intros Hh. assert (held B ps s) as Hd by (exists B; split; [done|]; split; [by left|done]).
  destruct (lasting_ends _ _ _ (sequence_ends B l ps s Hd)) as ([o rest] & h & E & _ & Ho & [Hs|[]] & (B' & _ & [->|[]] & Hh')). by exists o, rest, h.
Qed.
End lasting.

(** ** Freeing what the parser made *)

Section freeing.
Context {H : Type} `{!Allocator H}.
Local Abbreviation shell := (shell H).
Implicit Types s : shell.

(** The addresses that [ast_free] frees, in its order. *)
Fixpoint frees (n : ast_node_t) : list Z :=
  match n with
  | Node a ty ch ks c =>
      flat_map frees ks ++ ch :: (if bool_decide (ty = NODE_COMMAND) && negb (args c =? 0) then argv c ++ [args c] else []) ++ [a]
  end.

Lemma bind_same {T A B} (m m' : M T A) (k : A -> M T B) t : m t = m' t -> bind m k t = bind m' k t.
Proof. unfold bind. by intros ->. Qed.
Lemma free_all_app l1 l2 s : free_all (l1 ++ l2) s = (free_all l1 ;;; free_all l2) s.
Proof.
  revert s. induction l1 as [|p l1 IH]; intros s; [done|]. cbn [app free_all]. rewrite bind_assoc. apply bind_cong. intros [] s1. apply IH.
Qed.
Lemma free_one p s : free_all [p] s = sh_free p s.
Proof. cbn [free_all]. unfold bind. by destruct (sh_free p s) as [[]|? ?| |]. Qed.

Lemma ast_free_all n s : ast_free n s = free_all (frees n) s.
Proof.
  revert s. induction n as [a ty ch ks c IH] using ast_ind'. intros s. cbn [ast_free frees].
  set (free_kids := fix free_kids l := match l with [] => ret tt | x :: r => ast_free x ;;; free_kids r end).
  assert (forall s, free_kids ks s = free_all (flat_map frees ks) s) as Hk.
  { clear -IH. induction IH as [|x ks Hx _ IHks]; intros s; [done|]. cbn [flat_map]. rewrite free_all_app.
    change (free_kids (x :: ks)) with (ast_free x ;;; free_kids ks). unfold bind. rewrite Hx. destruct (free_all (frees x) s) as [[] s1|? ?| |]; [apply IHks|done..]. }
  rewrite free_all_app, (bind_same _ _ _ _ (Hk s)). apply bind_cong. intros [] s1.
  cbn [free_all app]. apply bind_cong. intros [] s2. rewrite free_all_app. destruct (_ && _).
  - rewrite (bind_same _ _ _ _ (free_all_app (argv c) [args c] s2)), !bind_assoc. apply bind_cong. intros [] s3. cbn [free_all]. rewrite bind_assoc. apply bind_cong. intros [] s4. symmetry. apply free_one.
  - symmetry. apply free_one.
Qed.

Lemma arg_freed n v : v ∈ arg_ptrs n -> v ∈ frees n.
Proof.
  induction n as [a ty ch ks c IH] using ast_ind'. cbn [arg_ptrs frees]. rewrite !elem_of_app, elem_of_cons, elem_of_app.
  intros [Hv|Hv].
  - right; right; left. destruct (_ && _); [|set_solver]. apply elem_of_app. by left.
  - left. induction IH as [|x ks Hx _ IHks]; [done|]. cbn [flat_map] in *. apply elem_of_app in Hv as [Hv|Hv]; apply elem_of_app; [left|right]; auto.
Qed.

(** Freeing the tokens is freeing their values and addresses one after the other. *)
Lemma free_tokens_all toks s : tokenizer_free_tokens toks s = free_all (tok_ptrs toks) s.
Proof.
  revert s. induction toks as [|t toks IH]; intros s; [done|]. cbn [tokenizer_free_tokens tok_ptrs flat_map app free_all].
  apply bind_cong. intros [] s1. apply bind_cong. intros [] s2. apply IH.
Qed.
End freeing.

(** ** Properties *)

Section shell_parse_properties.
Context {H : Type} `{!Allocator H, !NeverOut H}.
Local Abbreviation shell := (shell H).
Implicit Types s : shell.

(** C14. While memory lasts ([NeverOut]), the parser reads the language: it gives a line its tree, in
    new objects, whatever follows the line.  What follows is lost. *)
Theorem parse_line l t rest s :
  is_line l = true -> ends_line t = true ->
  exists n h, parse_tokens (line_tokens l ++ t :: rest) s = Ret (Some n) (set_alloc h s) /\
    shape n = line_tree l /\ ast_ok n /\ holds (live_of s) (own n) (set_alloc h s).
Proof.
  intros Hl Ht. destruct (line_reads (live_of s) l t rest [] s Hl Ht (holds_nil s)) as (n & h & E & Hs & Ho & Hh).
  exists n, h. rewrite app_nil_r in Hh. split; [|done]. unfold parse_tokens. by rewrite (bind_Ret _ _ _ _ _ E).
Qed.
End shell_parse_properties.


Section any_memory_properties.
Context {H : Type} `{!Allocator H}.
Local Abbreviation shell := (shell H).
Implicit Types s : shell.

(** C18. The parser ends on every list of tokens, whether memory lasts or not: it panics in the heap; or
    it writes through NULL, after an allocation has returned 0; or it returns a tree, or none, with
    everything it has allocated: each object of the tree is new and allocated, and there is
    nothing else new unless an allocation has returned 0, for then a child that cannot be
    added is dropped.  If the first token is an argument, there is a tree with it, unless an
    allocation has returned 0.  So while memory lasts ([NeverOut]) it returns, and leaves allocated just the
    tree. *)
Theorem parse_total l s :
  (forall W : Watched H,
     ends_or_null (λ o s', opt_ok o /\ (starts l o \/ out s') /\ held (live_of s) (opt_own o) s') (parse_tokens l) s) /\
  (NeverOut H -> exists o h, parse_tokens l s = Ret o (set_alloc h s) /\ starts l o /\ opt_ok o /\
    holds (live_of s) (opt_own o) (set_alloc h s)).
Proof.
  split; [intros W; by apply parse_tokens_ends|]. intros Hn. destruct (sequence_finishes (live_of s) l [] s (holds_nil s)) as (o & rest & h & E & Hs & Ho & Hh).
  rewrite app_nil_r in Hh. exists o, h. split; [|done]. unfold parse_tokens. by rewrite (bind_Ret _ _ _ _ _ E).
Qed.

(** C19. [ast_free] of a tree whose objects and arguments are allocated frees exactly those. *)
Theorem ast_free_exact n B ps s :
  ast_ok n -> holds B (own n ++ arg_ptrs n ++ ps) s ->
  exists h, ast_free n s = Ret tt (set_alloc h s) /\ holds B ps (set_alloc h s).
Proof. apply ast_free_run. Qed.
End any_memory_properties.

Section shell_parse_witnesses.
#[local] Existing Instance endless_allocator.
#[local] Existing Instance endless_never_out.

Definition word (v : Z) : token_t := mkToken (v + 1) TOKEN_WORD v 1 1.
Definition mark (ty : token_type_t) : token_t := mkToken 91 ty 90 1 1.

(** The line [a b && (c) ; d | e &], then [= x]. *)
Definition line0 : line := mkLine (EPipe [word 10; word 20] [])
  [(mark TOKEN_AND, ESub (mark TOKEN_LPAREN) (EPipe [word 30] []) (mark TOKEN_RPAREN));
   (mark TOKEN_SEMICOLON, EPipe [word 40] [(mark TOKEN_PIPE, [word 50])])] (Some (mark TOKEN_BACKGROUND)).

Lemma parse_line_witness :
  exists n s', parse_tokens (line_tokens line0 ++ mark TOKEN_OPERATOR :: [word 60; mark TOKEN_EOF]) shell0 = Ret (Some n) s' /\
    shape n = Tree NODE_AND
      [Tree NODE_SEQUENCE [Tree NODE_PIPELINE [Tree NODE_COMMAND [] [10; 20] false] [] false] [] false;
       Tree NODE_SUBSHELL [Tree NODE_PIPELINE [Tree NODE_COMMAND [] [30] false] [] false] [] false;
       Tree NODE_PIPELINE [Tree NODE_COMMAND [] [40] false; Tree NODE_COMMAND [] [50] false] [] false] [] true.
Proof.
  destruct (parse_line line0 (mark TOKEN_OPERATOR) [word 60; mark TOKEN_EOF] shell0) as (n & h & E & Hs & _); [reflexivity|reflexivity|].
  exists n, (set_alloc h shell0). split; [exact E|exact Hs].
Defined.

(** A heap that has no memory, watched. *)
Definition no_memory : Allocator unit.
Proof. by refine {| malloc _ h := Ret 0 h; free _ h := Ret tt h; live _ := ∅; static := ∅ |}; [right; exists 0, h; split; [|left]|]. Defined.
#[local] Instance no_memory_watched : Allocator (unit * bool) := watched_allocator (Allocator0 := no_memory).
#[local] Instance no_memory_failed : Watched (unit * bool) := watched (Allocator0 := no_memory).

Lemma parse_total_witness :
  (exists o h, parse_tokens [word 10; mark TOKEN_RPAREN; mark TOKEN_EOF] shell0 = Ret o (set_alloc h shell0) /\
    exists n, o = Some n /\ 10 ∈ arg_ptrs n) /\
  forall s : shell (unit * bool), ends_or_null (λ o s', opt_ok o /\ (starts [word 10] o \/ out s') /\ held (live_of s) (opt_own o) s') (parse_tokens [word 10]) s.
Proof.
  split.
  - destruct (proj2 (parse_total [word 10; mark TOKEN_RPAREN; mark TOKEN_EOF] shell0) _) as (o & h & E & Hs & _).
    exists o, h. split; [exact E|exact (Hs eq_refl)].
  - intros s. exact (proj1 (parse_total [word 10] s) no_memory_failed).
Defined.

Lemma ast_free_exact_witness :
  exists h, ast_free (Node 2000 NODE_COMMAND 0 [] (mkCmd 2001 [1001] 0 0 false false)) (set_alloc {[1001; 2000; 2001]} shell0) =
    Ret tt (set_alloc h shell0) /\ h = ∅.
Proof.
  destruct (ast_free_exact (Node 2000 NODE_COMMAND 0 [] (mkCmd 2001 [1001] 0 0 false false)) ∅ [] (set_alloc {[1001; 2000; 2001]} shell0))
    as (h & E & Hh).
  - by split; [left|].
  - split; [apply (bool_decide_unpack _); vm_compute; exact I|cbn; set_solver|set_solver|intros p; cbn; set_solver].
  - exists h. split; [exact E|]. destruct Hh as [_ _ _ H4]. apply set_eq. intros p. specialize (H4 p). cbn in H4. set_solver.
Defined.
End shell_parse_witnesses.
