(* ===== verification/ShellExec.v ===== *)
(** * Running commands (ui/shell.c)

    [shell_execute_ast] and [shell_execute_command] call each other through the builtins, so
    both take a bound [fuel] on the depth of their calls; a builtin is given the two at a
    smaller bound.  The text of a resolved string is returned where the code returns its
    static buffer: every caller reads it before the next call of [shell_resolve_variables]. *)

From S2P Require Import Prelude Vfs ShellState ShellLex ShellParse.

(** ** Variables in a command *)

(** [while (val[i] && ri < 8191) resolved[ri++] = val[i++];] *)
Definition append_max (res l : list Z) : list Z := res ++ take (Z.to_nat (8191 - Z.of_nat (length res))) l.

(** The name of a variable behind its dollar: the name and the rest; [None] is a write past
    [var_name[256]]. *)
Definition variable_name (p : list Z) : option (list Z * list Z) :=
  if char_at p =? 123 then
    let (name, rest) := take_max 255 (λ c, negb (c =? 125)) (drop 1 p) in
    Some (name, (skip_char 125 rest).1)
  else
    let (name, rest) := take_while name_char p in
    if Z.of_nat (length name) <? 256 then Some (name, rest) else None.

Fixpoint resolve_loop (fuel : nat) (vars : list shell_var_t) (p res : list Z) : option (list Z) :=
  match fuel with
  | O => None
  | S fuel' =>
      match p with
      | [] => Some res
      | c :: r =>
          if 8191 <=? Z.of_nat (length res) then Some res
          else if c =? 36 then
            match variable_name r with
            | None => None
            | Some (name, rest) => resolve_loop fuel' vars rest (append_max res (get_variable vars name))
            end
          else if (c =? 126) && ((char_at r =? 47) || (char_at r =? 0)) then
            resolve_loop fuel' vars r (append_max res (get_variable vars (str "HOME")))
          else resolve_loop fuel' vars r (res ++ [c])
      end
  end.
Definition resolve_variables (vars : list shell_var_t) (input : list Z) : option (list Z) :=
  resolve_loop (S (length input)) vars input [].

(** ** The table of builtins *)

(** [b_handler] is the name of the function in the code. *)
Record builtin_cmd_t := mkBuiltin { b_name : list Z; b_handler : string; b_desc : list Z }.
#[global] Instance builtin_eq_dec : EqDecision builtin_cmd_t.
Proof. solve_decision. Defined.

Definition shell_register_builtin (t : list builtin_cmd_t) (b : builtin_cmd_t) : list builtin_cmd_t :=
  if Z.of_nat (length t) <? 128 then t ++ [b] else t.

Fixpoint find_builtin (t : list builtin_cmd_t) (name : list Z) : option builtin_cmd_t :=
  match t with
  | [] => None
  | b :: r => if bool_decide (b_name b = name) then Some b else find_builtin r name
  end.

(** ** Execution *)

Section exec.
Context {H : Type} `{!Allocator H}.
Local Abbreviation shell := (shell H).
Implicit Types s : shell.

Definition shell_resolve_variables (input : list Z) : M shell (list Z) :=
  s <-- get ;; of_option (resolve_variables (global_vars s) input).

(** What a builtin may call back: [shell_execute_ast] and [shell_execute_command]. *)
Record callbacks := mkCallbacks { cb_ast : option ast_node_t -> M shell Z; cb_command : list Z -> M shell unit }.
Definition handler : Type := callbacks -> ast_node_t -> M shell Z.

(** The builtins of the shell, and the functions they stand for. *)
Variables (builtins : list builtin_cmd_t) (run : string -> handler).

Definition set_status (v : Z) : M shell unit :=
  modify (λ s, set_ctx (mkCtx (exit_requested (shell_ctx s)) v (current_dir (shell_ctx s))) s).

Definition execute_command_node (cb : callbacks) (n : ast_node_t) : M shell Z :=
  match argv (cmd n) with
  | [] => ret 0
  | a :: _ =>
      cmd_name <-- str_at a ;;
      resolved <-- shell_resolve_variables cmd_name ;;
      alias <-- shell_resolve_alias resolved ;;
      match find_builtin builtins alias with
      | Some b => run (b_handler b) cb n
      | None =>
          shell_print_error resolved ;;;
          shell_print_error (str ": command not found") ;;;
          ret 127
      end
  end.

(** The [for] loops over the children of a sequence and of a pipeline. *)
Fixpoint run_sequence (exec : option ast_node_t -> M shell Z) (l : list ast_node_t) (last_status : Z) : M shell Z :=
  match l with
  | [] => ret last_status
  | x :: r => v <-- exec (Some x) ;; set_status v ;;; run_sequence exec r v
  end.
Fixpoint run_pipeline (exec : option ast_node_t -> M shell Z) (l : list ast_node_t) (last_status : Z) : M shell Z :=
  match l with
  | [] => ret last_status
  | x :: r => v <-- exec (Some x) ;; run_pipeline exec r v
  end.

(** [shell_execute_ast] and [shell_execute_command], with the calls they make. *)
Definition execute_node (cb : callbacks) (node : option ast_node_t) : M shell Z :=
  match node with
  | None => ret 1
  | Some n =>
      match type n with
      | NODE_SEQUENCE => run_sequence (cb_ast cb) (kids n) 0
      | NODE_AND =>
          match kids n with
          | x :: y :: _ => status <-- cb_ast cb (Some x) ;; if status =? 0 then cb_ast cb (Some y) else ret status
          | _ => ret 1
          end
      | NODE_OR =>
          match kids n with
          | x :: y :: _ => status <-- cb_ast cb (Some x) ;; if status =? 0 then ret status else cb_ast cb (Some y)
          | _ => ret 0
          end
      | NODE_PIPELINE => run_pipeline (cb_ast cb) (kids n) 0
      | NODE_COMMAND => execute_command_node cb n
      | NODE_SUBSHELL => match kids n with x :: _ => cb_ast cb (Some x) | [] => ret 0 end
      | _ => ret 0
      end
  end.
Definition execute_line (cb : callbacks) (cmd : list Z) : M shell unit :=
  match cmd with
  | [] => ret tt
  | _ =>
      resolved <-- shell_resolve_variables cmd ;;
      tokens <-- tokenize resolved ;;
      ast <-- parse_tokens tokens ;;
      match ast with
      | Some n => cb_ast cb ast ;;; ast_free n
      | None => ret tt
      end ;;;
      tokenizer_free_tokens tokens
  end.

(** The two at a bound on the depth of their calls. *)
Fixpoint callbacks_at (fuel : nat) : callbacks :=
  match fuel with
  | O => mkCallbacks (λ _, nofuel) (λ _, nofuel)
  | S fuel' => mkCallbacks (execute_node (callbacks_at fuel')) (execute_line (callbacks_at fuel'))
  end.
Definition shell_execute_ast (fuel : nat) (node : option ast_node_t) : M shell Z := execute_node (callbacks_at fuel) node.
Definition shell_execute_command (fuel : nat) (cmd : list Z) : M shell unit := execute_line (callbacks_at fuel) cmd.
Definition shell_evaluate_expression (fuel : nat) (node : option ast_node_t) : M shell Z := shell_execute_ast fuel node.
End exec.
Arguments callbacks H : clear implicits.
Arguments handler H : clear implicits.

(** ** Resolving variables *)

Section resolving.

Lemma resolve_plain fuel vars p res :
  Forall (λ c, c <> 36 /\ c <> 126) p -> (length p < fuel)%nat -> Z.of_nat (length res + length p) <= 8191 ->
  resolve_loop fuel vars p res = Some (res ++ p).
Proof.
  intros Hp. revert fuel res. induction Hp as [|c r [H1 H2] _ IH]; intros fuel res Hf Hl; (destruct fuel as [|fuel]; [simpl in Hf; lia|]).
  - cbn. by rewrite app_nil_r.
  - cbn [resolve_loop length] in *. assert ((8191 <=? Z.of_nat (length res)) = false /\ (c =? 36) = false /\ (c =? 126) = false) as (-> & -> & ->) by lia.
    cbn [andb]. rewrite IH; [by rewrite <- app_assoc|lia|]. rewrite length_app. cbn [length]. lia.
Qed.

(** Every result fits the buffer with its terminator. *)
Lemma resolve_fits fuel vars p res out :
  Z.of_nat (length res) <= 8191 -> resolve_loop fuel vars p res = Some out -> Z.of_nat (length out) <= 8191.
Proof.
  revert p res. induction fuel as [|fuel IH]; intros p res Hl E; [done|]. cbn [resolve_loop] in E.
  assert (forall l, Z.of_nat (length (append_max res l)) <= 8191) as Ha.
  { intros l. unfold append_max. rewrite length_app, length_take. lia. }
  destruct p as [|c r]; [by simplify_eq|]. destruct (Z.leb_spec 8191 (Z.of_nat (length res))); [by simplify_eq|].
  destruct (c =? 36).
  { destruct (variable_name r) as [[name rest]|]; [|done]. by apply (IH _ _ (Ha _) E). }
  destruct (_ && _); [by apply (IH _ _ (Ha _) E)|]. apply (IH _ _) in E; [done|]. rewrite length_app. cbn [length]. lia.
Qed.

Lemma take_while_stop f a b : Forall (λ c, f c = true) a -> match b with c :: _ => f c = false | [] => True end -> take_while f (a ++ b) = (a, b).
Proof.
  intros Ha Hb. induction Ha as [|c a Hc Ha IH]; cbn [app take_while]; [|by rewrite Hc, IH].
  destruct b as [|d b]; [done|]. cbn [take_while]. by rewrite Hb.
Qed.

(** A name behind a dollar is replaced by its value. *)
Lemma resolve_name fuel vars name rest res :
  Forall (λ c, name_char c = true) name -> match rest with c :: _ => name_char c = false | [] => True end ->
  Z.of_nat (length name) < 256 -> name <> [] -> Z.of_nat (length res) < 8191 ->
  resolve_loop (S fuel) vars (36 :: name ++ rest) res = resolve_loop fuel vars rest (append_max res (get_variable vars name)).
Proof.
  intros Hn Hr Hl Hne Hres. cbn [resolve_loop]. destruct (Z.leb_spec 8191 (Z.of_nat (length res))); [lia|]. change (36 =? 36) with true. cbn match.
  assert (variable_name (name ++ rest) = Some (name, rest)) as ->; [|done]. unfold variable_name.
  assert ((char_at (name ++ rest) =? 123) = false) as ->.
  { destruct name as [|c name]; [done|]. apply Forall_cons in Hn as [Hc _]. cbn. unfold name_char, is_alpha, is_digit in Hc. lia. }
  rewrite take_while_stop by done. by destruct (Z.ltb_spec (Z.of_nat (length name)) 256); [|lia].
Qed.
End resolving.

(** ** Running a tree *)

Section running.
Context {H : Type} `{!Allocator H}.
Local Abbreviation shell := (shell H).
Variables (builtins : list builtin_cmd_t) (run : string -> handler H).
Implicit Types s : shell.

(** The depth of the calls a tree needs. *)
Fixpoint height (n : ast_node_t) : nat :=
  match n with
  | Node _ _ _ ks _ => S (foldr (λ x m, max (height x) m) 0%nat ks)
  end.

Lemma height_kid n x : x ∈ kids n -> (height x < height n)%nat.
Proof.
  destruct n as [a ty ch ks c]. cbn [kids height]. intros Hx. induction Hx as [|x y ks Hx IH]; cbn [foldr]; lia.
Qed.

Lemma bind_fuel {T A B} (m : M T A) (k : A -> M T B) (t : T) :
  m t <> NoFuel -> (forall a t', m t = Ret a t' -> k a t' <> NoFuel) -> bind m k t <> NoFuel.
Proof. unfold bind. intros Hm Hk. destruct (m t); [by apply Hk|done..]. Qed.

Lemma option_fuel {T A} (o : option A) (t : T) : of_option o t <> NoFuel.
Proof. by destruct o. Qed.

Lemma sequence_fuel (exec : option ast_node_t -> M shell Z) l v s :
  (forall x s, x ∈ l -> exec (Some x) s <> NoFuel) -> run_sequence exec l v s <> NoFuel.
Proof.
  revert v s. induction l as [|x l IH]; intros v s Hx; [done|]. cbn [run_sequence]. apply bind_fuel; [apply Hx; set_solver|].
  intros w s' _. apply bind_fuel; [done|]. intros _ s'' _. apply IH. set_solver.
Qed.

Lemma pipeline_fuel (exec : option ast_node_t -> M shell Z) l v s :
  (forall x s, x ∈ l -> exec (Some x) s <> NoFuel) -> run_pipeline exec l v s <> NoFuel.
Proof.
  revert v s. induction l as [|x l IH]; intros v s Hx; [done|]. cbn [run_pipeline]. apply bind_fuel; [apply Hx; set_solver|].
  intros w s' _. apply IH. set_solver.
Qed.

Lemma command_fuel cb n s : (forall h s, run h cb n s <> NoFuel) -> execute_command_node builtins run cb n s <> NoFuel.
Proof.
  intros Hr. unfold execute_command_node. destruct (argv (cmd n)) as [|a r]; [done|].
  apply bind_fuel; [unfold str_at; rewrite bind_get; apply option_fuel|]. intros name s1 _.
  apply bind_fuel; [unfold shell_resolve_variables; rewrite bind_get; apply option_fuel|]. intros res s2 _.
  apply bind_fuel; [done|]. intros alias s3 _. destruct (find_builtin builtins alias) as [b|]; [apply Hr|]. done.
Qed.

Lemma execute_fuel n fuel s :
  (forall h cb m s, run h cb m s <> NoFuel) -> (height n <= fuel)%nat -> shell_execute_ast builtins run fuel (Some n) s <> NoFuel.
Proof.
  intros Hr. revert n s. induction fuel as [|fuel IH]; intros n s Hf; [destruct n; simpl in Hf; lia|].
  assert (forall x s, x ∈ kids n -> cb_ast (callbacks_at builtins run (S fuel)) (Some x) s <> NoFuel) as Hk.
  { intros x s' Hx. apply height_kid in Hx. apply IH. lia. }
  unfold shell_execute_ast, execute_node. destruct (type n); try done.
  - apply command_fuel. intros h s'. apply Hr.
  - by apply pipeline_fuel.
  - by apply sequence_fuel.
  - destruct (kids n) as [|x [|y l]]; [done..|]. apply bind_fuel; [apply Hk; set_solver|]. intros v s' _.
    destruct (v =? 0); [apply Hk; set_solver|done].
  - destruct (kids n) as [|x [|y l]]; [done..|]. apply bind_fuel; [apply Hk; set_solver|]. intros v s' _.
    destruct (v =? 0); [done|apply Hk; set_solver].
  - destruct (kids n) as [|x l]; [done|]. apply Hk. set_solver.
Qed.
End running.

(** ** A command line *)

Section lines.
Context {H : Type} `{!Allocator H, !NeverOut H}.
Local Abbreviation shell := (shell H).
Variables (builtins : list builtin_cmd_t) (run : string -> handler H).
Implicit Types s : shell.

(** The argument that heads a line is freed with the tree and again with the tokens. *)
Lemma line_double cmd text x xs s :
  cmd <> [] -> resolve_variables (global_vars s) cmd = Some text -> lex (S (length text)) text 1 1 = Some (x :: xs) ->
  lx_type x ∈ arg_type ->
  exists n v l1 l2 l3 s2, v <> 0 /\ v ∉ live_of s /\ v ∈ live_of s2 /\ sh_strs s2 !! v = Some (lx_value x) /\
    forall cb, execute_line cb cmd s = (cb_ast cb (Some n) ;;; free_all (l1 ++ v :: l2 ++ v :: l3)) s2.
Proof.
  intros Hne Hr Hx Ht. destruct (tokenize_loop_run (live_of s) _ _ _ _ [] _ [] s Hx (holds_nil s) ltac:(constructor)) as (toks & h & m & Et & Htk & Hh & _).
  apply Forall2_cons_inv_l in Htk as (t & toks' & [Hty Hval _] & _ & ->).
  destruct (sequence_finishes _ (t :: toks') _ _ Hh) as (o & rest & h2 & E2 & Hs & _ & Hh2).
  destruct Hs as (n & -> & Hv); [apply bool_decide_eq_true; by rewrite Hty|].
  assert (tk_value t ∈ tok_ptrs (t :: toks')) as Hin by left.
  assert (tk_value t ∈ opt_own (Some n) ++ tok_ptrs (t :: toks')) as Hin2 by (apply elem_of_app; by right).
  apply arg_freed, list_elem_of_split in Hv as (l1 & l2 & El).
  eexists n, (tk_value t), l1, l2, (tk_addr t :: tok_ptrs toks'), _. split; [|split; [|split; [|split]]].
  - apply (holds_in _ _ _ _ Hh Hin).
  - intros Hl. by apply (h_apart _ _ _ Hh _ Hin).
  - apply (holds_in _ _ _ _ Hh2 Hin2).
  - exact Hval.
  - intros cb. destruct cmd as [|c r]; [done|]. unfold execute_line, shell_resolve_variables. rewrite bind_assoc, bind_get, Hr, bind_option.
    unfold tokenize. rewrite (bind_Ret _ _ _ _ _ Et). unfold parse_tokens. rewrite bind_assoc.
    rewrite (bind_Ret _ _ _ _ _ E2), bind_ret. cbn [fst]. rewrite bind_assoc. apply bind_cong. intros _ s3.
    replace (l1 ++ tk_value t :: l2 ++ tk_value t :: tk_addr t :: tok_ptrs toks') with (frees n ++ tok_ptrs (t :: toks'))
      by (rewrite El; by rewrite <- app_assoc).
    rewrite free_all_app. unfold bind. rewrite ast_free_all. destruct (free_all (frees n) s3) as [[] s4|? ?| |]; [|done..]. apply free_tokens_all.
Qed.
End lines.

(** ** The bound does not matter *)

Section bound.
Context {H : Type} `{!Allocator H}.
Local Abbreviation shell := (shell H).
Variables (builtins : list builtin_cmd_t) (run : string -> handler H).
Implicit Types s : shell.

(** [m'] returns what [m] returns. *)
Definition m_le {A} (m m' : M shell A) : Prop := forall s v s', m s = Ret v s' -> m' s = Ret v s'.
Definition cb_le (cb cb' : callbacks H) : Prop :=
  (forall o, m_le (cb_ast cb o) (cb_ast cb' o)) /\ (forall l, m_le (cb_command cb l) (cb_command cb' l)).

(** The result of a builtin does not depend on the bound of its callbacks. *)
Definition monotone (h : handler H) : Prop := forall cb cb' n, cb_le cb cb' -> m_le (h cb n) (h cb' n).

Lemma m_le_refl {A} (m : M shell A) : m_le m m.
Proof. by intros s v s'. Qed.

Lemma m_le_bind {A B} (m m' : M shell A) (k k' : A -> M shell B) :
  m_le m m' -> (forall a, m_le (k a) (k' a)) -> m_le (bind m k) (bind m' k').
Proof. intros Hm Hk s v s' (a & s1 & E1 & E2)%bind_Ret_inv. rewrite (bind_Ret _ _ _ _ _ (Hm _ _ _ E1)). by apply Hk. Qed.

Lemma m_le_same {A B} (m : M shell A) (k k' : A -> M shell B) : (forall a, m_le (k a) (k' a)) -> m_le (bind m k) (bind m k').
Proof. intros Hk. apply m_le_bind; [apply m_le_refl|done]. Qed.

Lemma run_sequence_le (e e' : option ast_node_t -> M shell Z) l v : (forall o, m_le (e o) (e' o)) -> m_le (run_sequence e l v) (run_sequence e' l v).
Proof.
  intros He. revert v. induction l as [|x l IH]; intros v; [apply m_le_refl|]. apply m_le_bind; [apply He|]. intros w. apply m_le_same. intros _. apply IH.
Qed.

Lemma run_pipeline_le (e e' : option ast_node_t -> M shell Z) l v : (forall o, m_le (e o) (e' o)) -> m_le (run_pipeline e l v) (run_pipeline e' l v).
Proof. intros He. revert v. induction l as [|x l IH]; intros v; [apply m_le_refl|]. apply m_le_bind; [apply He|]. intros w. apply IH. Qed.

Hypothesis run_monotone : forall h, monotone (run h).

Lemma execute_command_node_le cb cb' n : cb_le cb cb' -> m_le (execute_command_node builtins run cb n) (execute_command_node builtins run cb' n).
Proof.
  intros Hc. unfold execute_command_node. destruct (argv (cmd n)) as [|a r]; [apply m_le_refl|]. do 3 (apply m_le_same; intros ?).
  destruct (find_builtin _ _); [by apply run_monotone|apply m_le_refl].
Qed.

Lemma execute_node_le cb cb' o : cb_le cb cb' -> m_le (execute_node builtins run cb o) (execute_node builtins run cb' o).
Proof.
  intros Hc. pose proof (proj1 Hc) as Ha. destruct o as [n|]; [|apply m_le_refl]. unfold execute_node.
  destruct (type n); try apply m_le_refl.
  - by apply execute_command_node_le.
  - by apply run_pipeline_le.
  - by apply run_sequence_le.
  - destruct (kids n) as [|x [|y l]]; try apply m_le_refl. apply m_le_bind; [apply Ha|]. intros v. destruct (v =? 0); [apply Ha|apply m_le_refl].
  - destruct (kids n) as [|x [|y l]]; try apply m_le_refl. apply m_le_bind; [apply Ha|]. intros v. destruct (v =? 0); [apply m_le_refl|apply Ha].
  - destruct (kids n) as [|x l]; [apply m_le_refl|apply Ha].
Qed.

Lemma execute_line_le cb cb' l : cb_le cb cb' -> m_le (execute_line cb l) (execute_line cb' l).
Proof.
  intros Hc. destruct l as [|c l]; [apply m_le_refl|]. unfold execute_line. do 3 (apply m_le_same; intros ?).
  apply m_le_bind; [|intros _; apply m_le_refl]. destruct a1 as [n|]; [|apply m_le_refl]. apply m_le_bind; [apply (proj1 Hc)|].
  intros ?. apply m_le_refl.
Qed.

Lemma callbacks_le fuel fuel' : (fuel <= fuel')%nat -> cb_le (callbacks_at builtins run fuel) (callbacks_at builtins run fuel').
Proof.
  revert fuel'. induction fuel as [|fuel IH]; intros fuel' Hf; [by split|]. destruct fuel' as [|fuel']; [lia|].
  specialize (IH fuel' ltac:(lia)). split; [intros o; by apply execute_node_le|intros l; by apply execute_line_le].
Qed.

Lemma execute_more fuel fuel' o s v s' :
  (fuel <= fuel')%nat -> shell_execute_ast builtins run fuel o s = Ret v s' -> shell_execute_ast builtins run fuel' o s = Ret v s'.
Proof. intros Hf. apply execute_node_le. by apply callbacks_le. Qed.

End bound.

(** ** Properties *)

Section shell_exec_properties.
Context {H : Type} `{!Allocator H}.
Local Abbreviation shell := (shell H).
Variables (builtins : list builtin_cmd_t) (run : string -> handler H).
Implicit Types s : shell.

(** [$NAME] in a text without other [$] and [~] is replaced by the value of the variable, or
    by nothing; the rest of the text stays. *)
Theorem resolve_expands vars a name b :
  Forall (λ c, c <> 36 /\ c <> 126) a -> Forall (λ c, c <> 36 /\ c <> 126) b ->
  Forall (λ c, name_char c = true) name -> name <> [] -> match b with c :: _ => name_char c = false | [] => True end ->
  Z.of_nat (length name) < 256 ->
  let value := default [] (vars_map vars !! name) in
  Z.of_nat (length (a ++ value ++ b)) < 8191 ->
  resolve_variables vars (a ++ 36 :: name ++ b) = Some (a ++ value ++ b).
Proof.
  intros Ha Hb Hn Hne Hnb Hl value Hfit. unfold value in *. rewrite <- get_variable_map in *. rewrite !length_app in Hfit.
  unfold resolve_variables. set (fuel := length (a ++ 36 :: name ++ b)).
  assert (length a + S (length name + length b) = fuel)%nat as Ef by (unfold fuel; rewrite !length_app; cbn; rewrite length_app; lia).
  assert (forall f res, Z.of_nat (length res + length a) < 8191 -> (length a < f)%nat ->
    resolve_loop f vars (a ++ 36 :: name ++ b) res = resolve_loop (f - length a) vars (36 :: name ++ b) (res ++ a)) as Hpre.
  { clear -Ha. induction Ha as [|c a [H1 H2] _ IH]; intros f res Hr Hf; [by rewrite app_nil_r, Nat.sub_0_r|].
    destruct f as [|f]; [lia|]. cbn [app resolve_loop length] in *.
    assert ((8191 <=? Z.of_nat (length res)) = false /\ (c =? 36) = false /\ (c =? 126) = false) as (-> & -> & ->) by lia. cbn [andb].
    rewrite IH; [by rewrite <- app_assoc|rewrite length_app; cbn [length]; lia|lia]. }
  rewrite Hpre by (cbn [length]; lia). cbn [app]. replace (S fuel - length a)%nat with (S (fuel - length a)) by lia.
  rewrite resolve_name by (try done; lia). unfold append_max. rewrite take_ge by lia.
  rewrite resolve_plain by (try done; rewrite ?length_app; lia). by rewrite app_assoc.
Qed.

(** Running a tree ends within its height, if the builtins that it calls end. *)
Theorem execute_terminates n fuel s :
  (forall h cb m s, run h cb m s <> NoFuel) -> (height n <= fuel)%nat ->
  shell_execute_ast builtins run fuel (Some n) s <> NoFuel.
Proof. apply execute_fuel. Qed.

(** C16. While memory lasts ([NeverOut]), every command line whose first token is a word, a string or a
    number frees that token twice: it is a new object [v] with the token's text, and once the
    tree has been run the line is nothing but a sequence of [kfree] in which [v] occurs twice,
    with the tree and again with the tokens, and no allocation in between.  (What the second
    [kfree] does is up to the heap; kernel/heap.c does not look whether the block is free.) *)
Theorem command_frees_twice `{!NeverOut H} cmd text x xs s :
  cmd <> [] -> resolve_variables (global_vars s) cmd = Some text -> lex (S (length text)) text 1 1 = Some (x :: xs) ->
  lx_type x ∈ arg_type ->
  exists n v l1 l2 l3 s2, v <> 0 /\ v ∉ live_of s /\ v ∈ live_of s2 /\ sh_strs s2 !! v = Some (lx_value x) /\
    forall fuel, shell_execute_command builtins run (S fuel) cmd s =
      (shell_execute_ast builtins run fuel (Some n) ;;; free_all (l1 ++ v :: l2 ++ v :: l3)) s2.
Proof.
  intros Hne Hr Hx Ht. destruct (line_double cmd text x xs s Hne Hr Hx Ht) as (n & v & l1 & l2 & l3 & s2 & H1 & H2 & H3 & H4 & E).
  exists n, v, l1, l2, l3, s2. do 4 (split; [done|]). intros fuel. exact (E _).
Qed.

(** In [a && b ; c] the third command is never run, whatever the status of the others. *)
Theorem semicolon_after_and_dead `{!NeverOut H} e1 e2 e3 op1 op2 t rest s :
  let l := mkLine e1 [(op1, e2); (op2, e3)] None in
  is_line l = true -> tk_type op1 = TOKEN_AND -> tk_type op2 = TOKEN_SEMICOLON -> ends_line t = true ->
  exists n x y h, parse_tokens (line_tokens l ++ t :: rest) s = Ret (Some n) (set_alloc h s) /\
    shape x = Tree NODE_SEQUENCE [expr_tree e1] [] false /\ shape y = expr_tree e2 /\
    forall fuel, shell_execute_ast builtins run (S fuel) (Some n) =
      (status <-- shell_execute_ast builtins run fuel (Some x) ;;
       if status =? 0 then shell_execute_ast builtins run fuel (Some y) else ret status).
Proof.
  intros l Hl H1 H2 Ht. destruct (line_reads (live_of s) l t rest [] s Hl Ht (holds_nil s)) as (n & h & E & Hs & _).
  unfold line_tree, l in Hs. cbn [foldl first others amp] in Hs. unfold sequence_step, is_type in Hs. cbn [fst snd] in Hs.
  rewrite H1, H2 in Hs. change (bool_decide (TOKEN_AND ∈ [TOKEN_AND])) with true in Hs.
  change (bool_decide (TOKEN_SEMICOLON ∈ [TOKEN_AND])) with false in Hs. change (bool_decide (TOKEN_SEMICOLON ∈ [TOKEN_OR])) with false in Hs.
  destruct n as [a ty ch ks c]. cbn [shape add_kid app] in Hs. injection Hs as -> Hks _ _.
  destruct ks as [|x [|y ks]]; [done..|]. injection Hks as Hx Hy _.
  exists (Node a NODE_AND ch (x :: y :: ks) c), x, y, h. split; [unfold parse_tokens; by rewrite (bind_Ret _ _ _ _ _ E)|]. by split.
Qed.
End shell_exec_properties.

Section shell_exec_witnesses.
#[local] Existing Instance endless_allocator.
#[local] Existing Instance endless_never_out.

(** A shell with one builtin, which fails. *)
Definition builtins0 : list builtin_cmd_t := [mkBuiltin (str "false") "builtin_false" []].
Definition run0 : string -> handler (gset Z) := λ _ _ _, ret 1.
Definition shell1 : shell (gset Z) := set_strs {[10 := str "false"; 20 := str "nope"]} shell0.
Definition cmd1 (p : Z) : ast_node_t := Node 500 NODE_COMMAND 0 [] (mkCmd 600 [p] 0 0 false false).

Lemma resolve_expands_witness :
  resolve_variables (global_vars shell0) (str "cd $HOME/x") = Some (str "cd /home/root/x").
Proof.
  apply (resolve_expands (global_vars shell0) (str "cd ") (str "HOME") (str "/x")).
  - repeat constructor; discriminate.
  - repeat constructor; discriminate.
  - repeat constructor.
  - discriminate.
  - reflexivity.
  - simpl. lia.
  - vm_compute. reflexivity.
Defined.

Lemma execute_terminates_witness :
  shell_execute_ast builtins0 run0 3 (Some (Node 1 NODE_AND 2 [cmd1 10; cmd1 20] cmd_zero)) shell1 <> NoFuel.
Proof. apply execute_terminates; [discriminate|]. simpl. lia. Defined.

Lemma command_frees_twice_witness :
  exists n v l1 l2 l3 s2, v <> 0 /\ sh_strs s2 !! v = Some (str "false") /\
    shell_execute_command builtins0 run0 5 (str "false") shell0 =
      (shell_execute_ast builtins0 run0 4 (Some n) ;;; free_all (l1 ++ v :: l2 ++ v :: l3)) s2.
Proof.
  destruct (command_frees_twice builtins0 run0 (str "false") (str "false") (mkLex TOKEN_WORD (str "false") 1 1) [mkLex TOKEN_EOF [] 1 6] shell0)
    as (n & v & l1 & l2 & l3 & s2 & Hv & _ & _ & Hs & E).
  - discriminate.
  - vm_compute. reflexivity.
  - vm_compute. reflexivity.
  - apply (bool_decide_unpack _). vm_compute. exact I.
  - exists n, v, l1, l2, l3, s2. split; [exact Hv|]. split; [exact Hs|exact (E 4%nat)].
Defined.

Lemma semicolon_after_and_dead_witness :
  exists n h, parse_tokens (line_tokens (mkLine (EPipe [word 10] []) [(mark TOKEN_AND, EPipe [word 20] []); (mark TOKEN_SEMICOLON, EPipe [word 30] [])] None)
    ++ [mark TOKEN_EOF]) shell1 = Ret (Some n) (set_alloc h shell1).
Proof.
  destruct (semicolon_after_and_dead builtins0 run0 (EPipe [word 10] []) (EPipe [word 20] []) (EPipe [word 30] [])
    (mark TOKEN_AND) (mark TOKEN_SEMICOLON) (mark TOKEN_EOF) [] shell1) as (n & x & y & h & E & _); try reflexivity.
  exists n, h. exact E.
Defined.
End shell_exec_witnesses.
