(* ===== verification/ShellBuiltins.v ===== *)
(** * The builtins of the shell (ui/shell.c)

    A builtin reads its arguments from the command node and calls back through [callbacks].
    The shell runs over the file system: its allocator is the one of the [vfs].  [device]
    stands for the builtins that read the clock or the line buffer or redraw the screen
    ([sleep], [date], [uptime], [read], [clear]) and [ticks] for the clock of [timeout].  Loops
    that may not end take a bound [spins] on their rounds. *)

From S2P Require Import Prelude CString Vfs ShellState ShellLex ShellParse ShellExec.

(** ** Tables *)

(** The functions that only report that they are unsupported. *)
Definition unsupported_files : list string :=
  ["head"; "tail"; "wc"; "grep"; "sed"; "awk"; "rmdir"; "rm";
   "cp"; "mv"; "chmod"].
Definition unsupported_text : list string :=
  ["chown"; "xargs"; "find"; "sort"; "uniq"; "tr"; "cut"; "paste";
   "join"; "comm"; "diff"; "patch"; "tar"; "gzip"; "gunzip"; "bzip2";
   "xz"; "zip"; "unzip"; "route"; "netstat"; "ss"; "iptables"; "systemctl";
   "service"; "journalctl"; "logger"; "wall"; "write"].
Definition unsupported_tools : list string :=
  ["tee"; "less"; "more"; "vi"; "nano"; "emacs"; "vim"; "gcc";
   "make"; "git"; "python"; "perl"; "ruby"; "node"; "rustc"; "go";
   "zig"; "docker"; "kubectl"; "helm"; "terraform"; "ansible"; "puppet"; "chef";
   "salt"; "vagrant"; "virtualbox"; "qemu"; "vmware"; "parallel"].
Definition unsupported_system : list string :=
  ["top"; "htop"; "vmstat"; "iostat"; "mpstat"; "sar"; "strace"; "ltrace";
   "gdb"; "valgrind"; "perf"; "sysctl"; "modprobe"; "insmod"; "rmmod"; "fdisk";
   "mkfs"; "fsck"; "dd"; "mkswap"; "swapon"; "swapoff"; "brctl"; "ip";
   "ifup"; "ifdown"; "host"; "dig"; "nslookup"; "traceroute"; "mtr"; "tcpdump";
   "wireshark"; "tshark"; "nmap"; "netcat"; "socat"; "screen"; "tmux"; "byobu";
   "dbus"; "systemd"].

(** The functions that only write lines. *)
Definition printed : list (string * list string) :=
  [("ulimit", ["ulimit settings:";
     "  max user processes: 1024";
     "  open files: 1024";
     "  stack size: 8388608"]);
   ("df", ["Filesystem     Size  Used  Avail  Use%";
     "ramfs          1M    128K  896K   12%"]);
   ("ps", ["  PID TTY          TIME CMD";
     "    1 ?        00:00:00 init";
     "    2 ?        00:00:00 kthreadd"]);
   ("whoami", ["root"]);
   ("id", ["uid=0(root) gid=0(root)"]);
   ("time", ["real 0m0.001s"]);
   ("ifconfig", ["eth0: flags=4163<UP,BROADCAST,RUNNING,MULTICAST>"]);
   ("dmesg", ["[    0.000000] MiraOS 1.0.0 x86_64";
     "[    0.000000] Command line: BOOT_IMAGE=/boot/kernel.elf"]);
   ("free", ["              total        used        free      shared  buff/cache   available";
     "Mem:        256000      128000      128000           0          0      128000"]);
   ("lsmod", ["Module                  Size  Used by"]);
   ("lspci", ["00:00.0 Host bridge: Intel Corporation 440FX - 82441FX PMC [Natoma]"]);
   ("lsusb", ["Bus 001 Device 001: ID 1d6b:0001 Linux Foundation 1.1 root hub"]);
   ("lsblk", ["NAME   MAJ:MIN RM  SIZE RO TYPE MOUNTPOINT";
     "sr0     11:0    1  1024M  0 rom  "])].

(** [shell_register_builtins]: name, function, description. *)
Definition builtin_rows_1 : list (string * string * string) :=
  [("echo", "builtin_echo", "Display a line of text");
   ("cd", "builtin_cd", "Change the shell working directory");
   ("pwd", "builtin_pwd", "Print name of current/working directory");
   ("export", "builtin_export", "Set export attribute for variables");
   ("set", "builtin_set", "Set or unset values of shell attributes");
   ("unset", "builtin_unset", "Unset values and attributes of variables");
   ("env", "builtin_env", "Display environment variables");
   ("history", "builtin_history", "Display or manipulate the history list");
   ("alias", "builtin_alias", "Define or display aliases");
   ("unalias", "builtin_unalias", "Remove each NAME from the list of defined aliases");
   ("jobs", "builtin_jobs", "List active jobs");
   ("fg", "builtin_fg", "Put job in foreground");
   ("bg", "builtin_bg", "Put job in background");
   ("clear", "builtin_clear", "Clear the terminal screen");
   ("exit", "builtin_exit", "Exit the shell");
   ("help", "builtin_help", "Display help for builtin commands");
   ("type", "builtin_type", "Display information about command type");
   ("read", "builtin_read", "Read a line from standard input");
   ("test", "builtin_test", "Check file types and compare values");
   ("[", "builtin_bracket", "Evaluate conditional expression");
   ("printf", "builtin_printf", "Format and print data");
   ("true", "builtin_true", "Return a successful result");
   ("false", "builtin_false", "Return an unsuccessful result");
   ("sleep", "builtin_sleep", "Delay for a specified time");
   ("date", "builtin_date", "Display or set date and time");
   ("umask", "builtin_umask", "Get or set the file creation mask");
   ("ulimit", "builtin_ulimit", "Control resources available to the shell");
   ("shift", "builtin_shift", "Shift positional parameters");
   ("trap", "builtin_trap", "Trap signals and other events");
   ("umount", "builtin_umount", "Unmount file systems");
   ("mount", "builtin_mount", "Mount a file system");
   ("df", "builtin_df", "Report file system disk space usage");
   ("ps", "builtin_ps", "Report process status");
   ("kill", "builtin_kill", "Send a signal to a process");
   ("nohup", "builtin_nohup", "Run a command immune to hangups");
   ("wait", "builtin_wait", "Wait for process completion");
   ("exec", "builtin_exec", "Execute a command");
   (".", "builtin_dot", "Execute commands from a file");
   ("source", "builtin_source", "Execute commands from a file");
   ("eval", "builtin_eval", "Evaluate several commands/arguments");
   ("let", "builtin_let", "Evaluate arithmetic expressions");
   ("yes", "builtin_yes", "Output a string repeatedly");
   ("head", "builtin_head", "Output the first part of files");
   ("tail", "builtin_tail", "Output the last part of files");
   ("wc", "builtin_wc", "Print newline, word, and byte counts");
   ("grep", "builtin_grep", "Print lines matching a pattern");
   ("sed", "builtin_sed", "Stream editor for filtering text");
   ("awk", "builtin_awk", "Pattern scanning and processing language");
   ("cat", "builtin_cat", "Concatenate files and print");
   ("ls", "builtin_ls", "List directory contents");
   ("mkdir", "builtin_mkdir", "Make directories");
   ("rmdir", "builtin_rmdir", "Remove empty directories");
   ("rm", "builtin_rm", "Remove files or directories");
   ("touch", "builtin_touch", "Change file timestamps");
   ("cp", "builtin_cp", "Copy files and directories");
   ("mv", "builtin_mv", "Move or rename files");
   ("chmod", "builtin_chmod", "Change file mode bits");
   ("chown", "builtin_chown", "Change file owner and group");
   ("whoami", "builtin_whoami", "Print effective user name");
   ("id", "builtin_id", "Print user and group information");
   ("uptime", "builtin_uptime", "Show how long the system has been running");
   ("uname", "builtin_uname", "Print system information");
   ("hostname", "builtin_hostname", "Show or set the system host name");
   ("which", "builtin_which", "Locate a command");
   ("time", "builtin_time", "Run a command and report time used");
   ("xargs", "builtin_xargs", "Build and execute command lines");
   ("find", "builtin_find", "Search for files in a directory hierarchy");
   ("sort", "builtin_sort", "Sort lines of text files");
   ("uniq", "builtin_uniq", "Report or omit repeated lines");
   ("tr", "builtin_tr", "Translate or delete characters");
   ("cut", "builtin_cut", "Remove sections from each line");
   ("paste", "builtin_paste", "Merge lines of files");
   ("join", "builtin_join", "Join lines on a common field");
   ("comm", "builtin_comm", "Compare two sorted files line by line");
   ("diff", "builtin_diff", "Compare files line by line");
   ("patch", "builtin_patch", "Apply a diff file to an original");
   ("tar", "builtin_tar", "Archive files");
   ("gzip", "builtin_gzip", "Compress or expand files");
   ("gunzip", "builtin_gunzip", "Compress or expand files");
   ("bzip2", "builtin_bzip2", "Compress or expand files");
   ("xz", "builtin_xz", "Compress or expand files");
   ("zip", "builtin_zip", "Package and compress files");
   ("unzip", "builtin_unzip", "Extract compressed files");
   ("ssh", "builtin_ssh", "OpenSSH remote login client");
   ("scp", "builtin_scp", "Secure copy remote file transfer");
   ("wget", "builtin_wget", "Network downloader");
   ("curl", "builtin_curl", "Transfer data from or to a server");
   ("ping", "builtin_ping", "Send ICMP packets to network hosts");
   ("ifconfig", "builtin_ifconfig", "Configure network interfaces");
   ("route", "builtin_route", "Show or manipulate the IP routing table");
   ("netstat", "builtin_netstat", "Print network connections");
   ("ss", "builtin_ss", "Another netstat implementation");
   ("iptables", "builtin_iptables", "IP firewall administration");
   ("systemctl", "builtin_systemctl", "Control the systemd system");
   ("service", "builtin_service", "Run a System V init script");
   ("journalctl", "builtin_journalctl", "Query the systemd journal");
   ("dmesg", "builtin_dmesg", "Print or control the kernel ring buffer");
   ("logger", "builtin_logger", "Add entries to the system log");
   ("wall", "builtin_wall", "Send a message to every user");
   ("write", "builtin_write", "Send a message to another user")].
Definition builtin_rows_2 : list (string * string * string) :=
  [("tee", "builtin_tee", "Read from stdin and write to stdout and files");
   ("less", "builtin_less", "View file content with pagination");
   ("more", "builtin_more", "File perusal filter for crt viewing");
   ("vi", "builtin_vi", "Vi editor");
   ("nano", "builtin_nano", "Nano editor");
   ("emacs", "builtin_emacs", "Emacs editor");
   ("vim", "builtin_vim", "Vim editor");
   ("gcc", "builtin_gcc", "GNU C compiler");
   ("make", "builtin_make", "GNU make utility");
   ("git", "builtin_git", "Distributed version control");
   ("python", "builtin_python", "Python interpreter");
   ("perl", "builtin_perl", "Perl interpreter");
   ("ruby", "builtin_ruby", "Ruby interpreter");
   ("node", "builtin_node", "Node.js runtime");
   ("rustc", "builtin_rustc", "Rust compiler");
   ("go", "builtin_go", "Go compiler");
   ("zig", "builtin_zig", "Zig compiler");
   ("docker", "builtin_docker", "Container platform");
   ("kubectl", "builtin_kubectl", "Kubernetes command-line tool");
   ("helm", "builtin_helm", "Kubernetes package manager");
   ("terraform", "builtin_terraform", "Infrastructure as code");
   ("ansible", "builtin_ansible", "IT automation platform");
   ("puppet", "builtin_puppet", "Configuration management");
   ("chef", "builtin_chef", "Configuration management");
   ("salt", "builtin_salt", "Configuration management");
   ("vagrant", "builtin_vagrant", "Development environment management");
   ("virtualbox", "builtin_virtualbox", "Virtualization software");
   ("qemu", "builtin_qemu", "Machine emulator and virtualizer");
   ("vmware", "builtin_vmware", "Virtualization platform");
   ("parallel", "builtin_parallel", "Execute commands in parallel");
   ("timeout", "builtin_timeout", "Run a command with time limit");
   ("nice", "builtin_nice", "Run a program with modified priority");
   ("renice", "builtin_renice", "Alter priority of running processes");
   ("killall", "builtin_killall", "Kill processes by name");
   ("pgrep", "builtin_pgrep", "Look up processes");
   ("pkill", "builtin_pkill", "Kill processes by name");
   ("top", "builtin_top", "Display dynamic real-time information");
   ("htop", "builtin_htop", "Interactive process viewer");
   ("free", "builtin_free", "Display amount of free and used memory");
   ("vmstat", "builtin_vmstat", "Virtual memory statistics");
   ("iostat", "builtin_iostat", "Report CPU and I/O statistics");
   ("mpstat", "builtin_mpstat", "Report processor statistics");
   ("sar", "builtin_sar", "Collect and report system activity");
   ("strace", "builtin_strace", "Trace system calls and signals");
   ("ltrace", "builtin_ltrace", "Trace library calls");
   ("gdb", "builtin_gdb", "GNU debugger");
   ("valgrind", "builtin_valgrind", "Memory debugging tool");
   ("perf", "builtin_perf", "Performance analysis tool");
   ("sysctl", "builtin_sysctl", "Configure kernel parameters");
   ("modprobe", "builtin_modprobe", "Add/remove kernel modules");
   ("insmod", "builtin_insmod", "Insert module into the kernel");
   ("rmmod", "builtin_rmmod", "Remove module from the kernel");
   ("lsmod", "builtin_lsmod", "Show kernel module status");
   ("lspci", "builtin_lspci", "List PCI devices");
   ("lsusb", "builtin_lsusb", "List USB devices");
   ("lsblk", "builtin_lsblk", "List block devices");
   ("fdisk", "builtin_fdisk", "Disk partition manipulator");
   ("partprobe", "builtin_partprobe", "Inform OS of partition changes");
   ("mkfs", "builtin_mkfs", "Build a Linux filesystem");
   ("fsck", "builtin_fsck", "Check and repair filesystem");
   ("dd", "builtin_dd", "Convert and copy files");
   ("mkswap", "builtin_mkswap", "Set up a swap area");
   ("swapon", "builtin_swapon", "Enable devices and files for swapping");
   ("swapoff", "builtin_swapoff", "Disable devices and files for swapping");
   ("brctl", "builtin_brctl", "Ethernet bridge administration");
   ("ip", "builtin_ip", "Show or manipulate routing and devices");
   ("ifup", "builtin_ifup", "Bring a network interface up");
   ("ifdown", "builtin_ifdown", "Take a network interface down");
   ("host", "builtin_host", "DNS lookup utility");
   ("dig", "builtin_dig", "DNS lookup utility");
   ("nslookup", "builtin_nslookup", "Query Internet name servers");
   ("traceroute", "builtin_traceroute", "Trace route to host");
   ("mtr", "builtin_mtr", "Network diagnostic tool");
   ("tcpdump", "builtin_tcpdump", "Dump traffic on a network");
   ("wireshark", "builtin_wireshark", "Network protocol analyzer");
   ("tshark", "builtin_tshark", "Network protocol analyzer");
   ("nmap", "builtin_nmap", "Network exploration and security auditing");
   ("netcat", "builtin_netcat", "TCP/IP swiss army knife");
   ("socat", "builtin_socat", "Multipurpose relay");
   ("screen", "builtin_screen", "Screen manager with VT100/ANSI emulation");
   ("tmux", "builtin_tmux", "Terminal multiplexer");
   ("byobu", "builtin_byobu", "Text-based window manager");
   ("dbus", "builtin_dbus", "Interprocess messaging system");
   ("systemd", "builtin_systemd", "System and service manager")].

Definition shell_register_builtins (t : list builtin_cmd_t) : list builtin_cmd_t :=
  foldl (λ t b, shell_register_builtin t (mkBuiltin (str b.1.1) b.1.2 (str b.2))) t (builtin_rows_1 ++ builtin_rows_2).

(** ** Start and end of the shell *)

(** The variables of [shell_init_context]. *)
Definition init_variables : list (list Z * list Z) :=
  [(str "HOME", str "/home/root"); (str "PATH", str "/bin:/usr/bin:/usr/local/bin");
   (str "PWD", str "/"); (str "SHELL", str "/bin/msh.mex");
   (str "USER", str "root"); (str "LOGNAME", str "root");
   (str "HOSTNAME", str "miraos"); (str "TERM", str "xterm-256color");
   (str "LANG", str "en_US.UTF-8"); (str "LC_ALL", str "en_US.UTF-8");
   (str "EDITOR", str "vi"); (str "VISUAL", str "vi");
   (str "PAGER", str "less"); (str "UMASK", str "0022");
   (str "PS1", str "root@miraos:/# "); (str "PS2", str "> ");
   (str "PS4", str "+ "); (str "IFS", [32; 9; 10]);
   (str "0", str "msh.mex"); (str "?", str "0");
   (str "$", str "1"); (str "!", str "0");
   (str "HUP_IGNORED", str "0")].
Definition init_exports : list (list Z) := str <$> ["HOME"; "PATH"; "PWD"; "SHELL"; "USER"; "LOGNAME"; "HOSTNAME"; "TERM"; "LANG"; "LC_ALL"].

Section start.
Context {H : Type} `{!Allocator H}.
Local Abbreviation shell := (shell H).
Implicit Types s : shell.

Fixpoint set_all (l : list (list Z * list Z)) : M shell unit :=
  match l with
  | [] => ret tt
  | (n, v) :: r => shell_set_variable n v ;;; set_all r
  end.
Fixpoint export_all (l : list (list Z)) : M shell unit :=
  match l with
  | [] => ret tt
  | n :: r => shell_export_variable n ;;; export_all r
  end.
Definition shell_init_context : M shell unit :=
  modify (set_ctx (mkCtx false 0 (str "/"))) ;;;
  set_all init_variables ;;;
  export_all init_exports.

(** The line is built in [buf[256]]. *)
Fixpoint jobs_loop (l : list shell_job_t) : M shell unit :=
  match l with
  | [] => ret tt
  | j :: r =>
      let line := int_to_str (job_id j) ++ [32] ++ str (if j_running j then "Running" else "Stopped") ++ [32] ++ j_command j ++ [10] in
      fit 256 line (draw_string line) ;;;
      jobs_loop r
  end.
Definition shell_job_list : M shell unit := s <-- get ;; jobs_loop (global_jobs s).

Definition shell_signal_handler (signal : Z) : M shell unit := ret tt.
Definition shell_cleanup : M shell unit := s <-- get ;; free_all (global_history s).

Lemma shell_init_context_run s :
  global_vars s = [] ->
  exists l, shell_init_context s = Ret tt (set_vars l (set_ctx (mkCtx false 0 (str "/")) s)) /\ vars_wf l /\
    v_name <$> l = init_variables.*1 /\ v_value <$> l = init_variables.*2 /\
    v_name <$> filter (λ v, v_exported v = true) l = [str "HOME"; str "PATH"; str "PWD"; str "SHELL"; str "USER"; str "LOGNAME"; str "HOSTNAME"; str "TERM"; str "LANG"; str "LC_ALL"].
Proof.
  destruct s as [al st vs ali hi jo fu ct ou]. cbn [global_vars]. intros ->. eexists. split; [vm_compute; reflexivity|].
  split; [|by vm_compute]. split; [apply (bool_decide_unpack _); vm_compute; exact I|vm_compute; discriminate].
Qed.

(** The history is freed once. *)
Lemma shell_cleanup_run s hs :
  history_rep s hs -> exists h, shell_cleanup s = Ret tt (set_alloc h s) /\ forall p, p ∈ live h <-> p ∈ live_of s /\ p ∉ global_history s.
Proof.
  intros [_ H2 H3 _]. unfold shell_cleanup. rewrite bind_get. rewrite Forall_forall in H2.
  destruct (free_all_run (live_of s ∖ list_to_set (global_history s)) (global_history s) [] s) as (h & E & [_ _ _ H4]).
  - rewrite app_nil_r. split; [done|intros Hz; by destruct (H2 _ Hz)|set_solver|]. intros p. rewrite elem_of_difference, elem_of_list_to_set.
    split; [intros Hp; destruct (decide (p ∈ global_history s)); [by left|by right]|]. intros [Hp|[Hp _]]; [by apply H2|done].
  - exists h. split; [done|]. intros p. specialize (H4 p). unfold live_of in H4 at 1. cbn [sh_alloc set_alloc] in H4. rewrite H4. set_solver.
Qed.
End start.

(** ** The shell over the file system *)

Section vfs_allocation.
Context {H : Type} `{!Allocator H}.

Lemma vmalloc_law n (s : vfs H) : (exists msg t, vmalloc n s = Panic msg t) \/
  exists p s', vmalloc n s = Ret p s' /\
    ((p = 0 /\ live (fs_alloc s') = live (fs_alloc s)) \/
     (p <> 0 /\ p ∉ live (fs_alloc s) ∪ static /\ live (fs_alloc s') = {[p]} ∪ live (fs_alloc s))).
Proof.
  unfold vmalloc, zoom. destruct (malloc_law n (fs_alloc s)) as [(msg & t & ->)|(p & h & -> & Hp)]; [left; eauto|right].
  by exists p, (Vfs.set_alloc h s).
Qed.

Lemma vfree_law p (s : vfs H) : p ∈ live (fs_alloc s) ->
  exists s', vfree p s = Ret tt s' /\ live (fs_alloc s') = live (fs_alloc s) ∖ {[p]}.
Proof.
  intros Hp. unfold vfree, zoom. destruct (free_law p _ Hp) as (h & -> & Eh). by exists (Vfs.set_alloc h s).
Qed.

#[global] Instance vfs_allocator : Allocator (vfs H) := {|
  malloc := vmalloc;
  free := vfree;
  live s := live (fs_alloc s);
  static := static;
  malloc_law := vmalloc_law;
  free_law := vfree_law
|}.

#[global] Instance vfs_never_out `{!NeverOut H} : NeverOut (vfs H).
Proof.
  intros n s. destruct (never_out n (fs_alloc s)) as (p & h & E & Hp). exists p, (Vfs.set_alloc h s).
  split; [|done]. unfold malloc, vfs_allocator, vmalloc, zoom. by rewrite E.
Qed.
End vfs_allocation.

(** ** The builtins *)

Section builtins.
Context {H : Type} `{!Allocator H}.
Local Abbreviation shell := (shell (vfs H)).
Local Abbreviation handler := (handler (vfs H)).
Local Abbreviation callbacks := (callbacks (vfs H)).
Implicit Types (s : shell) (n : ast_node_t) (cb : callbacks).

Definition arg_count n : nat := length (argv (cmd n)).
(** [node->data.cmd.args[i]]. *)
Definition arg n (i : nat) : M shell (list Z) := p <-- of_option (argv (cmd n) !! i) ;; str_at p.
Definition on_vfs {A} (m : M (vfs H) A) : M shell A := zoom sh_alloc set_alloc m.

Fixpoint each (l : list Z) (f : list Z -> M shell unit) : M shell unit :=
  match l with
  | [] => ret tt
  | p :: r => a <-- str_at p ;; f a ;;; each r f
  end.
(** [for (i = 1; i < arg_count; i++)]. *)
Definition each_arg n (f : list Z -> M shell unit) : M shell unit := each (drop 1 (argv (cmd n))) f.

(** The text on both sides of the first [=]. *)
Fixpoint split_eq (l : list Z) : option (list Z * list Z) :=
  match l with
  | [] => None
  | c :: r => if c =? 61 then Some ([], r) else '(a, b) ← split_eq r; Some (c :: a, b)
  end.

(** The characters that [echo] draws for a resolved argument. *)
Fixpoint unescape (fuel : nat) (l : list Z) : list Z :=
  match fuel, l with
  | S fuel', c :: ((d :: r') as r) => if c =? 92 then escape_of d :: unescape fuel' r' else c :: unescape fuel' r
  | _, _ => l
  end.

Fixpoint echo_loop (l : list Z) : M shell unit :=
  match l with
  | [] => ret tt
  | p :: r =>
      a <-- str_at p ;;
      resolved <-- shell_resolve_variables a ;;
      draw_string (unescape (length resolved) resolved) ;;;
      (match r with [] => ret tt | _ => draw_char 32 end) ;;;
      echo_loop r
  end.
Definition builtin_echo : handler := λ cb n,
  a <-- (if (1 <? arg_count n)%nat then arg n 1 else ret []) ;;
  let quiet := (1 <? arg_count n)%nat && bool_decide (a = str "-n") in
  echo_loop (drop (if quiet then 2 else 1)%nat (argv (cmd n))) ;;;
  (if quiet then ret tt else draw_char 10) ;;;
  ret 0.

(** [ctx->current_dir] has 256 bytes. *)
Definition builtin_cd : handler := λ cb n,
  path <-- (if (1 <? arg_count n)%nat then arg n 1 else shell_get_variable (str "HOME")) ;;
  resolved <-- shell_resolve_variables path ;;
  fit 256 resolved (modify (λ s, set_ctx (mkCtx (exit_requested (shell_ctx s)) (last_exit_status (shell_ctx s)) resolved) s)) ;;;
  shell_set_variable (str "PWD") resolved ;;;
  ret 0.

Definition builtin_pwd : handler := λ cb n,
  s <-- get ;; draw_string (current_dir (shell_ctx s)) ;;; draw_char 10 ;;; ret 0.

Definition builtin_export : handler := λ cb n,
  each_arg n (λ a, match split_eq a with
                   | Some (name, value) => shell_set_variable name value ;;; shell_export_variable name
                   | None => shell_export_variable a
                   end) ;;;
  ret 0.
Definition builtin_set : handler := λ cb n,
  each_arg n (λ a, match split_eq a with
                   | Some (name, value) => shell_set_variable name value
                   | None => ret tt
                   end) ;;;
  ret 0.
Definition builtin_unset : handler := λ cb n, each_arg n unset_variable ;;; ret 0.

Fixpoint env_loop (l : list shell_var_t) : M shell unit :=
  match l with
  | [] => ret tt
  | v :: r =>
      (if v_exported v then draw_string (v_name v) ;;; draw_char 61 ;;; draw_string (v_value v) ;;; draw_char 10 else ret tt) ;;;
      env_loop r
  end.
Definition builtin_env : handler := λ cb n, s <-- get ;; env_loop (global_vars s) ;;; ret 0.

Definition builtin_history : handler := λ cb n,
  s <-- get ;;
  let total := Z.of_nat (length (global_history s)) in
  count <-- (if (1 <? arg_count n)%nat then a <-- arg n 1 ;; ret (atoi_simple a) else ret total) ;;
  let count := if total <? count then total else count in
  for_range (s32 (total - count)) total (λ i,
    draw_string (int_to_str (i + 1) ++ str "  ") ;;;
    p <-- of_option (aget (global_history s) i) ;;
    a <-- str_at p ;;
    draw_string a ;;;
    draw_char 10) ;;;
  ret 0.

Fixpoint alias_list (l : list shell_alias_t) : M shell unit :=
  match l with
  | [] => ret tt
  | a :: r =>
      draw_string (str "alias ") ;;; draw_string (a_name a) ;;; draw_char 61 ;;; draw_string (a_value a) ;;; draw_char 10 ;;;
      alias_list r
  end.
Definition builtin_alias : handler := λ cb n,
  if (arg_count n =? 1)%nat then s <-- get ;; alias_list (global_aliases s) ;;; ret 0
  else
    each_arg n (λ a, match split_eq a with
                     | Some (name, value) => shell_add_alias name value
                     | None => ret tt
                     end) ;;;
    ret 0.
Definition builtin_unalias : handler := λ cb n, each_arg n remove_alias ;;; ret 0.

Definition builtin_jobs : handler := λ cb n, s <-- get ;; jobs_loop (global_jobs s) ;;; ret 0.

(** [fg] and [bg]: the first job with the number is marked as running. *)
Definition resume_job (name : string) : handler := λ cb n,
  if (arg_count n <? 2)%nat then shell_print_error (str name ++ str ": missing job spec") ;;; ret 1
  else
    a <-- arg n 1 ;;
    s <-- get ;;
    match list_find (λ j, s32 (job_id j) = atoi_simple a) (global_jobs s) with
    | Some (i, _) => modify (set_jobs (alter resume i (global_jobs s))) ;;; ret 0
    | None => shell_print_error (str name ++ str ": job not found") ;;; ret 1
    end.
Definition builtin_fg : handler := resume_job "fg".
Definition builtin_bg : handler := resume_job "bg".

Definition builtin_exit : handler := λ cb n,
  s <-- get ;;
  status <-- (if (1 <? arg_count n)%nat then a <-- arg n 1 ;; ret (atoi_simple a) else ret (last_exit_status (shell_ctx s))) ;;
  modify (λ s, set_ctx (mkCtx true (last_exit_status (shell_ctx s)) (current_dir (shell_ctx s))) s) ;;;
  ret status.

(** The builtins that only write text: each its text; each its error. *)
Definition prints (lines : list string) : handler := λ cb n, draw_string (concat ((λ l, str l ++ [10]) <$> lines)) ;;; ret 0.
Definition fails_with (msg : string) : handler := λ cb n, shell_print_error (str msg) ;;; ret 1.
Definition status (v : Z) : handler := λ cb n, ret v.

Section with_table.
(** The registered builtins, the bound on loops that may not end, the other builtins. *)
Variables (table : list builtin_cmd_t) (spins : nat) (ticks : M shell Z) (device : string -> handler).

Fixpoint help_loop (l : list builtin_cmd_t) : M shell unit :=
  match l with
  | [] => ret tt
  | b :: r =>
      let line := str "  " ++ b_name b ++ str " - " ++ b_desc b ++ [10] in
      fit 128 line (draw_string line) ;;;
      help_loop r
  end.
Definition builtin_help : handler := λ cb n,
  draw_string (str "MiraOS Shell (msh.mex) - Built-in Commands:" ++ [10]) ;;;
  draw_string (str "===========================================" ++ [10]) ;;;
  help_loop table ;;;
  ret 0.

Definition builtin_type : handler := λ cb n,
  each_arg n (λ a, match find_builtin table a with
                   | Some _ => draw_string a ;;; draw_string (str " is a shell builtin" ++ [10])
                   | None => let line := a ++ str " is not a builtin" ++ [10] in fit 128 line (draw_string line)
                   end) ;;;
  ret 0.

Definition builtin_which : handler := λ cb n,
  if (arg_count n <? 2)%nat then ret 1
  else
    a <-- arg n 1 ;;
    match find_builtin table a with
    | Some _ => draw_string (str "/usr/bin/") ;;; draw_string a ;;; draw_char 10 ;;; ret 0
    | None => shell_print_error (str "which: not found") ;;; ret 1
    end.

(** [return b ? 0 : 1]. *)
Definition truth_status (b : bool) : M shell Z := ret (if b then 0 else 1).
Definition builtin_test : handler := λ cb n,
  if (arg_count n <? 2)%nat then ret 1
  else
    op <-- (if (2 <? arg_count n)%nat then arg n 1 else ret []) ;;
    if bool_decide (op = str "-z") then a <-- arg n 2 ;; truth_status (bool_decide (a = []))
    else if bool_decide (op = str "-n") then a <-- arg n 2 ;; truth_status (negb (bool_decide (a = [])))
    else if bool_decide (op = str "=") || bool_decide (op = str "==") then
      a <-- arg n 1 ;; b <-- arg n 2 ;; truth_status (bool_decide (a = b))
    else if bool_decide (op = str "!=") then a <-- arg n 1 ;; b <-- arg n 2 ;; truth_status (negb (bool_decide (a = b)))
    else if bool_decide (op = str "-eq") then
      a <-- arg n 1 ;; b <-- arg n 2 ;; truth_status (atoi_simple a =? atoi_simple b)
    else if bool_decide (op = str "-ne") then
      a <-- arg n 1 ;; b <-- arg n 2 ;; truth_status (negb (atoi_simple a =? atoi_simple b))
    else if bool_decide (op = str "-lt") then
      a <-- arg n 1 ;; b <-- arg n 2 ;; truth_status (atoi_simple a <? atoi_simple b)
    else if bool_decide (op = str "-gt") then
      a <-- arg n 1 ;; b <-- arg n 2 ;; truth_status (atoi_simple b <? atoi_simple a)
    else ret 1.

Fixpoint printf_loop (fmt : list Z) (l : list Z) : M shell unit :=
  match l with
  | [] => ret tt
  | p :: r =>
      (if bool_decide (fmt = str "%s") then a <-- str_at p ;; draw_string a
       else if bool_decide (fmt = str "%d") || bool_decide (fmt = str "%i") then
         a <-- str_at p ;; draw_string (int_to_str (atoi_simple a))
       else if bool_decide (fmt = str "%c") then a <-- str_at p ;; draw_char (u8 (atoi_simple a))
       else ret tt) ;;;
      printf_loop fmt r
  end.
Definition builtin_printf : handler := λ cb n,
  if (arg_count n <? 2)%nat then ret 0
  else fmt <-- arg n 1 ;; printf_loop fmt (drop 2 (argv (cmd n))) ;;; draw_char 10 ;;; ret 0.

(** [umask] and [hostname]: a variable is set or shown. *)
Definition set_or_show (name : list Z) : handler := λ cb n,
  (if (1 <? arg_count n)%nat then a <-- arg n 1 ;; shell_set_variable name a
   else v <-- shell_get_variable name ;; draw_string v ;;; draw_char 10) ;;;
  ret 0.
Definition builtin_umask : handler := set_or_show (str "UMASK").
Definition builtin_hostname : handler := set_or_show (str "HOSTNAME").

Definition builtin_shift : handler := λ cb n,
  k <-- (if (1 <? arg_count n)%nat then a <-- arg n 1 ;; ret (atoi_simple a) else ret 1) ;;
  for_range 0 k (λ _, for_range 1 10 (λ j, shell_set_variable_int [48 + j] (s32 (j + k)))) ;;;
  ret 0.

Definition builtin_kill : handler := λ cb n,
  if (arg_count n <? 2)%nat then shell_print_error (str "kill: missing operand") ;;; ret 1
  else
    a <-- arg n 1 ;;
    s <-- get ;;
    match list_find (λ j, j_pid j = u32 (atoi_simple a)) (global_jobs s) with
    | Some (i, _) => modify (set_jobs (alter stop i (global_jobs s))) ;;; ret 0
    | None => shell_print_error (str "kill: no such process") ;;; ret 1
    end.

(** [strstr] of the command and the argument. *)
Definition contains (needle command : list Z) : bool :=
  match strstr (command ++ [0]) (needle ++ [0]) with Some (Some _) => true | _ => false end.
Definition builtin_killall : handler := λ cb n,
  if (arg_count n <? 2)%nat then ret 1
  else
    a <-- arg n 1 ;;
    modify (λ s, set_jobs ((λ j, if contains a (j_command j) then stop j else j) <$> global_jobs s) s) ;;;
    ret 0.

(** [nohup] and [exec] run [node->children[0]] of their command. *)
Definition builtin_nohup : handler := λ cb n,
  if (arg_count n <? 2)%nat then ret 1
  else
    shell_set_variable (str "HUP_IGNORED") (str "1") ;;;
    x <-- of_option (kids n !! 0%nat) ;;
    cb_ast cb (Some x).
Definition builtin_exec : handler := λ cb n,
  if (arg_count n <? 2)%nat then ret 0 else x <-- of_option (kids n !! 0%nat) ;; cb_ast cb (Some x).

(** [while (timer_ticks() < end)]: the command behind the time runs again and again. *)
Definition timed_command n : ast_node_t := Node 0 NODE_COMMAND 0 [] (mkCmd (args (cmd n) + 16) (drop 2 (argv (cmd n))) 0 0 false false).
Fixpoint timeout_loop (fuel : nat) cb (end_ : Z) (command : ast_node_t) : M shell unit :=
  match fuel with
  | O => nofuel
  | S fuel' =>
      t <-- ticks ;;
      if t <? end_ then cb_ast cb (Some command) ;;; timeout_loop fuel' cb end_ command else ret tt
  end.
Definition builtin_timeout : handler := λ cb n,
  if (arg_count n <? 3)%nat then ret 1
  else
    t <-- ticks ;;
    a <-- arg n 1 ;;
    timeout_loop spins cb (u64 (t + u64 (atoi_simple a) * 100)) (timed_command n) ;;;
    ret 0.

(** [while (global_jobs[i].running)]: nothing stops the job meanwhile. *)
Fixpoint wait_job (fuel : nat) (i : nat) : M shell unit :=
  match fuel with
  | O => nofuel
  | S fuel' =>
      s <-- get ;;
      j <-- of_option (global_jobs s !! i) ;;
      if j_running j then wait_job fuel' i else ret tt
  end.
Fixpoint wait_loop (k : nat) (i : nat) : M shell unit :=
  match k with
  | O => ret tt
  | S k' => wait_job spins i ;;; wait_loop k' (S i)
  end.
Definition builtin_wait : handler := λ cb n, s <-- get ;; wait_loop (length (global_jobs s)) 0 ;;; ret 0.

Fixpoint yes_loop (fuel : nat) (l : list Z) : M shell Z :=
  match fuel with
  | O => nofuel
  | S fuel' => draw_string l ;;; draw_char 10 ;;; yes_loop fuel' l
  end.
Definition builtin_yes : handler := λ cb n,
  l <-- (if (1 <? arg_count n)%nat then arg n 1 else ret (str "y")) ;; yes_loop spins l.

(** [shell_run_script] with [buf[SHELL_MAX_CMD_LEN]]. *)
Definition shell_run_script cb (path : list Z) : M shell unit :=
  fd <-- on_vfs (vfs_open path 0) ;;
  if fd <? 0 then shell_print_error (str "script not found")
  else
    r <-- on_vfs (vfs_read fd (SHELL_MAX_CMD_LEN - 1)) ;;
    (if 0 <? r.1 then cb_command cb (take_while (λ c, negb (c =? 0)) r.2).1 else ret tt) ;;;
    on_vfs (vfs_close fd) ;;;
    ret tt.
Definition builtin_dot : handler := λ cb n,
  if (arg_count n <? 2)%nat then shell_print_error (str ". : filename argument required") ;;; ret 1
  else a <-- arg n 1 ;; shell_run_script cb a ;;; ret 0.
Definition builtin_source : handler := builtin_dot.

(** The arguments with blanks between them, in [buf[SHELL_MAX_CMD_LEN]]. *)
Fixpoint eval_text (l : list Z) (buf : list Z) : M shell (list Z) :=
  match l with
  | [] => ret buf
  | p :: r =>
      if SHELL_MAX_CMD_LEN - 1 <=? Z.of_nat (length buf) then ret buf
      else
        a <-- str_at p ;;
        let buf := buf ++ take (Z.to_nat (SHELL_MAX_CMD_LEN - 1 - Z.of_nat (length buf))) a in
        eval_text r (match r with
                     | [] => buf
                     | _ => if Z.of_nat (length buf) <? SHELL_MAX_CMD_LEN - 1 then buf ++ [32] else buf
                     end)
  end.
Definition builtin_eval : handler := λ cb n,
  if (arg_count n <? 2)%nat then ret 0
  else buf <-- eval_text (drop 1 (argv (cmd n))) [] ;; cb_command cb buf ;;; ret 0.

(** An operator takes the number behind it; a division by zero, or of the least number by -1, traps. *)
Fixpoint let_loop (l : list Z) (result : Z) : option Z :=
  match l with
  | [] => Some result
  | c :: r =>
      let v := atoi_simple r in
      if c =? 43 then let_loop r (s32 (result + v))
      else if c =? 45 then let_loop r (s32 (result - v))
      else if c =? 42 then let_loop r (s32 (result * v))
      else if c =? 47 then
        if (v =? 0) || ((result =? - 2 ^ 31) && (v =? -1)) then None else let_loop r (Z.quot result v)
      else let_loop r result
  end.
Definition builtin_let : handler := λ cb n,
  if (arg_count n <? 2)%nat then ret 1
  else
    expr <-- arg n 1 ;;
    result <-- of_option (let_loop expr 0) ;;
    shell_set_variable (str "?") (int_to_str result) ;;;
    ret (if result =? 0 then 0 else 1).

(** [while ((n = vfs_read(fd, buf, 255)) > 0)]: each part is drawn up to its first zero. *)
Fixpoint cat_loop (fuel : nat) (fd : Z) : M shell unit :=
  match fuel with
  | O => nofuel
  | S fuel' =>
      r <-- on_vfs (vfs_read fd 255) ;;
      if 0 <? r.1 then draw_string (take_while (λ c, negb (c =? 0)) r.2).1 ;;; cat_loop fuel' fd else ret tt
  end.
Definition builtin_cat : handler := λ cb n,
  each_arg n (λ a,
    fd <-- on_vfs (vfs_open a 0) ;;
    if fd <? 0 then
      let line := str "cat: " ++ a ++ str ": No such file or directory" ++ [10] in fit 128 line (draw_string line)
    else cat_loop spins fd ;;; on_vfs (vfs_close fd) ;;; draw_char 10) ;;;
  ret 0.

(** A line of [ls]: the size is written over the last three characters of [root ]. *)
Definition ls_line (n : vfs_node) : list Z :=
  take 20 (str "drwxr-xr-x 1 root root ") ++ int_to_str (s32 (n_size n)) ++ [32] ++ n_name n ++ [10].
Fixpoint ls_loop (fuel : nat) (child : Z) : M shell unit :=
  match fuel with
  | O => nofuel
  | S fuel' =>
      if child =? 0 then ret tt
      else
        n <-- on_vfs (node_get child) ;;
        fit 256 (ls_line n) (draw_string (ls_line n)) ;;;
        ls_loop fuel' (n_next n)
  end.
Definition builtin_ls : handler := λ cb n,
  path <-- (if (1 <? arg_count n)%nat then arg n 1 else ret (str "/")) ;;
  dir <-- on_vfs (vfs_lookup path) ;;
  is_dir <-- (if dir =? 0 then ret false else d <-- on_vfs (node_get dir) ;; ret (n_type d =? VFS_TYPE_DIR)) ;;
  if negb is_dir then
    let line := str "ls: cannot access '" ++ path ++ str "': No such directory" ++ [10] in
    fit 128 line (draw_string line) ;;; ret 1
  else
    draw_string (str "total 0" ++ [10]) ;;;
    d <-- on_vfs (node_get dir) ;;
    ls_loop spins (n_children d) ;;;
    ret 0.

Definition create (name : string) : handler := λ cb n,
  if (arg_count n <? 2)%nat then shell_print_error (str name) ;;; ret 1
  else a <-- arg n 1 ;; on_vfs (vfs_create_file a []) ;;; ret 0.
Definition builtin_mkdir : handler := create "mkdir: missing operand".
Definition builtin_touch : handler := create "touch: missing file operand".

Definition builtin_uname : handler := λ cb n,
  all <-- (fix any (l : list Z) : M shell bool :=
    match l with
    | [] => ret false
    | p :: r => a <-- str_at p ;; b <-- any r ;; ret (bool_decide (a = str "-a") || b)
    end) (drop 1 (argv (cmd n))) ;;
  draw_string (if all : bool then str "MiraOS msh.mex 1.0.0 x86_64 GNU/MiraOS" ++ [10] else str "MiraOS" ++ [10]) ;;;
  ret 0.
Definition builtin_bracket : handler := builtin_test.

(** The functions by their names. *)
Definition handlers : list (string * handler) :=
  [("builtin_echo", builtin_echo);
   ("builtin_cd", builtin_cd);
   ("builtin_pwd", builtin_pwd);
   ("builtin_export", builtin_export);
   ("builtin_set", builtin_set);
   ("builtin_unset", builtin_unset);
   ("builtin_env", builtin_env);
   ("builtin_history", builtin_history);
   ("builtin_alias", builtin_alias);
   ("builtin_unalias", builtin_unalias);
   ("builtin_jobs", builtin_jobs);
   ("builtin_fg", builtin_fg);
   ("builtin_bg", builtin_bg);
   ("builtin_exit", builtin_exit);
   ("builtin_help", builtin_help);
   ("builtin_type", builtin_type);
   ("builtin_which", builtin_which);
   ("builtin_test", builtin_test);
   ("builtin_printf", builtin_printf);
   ("builtin_umask", builtin_umask);
   ("builtin_hostname", builtin_hostname);
   ("builtin_shift", builtin_shift);
   ("builtin_kill", builtin_kill);
   ("builtin_killall", builtin_killall);
   ("builtin_nohup", builtin_nohup);
   ("builtin_exec", builtin_exec);
   ("builtin_timeout", builtin_timeout);
   ("builtin_wait", builtin_wait);
   ("builtin_yes", builtin_yes);
   ("builtin_dot", builtin_dot);
   ("builtin_source", builtin_source);
   ("builtin_eval", builtin_eval);
   ("builtin_let", builtin_let);
   ("builtin_cat", builtin_cat);
   ("builtin_ls", builtin_ls);
   ("builtin_mkdir", builtin_mkdir);
   ("builtin_touch", builtin_touch);
   ("builtin_uname", builtin_uname);
   ("builtin_bracket", builtin_bracket)] ++
  ((λ l, ("builtin_" +:+ l.1, prints l.2)) <$> printed) ++
  ((λ l, ("builtin_" +:+ l, fails_with (l +:+ ": network not available"))) <$> ["ssh"; "scp"; "wget"; "curl"; "ping"]) ++
  ((λ l, ("builtin_" +:+ l, fails_with (l +:+ ": operation not supported"))) <$> ["umount"; "mount"]) ++
  ((λ l, ("builtin_" +:+ l, status 0)) <$> ["true"; "trap"; "partprobe"]) ++
  ((λ l, ("builtin_" +:+ l, status 1)) <$> ["false"; "nice"; "renice"; "pgrep"; "pkill"]) ++
  ((λ l, ("builtin_" +:+ l, fails_with (l +:+ ": unsupported in this build"))) <$>
    (unsupported_files ++ unsupported_text ++ unsupported_tools ++ unsupported_system)).
Fixpoint find_handler (l : list (string * handler)) (name : string) : handler :=
  match l with
  | [] => device name
  | (f, h) :: r => if String.eqb f name then h else find_handler r name
  end.
Definition run_builtin (name : string) : handler := find_handler handlers name.
End with_table.
End builtins.

(** ** The builtins and their callbacks *)

Section callbacks_of_builtins.
Context {H : Type} `{!Allocator H}.
Local Abbreviation shell := (shell (vfs H)).
Local Abbreviation handler := (handler (vfs H)).
Variables (table : list builtin_cmd_t) (spins : nat) (ticks : M shell Z) (device : string -> handler).

Lemma constant_monotone (h : handler) : (forall cb cb' n, h cb n = h cb' n) -> monotone h.
Proof. intros He cb cb' n _. rewrite (He cb cb'). apply m_le_refl. Qed.

Lemma exec_monotone : monotone (builtin_exec (H := H)).
Proof.
  intros cb cb' n Hc. unfold builtin_exec. destruct (_ <? _)%nat; [apply m_le_refl|]. apply m_le_same. intros x. apply (proj1 Hc).
Qed.

Lemma nohup_monotone : monotone (builtin_nohup (H := H)).
Proof.
  intros cb cb' n Hc. unfold builtin_nohup. destruct (_ <? _)%nat; [apply m_le_refl|]. do 2 (apply m_le_same; intros ?). apply (proj1 Hc).
Qed.

Lemma dot_monotone : monotone (builtin_dot (H := H)).
Proof.
  intros cb cb' n Hc. unfold builtin_dot. destruct (_ <? _)%nat; [apply m_le_refl|]. apply m_le_same. intros a.
  apply m_le_bind; [|intros _; apply m_le_refl]. unfold shell_run_script. apply m_le_same. intros fd. destruct (fd <? 0); [apply m_le_refl|].
  apply m_le_same. intros r. apply m_le_bind; [|intros _; apply m_le_refl]. destruct (0 <? r.1); [apply (proj2 Hc)|apply m_le_refl].
Qed.

Lemma eval_monotone : monotone (builtin_eval (H := H)).
Proof.
  intros cb cb' n Hc. unfold builtin_eval. destruct (_ <? _)%nat; [apply m_le_refl|]. apply m_le_same. intros buf.
  apply m_le_bind; [apply (proj2 Hc)|]. intros _. apply m_le_refl.
Qed.

Lemma timeout_monotone : monotone (builtin_timeout spins ticks).
Proof.
  intros cb cb' n Hc. unfold builtin_timeout. destruct (_ <? _)%nat; [apply m_le_refl|]. do 2 (apply m_le_same; intros ?).
  apply m_le_bind; [|intros _; apply m_le_refl]. generalize spins as k. intros k. induction k as [|k IH]; [apply m_le_refl|].
  apply m_le_same. intros t. destruct (_ <? _); [|apply m_le_refl]. apply m_le_bind; [apply (proj1 Hc)|]. intros _. exact IH.
Qed.

Lemma find_handler_monotone l name :
  Forall (λ f : string * handler, monotone f.2) l -> monotone (device name) -> monotone (find_handler device l name).
Proof. intros Hl Hd. induction Hl as [|[f h] l Hh Hl IH]; [done|]. cbn [find_handler]. by destruct (String.eqb f name). Qed.

Lemma run_builtin_monotone name : (forall f, monotone (device f)) -> monotone (run_builtin table spins ticks device name).
Proof.
  intros Hd. apply find_handler_monotone; [|apply Hd]. unfold handlers. rewrite !Forall_app.
  split; [|split_and!; apply Forall_fmap, Forall_true; intros x; by apply constant_monotone].
  repeat (apply Forall_cons; split; [first [exact exec_monotone|exact nohup_monotone|exact dot_monotone|exact eval_monotone|exact timeout_monotone|by apply constant_monotone]|]).
  by apply Forall_nil.
Qed.
End callbacks_of_builtins.

(** ** Properties *)

Section shell_builtin_properties.
Context {H : Type} `{!Allocator H}.
Local Abbreviation shell := (shell (vfs H)).
Local Abbreviation handler := (handler (vfs H)).
Implicit Types s : shell.

(** [test a OP b] fails for every operator, unless [a] is itself spelled like an operator: the
    operator is taken from the place of the first operand. *)
Theorem test_takes_first_operand cb n a op b x y z w s :
  argv (cmd n) = [w; x; y; z] -> sh_strs s !! x = Some a -> sh_strs s !! y = Some op -> sh_strs s !! z = Some b ->
  a ∉ str <$> ["-z"; "-n"; "="; "=="; "!="; "-eq"; "-ne"; "-lt"; "-gt"] ->
  builtin_test cb n s = Ret 1 s.
Proof.
  intros En Ex Ey Ez Ha. unfold builtin_test, arg_count, arg. rewrite En. cbn [length Nat.ltb Nat.leb lookup list_lookup].
  unfold str_at. rewrite bind_assoc, bind_option, bind_assoc, bind_get, Ex, bind_option.
  cbn [fmap list_fmap] in Ha. rewrite !not_elem_of_cons in Ha. destruct Ha as (H1 & H2 & H3 & H4 & H5 & H6 & H7 & H8 & H9 & _).
  by rewrite !bool_decide_false by done.
Qed.

(** [let] loses its first operand: the sum of two numbers is the second. *)
Theorem let_loses_first_operand a b :
  0 <= a < 2 ^ 31 -> 0 <= b < 2 ^ 31 -> let_loop (int_to_str a ++ 43 :: int_to_str b) 0 = Some b.
Proof.
  intros Ha Hb. assert (forall l t r, Forall (λ c, is_digit c = true) l -> let_loop (l ++ t) r = let_loop t r) as Hskip.
  { intros l t r Hl. induction Hl as [|c l Hc Hl IH]; [done|]. cbn [app let_loop]. unfold is_digit in Hc.
    assert ((c =? 43) = false /\ (c =? 45) = false /\ (c =? 42) = false /\ (c =? 47) = false) as (-> & -> & -> & ->) by lia. done. }
  rewrite Hskip by by apply int_to_str_digits. cbn [let_loop]. change (43 =? 43) with true. cbn match.
  rewrite int_to_str_run by lia. rewrite signed_small by (simpl; lia). cbn [Z.add].
  rewrite <- (app_nil_r (int_to_str b)) at 1. by rewrite Hskip by by apply int_to_str_digits.
Qed.

(** [exec] and [nohup] with a command read a child that a command does not have. *)
Theorem exec_has_no_child cb n s :
  (2 <= arg_count n)%nat -> kids n = [] -> builtin_exec cb n s = Stuck.
Proof. intros Hn Hk. unfold builtin_exec. destruct (Nat.ltb_spec (arg_count n) 2); [lia|]. by rewrite Hk. Qed.

(** A variable can be exported with a value: [export NAME=VALUE] as one argument gives the variable
    that value, marks it, and keeps every other variable. *)
Theorem export_sets cb n w x name value s :
  argv (cmd n) = [w; x] -> sh_strs s !! x = Some (name ++ 61 :: value) -> 61 ∉ name ->
  vars_wf (global_vars s) -> Z.of_nat (length (global_vars s)) < SHELL_MAX_VARS ->
  Z.of_nat (length name) < 64 -> Z.of_nat (length value) < 256 ->
  exists l i, builtin_export cb n s = Ret 0 (set_vars l s) /\
    vars_map l = <[name := value]> (vars_map (global_vars s)) /\
    var_index l name = Some i /\ v_exported <$> l !! i = Some true.
Proof.
  intros En Ex Hne Hw Hc Hn Hv. assert (split_eq (name ++ 61 :: value) = Some (name, value)) as Es.
  { clear -Hne. induction name as [|c name IH]; [done|]. apply not_elem_of_cons in Hne as [Hcc Hne]. cbn [app split_eq].
    destruct (Z.eqb_spec c 61); [by subst|]. by rewrite IH. }
  unfold builtin_export, each_arg. rewrite En. change (drop 1 [w; x]) with [x]. cbn [each]. rewrite !bind_assoc. unfold str_at.
  rewrite bind_assoc, bind_get, Ex, bind_option, Es.
  destruct (set_variable_run s name value Hw Hn Hv) as (l & E & Hl & Em). rewrite !bind_assoc, (bind_Ret _ _ _ _ _ E).
  destruct (export_variable_run (set_vars l s) name Hl) as (l' & E' & _ & Em' & Hx). rewrite (bind_Ret _ _ _ _ _ E').
  change (global_vars (set_vars l s)) with l in *. rewrite decide_True in Em by (by right). destruct Hx as (i & Hi & Hx).
  { rewrite Em, lookup_insert_eq. by eexists. }
  exists l', i. split; [reflexivity|]. split; [by rewrite Em'|done].
Qed.

(** The table holds the first 128 of the 184 builtins; the other 56 are not found. *)
Theorem registry_is_cut :
  length (shell_register_builtins []) = 128%nat /\
  Forall (λ b, find_builtin (shell_register_builtins []) (str b.1.1) = Some (mkBuiltin (str b.1.1) b.1.2 (str b.2)))
    (take 128 (builtin_rows_1 ++ builtin_rows_2)) /\
  length (drop 128 (builtin_rows_1 ++ builtin_rows_2)) = 56%nat /\
  Forall (λ b, find_builtin (shell_register_builtins []) (str b.1.1) = None) (drop 128 (builtin_rows_1 ++ builtin_rows_2)).
Proof.
  split; [vm_compute; reflexivity|]. split; [|split; [vm_compute; reflexivity|]]; apply (bool_decide_unpack _); vm_compute; exact I.
Qed.
End shell_builtin_properties.

Section shell_builtin_witnesses.
#[local] Existing Instance endless_allocator.
#[local] Existing Instance endless_never_out.

(** A shell with the arguments of [export X=5] and of [test 1 -eq 1]. *)
Definition shell2 : shell (vfs (gset Z)) :=
  mkShell vfs_small {[10 := str "export"; 11 := str "X=5"; 20 := str "test"; 21 := str "1"; 22 := str "-eq"; 30 := str "true"]}
    [mkVar (str "HOME") (str "/home/root") true] [] [] [] [] (mkCtx false 0 (str "/")) [].
Definition cmd2 (l : list Z) : ast_node_t := Node 500 NODE_COMMAND 0 [] (mkCmd 600 l 0 0 false false).

Lemma test_takes_first_operand_witness : builtin_test (mkCallbacks (λ _, stuck) (λ _, stuck)) (cmd2 [20; 21; 22; 21]) shell2 = Ret 1 shell2.
Proof.
  apply (test_takes_first_operand _ (cmd2 [20; 21; 22; 21]) (str "1") (str "-eq") (str "1") 21 22 21 20); try reflexivity.
  apply (bool_decide_unpack _). vm_compute. exact I.
Defined.

Lemma let_loses_first_operand_witness : let_loop (str "40+2") 0 = Some 2.
Proof. exact (let_loses_first_operand 40 2 ltac:(lia) ltac:(lia)). Defined.

Lemma exec_has_no_child_witness : builtin_exec (mkCallbacks (λ _, stuck) (λ _, stuck)) (cmd2 [20; 30]) shell2 = Stuck.
Proof. apply exec_has_no_child; [vm_compute; lia|reflexivity]. Defined.

Lemma export_sets_witness :
  exists l i, builtin_export (mkCallbacks (λ _, stuck) (λ _, stuck)) (cmd2 [10; 11]) shell2 = Ret 0 (set_vars l shell2) /\
    vars_map l !! str "X" = Some (str "5") /\ v_exported <$> l !! i = Some true.
Proof.
  destruct (export_sets (mkCallbacks (λ _, stuck) (λ _, stuck)) (cmd2 [10; 11]) 10 11 (str "X") (str "5") shell2) as (l & i & E & Em & _ & Hx).
  - reflexivity.
  - reflexivity.
  - apply (bool_decide_unpack _). vm_compute. exact I.
  - split; [apply NoDup_singleton|simpl; unfold SHELL_MAX_VARS; lia].
  - simpl. unfold SHELL_MAX_VARS. lia.
  - simpl. lia.
  - simpl. lia.
  - exists l, i. split; [exact E|]. rewrite Em. split; [apply lookup_insert_eq|exact Hx].
Defined.
End shell_builtin_witnesses.
