(* ===== verification/ShellMeaning.v ===== *)
(** * What a command means (ui/shell.c)

    The meaning of a tree, of a command and of a line of text as relations of their own: rules
    for looking a command up and for each builtin that runs commands again ([exec],
    [nohup], [eval], [source] or [.], [timeout]), without the interpreter and its bound.  A builtin that runs
    nothing means what its function returns.  The theorem is that the interpreter, with
    enough fuel, returns exactly this. *)

From S2P Require Import Prelude CString Vfs ShellState ShellLex ShellParse ShellExec ShellBuiltins.

Section meaning.
Context {H : Type} `{!Allocator H}.
Local Abbreviation shell := (shell (vfs H)).
Local Abbreviation handler := (handler (vfs H)).
Local Abbreviation callbacks := (callbacks (vfs H)).
Variables (table : list builtin_cmd_t) (spins : nat) (ticks : M shell Z) (device : string -> handler).
Implicit Types (s : shell) (n : ast_node_t) (cb : callbacks).

(** ** Names *)

(** The first alias of the name, or the name. *)
Definition alias_of (l : list shell_alias_t) (w w' : list Z) : Prop :=
  (exists i a, l !! i = Some a /\ a_name a = w /\ w' = a_value a /\ forall j b, (j < i)%nat -> l !! j = Some b -> a_name b <> w) \/
  ((forall a, a ∈ l -> a_name a <> w) /\ w' = w).
(** The first builtin of the name. *)
Definition builtin_of (l : list builtin_cmd_t) (w : list Z) (b : builtin_cmd_t) : Prop :=
  exists i, l !! i = Some b /\ b_name b = w /\ forall j b', (j < i)%nat -> l !! j = Some b' -> b_name b' <> w.

(** The name of the command [n], with its variables and its alias. *)
Definition command_name n s (word alias : list Z) : Prop :=
  exists p r name, argv (cmd n) = p :: r /\ sh_strs s !! p = Some name /\
    resolve_variables (global_vars s) name = Some word /\ alias_of (global_aliases s) word alias.

Definition with_text (l : list Z) s : shell := set_out (sh_out s ++ l) s.
Definition not_found (word : list Z) : list Z := str "Error: " ++ word ++ [10] ++ str "Error: : command not found" ++ [10].

(** ** The text of [eval] *)

Definition blanks (ws : list (list Z)) : list Z := flat_map (λ w, w ++ [32]) ws.
Fixpoint spaced (ws : list (list Z)) : list Z :=
  match ws with
  | [] => []
  | [w] => w
  | w :: r => w ++ 32 :: spaced r
  end.
Definition strings_at s (l : list Z) (ws : list (list Z)) : Prop := Forall2 (λ p w, sh_strs s !! p = Some w) l ws.
(** The arguments with blanks between them, cut at 4095 characters; those behind the cut are not read. *)
Definition joined s (buf : list Z) (l : list Z) (text : list Z) : Prop :=
  (exists ws, strings_at s l ws /\ text = take 4095 (buf ++ spaced ws)) \/
  (exists k ws, (k < length l)%nat /\ strings_at s (take k l) ws /\ (4095 <= length (buf ++ blanks ws))%nat /\
     text = take 4095 (buf ++ blanks ws)).

(** ** The relations *)

(** The builtins that run commands. *)
Definition reentrant : list string := ["builtin_exec"; "builtin_nohup"; "builtin_eval"; "builtin_dot"; "builtin_source"; "builtin_timeout"].
Definition no_callbacks : callbacks := mkCallbacks (λ _, stuck) (λ _, stuck).

Inductive eval : ast_node_t -> shell -> Z -> shell -> Prop :=
  | eval_empty n s : type n = NODE_COMMAND -> argv (cmd n) = [] -> eval n s 0 s
  | eval_unknown n word alias s :
      type n = NODE_COMMAND -> command_name n s word alias -> (forall b, b ∈ table -> b_name b <> alias) ->
      eval n s 127 (with_text (not_found word) s)
  | eval_builtin n word alias b s v s' :
      type n = NODE_COMMAND -> command_name n s word alias -> builtin_of table alias b ->
      invokes (b_handler b) n s v s' -> eval n s v s'
  | eval_sequence n s v s' : type n = NODE_SEQUENCE -> eval_all true (kids n) 0 s v s' -> eval n s v s'
  | eval_pipeline n s v s' : type n = NODE_PIPELINE -> eval_all false (kids n) 0 s v s' -> eval n s v s'
  | eval_and_both n x y l s s1 v s' : type n = NODE_AND -> kids n = x :: y :: l -> eval x s 0 s1 -> eval y s1 v s' -> eval n s v s'
  | eval_and_left n x y l s v s' : type n = NODE_AND -> kids n = x :: y :: l -> eval x s v s' -> v <> 0 -> eval n s v s'
  | eval_and_short n s : type n = NODE_AND -> (length (kids n) < 2)%nat -> eval n s 1 s
  | eval_or_both n x y l s w s1 v s' : type n = NODE_OR -> kids n = x :: y :: l -> eval x s w s1 -> w <> 0 -> eval y s1 v s' -> eval n s v s'
  | eval_or_left n x y l s s' : type n = NODE_OR -> kids n = x :: y :: l -> eval x s 0 s' -> eval n s 0 s'
  | eval_or_short n s : type n = NODE_OR -> (length (kids n) < 2)%nat -> eval n s 0 s
  | eval_subshell n x l s v s' : type n = NODE_SUBSHELL -> kids n = x :: l -> eval x s v s' -> eval n s v s'
  | eval_subshell_empty n s : type n = NODE_SUBSHELL -> kids n = [] -> eval n s 0 s
  | eval_other n s : type n ∉ [NODE_COMMAND; NODE_SEQUENCE; NODE_PIPELINE; NODE_AND; NODE_OR; NODE_SUBSHELL] -> eval n s 0 s
(** The children in their order; a sequence ([true]) stores each status. *)
with eval_all : bool -> list ast_node_t -> Z -> shell -> Z -> shell -> Prop :=
  | all_nil b v s : eval_all b [] v s v s
  | all_cons b x l u s w s1 v s' :
      eval x s w s1 ->
      eval_all b l w (if b then set_ctx (mkCtx (exit_requested (shell_ctx s1)) w (current_dir (shell_ctx s1))) s1 else s1) v s' ->
      eval_all b (x :: l) u s v s'
(** What a builtin, named by its function, does with its command. *)
with invokes : string -> ast_node_t -> shell -> Z -> shell -> Prop :=
  | inv_plain f n s v s' : f ∉ reentrant -> run_builtin table spins ticks device f no_callbacks n s = Ret v s' -> invokes f n s v s'
  | inv_exec_none n s : (length (argv (cmd n)) < 2)%nat -> invokes "builtin_exec" n s 0 s
  | inv_exec n x l s v s' : (2 <= length (argv (cmd n)))%nat -> kids n = x :: l -> eval x s v s' -> invokes "builtin_exec" n s v s'
  | inv_nohup_none n s : (length (argv (cmd n)) < 2)%nat -> invokes "builtin_nohup" n s 1 s
  | inv_nohup n x l s s1 v s' :
      (2 <= length (argv (cmd n)))%nat -> shell_set_variable (str "HUP_IGNORED") (str "1") s = Ret tt s1 ->
      kids n = x :: l -> eval x s1 v s' -> invokes "builtin_nohup" n s v s'
  | inv_eval_none n s : (length (argv (cmd n)) < 2)%nat -> invokes "builtin_eval" n s 0 s
  | inv_eval n p r text s s' : argv (cmd n) = p :: r -> r <> [] -> joined s [] r text -> does text s s' -> invokes "builtin_eval" n s 0 s'
  | inv_source_none f n s :
      f ∈ ["builtin_dot"; "builtin_source"] -> (length (argv (cmd n)) < 2)%nat ->
      invokes f n s 1 (with_text (str "Error: . : filename argument required" ++ [10]) s)
  | inv_source f n p q r path s s' :
      f ∈ ["builtin_dot"; "builtin_source"] -> argv (cmd n) = p :: q :: r -> sh_strs s !! q = Some path ->
      sources path s s' -> invokes f n s 0 s'
  | inv_timeout_none n s : (length (argv (cmd n)) < 3)%nat -> invokes "builtin_timeout" n s 1 s
  | inv_timeout n p q l t time s s1 s' :
      argv (cmd n) = p :: q :: l -> l <> [] -> ticks s = Ret t s1 -> sh_strs s1 !! q = Some time ->
      rounds (u64 (t + u64 (atoi_simple time) * 100)) (timed_command n) spins s1 s' -> invokes "builtin_timeout" n s 0 s'
(** A script: its first 4095 bytes, up to a zero, are one line. *)
with sources : list Z -> shell -> shell -> Prop :=
  | src_none path s s1 fd : on_vfs (vfs_open path 0) s = Ret fd s1 -> fd < 0 ->
      sources path s (with_text (str "Error: script not found" ++ [10]) s1)
  | src_empty path s s1 s2 s3 fd m bytes v :
      on_vfs (vfs_open path 0) s = Ret fd s1 -> 0 <= fd -> on_vfs (vfs_read fd 4095) s1 = Ret (m, bytes) s2 -> m <= 0 ->
      on_vfs (vfs_close fd) s2 = Ret v s3 -> sources path s s3
  | src_line path s s1 s2 s3 s4 fd m bytes text rest v :
      on_vfs (vfs_open path 0) s = Ret fd s1 -> 0 <= fd -> on_vfs (vfs_read fd 4095) s1 = Ret (m, bytes) s2 -> 0 < m ->
      bytes = text ++ rest -> 0 ∉ text -> match rest with c :: _ => c = 0 | [] => True end ->
      does text s2 s3 -> on_vfs (vfs_close fd) s3 = Ret v s4 -> sources path s s4
(** A line: its variables, its tokens, its tree, and the memory of both. *)
with does : list Z -> shell -> shell -> Prop :=
  | does_empty s : does [] s s
  | does_nothing line text toks s s1 s2 s3 :
      line <> [] -> resolve_variables (global_vars s) line = Some text -> tokenize text s = Ret toks s1 ->
      parse_tokens toks s1 = Ret None s2 -> tokenizer_free_tokens toks s2 = Ret tt s3 -> does line s s3
  | does_tree line text toks n v s s1 s2 s3 s4 s5 :
      line <> [] -> resolve_variables (global_vars s) line = Some text -> tokenize text s = Ret toks s1 ->
      parse_tokens toks s1 = Ret (Some n) s2 -> eval n s2 v s3 -> ast_free n s3 = Ret tt s4 ->
      tokenizer_free_tokens toks s4 = Ret tt s5 -> does line s s5
(** The runs of a timed command, fewer than the bound. *)
with rounds : Z -> ast_node_t -> nat -> shell -> shell -> Prop :=
  | rounds_over e n k s t s1 : ticks s = Ret t s1 -> e <= t -> rounds e n (S k) s s1
  | rounds_more e n k s t s1 v s2 s3 : ticks s = Ret t s1 -> t < e -> eval n s1 v s2 -> rounds e n k s2 s3 -> rounds e n (S k) s s3.

Scheme eval_mind := Minimality for eval Sort Prop
  with all_mind := Minimality for eval_all Sort Prop
  with invokes_mind := Minimality for invokes Sort Prop
  with sources_mind := Minimality for sources Sort Prop
  with does_mind := Minimality for does Sort Prop
  with rounds_mind := Minimality for rounds Sort Prop.
End meaning.

(** ** Names and texts *)

Section names.
Context {H : Type} `{!Allocator H}.
Local Abbreviation shell := (shell (vfs H)).
Implicit Types (s : shell) (n : ast_node_t).

Lemma bind_iff {S A B} (m : M S A) (k : A -> M S B) t b t' :
  bind m k t = Ret b t' <-> exists a t1, m t = Ret a t1 /\ k a t1 = Ret b t'.
Proof. split; [apply bind_Ret_inv|]. by intros (a & t1 & E & Ek); rewrite (bind_Ret _ _ _ _ _ E). Qed.

Lemma option_iff {S A} (o : option A) (t : S) a t' : of_option o t = Ret a t' <-> o = Some a /\ t' = t.
Proof. unfold of_option. destruct o; naive_solver. Qed.

Lemma str_at_iff p s a s' : str_at p s = Ret a s' <-> sh_strs s !! p = Some a /\ s' = s.
Proof. unfold str_at. rewrite bind_get. apply option_iff. Qed.

Lemma with_text_app l l' s : with_text l' (with_text l s) = with_text (l ++ l') s.
Proof. unfold with_text, set_out. cbn. by rewrite <- app_assoc. Qed.

Lemma print_error_run msg s : shell_print_error msg s = Ret tt (with_text (str "Error: " ++ msg ++ [10]) s).
Proof. unfold shell_print_error, draw_string, draw_char. rewrite !bind_modify. unfold modify, set_out, with_text. cbn. by rewrite <- !app_assoc. Qed.

Lemma not_found_run word s :
  (shell_print_error word ;;; shell_print_error (str ": command not found") ;;; ret 127) s = Ret 127 (with_text (not_found word) s).
Proof.
  rewrite (bind_Ret _ _ _ _ _ (print_error_run _ _)), (bind_Ret _ _ _ _ _ (print_error_run _ _)). unfold ret.
  rewrite with_text_app, <- !app_assoc. reflexivity.
Qed.

(** The first index with a property is unique. *)
Lemma first_unique {A} (P : A -> Prop) (l : list A) i j a b :
  l !! i = Some a -> P a -> (forall k c, (k < i)%nat -> l !! k = Some c -> ~ P c) ->
  l !! j = Some b -> P b -> (forall k c, (k < j)%nat -> l !! k = Some c -> ~ P c) -> a = b.
Proof.
  intros Ei Hi Li Ej Hj Lj. destruct (Nat.lt_total i j) as [E|[->|E]]; [by destruct (Lj _ _ E Ei)|congruence|by destruct (Li _ _ E Ej)].
Qed.

Lemma alias_index_spec l w :
  match alias_index l w with
  | Some i => exists a, l !! i = Some a /\ a_name a = w /\ forall j b, (j < i)%nat -> l !! j = Some b -> a_name b <> w
  | None => forall a, a ∈ l -> a_name a <> w
  end.
Proof.
  induction l as [|a l IH]; cbn [alias_index]; [intros a Ha; by apply elem_of_nil in Ha|]. case_bool_decide as Ea.
  - exists a. split; [done|]. split; [done|]. lia.
  - destruct (alias_index l w) as [i|]; cbn [fmap option_fmap option_map].
    + destruct IH as (b & E & Eb & Hj). exists b. split; [done|]. split; [done|]. intros [|j] c Hc; cbn; [congruence|]. apply Hj. lia.
    + intros b [->|Hb]%elem_of_cons; [done|]. by apply IH.
Qed.

Lemma alias_of_iff l w w' : alias_of l w w' <-> resolve_alias l w = w'.
Proof.
  pose proof (alias_index_spec l w) as Hs. unfold resolve_alias. destruct (alias_index l w) as [i|].
  - destruct Hs as (a & E & Ea & Hj). rewrite E. split; [|intros <-; left; exists i, a; naive_solver].
    intros [(j & b & Eb & Hb & -> & Hk)|[Hn _]].
    + f_equal. by eapply (first_unique (λ a, a_name a = w)).
    + by destruct (Hn a); [eapply list_elem_of_lookup_2|].
  - split; [|intros <-; by right]. intros [(j & b & Eb & Hb & _)|[_ ->]]; [|done]. by destruct (Hs b); [eapply list_elem_of_lookup_2|].
Qed.

Lemma find_builtin_spec l w :
  match find_builtin l w with
  | Some b => builtin_of l w b
  | None => forall b, b ∈ l -> b_name b <> w
  end.
Proof.
  induction l as [|a l IH]; cbn [find_builtin]; [intros a Ha; by apply elem_of_nil in Ha|]. case_bool_decide as Ea.
  - exists 0%nat. split; [done|]. split; [done|]. lia.
  - destruct (find_builtin l w) as [b|].
    + destruct IH as (i & E & Eb & Hj). exists (S i). split; [done|]. split; [done|]. intros [|j] c Hc; cbn; [congruence|]. apply Hj. lia.
    + intros b [->|Hb]%elem_of_cons; [done|]. by apply IH.
Qed.

Lemma builtin_of_iff l w b : builtin_of l w b <-> find_builtin l w = Some b.
Proof.
  pose proof (find_builtin_spec l w) as Hs. split; [|by intros E; rewrite E in Hs]. intros (i & Eb & Hb & Hk).
  destruct (find_builtin l w) as [c|].
  - destruct Hs as (j & Ec & Hc & Hj). f_equal. by eapply (first_unique (λ a, b_name a = w)).
  - by destruct (Hs b); [eapply list_elem_of_lookup_2|].
Qed.

Lemma no_builtin_iff l w : (forall b, b ∈ l -> b_name b <> w) <-> find_builtin l w = None.
Proof.
  pose proof (find_builtin_spec l w) as Hs. split; [|by intros E; rewrite E in Hs]. intros Hn.
  destruct (find_builtin l w) as [c|]; [|done]. destruct Hs as (i & Ec & Hc & _). by destruct (Hn c); [eapply list_elem_of_lookup_2|].
Qed.

Lemma take_app_take {A} (k : nat) (x y : list A) : take k (take k x ++ y) = take k (x ++ y).
Proof. rewrite !take_app, take_take, Nat.min_id, length_take. f_equal. f_equal. lia. Qed.

Lemma blanks_cons a ws : blanks (a :: ws) = (a ++ [32]) ++ blanks ws.
Proof. done. Qed.

Lemma strings_cons s p l ws : strings_at s (p :: l) ws <-> exists a ws', sh_strs s !! p = Some a /\ ws = a :: ws' /\ strings_at s l ws'.
Proof.
  unfold strings_at. split; [intros (a & ws' & Ha & Hw & ->)%Forall2_cons_inv_l; eauto|]. intros (a & ws' & Ha & -> & Hw). by constructor.
Qed.

(** What [builtin_eval] collects. *)
Lemma joined_full s buf p l text : length buf = 4095%nat -> joined s buf (p :: l) text <-> text = buf.
Proof.
  intros Hb. split.
  - intros [(ws & _ & ->)|(k & ws & _ & _ & _ & ->)]; rewrite take_app_le by lia; by rewrite take_ge by lia.
  - intros ->. right. exists 0%nat, []. cbn [blanks flat_map take]. rewrite app_nil_r, take_ge by lia.
    split; [cbn; lia|]. split; [by constructor|]. split; [lia|done].
Qed.

Lemma joined_step s buf p q l a text :
  (length buf < 4095)%nat -> sh_strs s !! p = Some a ->
  joined s buf (p :: q :: l) text <-> joined s (take 4095 (buf ++ a ++ [32])) (q :: l) text.
Proof.
  intros Hb Ha. split.
  - intros [(ws & Hw & ->)|(k & ws & Hk & Hw & Hl & ->)].
    + apply strings_cons in Hw as (a' & ws' & Ea & -> & Hw). simplify_eq. left. exists ws'. split; [done|].
      apply strings_cons in Hw as (b & ws & _ & -> & _). rewrite take_app_take. f_equal. cbn [spaced]. by rewrite <- !app_assoc.
    + destruct k as [|k].
      { cbn [take] in Hw. apply Forall2_nil_inv_l in Hw as ->. cbn [blanks flat_map] in Hl. rewrite app_nil_r in Hl. lia. }
      cbn [take] in Hw. apply strings_cons in Hw as (a' & ws' & Ea & -> & Hw). simplify_eq. right. exists k, ws'.
      rewrite blanks_cons, !app_assoc in *. split; [cbn [length] in *; lia|]. split; [done|].
      rewrite take_app_take, <- !app_assoc in *. split; [|done]. rewrite !length_app, length_take, !length_app in *. lia.
  - intros [(ws & Hw & ->)|(k & ws & Hk & Hw & Hl & ->)].
    + left. exists (a :: ws). split; [apply strings_cons; eauto|]. apply strings_cons in Hw as (b & ws' & _ & -> & _).
      rewrite take_app_take. f_equal. cbn [spaced]. by rewrite <- !app_assoc.
    + right. exists (S k), (a :: ws). split; [cbn [length] in *; lia|]. split; [apply strings_cons; eauto|].
      rewrite blanks_cons. rewrite take_app_take, <- !app_assoc in *. split; [|done]. rewrite !length_app, length_take, !length_app in *. lia.
Qed.

Lemma joined_last s buf p a text :
  (length buf < 4095)%nat -> sh_strs s !! p = Some a -> joined s buf [p] text -> text = take 4095 (buf ++ a).
Proof.
  intros Hb Ha [(ws & Hw & ->)|(k & ws & Hk & Hw & Hl & _)].
  - apply strings_cons in Hw as (a' & ws' & Ea & -> & Hw). apply Forall2_nil_inv_l in Hw as ->. by simplify_eq.
  - cbn [length] in Hk. assert (k = 0%nat) as -> by lia. apply Forall2_nil_inv_l in Hw as ->. cbn [blanks flat_map] in Hl.
    rewrite app_nil_r in Hl. lia.
Qed.

(** The buffer behind one argument that is not the last. *)
Lemma eval_buf (buf a : list Z) :
  (length buf < 4095)%nat ->
  (let b := take 4095 (buf ++ a) in if Z.of_nat (length b) <? 4095 then b ++ [32] else b) = take 4095 (buf ++ a ++ [32]).
Proof.
  intros Hb. cbn. rewrite app_assoc, length_take. destruct (Z.ltb_spec (Z.of_nat (min 4095 (length (buf ++ a)))) 4095).
  - rewrite (take_ge (buf ++ a)) by lia. by rewrite take_ge by (rewrite length_app; cbn [length]; lia).
  - by rewrite (take_app_le (buf ++ a)) by lia.
Qed.
Lemma eval_buf_fits (buf a : list Z) : Z.of_nat (length (if Z.of_nat (length (take 4095 (buf ++ a))) <? 4095 then take 4095 (buf ++ a) ++ [32] else take 4095 (buf ++ a))) <= 4095.
Proof. destruct (Z.ltb_spec (Z.of_nat (length (take 4095 (buf ++ a)))) 4095); rewrite ?length_app, length_take in *; cbn [length]; lia. Qed.

Lemma eval_text_iff l buf text s s' : Z.of_nat (length buf) <= 4095 -> eval_text l buf s = Ret text s' <-> s' = s /\ joined s buf l text.
Proof.
  revert buf. induction l as [|p l IH]; intros buf Hb.
  - cbn [eval_text]. unfold ret. split.
    + intros E. simplify_eq. split; [done|]. left. exists []. split; [by constructor|]. cbn [spaced]. by rewrite app_nil_r, take_ge by lia.
    + intros [-> [(ws & Hw & ->)|(k & ws & Hk & _)]]; [|cbn in Hk; lia]. apply Forall2_nil_inv_l in Hw as ->.
      cbn [spaced]. by rewrite app_nil_r, take_ge by lia.
  - cbn [eval_text]. change (SHELL_MAX_CMD_LEN - 1) with 4095. destruct (Z.leb_spec 4095 (Z.of_nat (length buf))) as [Hf|Hf].
    { rewrite joined_full by lia. unfold ret. naive_solver. }
    rewrite bind_iff. setoid_rewrite str_at_iff.
    destruct (sh_strs s !! p) as [a|] eqn:Ea.
    2:{ split; [intros (a & t & [? _] & _); done|]. intros [_ [(ws & Hw & _)|(k & ws & Hk & Hw & Hl & _)]].
        - apply strings_cons in Hw as (a & ? & ? & _). congruence.
        - destruct k as [|k]; [apply Forall2_nil_inv_l in Hw as ->; cbn [blanks flat_map] in Hl; rewrite app_nil_r in Hl; lia|].
          apply strings_cons in Hw as (a & ? & ? & _). congruence. }
    assert (buf ++ take (Z.to_nat (4095 - Z.of_nat (length buf))) a = take 4095 (buf ++ a)) as Hcut
      by (rewrite take_app, (take_ge buf) by lia; f_equal; f_equal; lia).
    split.
    + intros (a' & t & [[= <-] ->] & E). rewrite Hcut in E. destruct l as [|q l].
      * cbn [eval_text] in E. unfold ret in E. injection E as <- <-. split; [done|]. left. exists [a]. split; [|done]. apply strings_cons. exists a, []. split_and!; [done..|constructor].
      * apply IH in E as [-> Hj]; [|apply eval_buf_fits]. rewrite eval_buf in Hj by lia. split; [done|]. eapply joined_step; [lia|done|done].
    + intros [-> Hj]. exists a, s. split; [done|]. rewrite Hcut. destruct l as [|q l].
      * cbn [eval_text]. unfold ret. f_equal. symmetry. eapply joined_last; [lia|done|done].
      * apply IH; [apply eval_buf_fits|]. rewrite eval_buf by lia. split; [done|]. eapply joined_step; [lia|done|done].
Qed.
End names.

(** ** The interpreter returns what the rules say *)

Section soundness.
Context {H : Type} `{!Allocator H}.
Local Abbreviation shell := (shell (vfs H)).
Local Abbreviation handler := (handler (vfs H)).
Local Abbreviation callbacks := (callbacks (vfs H)).
Variables (table : list builtin_cmd_t) (spins : nat) (ticks : M shell Z) (device : string -> handler).
Implicit Types (s : shell) (n : ast_node_t) (cb : callbacks).
Local Abbreviation run := (run_builtin table spins ticks device).
Local Abbreviation eval := (eval table spins ticks device).
Local Abbreviation eval_all := (eval_all table spins ticks device).
Local Abbreviation invokes := (invokes table spins ticks device).
Local Abbreviation sources := (sources table spins ticks device).
Local Abbreviation does := (does table spins ticks device).
Local Abbreviation rounds := (rounds table spins ticks device).

(** A handler that does not use its callbacks. *)
Definition plain (h : handler) : Prop := forall cb cb' n s, h cb n s = h cb' n s.
Hypothesis device_plain : forall f, plain (device f).

Lemma find_handler_plain l f :
  Forall (λ h : string * handler, h.1 ∈ reentrant \/ plain h.2) l -> f ∉ reentrant -> plain (find_handler device l f).
Proof.
  intros Hl Hf. induction Hl as [|[g h] l Hh Hl IH]; cbn [find_handler]; [apply device_plain|].
  destruct (String.eqb_spec g f) as [->|Hg]; [|done]. by destruct Hh.
Qed.

Lemma run_plain f : f ∉ reentrant -> plain (run f).
Proof.
  intros Hf. apply find_handler_plain; [|done]. unfold handlers. rewrite !Forall_app.
  split; [|split_and!; apply Forall_fmap, Forall_true; intros x; by right].
  repeat (apply Forall_cons; split; [first [by right|left; apply (bool_decide_unpack _); vm_compute; exact I]|]). by apply Forall_nil.
Qed.

(** What the callbacks return has a derivation. *)
Definition sound cb : Prop :=
  (forall n s v s', cb_ast cb (Some n) s = Ret v s' -> eval n s v s') /\
  (forall l s s', cb_command cb l s = Ret tt s' -> does l s s').

Lemma rounds_sound cb e n k s s' : sound cb -> timeout_loop ticks k cb e n s = Ret tt s' -> rounds e n k s s'.
Proof.
  intros [Ha _]. revert s. induction k as [|k IH]; intros s; [done|]. cbn [timeout_loop]. intros (t & s1 & Et & E)%bind_Ret_inv.
  destruct (Z.ltb_spec t e).
  - apply bind_Ret_inv in E as (v & s2 & Ev & E). eapply rounds_more; eauto.
  - unfold ret in E. simplify_eq. by eapply rounds_over.
Qed.

Lemma sequence_sound cb l u s v s' : sound cb -> run_sequence (cb_ast cb) l u s = Ret v s' -> eval_all true l u s v s'.
Proof.
  intros [Ha _]. revert u s. induction l as [|x l IH]; intros u s; cbn [run_sequence].
  - unfold ret. intros E. simplify_eq. apply all_nil.
  - intros (w & s1 & Ew & E)%bind_Ret_inv. unfold set_status in E. rewrite bind_modify in E. eapply all_cons; [by apply Ha|]. by apply IH.
Qed.

Lemma pipeline_sound cb l u s v s' : sound cb -> run_pipeline (cb_ast cb) l u s = Ret v s' -> eval_all false l u s v s'.
Proof.
  intros [Ha _]. revert u s. induction l as [|x l IH]; intros u s; cbn [run_pipeline].
  - unfold ret. intros E. simplify_eq. apply all_nil.
  - intros (w & s1 & Ew & E)%bind_Ret_inv. eapply all_cons; [by apply Ha|]. by apply IH.
Qed.

(** The text up to the first zero. *)
Lemma before_zero (l : list Z) :
  exists text rest, l = text ++ rest /\ 0 ∉ text /\ match rest with c :: _ => c = 0 | [] => True end /\
    (take_while (λ c, negb (c =? 0)) l).1 = text.
Proof.
  induction l as [|c l (text & rest & -> & Ht & Hr & E)]; [exists [], []; split_and!; [done|by apply not_elem_of_nil|done..]|]. cbn [take_while].
  destruct (Z.eqb_spec c 0) as [->|Hc]; cbn [negb].
  - exists [], (0 :: text ++ rest). split_and!; [done|by apply not_elem_of_nil|done..].
  - exists (c :: text), rest. destruct (take_while _ _). cbn [fst] in *. subst. split_and!; [done| |done..]. by apply not_elem_of_cons.
Qed.
Lemma before_zero_run (text rest : list Z) :
  0 ∉ text -> match rest with c :: _ => c = 0 | [] => True end -> (take_while (λ c, negb (c =? 0)) (text ++ rest)).1 = text.
Proof.
  intros Ht Hr. rewrite take_while_stop; [done| |destruct rest as [|c r]; [done|by subst]]. apply Forall_forall. intros c Hc.
  destruct (Z.eqb_spec c 0) as [->|]; done.
Qed.

Lemma sources_sound cb path s s' : sound cb -> shell_run_script cb path s = Ret tt s' -> sources path s s'.
Proof.
  intros [_ Hc] (fd & s1 & Eo & E)%bind_Ret_inv. destruct (Z.ltb_spec fd 0) as [Hf|Hf].
  - rewrite print_error_run in E. injection E as <-. by eapply src_none.
  - apply bind_Ret_inv in E as ([m bytes] & s2 & Er & E). cbn [fst snd] in E. apply bind_Ret_inv in E as ([] & s3 & Ec & E).
    apply bind_Ret_inv in E as (v & s4 & El & [= ->]). destruct (Z.ltb_spec 0 m) as [Hm|Hm].
    + destruct (before_zero bytes) as (text & rest & Eb & Ht & Hr & Et). rewrite Et in Ec. eapply src_line; eauto.
    + injection Ec as <-. eapply src_empty; eauto.
Qed.

Lemma invokes_sound cb f n s v s' : sound cb -> run f cb n s = Ret v s' -> invokes f n s v s'.
Proof.
  intros Hc E. destruct (decide (f ∈ reentrant)) as [Hf|Hf]; [|apply inv_plain; [done|by rewrite (run_plain f Hf _ cb)]].
  pose proof Hc as [Ha Hl]. unfold reentrant in Hf. rewrite !elem_of_cons, elem_of_nil in Hf.
  assert (forall f, f ∈ ["builtin_dot"; "builtin_source"] -> builtin_dot cb n s = Ret v s' -> invokes f n s v s') as Hdot.
  { clear E f Hf. intros f Hf E. unfold builtin_dot in E. destruct (_ <? _)%nat eqn:Hn.
    - apply bind_Ret_inv in E as ([] & s1 & E & [= <- <-]). rewrite print_error_run in E. injection E as <-.
      apply inv_source_none; [done|by apply Nat.ltb_lt].
    - apply bind_Ret_inv in E as (a & s1 & Eq & E). apply bind_Ret_inv in E as ([] & s2 & E & [= <- <-]).
      unfold arg in Eq. apply Nat.ltb_ge in Hn. unfold arg_count in Hn. destruct (argv (cmd n)) as [|p [|q r]] eqn:Er; [cbn in Hn; lia..|].
      cbn [lookup list_lookup] in Eq. rewrite bind_option in Eq. apply str_at_iff in Eq as [Eq ->].
      eapply inv_source; [done..|]. by eapply sources_sound. }
  destruct Hf as [->|[->|[->|[->|[->|[->|[]]]]]]]; [change (builtin_exec cb n s = Ret v s') in E|change (builtin_nohup cb n s = Ret v s') in E|
    change (builtin_eval cb n s = Ret v s') in E|apply Hdot; [by left|done]|apply Hdot; [by right; left|done]|
    change (builtin_timeout spins ticks cb n s = Ret v s') in E].
  - unfold builtin_exec in E. destruct (_ <? _)%nat eqn:Hn; [injection E as <- <-; apply inv_exec_none; by apply Nat.ltb_lt|].
    destruct (kids n) as [|x l] eqn:Ek; [done|]. eapply inv_exec; [by apply Nat.ltb_ge in Hn|done|]. by apply Ha.
  - unfold builtin_nohup in E. destruct (_ <? _)%nat eqn:Hn; [injection E as <- <-; apply inv_nohup_none; by apply Nat.ltb_lt|].
    apply bind_Ret_inv in E as ([] & s1 & Es & E). destruct (kids n) as [|x l] eqn:Ek; [done|].
    eapply inv_nohup; [by apply Nat.ltb_ge in Hn|done|done|]. by apply Ha.
  - unfold builtin_eval in E. destruct (_ <? _)%nat eqn:Hn; [injection E as <- <-; apply inv_eval_none; by apply Nat.ltb_lt|].
    apply bind_Ret_inv in E as (text & s1 & Et & E). apply bind_Ret_inv in E as ([] & s2 & E & [= <- <-]).
    apply Nat.ltb_ge in Hn. unfold arg_count in Hn. destruct (argv (cmd n)) as [|p [|q r]] eqn:Er; [cbn in Hn; lia..|].
    cbn [drop] in Et. apply eval_text_iff in Et as [-> Ht]; [|cbn; lia]. eapply inv_eval; [done|done|done|]. by apply Hl.
  - unfold builtin_timeout in E. destruct (_ <? _)%nat eqn:Hn; [injection E as <- <-; apply inv_timeout_none; by apply Nat.ltb_lt|].
    apply bind_Ret_inv in E as (t & s1 & Et & E). apply bind_Ret_inv in E as (a & s2 & Eq & E). apply bind_Ret_inv in E as ([] & s3 & E & [= <- <-]).
    apply Nat.ltb_ge in Hn. unfold arg_count, arg in *. destruct (argv (cmd n)) as [|p [|q [|r l]]] eqn:Er; [cbn in Hn; lia..|].
    cbn [lookup list_lookup] in Eq. rewrite bind_option in Eq. apply str_at_iff in Eq as [Eq ->].
    eapply inv_timeout; [done|done|done|done|]. by eapply rounds_sound.
Qed.

Lemma command_sound cb n s v s' :
  sound cb -> type n = NODE_COMMAND -> execute_command_node table run cb n s = Ret v s' -> eval n s v s'.
Proof.
  intros Hc Hn E. unfold execute_command_node in E. destruct (argv (cmd n)) as [|p r] eqn:Er.
  { injection E as <- <-. by apply eval_empty. }
  apply bind_Ret_inv in E as (name & s1 & E1 & E). apply str_at_iff in E1 as [E1 ->].
  apply bind_Ret_inv in E as (word & s1 & E2 & E). unfold shell_resolve_variables in E2. rewrite bind_get in E2. apply option_iff in E2 as [E2 ->].
  unfold shell_resolve_alias in E. rewrite bind_assoc, bind_get, bind_ret in E.
  assert (command_name n s word (resolve_alias (global_aliases s) word)) as Hw.
  { exists p, r, name. split_and!; [done..|]. by apply alias_of_iff. }
  destruct (find_builtin _ _) as [b|] eqn:Eb.
  - eapply eval_builtin; [done|done|by apply builtin_of_iff|]. by eapply invokes_sound.
  - rewrite not_found_run in E. set (t := with_text (not_found word) s) in E. injection E as <- <-. unfold t. eapply eval_unknown; [done|done|]. by apply no_builtin_iff.
Qed.

Lemma node_sound cb n s v s' : sound cb -> execute_node table run cb (Some n) s = Ret v s' -> eval n s v s'.
Proof.
  intros Hc E. pose proof Hc as [Ha _]. unfold execute_node in E. destruct (type n) eqn:Hn;
    try (injection E as <- <-; apply eval_other; rewrite Hn; apply (bool_decide_unpack _); vm_compute; exact I).
  - by eapply command_sound.
  - apply eval_pipeline; [done|]. by eapply pipeline_sound.
  - apply eval_sequence; [done|]. by eapply sequence_sound.
  - destruct (kids n) as [|x [|y l]] eqn:Ek; [injection E as <- <-; apply eval_and_short; [done|rewrite Ek; cbn; lia]..|].
    apply bind_Ret_inv in E as (w & s1 & Ex & E). apply Ha in Ex. destruct (Z.eqb_spec w 0) as [->|Hw].
    + eapply eval_and_both; [done|done|done|]. by apply Ha.
    + injection E as <- <-. by eapply eval_and_left.
  - destruct (kids n) as [|x [|y l]] eqn:Ek; [injection E as <- <-; apply eval_or_short; [done|rewrite Ek; cbn; lia]..|].
    apply bind_Ret_inv in E as (w & s1 & Ex & E). apply Ha in Ex. destruct (Z.eqb_spec w 0) as [->|Hw].
    + injection E as <- <-. by eapply eval_or_left.
    + eapply eval_or_both; [done|done|done|done|]. by apply Ha.
  - destruct (kids n) as [|x l] eqn:Ek; [injection E as <- <-; by apply eval_subshell_empty|]. eapply eval_subshell; [done|done|]. by apply Ha.
Qed.

Lemma line_sound cb l s s' : sound cb -> execute_line cb l s = Ret tt s' -> does l s s'.
Proof.
  intros [Ha _] E. destruct l as [|c l]; [injection E as <-; apply does_empty|]. unfold execute_line in E.
  apply bind_Ret_inv in E as (text & s1 & Et & E). unfold shell_resolve_variables in Et. rewrite bind_get in Et. apply option_iff in Et as [Et ->].
  apply bind_Ret_inv in E as (toks & s1 & Ek & E). apply bind_Ret_inv in E as (ast & s2 & Ep & E). apply bind_Ret_inv in E as ([] & s4 & E & Ef).
  destruct ast as [n|].
  - apply bind_Ret_inv in E as (v & s3 & Ev & E). eapply does_tree; [done..|by apply Ha|done|done].
  - injection E as <-. by eapply does_nothing.
Qed.

Lemma callbacks_sound fuel : sound (callbacks_at table run fuel).
Proof.
  induction fuel as [|fuel IH]; [done|]. split; [intros n s v s' E; by apply (node_sound _ _ _ _ _ IH)|intros l s s' E; by apply (line_sound _ _ _ _ IH)].
Qed.
End soundness.

(** ** What the rules say, the interpreter returns *)

Section completeness.
Context {H : Type} `{!Allocator H}.
Local Abbreviation shell := (shell (vfs H)).
Local Abbreviation handler := (handler (vfs H)).
Local Abbreviation callbacks := (callbacks (vfs H)).
Variables (table : list builtin_cmd_t) (spins : nat) (ticks : M shell Z) (device : string -> handler).
Implicit Types (s : shell) (n : ast_node_t) (cb : callbacks).
Local Abbreviation run := (run_builtin table spins ticks device).
Hypothesis device_plain : forall f, plain (device f).

Lemma run_monotone f : monotone (run f).
Proof. apply run_builtin_monotone. intros g cb cb' n _ s v s'. by rewrite (device_plain g cb cb'). Qed.

(** Code that returns with callbacks of some bound, and code that does not mind a larger one. *)
Definition yields {A} (m : callbacks -> M shell A) s (v : A) s' : Prop := exists fuel, m (callbacks_at table run fuel) s = Ret v s'.
Definition mono {A} (m : callbacks -> M shell A) : Prop := forall cb cb', cb_le cb cb' -> m_le (m cb) (m cb').

Lemma mono_ast o : mono (λ cb, cb_ast cb o).
Proof. intros cb cb' Hc. apply (proj1 Hc). Qed.
Lemma mono_command l : mono (λ cb, cb_command cb l).
Proof. intros cb cb' Hc. apply (proj2 Hc). Qed.
Lemma mono_const {A} (m : M shell A) : mono (λ _, m).
Proof. intros cb cb' _. apply m_le_refl. Qed.
Lemma mono_if {A} (b : bool) (m m' : callbacks -> M shell A) : mono m -> mono m' -> mono (λ cb, if b then m cb else m' cb).
Proof. by destruct b. Qed.
Lemma mono_sequence l v : mono (λ cb, run_sequence (cb_ast cb) l v).
Proof. intros cb cb' Hc. apply run_sequence_le. apply (proj1 Hc). Qed.
Lemma mono_pipeline l v : mono (λ cb, run_pipeline (cb_ast cb) l v).
Proof. intros cb cb' Hc. apply run_pipeline_le. apply (proj1 Hc). Qed.
Lemma mono_rounds k e n : mono (λ cb, timeout_loop ticks k cb e n).
Proof.
  intros cb cb' Hc. induction k as [|k IH]; [apply m_le_refl|]. apply m_le_same. intros t. destruct (_ <? _); [|apply m_le_refl].
  apply m_le_bind; [apply (proj1 Hc)|]. by intros _.
Qed.
Lemma mono_bind {A B} (m : callbacks -> M shell A) (k : callbacks -> A -> M shell B) :
  mono m -> (forall a, mono (λ cb, k cb a)) -> mono (λ cb, bind (m cb) (k cb)).
Proof. intros Hm Hk cb cb' Hc. apply m_le_bind; [by apply Hm|]. intros a. by apply Hk. Qed.

Lemma yields_const {A} (m : M shell A) s v s' : m s = Ret v s' -> yields (λ _, m) s v s'.
Proof. by exists 0%nat. Qed.

Lemma yields_step {A B} (m : M shell A) (k : callbacks -> A -> M shell B) s a s1 v s' :
  m s = Ret a s1 -> yields (λ cb, k cb a) s1 v s' -> yields (λ cb, bind m (k cb)) s v s'.
Proof. intros E [fuel Ek]. exists fuel. by rewrite (bind_Ret _ _ _ _ _ E). Qed.

Lemma yields_bind {A B} (m : callbacks -> M shell A) (k : callbacks -> A -> M shell B) s a s1 v s' :
  mono m -> (forall a, mono (λ cb, k cb a)) -> yields m s a s1 -> yields (λ cb, k cb a) s1 v s' -> yields (λ cb, bind (m cb) (k cb)) s v s'.
Proof.
  intros Hm Hk [f1 E1] [f2 E2]. exists (max f1 f2).
  assert (cb_le (callbacks_at table run f1) (callbacks_at table run (max f1 f2))) as H1 by (apply callbacks_le; [apply run_monotone|lia]).
  assert (cb_le (callbacks_at table run f2) (callbacks_at table run (max f1 f2))) as H2 by (apply callbacks_le; [apply run_monotone|lia]).
  rewrite (bind_Ret _ _ _ _ _ (Hm _ _ H1 _ _ _ E1)). by apply (Hk a _ _ H2).
Qed.

Lemma yields_node n s v s' : yields (λ cb, execute_node table run cb (Some n)) s v s' -> yields (λ cb, cb_ast cb (Some n)) s v s'.
Proof. intros [fuel E]. by exists (S fuel). Qed.
Lemma yields_line l s s' : yields (λ cb, execute_line cb l) s tt s' -> yields (λ cb, cb_command cb l) s tt s'.
Proof. intros [fuel E]. by exists (S fuel). Qed.
Lemma yields_eq {A} (m m' : callbacks -> M shell A) s v s' : (forall cb, m cb s = m' cb s) -> yields m' s v s' -> yields m s v s'.
Proof. intros He [fuel E]. exists fuel. by rewrite He. Qed.

Lemma yields_now {A} (m : callbacks -> M shell A) s v s' : (forall cb, m cb s = Ret v s') -> yields m s v s'.
Proof. intros E. by exists 0%nat. Qed.

Definition node_yields n s v s' : Prop := yields (λ cb, cb_ast cb (Some n)) s v s'.
Definition kids_yield (b : bool) l u s v s' : Prop :=
  yields (λ cb, if b then run_sequence (cb_ast cb) l u else run_pipeline (cb_ast cb) l u) s v s'.
Definition handler_yields f n s v s' : Prop := yields (λ cb, run f cb n) s v s'.
Definition script_yields path s s' : Prop := yields (λ cb, shell_run_script cb path) s tt s'.
Definition line_yields l s s' : Prop := yields (λ cb, cb_command cb l) s tt s'.
Definition rounds_yield e n k s s' : Prop := yields (λ cb, timeout_loop ticks k cb e n) s tt s'.

(** A command up to its lookup. *)
Lemma command_yields n word alias s v s' :
  type n = NODE_COMMAND -> command_name n s word alias ->
  yields (λ cb, match find_builtin table alias with
                | Some b => run (b_handler b) cb n
                | None => shell_print_error word ;;; shell_print_error (str ": command not found") ;;; ret 127
                end) s v s' -> node_yields n s v s'.
Proof.
  intros Hn (p & r & name & Er & Ep & Ew & Ea) Hy. apply yields_node. eapply yields_eq; [|exact Hy]. intros cb.
  unfold execute_node, execute_command_node. rewrite Hn, Er. apply alias_of_iff in Ea.
  rewrite (bind_Ret _ _ s name s) by by apply str_at_iff. unfold shell_resolve_variables. rewrite bind_assoc, bind_get, Ew, bind_option.
  unfold shell_resolve_alias. by rewrite bind_assoc, bind_get, bind_ret, Ea.
Qed.

Lemma and_yields n x y l s w s1 v s' :
  type n = NODE_AND -> kids n = x :: y :: l -> node_yields x s w s1 ->
  yields (λ cb, if w =? 0 then cb_ast cb (Some y) else ret w) s1 v s' -> node_yields n s v s'.
Proof.
  intros Hn Hk Hx Hy. apply yields_node. apply (yields_eq _ (λ cb, status <-- cb_ast cb (Some x) ;; if status =? 0 then cb_ast cb (Some y) else ret status)).
  { intros cb. unfold execute_node. by rewrite Hn, Hk. }
  eapply (yields_bind _ (λ cb status, _)); [apply mono_ast| |done|done]. intros a. apply mono_if; [apply mono_ast|apply mono_const].
Qed.

Lemma or_yields n x y l s w s1 v s' :
  type n = NODE_OR -> kids n = x :: y :: l -> node_yields x s w s1 ->
  yields (λ cb, if w =? 0 then ret w else cb_ast cb (Some y)) s1 v s' -> node_yields n s v s'.
Proof.
  intros Hn Hk Hx Hy. apply yields_node. apply (yields_eq _ (λ cb, status <-- cb_ast cb (Some x) ;; if status =? 0 then ret status else cb_ast cb (Some y))).
  { intros cb. unfold execute_node. by rewrite Hn, Hk. }
  eapply (yields_bind _ (λ cb status, _)); [apply mono_ast| |done|done]. intros a. apply mono_if; [apply mono_const|apply mono_ast].
Qed.

Lemma kids_cons_yield b x l u s w s1 v s' :
  node_yields x s w s1 ->
  kids_yield b l w (if b then set_ctx (mkCtx (exit_requested (shell_ctx s1)) w (current_dir (shell_ctx s1))) s1 else s1) v s' ->
  kids_yield b (x :: l) u s v s'.
Proof.
  intros Hx Hl. destruct b; cbn [run_sequence run_pipeline].
  - eapply yields_bind; [apply mono_ast| |done|].
    + intros a. apply mono_bind; [apply mono_const|]. intros _. apply mono_sequence.
    + eapply yields_step; [reflexivity|]. exact Hl.
  - eapply yields_bind; [apply mono_ast| |done|exact Hl]. intros a. apply mono_pipeline.
Qed.

Lemma count_enough n k : (k <= length (argv (cmd n)))%nat -> (arg_count n <? k)%nat = false.
Proof. apply Nat.ltb_ge. Qed.
Lemma count_short n k : (length (argv (cmd n)) < k)%nat -> (arg_count n <? k)%nat = true.
Proof. apply Nat.ltb_lt. Qed.
Lemma arg_run n p q l s a : argv (cmd n) = p :: q :: l -> sh_strs s !! q = Some a -> arg n 1 s = Ret a s.
Proof. intros E Ea. unfold arg. rewrite E. cbn [lookup list_lookup]. rewrite bind_option. by apply str_at_iff. Qed.

Lemma exec_yields n x l s v s' :
  (2 <= length (argv (cmd n)))%nat -> kids n = x :: l -> node_yields x s v s' -> handler_yields "builtin_exec" n s v s'.
Proof.
  intros Hn Hk Hx. apply (yields_eq _ (λ cb, cb_ast cb (Some x))); [|done]. intros cb. change (builtin_exec cb n s = cb_ast cb (Some x) s).
  unfold builtin_exec. by rewrite count_enough, Hk by done.
Qed.

Lemma nohup_yields n x l s s1 v s' :
  (2 <= length (argv (cmd n)))%nat -> shell_set_variable (str "HUP_IGNORED") (str "1") s = Ret tt s1 -> kids n = x :: l ->
  node_yields x s1 v s' -> handler_yields "builtin_nohup" n s v s'.
Proof.
  intros Hn Hs Hk Hx. apply (yields_eq _ (λ cb, shell_set_variable (str "HUP_IGNORED") (str "1") ;;; cb_ast cb (Some x))).
  { intros cb. change (builtin_nohup cb n s = bind (shell_set_variable (str "HUP_IGNORED") (str "1")) (λ _, cb_ast cb (Some x)) s).
    unfold builtin_nohup. by rewrite count_enough, Hk by done. }
  by eapply yields_step.
Qed.

Lemma eval_yields n p r text s s' :
  argv (cmd n) = p :: r -> r <> [] -> joined s [] r text -> line_yields text s s' -> handler_yields "builtin_eval" n s 0 s'.
Proof.
  intros Er Hr Hj Hl. apply (yields_eq _ (λ cb, cb_command cb text ;;; ret 0)).
  { intros cb. change (builtin_eval cb n s = bind (cb_command cb text) (λ _, ret 0) s). unfold builtin_eval.
    rewrite count_enough by (rewrite Er; destruct r; [done|cbn; lia]). rewrite Er. cbn [drop].
    rewrite (bind_Ret _ _ s text s); [done|]. by apply eval_text_iff. }
  eapply (yields_bind _ (λ _ _, ret 0)); [apply mono_command|intros _; apply mono_const|exact Hl|by apply yields_const].
Qed.

Lemma source_yields f n p q r path s s' :
  f ∈ ["builtin_dot"; "builtin_source"] -> argv (cmd n) = p :: q :: r -> sh_strs s !! q = Some path ->
  script_yields path s s' -> handler_yields f n s 0 s'.
Proof.
  intros Hf Er Hq Hs. apply (yields_eq _ (λ cb, shell_run_script cb path ;;; ret 0)).
  { intros cb. trans (builtin_dot cb n s); [rewrite !elem_of_cons, elem_of_nil in Hf; by destruct Hf as [->|[->|[]]]|]. unfold builtin_dot.
    rewrite count_enough by (rewrite Er; cbn; lia). by rewrite (bind_Ret _ _ _ _ _ (arg_run _ _ _ _ _ _ Er Hq)). }
  destruct Hs as [fuel E]. exists fuel. by rewrite (bind_Ret _ _ _ _ _ E).
Qed.

Lemma source_none_yields f n s :
  f ∈ ["builtin_dot"; "builtin_source"] -> (length (argv (cmd n)) < 2)%nat ->
  handler_yields f n s 1 (with_text (str "Error: . : filename argument required" ++ [10]) s).
Proof.
  intros Hf Hn. apply (yields_eq _ (λ cb, builtin_dot cb n)).
  { intros cb. rewrite !elem_of_cons, elem_of_nil in Hf. by destruct Hf as [->|[->|[]]]. }
  exists 0%nat. unfold builtin_dot. rewrite count_short by done. by rewrite (bind_Ret _ _ _ _ _ (print_error_run _ _)).
Qed.

Lemma timeout_yields n p q l t time s s1 s' :
  argv (cmd n) = p :: q :: l -> l <> [] -> ticks s = Ret t s1 -> sh_strs s1 !! q = Some time ->
  rounds_yield (u64 (t + u64 (atoi_simple time) * 100)) (timed_command n) spins s1 s' -> handler_yields "builtin_timeout" n s 0 s'.
Proof.
  intros Er Hl Et Hq Hr.
  apply (yields_eq _ (λ cb, t <-- ticks ;; a <-- arg n 1 ;; timeout_loop ticks spins cb (u64 (t + u64 (atoi_simple a) * 100)) (timed_command n) ;;; ret 0)).
  { intros cb. change (run "builtin_timeout" cb n s) with (builtin_timeout spins ticks cb n s). unfold builtin_timeout.
    by rewrite count_enough by (rewrite Er; destruct l; [done|cbn; lia]). }
  eapply (yields_step _ (λ cb t, _)); [exact Et|]. eapply (yields_step _ (λ cb t, _)); [by eapply arg_run|].
  destruct Hr as [fuel E]. exists fuel. by rewrite (bind_Ret _ _ _ _ _ E).
Qed.

Lemma rounds_more_yields e n k s t s1 v s2 s3 :
  ticks s = Ret t s1 -> t < e -> node_yields n s1 v s2 -> rounds_yield e n k s2 s3 -> rounds_yield e n (S k) s s3.
Proof.
  intros Et He Hn Hr. unfold rounds_yield. cbn [timeout_loop]. eapply (yields_step _ (λ cb t, _)); [exact Et|]. destruct (Z.ltb_spec t e); [|lia].
  eapply (yields_bind _ (λ cb _, _)); [apply mono_ast|intros _; apply mono_rounds|done|done].
Qed.

Lemma script_line_yields path s s1 s2 s3 s4 fd m bytes text rest v :
  on_vfs (vfs_open path 0) s = Ret fd s1 -> 0 <= fd -> on_vfs (vfs_read fd 4095) s1 = Ret (m, bytes) s2 -> 0 < m ->
  bytes = text ++ rest -> 0 ∉ text -> match rest with c :: _ => c = 0 | [] => True end ->
  line_yields text s2 s3 -> on_vfs (vfs_close fd) s3 = Ret v s4 -> script_yields path s s4.
Proof.
  intros Eo Hf Er Hm -> Ht Hr Hl Ec. unfold script_yields, shell_run_script. eapply (yields_step _ (λ cb fd, _)); [exact Eo|].
  destruct (Z.ltb_spec fd 0); [lia|]. eapply (yields_step _ (λ cb r, _)); [exact Er|]. cbn [fst snd]. destruct (Z.ltb_spec 0 m); [|lia].
  rewrite before_zero_run by done. destruct Hl as [fuel E]. exists fuel. rewrite (bind_Ret _ _ _ _ _ E). by rewrite (bind_Ret _ _ _ _ _ Ec).
Qed.

Lemma line_run line text toks o cb s s1 s2 :
  line <> [] -> resolve_variables (global_vars s) line = Some text -> tokenize text s = Ret toks s1 -> parse_tokens toks s1 = Ret o s2 ->
  execute_line cb line s = (match o with Some n => cb_ast cb o ;;; ast_free n | None => ret tt end ;;; tokenizer_free_tokens toks) s2.
Proof.
  intros Hne Hr Et Ep. destruct line as [|c l]; [done|]. unfold execute_line, shell_resolve_variables. rewrite bind_assoc, bind_get, Hr, bind_option.
  by rewrite (bind_Ret _ _ _ _ _ Et), (bind_Ret _ _ _ _ _ Ep).
Qed.

Lemma line_tree_yields line text toks n v s s1 s2 s3 s4 s5 :
  line <> [] -> resolve_variables (global_vars s) line = Some text -> tokenize text s = Ret toks s1 ->
  parse_tokens toks s1 = Ret (Some n) s2 -> node_yields n s2 v s3 -> ast_free n s3 = Ret tt s4 ->
  tokenizer_free_tokens toks s4 = Ret tt s5 -> line_yields line s s5.
Proof.
  intros Hne Hr Et Ep [fuel E] Ef Eg. apply yields_line. exists fuel. rewrite (line_run _ _ _ _ _ _ _ _ Hne Hr Et Ep).
  rewrite (bind_Ret _ _ _ tt s4); [done|]. by rewrite (bind_Ret _ _ _ _ _ E).
Qed.

Lemma eval_yields_all n s v s' : eval table spins ticks device n s v s' -> node_yields n s v s'.
Proof.
  apply (eval_mind table spins ticks device node_yields kids_yield handler_yields script_yields line_yields rounds_yield).
  - intros m t Hm Ha. apply yields_node, yields_now. intros cb. unfold execute_node, execute_command_node. by rewrite Hm, Ha.
  - intros m word alias t Hm Hw Hb. apply no_builtin_iff in Hb. eapply command_yields; [done|done|]. rewrite Hb. apply yields_const, not_found_run.
  - intros m word alias b t u t' Hm Hw Hb%builtin_of_iff _ IH. eapply command_yields; [done|done|]. by rewrite Hb.
  - intros m t u t' Hm _ IH. apply yields_node. eapply yields_eq; [|exact IH]. intros cb. unfold execute_node. by rewrite Hm.
  - intros m t u t' Hm _ IH. apply yields_node. eapply yields_eq; [|exact IH]. intros cb. unfold execute_node. by rewrite Hm.
  - intros m x y l t t1 u t' Hm Hk _ IHx _ IHy. by eapply and_yields.
  - intros m x y l t u t' Hm Hk _ IHx Hu. eapply and_yields; [done..|]. destruct (Z.eqb_spec u 0); [done|]. by apply yields_const.
  - intros m t Hm Hk. apply yields_node, yields_now. intros cb. unfold execute_node. rewrite Hm. destruct (kids m) as [|x [|y l]]; [done..|cbn in Hk; lia].
  - intros m x y l t w t1 u t' Hm Hk _ IHx Hw _ IHy. eapply or_yields; [done..|]. by destruct (Z.eqb_spec w 0).
  - intros m x y l t t' Hm Hk _ IHx. eapply or_yields; [done..|]. by apply yields_const.
  - intros m t Hm Hk. apply yields_node, yields_now. intros cb. unfold execute_node. rewrite Hm. destruct (kids m) as [|x [|y l]]; [done..|cbn in Hk; lia].
  - intros m x l t u t' Hm Hk _ IH. apply yields_node. eapply yields_eq; [|exact IH]. intros cb. unfold execute_node. by rewrite Hm, Hk.
  - intros m t Hm Hk. apply yields_node, yields_now. intros cb. unfold execute_node. by rewrite Hm, Hk.
  - intros m t Hm. apply yields_node, yields_now. intros cb. unfold execute_node.
    destruct (type m); try done; destruct Hm; set_solver.
  - intros b u t. destruct b; by apply yields_const.
  - intros b x l u t w t1 v1 t' _ IHx _ IHl. by eapply kids_cons_yield.
  - intros f m t u t' Hf E. apply (yields_eq _ (λ _, run f no_callbacks m)); [|by apply yields_const]. intros cb.
    by apply (run_plain table spins ticks device device_plain).
  - intros m t Hm. exists 0%nat. change (builtin_exec (callbacks_at table run 0) m t = Ret 0 t). unfold builtin_exec. by rewrite count_short.
  - intros m x l t u t' Hm Hk _ IH. by eapply exec_yields.
  - intros m t Hm. exists 0%nat. change (builtin_nohup (callbacks_at table run 0) m t = Ret 1 t). unfold builtin_nohup. by rewrite count_short.
  - intros m x l t t1 u t' Hm Hs Hk _ IH. by eapply nohup_yields.
  - intros m t Hm. exists 0%nat. change (builtin_eval (callbacks_at table run 0) m t = Ret 0 t). unfold builtin_eval. by rewrite count_short.
  - intros m p r text t t' Hm Hr Hj _ IH. by eapply eval_yields.
  - intros f m t Hf Hm. by apply source_none_yields.
  - intros f m p q r path t t' Hf Hm Hq _ IH. by eapply source_yields.
  - intros m t Hm. exists 0%nat. change (builtin_timeout spins ticks (callbacks_at table run 0) m t = Ret 1 t). unfold builtin_timeout. by rewrite count_short.
  - intros m p q l t time t0 t1 t' Hm Hl Et Hq _ IH. by eapply timeout_yields.
  - intros path t t1 fd Eo Hf. exists 0%nat. unfold shell_run_script. rewrite (bind_Ret _ _ _ _ _ Eo).
    destruct (Z.ltb_spec fd 0); [|lia]. exact (print_error_run _ _).
  - intros path t t1 t2 t3 fd m bytes u Eo Hf Er Hm Ec. exists 0%nat. unfold shell_run_script. rewrite (bind_Ret _ _ _ _ _ Eo).
    destruct (Z.ltb_spec fd 0); [lia|]. rewrite (bind_Ret _ _ _ _ _ Er). cbn [fst snd]. destruct (Z.ltb_spec 0 m); [lia|].
    rewrite bind_ret. by rewrite (bind_Ret _ _ _ _ _ Ec).
  - intros. by eapply script_line_yields.
  - intros t. apply yields_line. by exists 0%nat.
  - intros line text toks t t1 t2 t3 Hne Hr Et Ep Ef. apply yields_line. exists 0%nat. rewrite (line_run _ _ _ _ _ _ _ _ Hne Hr Et Ep). done.
  - intros. by eapply line_tree_yields.
  - intros e m k t u t1 Et He. exists 0%nat. cbn [timeout_loop]. rewrite (bind_Ret _ _ _ _ _ Et). by destruct (Z.ltb_spec u e); [lia|].
  - intros. by eapply rounds_more_yields.
Qed.

Lemma does_yields l s s' : does table spins ticks device l s s' -> line_yields l s s'.
Proof.
  intros Hl. destruct Hl as [t|line text toks t t1 t2 t3 Hne Hr Et Ep Ef|line text toks m v t t1 t2 t3 t4 t5 Hne Hr Et Ep Hn Ef Eg].
  - apply yields_line. by exists 0%nat.
  - apply yields_line. exists 0%nat. by rewrite (line_run _ _ _ _ _ _ _ _ Hne Hr Et Ep).
  - eapply line_tree_yields; [done..| |done|done]. by apply eval_yields_all.
Qed.
End completeness.

(** ** Properties *)

Section meaning_properties.
Context {H : Type} `{!Allocator H}.
Local Abbreviation shell := (shell (vfs H)).
Local Abbreviation handler := (handler (vfs H)).
Variables (table : list builtin_cmd_t) (spins : nat) (ticks : M shell Z) (device : string -> handler).
Implicit Types (s : shell) (n : ast_node_t).

(** C15. The interpreter computes exactly the meaning of its input.  A tree returns a status and
    a state, for some bound on the depth of the calls, if and only if the rules of [eval] derive
    them: the first builtin of the name - its variables and its alias resolved - is run, an unknown
    name writes the error and gives 127, a sequence runs all its parts and stores
    each status, [&&] and [||] run the second part only after a success or a failure; [exec]
    and [nohup] run the first child of their command, [eval] its joined arguments as a line,
    [source] the first 4095 bytes of the file, [timeout] the command behind the time until the
    clock passes.  And a line returns if and only if the rules of [does] derive its state: its
    variables are resolved, its tokens parsed, its tree run, and tree and tokens freed.  The builtins that
    need a device must not run commands themselves. *)
Theorem shell_means :
  (forall f, plain (device f)) ->
  (forall n s v s', (exists fuel, shell_execute_ast table (run_builtin table spins ticks device) fuel (Some n) s = Ret v s') <->
    eval table spins ticks device n s v s') /\
  (forall l s s', (exists fuel, shell_execute_command table (run_builtin table spins ticks device) fuel l s = Ret tt s') <->
    does table spins ticks device l s s').
Proof.
  intros Hd. split.
  - intros n s v s'. split; [intros [fuel E]; by eapply node_sound, E; [|apply callbacks_sound]|].
    intros Hn. destruct (eval_yields_all _ _ _ _ Hd _ _ _ _ Hn) as [[|fuel] E]; [done|by exists fuel].
  - intros l s s'. split; [intros [fuel E]; by eapply line_sound, E; apply callbacks_sound|].
    intros Hl. destruct (does_yields _ _ _ _ Hd _ _ _ Hl) as [[|fuel] E]; [done|by exists fuel].
Qed.
End meaning_properties.

Section meaning_witnesses.
#[local] Existing Instance endless_allocator.

(** A shell with the arguments of [eval cd dev], and the builtins of the program. *)
Definition shell3 : shell (vfs (gset Z)) :=
  mkShell vfs_small {[10 := str "eval"; 11 := str "cd"; 12 := str "dev"]} [] [] [] [] [] (mkCtx false 0 (str "/")) [].

Lemma shell_means_witness :
  exists s', eval (shell_register_builtins []) 0 (ret 0) (λ _ _ _, stuck) (cmd2 [10; 11; 12]) shell3 0 s' /\
    current_dir (shell_ctx s') = str "dev".
Proof.
  assert (exists s', shell_execute_ast (shell_register_builtins []) (run_builtin (shell_register_builtins []) 0 (ret 0) (λ _ _ _, stuck))
    8 (Some (cmd2 [10; 11; 12])) shell3 = Ret 0 s' /\ current_dir (shell_ctx s') = str "dev") as (s' & E & Ex).
  { eexists. split; [vm_compute; exact eq_refl|vm_compute; exact eq_refl]. }
  exists s'. split; [|exact Ex].
  apply (proj1 (shell_means (shell_register_builtins []) 0 (ret 0) (λ _ _ _, stuck) (λ _ _ _ _ _, eq_refl))). exists 8%nat. exact E.
Defined.
End meaning_witnesses.
