(* ===== verification/Windows.v ===== *)
(** * Windows (ui/widgets/window.c)

    [windows] is the array of the code; a title is present or not.  Coordinates and sizes
    are 32-bit; [window_render] draws the windows in the order of the array, the last one
    on top, and [window_handle_click] looks for the hit window from the last one. *)

From S2P Require Import Prelude.

Definition MAX_WINDOWS : Z := 8.

Record ui_rect_t := mkRect { r_x : Z; r_y : Z; r_w : Z; r_h : Z }.
Record ui_window_t := mkWindow {
  bounds : ui_rect_t; w_fill : Z; w_border : Z; w_title_bg : Z; w_title : option (list Z);
  visible : bool; w_focused : bool; dragging : bool; drag_offset_x : Z; drag_offset_y : Z
}.

Record desktop := mkDesktop { windows : list ui_window_t; num_windows : Z; focused_window : Z; drag_window_idx : Z }.
Implicit Types (s : desktop) (w : ui_window_t).

(** ** ui/widgets/widget.c *)

Definition ui_rect_contains (r : ui_rect_t) (px py : Z) : bool :=
  (r_x r <=? px) && (px <? u32 (r_x r + r_w r)) && (r_y r <=? py) && (py <? u32 (r_y r + r_h r)).

(** ** The windows *)

Definition set_windows (l : list ui_window_t) s : desktop := mkDesktop l (num_windows s) (focused_window s) (drag_window_idx s).
Definition set_num (n : Z) s : desktop := mkDesktop (windows s) n (focused_window s) (drag_window_idx s).
Definition set_focus (n : Z) s : desktop := mkDesktop (windows s) (num_windows s) n (drag_window_idx s).
Definition set_drag (n : Z) s : desktop := mkDesktop (windows s) (num_windows s) (focused_window s) n.
Definition w_set_focused (b : bool) w : ui_window_t :=
  mkWindow (bounds w) (w_fill w) (w_border w) (w_title_bg w) (w_title w) (visible w) b (dragging w) (drag_offset_x w) (drag_offset_y w).
Definition w_set_drag (dx dy : Z) w : ui_window_t :=
  mkWindow (bounds w) (w_fill w) (w_border w) (w_title_bg w) (w_title w) (visible w) (w_focused w) true dx dy.
Definition w_move (x y : Z) w : ui_window_t :=
  mkWindow (mkRect x y (r_w (bounds w)) (r_h (bounds w))) (w_fill w) (w_border w) (w_title_bg w) (w_title w) (visible w) (w_focused w)
    (dragging w) (drag_offset_x w) (drag_offset_y w).

(** [windows[i]]. *)
Definition window_at (i : Z) : M desktop ui_window_t := s <-- get ;; of_option (aget (windows s) i).
Definition window_put (i : Z) w : M desktop unit :=
  s <-- get ;; l <-- of_option (aset (windows s) i w) ;; put (set_windows l s).

Definition window_init : M desktop unit := modify (set_num 0) ;;; modify (set_focus 0) ;;; modify (set_drag (-1)).

Definition window_bring_to_front (index : Z) : M desktop unit :=
  s <-- get ;;
  if num_windows s <=? index then ret tt
  else
    for_range 0 (num_windows s) (λ i, w <-- window_at i ;; window_put i (w_set_focused false w)) ;;;
    temp <-- window_at index ;;
    for_range 0 index (λ k, w <-- window_at (index - k - 1) ;; window_put (index - k) w) ;;;
    window_put 0 temp ;;;
    w <-- window_at 0 ;;
    window_put 0 (w_set_focused true w) ;;;
    modify (set_focus 0).

Definition window_create (title : option (list Z)) (x y w h : Z) : M desktop unit :=
  s <-- get ;;
  if MAX_WINDOWS <=? num_windows s then ret tt
  else
    let idx := num_windows s in
    modify (set_num (idx + 1)) ;;;
    window_put idx (mkWindow (mkRect x y w h) 0x16213E 0x533483 0x0F3460 title true false false 0 0) ;;;
    window_bring_to_front idx.

Definition window_close (index : Z) : M desktop unit :=
  s <-- get ;;
  if num_windows s <=? index then ret tt
  else
    for_range index (num_windows s - 1) (λ i, w <-- window_at (i + 1) ;; window_put i w) ;;;
    modify (λ s, set_num (num_windows s - 1) s) ;;;
    modify (λ s, if num_windows s <=? focused_window s then set_focus (if 0 <? num_windows s then num_windows s - 1 else 0) s else s).

(** The loop of [window_handle_click] from [n - 1] down to 0. *)
Fixpoint click_loop (n : nat) (x y : Z) : M desktop bool :=
  match n with
  | O => ret false
  | S i =>
      w <-- window_at (Z.of_nat i) ;;
      if negb (visible w) then click_loop i x y
      else if ui_rect_contains (bounds w) x y then
        window_bring_to_front (Z.of_nat i) ;;;
        f <-- window_at 0 ;;
        (if y <? u32 (r_y (bounds f) + 26) then
           window_put 0 (w_set_drag (s32 (s32 x - s32 (r_x (bounds f)))) (s32 (s32 y - s32 (r_y (bounds f)))) f) ;;;
           modify (set_drag 0)
         else ret tt) ;;;
        ret true
      else click_loop i x y
  end.
Definition window_handle_click (x y : Z) : M desktop bool := s <-- get ;; click_loop (Z.to_nat (num_windows s)) x y.

Definition window_handle_drag (x y : Z) : M desktop bool :=
  s <-- get ;;
  if (drag_window_idx s <? 0) || (num_windows s <=? drag_window_idx s) then ret false
  else
    win <-- window_at (drag_window_idx s) ;;
    if negb (dragging win) then ret false
    else
      window_put (drag_window_idx s) (w_move (u32 (x - drag_offset_x win)) (u32 (y - drag_offset_y win)) win) ;;;
      ret true.

Definition window_set_focused (index : Z) : M desktop unit :=
  s <-- get ;; if index <? num_windows s then window_bring_to_front index else ret tt.
Definition window_count : M desktop Z := gets num_windows.

(** ** The stack of windows *)

Section stack.

(** The windows from the bottom to the top. *)
Definition shown s : list ui_window_t := take (Z.to_nat (num_windows s)) (windows s).

Record desktop_wf s : Prop := {
  dt_length : length (windows s) = 8%nat;
  dt_num : 0 <= num_windows s <= MAX_WINDOWS
}.

Definition hit (x y : Z) w : bool := visible w && ui_rect_contains (bounds w) x y.

(** The window drawn on top of the others at a point. *)
Fixpoint top_at (l : list ui_window_t) (x y : Z) : option nat :=
  match l with
  | [] => None
  | w :: r => match top_at r x y with
              | Some i => Some (S i)
              | None => if hit x y w then Some O else None
              end
  end.

Lemma window_at_run s i w : 0 <= i -> windows s !! Z.to_nat i = Some w -> window_at i s = Ret w s.
Proof. intros Hi E. unfold window_at. rewrite bind_get. assert (aget (windows s) i = Some w) as -> by by apply aget_Some. done. Qed.

Lemma window_put_run s i w : 0 <= i < Z.of_nat (length (windows s)) -> window_put i w s = Ret tt (set_windows (<[Z.to_nat i := w]> (windows s)) s).
Proof. intros Hi. unfold window_put. rewrite bind_get, aset_in by done. done. Qed.

(** The loop that takes the focus from every window. *)
Lemma unfocus_run n i s :
  0 <= i -> i + Z.of_nat n <= Z.of_nat (length (windows s)) ->
  for_n n i (λ i, w <-- window_at i ;; window_put i (w_set_focused false w)) s =
    Ret tt (set_windows (take (Z.to_nat i) (windows s) ++ (w_set_focused false <$> take n (drop (Z.to_nat i) (windows s))) ++
      drop (Z.to_nat i + n) (windows s)) s).
Proof.
  revert i s. induction n as [|n IH]; intros i s Hi Hl.
  - rewrite take_0, Nat.add_0_r. cbn [for_n fmap list_fmap app]. rewrite take_drop. by destruct s.
  - cbn [for_n]. destruct (lookup_lt_is_Some_2 (windows s) (Z.to_nat i)) as [w Ew]; [lia|].
    rewrite bind_assoc, (bind_Ret _ _ _ _ _ (window_at_run s i w Hi Ew)), (bind_Ret _ _ _ _ _ (window_put_run s i _ ltac:(lia))).
    rewrite IH; [|lia|cbn [windows set_windows]; rewrite length_insert; lia]. f_equal. unfold set_windows. cbn [windows num_windows focused_window drag_window_idx].
    f_equal. replace (Z.to_nat (i + 1)) with (S (Z.to_nat i)) by lia. set (k := Z.to_nat i) in *.
    assert (windows s = take k (windows s) ++ w :: drop (S k) (windows s)) as Es by (symmetry; by apply take_drop_middle).
    assert (length (take k (windows s)) = k) as Hk by (rewrite length_take; lia).
    assert (<[k := w_set_focused false w]> (windows s) = take k (windows s) ++ w_set_focused false w :: drop (S k) (windows s)) as Ei.
    { rewrite Es at 1. by rewrite insert_app_r_alt, Hk, Nat.sub_diag by lia. }
    rewrite Ei. rewrite (drop_S _ _ _ Ew). cbn [take fmap list_fmap].
    rewrite take_app_ge, Hk by lia. replace (S k - k)%nat with 1%nat by lia. cbn [take].
    rewrite drop_app_ge, Hk by lia. replace (S k - k)%nat with 1%nat by lia. cbn [drop].
    rewrite drop_app_ge, Hk by lia. replace (S k + n - k)%nat with (S n) by lia. cbn [drop].
    rewrite take_0, !drop_drop, Nat.add_0_r, <- !app_assoc. cbn [app]. by replace (S k + n)%nat with (k + S n)%nat by lia.
Qed.

(** The loop that moves the windows below [index] up by one. *)
Lemma shift_run n k s index :
  0 <= k -> k + Z.of_nat n = index -> index < Z.of_nat (length (windows s)) ->
  exists l, for_n n k (λ k, w <-- window_at (index - k - 1) ;; window_put (index - k) w) s = Ret tt (set_windows l s) /\
    length l = length (windows s) /\
    forall p, l !! p = if bool_decide (0 < Z.of_nat p <= index - k) then windows s !! (p - 1)%nat else windows s !! p.
Proof.
  revert k s. induction n as [|n IH]; intros k s Hk Hi Hl.
  - exists (windows s). split; [by destruct s|]. split; [done|]. intros p. by rewrite bool_decide_false by lia.
  - cbn [for_n]. destruct (lookup_lt_is_Some_2 (windows s) (Z.to_nat (index - k - 1))) as [w Ew]; [lia|].
    rewrite bind_assoc, (bind_Ret _ _ _ _ _ (window_at_run s (index - k - 1) w ltac:(lia) Ew)), (bind_Ret _ _ _ _ _ (window_put_run s (index - k) _ ltac:(lia))).
    destruct (IH (k + 1) (set_windows (<[Z.to_nat (index - k) := w]> (windows s)) s)) as (l & E & El & Ep);
      [lia|lia|cbn [windows set_windows]; rewrite length_insert; lia|].
    exists l. split; [exact E|]. cbn [windows set_windows] in *. rewrite length_insert in El. split; [done|]. intros p. rewrite Ep.
    case_bool_decide as H1; case_bool_decide as H2; try lia.
    + rewrite list_lookup_insert_ne by lia. done.
    + assert (p = Z.to_nat (index - k)) as -> by lia. rewrite list_lookup_insert_eq by lia.
      replace (Z.to_nat (index - k) - 1)%nat with (Z.to_nat (index - k - 1)) by lia. done.
    + rewrite list_lookup_insert_ne by lia. done.
Qed.

Lemma bring_to_front_run s i w :
  desktop_wf s -> shown s !! i = Some w ->
  exists l, window_bring_to_front (Z.of_nat i) s = Ret tt (set_focus 0 (set_windows l s)) /\ length l = 8%nat /\
    take (Z.to_nat (num_windows s)) l = w_set_focused true w :: (w_set_focused false <$> delete i (shown s)).
Proof.
  intros [Hlen Hn] Ew. unfold MAX_WINDOWS in Hn. unfold shown in Ew. set (n := Z.to_nat (num_windows s)) in *.
  pose proof (lookup_lt_Some _ _ _ Ew) as Hi. rewrite length_take in Hi.
  unfold window_bring_to_front. rewrite bind_get. destruct (Z.leb_spec (num_windows s) (Z.of_nat i)); [lia|].
  unfold for_range at 1. rewrite Z.sub_0_r. fold n.
  rewrite (bind_Ret _ _ _ _ _ (unfocus_run n 0 s ltac:(lia) ltac:(lia))). cbn [Z.to_nat take app Nat.add].
  set (l1 := (w_set_focused false <$> take n (drop 0 (windows s))) ++ drop n (windows s)).
  assert (take n l1 = w_set_focused false <$> take n (windows s)) as Et.
  { unfold l1. rewrite drop_0, take_app_le by (rewrite length_fmap, length_take; lia). rewrite take_ge; [done|]. rewrite length_fmap, length_take. lia. }
  assert (length l1 = 8%nat) as Hl1 by (unfold l1; rewrite drop_0, length_app, length_fmap, length_take, length_drop; lia).
  assert (l1 !! i = Some (w_set_focused false w)) as Ei.
  { rewrite <- (lookup_take_lt l1 n i) by lia. by rewrite Et, list_lookup_fmap, Ew. }
  rewrite (bind_Ret _ _ _ _ _ (window_at_run (set_windows l1 s) (Z.of_nat i) _ ltac:(lia) ltac:(rewrite Nat2Z.id; exact Ei))).
  unfold for_range. rewrite Z.sub_0_r, Nat2Z.id.
  destruct (shift_run i 0 (set_windows l1 s) (Z.of_nat i)) as (l & E & El & Ep); [lia|lia|cbn; lia|]. cbn [windows set_windows] in El, Ep.
  rewrite (bind_Ret _ _ _ _ _ E). change (set_windows l (set_windows l1 s)) with (set_windows l s).
  rewrite (bind_Ret _ _ _ _ _ (window_put_run (set_windows l s) 0 _ ltac:(cbn; lia))). cbn [windows set_windows].
  set (l2 := <[Z.to_nat 0 := w_set_focused false w]> l). change (set_windows l2 (set_windows l s)) with (set_windows l2 s).
  assert (l2 !! 0%nat = Some (w_set_focused false w)) as E0 by (apply list_lookup_insert_eq; lia).
  rewrite (bind_Ret _ _ _ _ _ (window_at_run (set_windows l2 s) 0 _ ltac:(lia) E0)).
  rewrite (bind_Ret _ _ _ _ _ (window_put_run (set_windows l2 s) 0 _ ltac:(cbn; unfold l2; rewrite length_insert; lia))).
  eexists. split; [reflexivity|]. cbn [windows set_windows]. unfold l2. split; [rewrite !length_insert; lia|].
  rewrite list_fmap_delete. unfold shown. fold n. rewrite <- Et. change (Z.to_nat 0) with 0%nat. rewrite list_insert_insert_eq.
  apply list_eq. intros [|p].
  - rewrite lookup_take_lt, list_lookup_insert_eq by lia. done.
  - transitivity (delete i (take n l1) !! p); [|done]. rewrite list_lookup_delete, !lookup_take, list_lookup_insert_ne, Ep by lia.
    repeat case_decide; try lia; try done; case_bool_decide; try lia. by replace (S p - 1)%nat with p by lia.
Qed.

(** The window [i] moved to the bottom, with the focus. *)
Definition raised (i : nat) (l : list ui_window_t) : list ui_window_t :=
  match l !! i with
  | Some w => w_set_focused true w :: (w_set_focused false <$> delete i l)
  | None => l
  end.

Lemma raised_length i l : length (raised i l) = length l.
Proof.
  unfold raised. destruct (l !! i) eqn:E; [|done]. cbn [length]. rewrite length_fmap. pose proof (lookup_lt_Some _ _ _ E).
  rewrite length_delete by eauto. lia.
Qed.

Lemma front_run s (i : Z) :
  desktop_wf s -> 0 <= i ->
  exists s', window_bring_to_front i s = Ret tt s' /\ desktop_wf s' /\ shown s' = raised (Z.to_nat i) (shown s) /\
    num_windows s' = num_windows s /\ drag_window_idx s' = drag_window_idx s /\ (i < num_windows s -> focused_window s' = 0).
Proof.
  intros Hw Hi. pose proof (dt_length _ Hw) as Hl. pose proof (dt_num _ Hw) as Hn. unfold raised.
  destruct (shown s !! Z.to_nat i) as [w|] eqn:E.
  - destruct (bring_to_front_run s _ w Hw E) as (l & Er & Hll & Et). rewrite Z2Nat.id in Er by done. eexists. split; [exact Er|].
    split; [by split|]. by split.
  - assert (num_windows s <= i) as Hge.
    { unfold shown in E. apply lookup_take_None in E as [E|E]; [|lia]. apply lookup_ge_None in E. unfold MAX_WINDOWS in *. lia. }
    exists s. unfold window_bring_to_front. rewrite bind_get. destruct (Z.leb_spec (num_windows s) i); [|lia]. split; [done|]. split; [done|].
    split; [done|]. split; [done|]. split; [done|]. lia.
Qed.

(** The loop of [window_close]. *)
Lemma close_loop_run n i s :
  0 <= i -> i + Z.of_nat n < Z.of_nat (length (windows s)) ->
  exists l, for_n n i (λ i, w <-- window_at (i + 1) ;; window_put i w) s = Ret tt (set_windows l s) /\ length l = length (windows s) /\
    forall p, l !! p = if bool_decide (i <= Z.of_nat p < i + Z.of_nat n) then windows s !! (S p) else windows s !! p.
Proof.
  revert i s. induction n as [|n IH]; intros i s Hi Hl.
  - exists (windows s). split; [by destruct s|]. split; [done|]. intros p. by rewrite bool_decide_false by lia.
  - cbn [for_n]. destruct (lookup_lt_is_Some_2 (windows s) (Z.to_nat (i + 1))) as [w Ew]; [lia|].
    rewrite bind_assoc, (bind_Ret _ _ _ _ _ (window_at_run s (i + 1) w ltac:(lia) Ew)), (bind_Ret _ _ _ _ _ (window_put_run s i _ ltac:(lia))).
    destruct (IH (i + 1) (set_windows (<[Z.to_nat i := w]> (windows s)) s)) as (l & E & El & Ep);
      [lia|cbn [windows set_windows]; rewrite length_insert; lia|].
    exists l. split; [exact E|]. cbn [windows set_windows] in *. rewrite length_insert in El. split; [done|]. intros p. rewrite Ep.
    case_bool_decide as H1; case_bool_decide as H2; try lia.
    + by rewrite list_lookup_insert_ne by lia.
    + assert (p = Z.to_nat i) as -> by lia. rewrite list_lookup_insert_eq by lia. by replace (S (Z.to_nat i)) with (Z.to_nat (i + 1)) by lia.
    + by rewrite list_lookup_insert_ne by lia.
Qed.

Lemma close_run s (i : Z) :
  desktop_wf s -> 0 <= i ->
  exists s', window_close i s = Ret tt s' /\ desktop_wf s' /\ shown s' = delete (Z.to_nat i) (shown s) /\
    num_windows s' = (if i <? num_windows s then num_windows s - 1 else num_windows s).
Proof.
  intros Hw Hi. pose proof (dt_length _ Hw) as Hl. pose proof (dt_num _ Hw) as Hn. unfold MAX_WINDOWS in Hn.
  unfold window_close. rewrite bind_get. destruct (Z.leb_spec (num_windows s) i).
  - exists s. split; [done|]. split; [done|]. destruct (Z.ltb_spec i (num_windows s)); [lia|]. split; [|done].
    symmetry. apply list_eq. intros p. rewrite list_lookup_delete. case_decide; [done|].
    rewrite !lookup_ge_None_2; [done|..]; unfold shown; rewrite length_take; lia.
  - destruct (Z.ltb_spec i (num_windows s)); [|lia]. unfold for_range.
    destruct (close_loop_run (Z.to_nat (num_windows s - 1 - i)) i s Hi ltac:(lia)) as (l & E & El & Ep).
    rewrite (bind_Ret _ _ _ _ _ E), bind_modify. eexists. split; [reflexivity|].
    set (s' := set_num _ _). assert (forall f : Z, shown (set_focus f s') = delete (Z.to_nat i) (shown s)) as Hs.
    { intros f. unfold shown. cbn [num_windows windows set_focus set_num set_windows s']. apply list_eq. intros p.
      rewrite list_lookup_delete, !lookup_take, Ep. repeat case_decide; try lia; try done; case_bool_decide; try lia; done. }
    assert (forall f : Z, desktop_wf (set_focus f s')) as Hwf by (intros f; split; cbn; unfold MAX_WINDOWS; lia).
    assert (s' = set_focus (focused_window s') s') as Es' by done.
    destruct (num_windows s' <=? focused_window s'); [|rewrite Es']; (split; [apply Hwf|]; split; [apply Hs|done]).
Qed.

Lemma create_run s t x y width height :
  desktop_wf s ->
  exists s', window_create t x y width height s = Ret tt s' /\ desktop_wf s' /\
    shown s' = if num_windows s <? MAX_WINDOWS
               then mkWindow (mkRect x y width height) 0x16213E 0x533483 0x0F3460 t true true false 0 0 :: (w_set_focused false <$> shown s)
               else shown s.
Proof.
  intros Hw. pose proof (dt_length _ Hw) as Hl. pose proof (dt_num _ Hw) as Hn. unfold MAX_WINDOWS in *. unfold window_create, MAX_WINDOWS. rewrite bind_get.
  destruct (Z.leb_spec 8 (num_windows s)); [exists s; split; [done|]; split; [done|]; by destruct (Z.ltb_spec (num_windows s) 8); [lia|]|].
  destruct (Z.ltb_spec (num_windows s) 8); [|lia]. rewrite bind_modify.
  set (nw := mkWindow (mkRect x y width height) _ _ _ t true false false 0 0). set (s1 := set_num (num_windows s + 1) s).
  rewrite (bind_Ret _ _ _ _ _ (window_put_run s1 (num_windows s) nw ltac:(cbn; lia))).
  set (s2 := set_windows _ s1). assert (shown s2 = shown s ++ [nw]) as Es.
  { unfold shown. cbn [num_windows windows s2 s1 set_windows set_num]. replace (Z.to_nat (num_windows s + 1)) with (S (Z.to_nat (num_windows s))) by lia.
    erewrite take_S_r by (apply list_lookup_insert_eq; lia). f_equal. by rewrite take_insert_ge by lia. }
  destruct (front_run s2 (num_windows s)) as (s' & E & Hwf & Hs & _); [split; cbn; rewrite ?length_insert; unfold MAX_WINDOWS; lia|lia|].
  exists s'. split; [exact E|]. split; [done|]. rewrite Hs, Es. unfold raised.
  assert (length (shown s) = Z.to_nat (num_windows s)) as Hls by (unfold shown; rewrite length_take; lia).
  rewrite lookup_app_r, Hls, Nat.sub_diag by lia. cbn [lookup list_lookup]. f_equal. f_equal.
  rewrite <- Hls. by rewrite delete_middle, app_nil_r.
Qed.

Lemma top_at_snoc l w x y : top_at (l ++ [w]) x y = if hit x y w then Some (length l) else top_at l x y.
Proof. induction l as [|v l IH]; cbn [app top_at length]; [done|]. rewrite IH. by destruct (hit x y w). Qed.

Lemma top_at_hit l x y i : top_at l x y = Some i -> exists w, l !! i = Some w /\ hit x y w = true.
Proof.
  revert i. induction l as [|w l IH]; intros i E; [done|]. cbn [top_at] in E. destruct (top_at l x y) as [j|].
  - injection E as <-. by apply IH.
  - destruct (hit x y w) eqn:Eh; [|done]. injection E as <-. by exists w.
Qed.

Lemma top_at_none l x y : top_at l x y = None -> Forall (λ w, hit x y w = false) l.
Proof.
  induction l as [|w l IH]; cbn [top_at]; [constructor|]. intros E. destruct (top_at l x y); [done|]. destruct (hit x y w) eqn:Eh; [done|].
  constructor; auto.
Qed.

Lemma wrap_off k z : exists m, wrap k z = z + m * 2 ^ k.
Proof. exists (- (z / 2 ^ k)). unfold wrap. pose proof (Z.mod_eq z (2 ^ k)). destruct (decide (2 ^ k = 0)) as [E|]; [rewrite E, Z.mod_0_r; lia|]. lia. Qed.

Lemma signed_off k z : exists m, signed k z = z + m * 2 ^ k.
Proof. unfold signed. destruct (wrap_off k z) as [m ->]. cbv zeta. destruct (_ <? _); [by exists m|]. exists (m - 1). lia. Qed.

(** The corner of a window that follows the pointer from [b] to [a], when it was at [c]. *)
Lemma drag_offset a b c : u32 (u32 (a - s32 (s32 b - s32 c)) - c) = u32 (a - b).
Proof.
  destruct (signed_off 32 b) as [k1 ->], (signed_off 32 c) as [k2 ->].
  destruct (signed_off 32 (b + k1 * 2 ^ 32 - (c + k2 * 2 ^ 32))) as [k3 ->]. destruct (wrap_off 32 (a - (b + k1 * 2 ^ 32 - (c + k2 * 2 ^ 32) + k3 * 2 ^ 32))) as [k4 ->].
  unfold wrap. rewrite <- (Z_mod_plus_full (a - b) (k2 - k1 - k3 + k4)). f_equal. lia.
Qed.

(** A window that was dragged from its title starts to follow the pointer. *)
Definition in_title (y : Z) w : bool := y <? u32 (r_y (bounds w) + 26).
Definition grabbed (x y : Z) w : ui_window_t :=
  if in_title y w then w_set_drag (s32 (s32 x - s32 (r_x (bounds w)))) (s32 (s32 y - s32 (r_y (bounds w)))) w else w.

Lemma click_loop_run n x y s :
  desktop_wf s -> (n <= Z.to_nat (num_windows s))%nat ->
  match top_at (take n (windows s)) x y with
  | None => click_loop n x y s = Ret false s
  | Some i => exists w s', windows s !! i = Some w /\ click_loop n x y s = Ret true s' /\ desktop_wf s' /\
      shown s' = grabbed x y (w_set_focused true w) :: (w_set_focused false <$> delete i (shown s)) /\
      num_windows s' = num_windows s /\ drag_window_idx s' = (if in_title y w then 0 else drag_window_idx s)
  end.
Proof.
  intros Hw. pose proof (dt_length _ Hw) as Hl. pose proof (dt_num _ Hw) as Hn. unfold MAX_WINDOWS in Hn.
  induction n as [|n IH]; intros Hle; [done|]. destruct (lookup_lt_is_Some_2 (windows s) n) as [w Ew]; [lia|].
  rewrite (take_S_r _ _ _ Ew), top_at_snoc, length_take, Nat.min_l by lia. cbn [click_loop].
  rewrite (bind_Ret _ _ _ _ _ (window_at_run s (Z.of_nat n) w ltac:(lia) ltac:(by rewrite Nat2Z.id))).
  unfold hit. destruct (visible w); cbn [negb andb]; [|by apply IH; lia]. destruct (ui_rect_contains (bounds w) x y); [|by apply IH; lia].
  destruct (front_run s (Z.of_nat n) Hw ltac:(lia)) as (s1 & E1 & Hw1 & Hs1 & Hn1 & Hd1 & _). rewrite (bind_Ret _ _ _ _ _ E1).
  assert (shown s !! n = Some w) as Esn by (unfold shown; by rewrite lookup_take_lt by lia).
  unfold raised in Hs1. rewrite Nat2Z.id, Esn in Hs1. set (f := w_set_focused true w) in *.
  assert (windows s1 !! 0%nat = Some f) as E0.
  { assert (shown s1 !! 0%nat = Some f) as E0 by by rewrite Hs1. unfold shown in E0. by apply lookup_take_Some in E0 as [? _]. }
  rewrite (bind_Ret _ _ _ _ _ (window_at_run s1 0 f ltac:(lia) E0)). exists w.
  change (y <? u32 (r_y (bounds f) + 26)) with (in_title y w). unfold grabbed. change (in_title y (w_set_focused true w)) with (in_title y w).
  destruct (in_title y w).
  - set (g := w_set_drag _ _ f). pose proof (dt_length _ Hw1) as Hl1.
    rewrite bind_assoc, (bind_Ret _ _ _ _ _ (window_put_run s1 0 g ltac:(lia))), bind_modify.
    eexists. split; [done|]. split; [reflexivity|]. split; [|split; [|done]].
    + split; cbn; [by rewrite length_insert|]. rewrite Hn1. done.
    + unfold shown in *. cbn [num_windows windows set_drag set_windows]. rewrite take_insert_lt by lia. by rewrite Hs1.
  - rewrite bind_ret. exists s1. done.
Qed.

Lemma hit_focused b x y w : hit x y (w_set_focused b w) = hit x y w.
Proof. done. Qed.
End stack.

(** ** Properties *)

(** C33. The windows are a stack: creation puts a focused window at its bottom end unless there are
    eight, bringing a window to the front moves it to that end, closing one takes it out. *)
Theorem windows_refine s :
  desktop_wf s ->
  (forall t x y width height, exists s', window_create t x y width height s = Ret tt s' /\ desktop_wf s' /\
    shown s' = if num_windows s <? MAX_WINDOWS
               then mkWindow (mkRect x y width height) 0x16213E 0x533483 0x0F3460 t true true false 0 0 :: (w_set_focused false <$> shown s)
               else shown s) /\
  (forall i, 0 <= i -> exists s', window_bring_to_front i s = Ret tt s' /\ desktop_wf s' /\ shown s' = raised (Z.to_nat i) (shown s)) /\
  (forall i, 0 <= i -> exists s', window_close i s = Ret tt s' /\ desktop_wf s' /\ shown s' = delete (Z.to_nat i) (shown s)).
Proof.
  intros Hw. split; [intros; by apply create_run|]. split; intros i Hi.
  - destruct (front_run s i Hw Hi) as (s' & E & Hw' & Hs & _). by exists s'.
  - destruct (close_run s i Hw Hi) as (s' & E & Hw' & Hs & _). by exists s'.
Qed.

(** C34. A click is given to the window drawn on top at its point; but that window is then drawn
    below all others, so that if another window is there too, the one that was clicked is
    covered at the very point of the click. *)
Theorem click_sinks s x y i :
  desktop_wf s -> top_at (shown s) x y = Some i ->
  exists w s', shown s !! i = Some w /\ hit x y w = true /\ window_handle_click x y s = Ret true s' /\ desktop_wf s' /\
    shown s' = grabbed x y (w_set_focused true w) :: (w_set_focused false <$> delete i (shown s)) /\
    (forall j v, j <> i -> shown s !! j = Some v -> hit x y v = true -> exists k, top_at (shown s') x y = Some (S k)).
Proof.
  intros Hw Ht. destruct (top_at_hit _ _ _ _ Ht) as (w & Ew & Hh). pose proof (click_loop_run (Z.to_nat (num_windows s)) x y s Hw ltac:(lia)) as Hc.
  fold (shown s) in Hc. rewrite Ht in Hc. destruct Hc as (w' & s' & Ew' & E & Hw' & Hs & _).
  assert (w' = w) as ->. { unfold shown in Ew. apply lookup_take_Some in Ew as [Ew _]. congruence. }
  exists w, s'. split; [done|]. split; [done|]. split; [unfold window_handle_click; by rewrite bind_get|]. split; [done|]. split; [done|].
  intros j v Hj Ev Hv. rewrite Hs. cbn [top_at]. destruct (top_at (w_set_focused false <$> delete i (shown s)) x y) as [k|] eqn:Ek; [exists k; reflexivity|]. exfalso.
  apply top_at_none in Ek. rewrite Forall_fmap, Forall_forall in Ek.
  assert (v ∈ delete i (shown s)) as Hin.
  { apply list_elem_of_lookup. exists (if decide (j < i)%nat then j else pred j). rewrite list_lookup_delete. repeat case_decide; try lia; [done|].
    by replace (S (pred j)) with j by lia. }
  specialize (Ek v Hin). change (hit x y v = false) in Ek. congruence.
Qed.

(** A window taken by its title follows the pointer: after a drag to another point it has
    moved by the same distance, modulo 2^32, and it can be dragged on. *)
Theorem drag_follows s x y x' y' i w :
  desktop_wf s -> top_at (shown s) x y = Some i -> shown s !! i = Some w -> in_title y w = true ->
  exists s1 s2 v, window_handle_click x y s = Ret true s1 /\ window_handle_drag x' y' s1 = Ret true s2 /\ desktop_wf s2 /\
    shown s2 !! 0%nat = Some v /\ dragging v = true /\
    u32 (r_x (bounds v) - r_x (bounds w)) = u32 (x' - x) /\ u32 (r_y (bounds v) - r_y (bounds w)) = u32 (y' - y) /\
    r_w (bounds v) = r_w (bounds w) /\ r_h (bounds v) = r_h (bounds w).
Proof.
  intros Hw Ht Ew Hty. pose proof (click_loop_run (Z.to_nat (num_windows s)) x y s Hw ltac:(lia)) as Hc.
  fold (shown s) in Hc. rewrite Ht in Hc. destruct Hc as (w' & s1 & Ew' & E & Hw1 & Hs & Hn & Hd).
  pose proof Ew as Ew2. unfold shown in Ew2. apply lookup_take_Some in Ew2 as [Ew2 Hi]. assert (w' = w) as -> by congruence. clear Ew'.
  rewrite Hty in Hd. unfold grabbed in Hs. change (in_title y (w_set_focused true w)) with (in_title y w) in Hs. rewrite Hty in Hs.
  set (g := w_set_drag _ _ _) in Hs. assert (windows s1 !! 0%nat = Some g) as Eg.
  { assert (shown s1 !! 0%nat = Some g) as E0 by by rewrite Hs. unfold shown in E0. by apply lookup_take_Some in E0 as [? _]. }
  pose proof (dt_length _ Hw1) as Hl1. exists s1. eexists. eexists. split; [unfold window_handle_click; by rewrite bind_get|].
  unfold window_handle_drag. rewrite bind_get, Hd. cbn [Z.ltb Z.compare orb]. destruct (Z.leb_spec (num_windows s1) 0); [lia|].
  rewrite (bind_Ret _ _ _ _ _ (window_at_run s1 0 g ltac:(lia) Eg)). change (dragging g) with true. cbn [negb].
  rewrite (bind_Ret _ _ _ _ _ (window_put_run s1 0 _ ltac:(lia))). split; [reflexivity|].
  split; [destruct Hw1; split; cbn; [by rewrite length_insert|done]|].
  split; [unfold shown; cbn [windows num_windows set_windows]; rewrite lookup_take_lt by lia; apply list_lookup_insert_eq; lia|].
  split; [done|]. unfold g. cbn [bounds w_move w_set_drag w_set_focused r_x r_y r_w r_h drag_offset_x drag_offset_y].
  rewrite !drag_offset. done.
Qed.

(** ** A concrete desktop *)

Definition win0 (x y : Z) : ui_window_t := mkWindow (mkRect x y 100 100) 0 0 0 None true false false 0 0.
(** Two windows that overlap between (50,50) and (100,100). *)
Definition desk0 : desktop := mkDesktop (win0 0 0 :: win0 50 50 :: replicate 6 (win0 0 0)) 2 0 (-1).

Lemma desk0_wf : desktop_wf desk0.
Proof. split; [reflexivity|cbn; unfold MAX_WINDOWS; lia]. Qed.

Lemma windows_refine_witness : exists s', window_close 0 desk0 = Ret tt s' /\ shown s' = [win0 50 50].
Proof.
  destruct (windows_refine desk0 desk0_wf) as (_ & _ & Hc). destruct (Hc 0 ltac:(lia)) as (s' & E & _ & Hs). by exists s'.
Defined.

Lemma click_sinks_witness :
  exists s', window_handle_click 60 90 desk0 = Ret true s' /\ exists k, top_at (shown s') 60 90 = Some (S k).
Proof.
  destruct (click_sinks desk0 60 90 1 desk0_wf eq_refl) as (w & s' & _ & _ & E & _ & _ & Hk).
  exists s'. split; [exact E|]. exact (Hk 0%nat (win0 0 0) ltac:(discriminate) eq_refl eq_refl).
Defined.

Lemma drag_follows_witness :
  exists s1 s2 v, window_handle_click 60 60 desk0 = Ret true s1 /\ window_handle_drag 61 59 s1 = Ret true s2 /\ shown s2 !! 0%nat = Some v /\
    u32 (r_x (bounds v) - 50) = 1.
Proof.
  destruct (drag_follows desk0 60 60 61 59 1 (win0 50 50) desk0_wf eq_refl eq_refl eq_refl) as (s1 & s2 & v & E1 & E2 & _ & Ev & _ & Hx & _).
  exists s1, s2, v. split; [exact E1|]. split; [exact E2|]. split; [exact Ev|exact Hx].
Defined.
