(* ===== verification/Text.v ===== *)
(** * Text, widgets and windows on the screen (ui/layout/text.c, ui/widgets/widget.c, window.c)

    The drawing routines run on the [display]; the current font, which they only read, is an
    argument.  A picture gives each pixel of the screen a colour or leaves it. *)

From S2P Require Import Prelude CMem PageSource Heap Framebuffer Windows.

(** ** Fonts *)

Record font_glyph_t := mkGlyph { g_width : Z; g_height : Z; g_data : option (list Z) }.
Record font_t := mkFont { default_width : Z; default_height : Z; glyphs : list font_glyph_t }.

(** The rows of the 95 glyphs of the code; the array has 96. *)
Definition default_font_data : list (list Z) :=
  [[0; 0; 0; 0; 0; 0; 0; 0; 0; 0; 0; 0; 0; 0; 0; 0];
   [0; 0; 0x18; 0x3C; 0x3C; 0x3C; 0x18; 0x18; 0x18; 0; 0x18; 0x18; 0; 0; 0; 0];
   [0; 0x66; 0x66; 0x66; 0x24; 0; 0; 0; 0; 0; 0; 0; 0; 0; 0; 0];
   [0; 0x36; 0x36; 0x7F; 0x36; 0x36; 0x36; 0x7F; 0x36; 0x36; 0; 0; 0; 0; 0; 0];
   [0x0C; 0x3E; 0x63; 0x60; 0x3C; 6; 3; 0x63; 0x3E; 0x0C; 0; 0; 0; 0; 0; 0];
   [0; 0x63; 0x63; 0x36; 0x1C; 8; 0x1C; 0x36; 0x63; 0x63; 0; 0; 0; 0; 0; 0];
   [0; 0x1C; 0x36; 0x36; 0x1C; 0x3B; 0x66; 0x66; 0x3B; 6; 3; 0; 0; 0; 0; 0];
   [0; 6; 6; 4; 0; 0; 0; 0; 0; 0; 0; 0; 0; 0; 0; 0];
   [0; 0x18; 0x0C; 6; 6; 6; 6; 6; 6; 0x0C; 0x18; 0; 0; 0; 0; 0];
   [0; 6; 0x0C; 0x18; 0x18; 0x18; 0x18; 0x18; 0x18; 0x0C; 6; 0; 0; 0; 0; 0];
   [0; 0; 0x66; 0x3C; 0xFF; 0x3C; 0x66; 0; 0; 0; 0; 0; 0; 0; 0; 0];
   [0; 0; 0x0C; 0x0C; 0x3F; 0x0C; 0x0C; 0; 0; 0; 0; 0; 0; 0; 0; 0];
   [0; 0; 0; 0; 0; 0; 0; 0; 0; 6; 6; 0x0C; 0; 0; 0; 0];
   [0; 0; 0; 0; 0x3F; 0; 0; 0; 0; 0; 0; 0; 0; 0; 0; 0];
   [0; 0; 0; 0; 0; 0; 0; 0; 0; 0; 6; 0; 0; 0; 0; 0];
   [0; 0x60; 0x60; 0x30; 0x18; 0x0C; 6; 3; 0; 0; 0; 0; 0; 0; 0; 0];
   [0; 0x3C; 0x66; 0x63; 0x6B; 0x6B; 0x63; 0x66; 0x3C; 0; 0; 0; 0; 0; 0; 0];
   [0; 0x0C; 0x1C; 0x0C; 0x0C; 0x0C; 0x0C; 0x0C; 0x3F; 0; 0; 0; 0; 0; 0; 0];
   [0; 0x3C; 0x66; 6; 0x0C; 0x18; 0x30; 0x60; 0x7E; 0; 0; 0; 0; 0; 0; 0];
   [0x3C; 0x66; 6; 6; 0x1C; 6; 6; 0x66; 0x3C; 0; 0; 0; 0; 0; 0; 0];
   [0x0C; 0x1C; 0x2C; 0x6C; 0xCC; 0xFE; 0x0C; 0x0C; 0x1F; 0; 0; 0; 0; 0; 0; 0];
   [0x7E; 0x60; 0x60; 0x7C; 6; 6; 6; 0x66; 0x3C; 0; 0; 0; 0; 0; 0; 0];
   [0x1C; 0x30; 0x60; 0x7C; 0x66; 0x66; 0x66; 0x66; 0x3C; 0; 0; 0; 0; 0; 0; 0];
   [0x7E; 6; 6; 0x0C; 0x18; 0x30; 0x30; 0x30; 0x30; 0; 0; 0; 0; 0; 0; 0];
   [0x3C; 0x66; 0x66; 0x66; 0x3C; 0x66; 0x66; 0x66; 0x3C; 0; 0; 0; 0; 0; 0; 0];
   [0x3C; 0x66; 0x66; 0x66; 0x3E; 6; 6; 0x0C; 0x38; 0; 0; 0; 0; 0; 0; 0];
   [0; 6; 6; 0; 6; 6; 0; 0; 0; 0; 0; 0; 0; 0; 0; 0];
   [0; 6; 6; 0; 6; 6; 6; 6; 0x0C; 0; 0; 0; 0; 0; 0; 0];
   [0; 0x18; 0x0C; 6; 3; 6; 0x0C; 0x18; 0; 0; 0; 0; 0; 0; 0; 0];
   [0; 0; 0x3F; 0; 0x3F; 0; 0; 0; 0; 0; 0; 0; 0; 0; 0; 0];
   [0; 6; 0x0C; 0x18; 0x30; 0x18; 0x0C; 6; 0; 0; 0; 0; 0; 0; 0; 0];
   [0x3C; 0x66; 6; 0x0C; 0x18; 0x18; 0; 0x18; 0x18; 0; 0; 0; 0; 0; 0; 0];
   [0x3C; 0x66; 0x6E; 0x6A; 0x6E; 0x60; 0x62; 0x66; 0x3C; 0; 0; 0; 0; 0; 0; 0];
   [0x18; 0x3C; 0x66; 0x66; 0x7E; 0x66; 0x66; 0x66; 0x66; 0; 0; 0; 0; 0; 0; 0];
   [0x7C; 0x66; 0x66; 0x7C; 0x66; 0x66; 0x66; 0x66; 0x7C; 0; 0; 0; 0; 0; 0; 0];
   [0x3C; 0x66; 0x60; 0x60; 0x60; 0x60; 0x60; 0x66; 0x3C; 0; 0; 0; 0; 0; 0; 0];
   [0x78; 0x6C; 0x66; 0x66; 0x66; 0x66; 0x66; 0x6C; 0x78; 0; 0; 0; 0; 0; 0; 0];
   [0x7E; 0x60; 0x60; 0x7C; 0x60; 0x60; 0x60; 0x60; 0x7E; 0; 0; 0; 0; 0; 0; 0];
   [0x7E; 0x60; 0x60; 0x7C; 0x60; 0x60; 0x60; 0x60; 0x60; 0; 0; 0; 0; 0; 0; 0];
   [0x3C; 0x66; 0x60; 0x60; 0x6E; 0x66; 0x66; 0x66; 0x3C; 0; 0; 0; 0; 0; 0; 0];
   [0x66; 0x66; 0x66; 0x7E; 0x66; 0x66; 0x66; 0x66; 0x66; 0; 0; 0; 0; 0; 0; 0];
   [0x3C; 0x18; 0x18; 0x18; 0x18; 0x18; 0x18; 0x18; 0x3C; 0; 0; 0; 0; 0; 0; 0];
   [0x1E; 0x0C; 0x0C; 0x0C; 0x0C; 0x0C; 0xCC; 0xCC; 0x78; 0; 0; 0; 0; 0; 0; 0];
   [0x66; 0x66; 0x6C; 0x78; 0x78; 0x6C; 0x66; 0x66; 0x66; 0; 0; 0; 0; 0; 0; 0];
   [0x60; 0x60; 0x60; 0x60; 0x60; 0x60; 0x60; 0x60; 0x7E; 0; 0; 0; 0; 0; 0; 0];
   [0x63; 0x77; 0x7F; 0x6B; 0x63; 0x63; 0x63; 0x63; 0x63; 0; 0; 0; 0; 0; 0; 0];
   [0x66; 0x76; 0x7E; 0x7E; 0x6E; 0x66; 0x66; 0x66; 0x66; 0; 0; 0; 0; 0; 0; 0];
   [0x3C; 0x66; 0x66; 0x66; 0x66; 0x66; 0x66; 0x66; 0x3C; 0; 0; 0; 0; 0; 0; 0];
   [0x7C; 0x66; 0x66; 0x66; 0x7C; 0x60; 0x60; 0x60; 0x60; 0; 0; 0; 0; 0; 0; 0];
   [0x3C; 0x66; 0x66; 0x66; 0x66; 0x66; 0x6A; 0x6C; 0x36; 0; 0; 0; 0; 0; 0; 0];
   [0x7C; 0x66; 0x66; 0x66; 0x7C; 0x6C; 0x66; 0x66; 0x66; 0; 0; 0; 0; 0; 0; 0];
   [0x3C; 0x66; 0x60; 0x30; 0x1C; 6; 6; 0x66; 0x3C; 0; 0; 0; 0; 0; 0; 0];
   [0x7E; 0x18; 0x18; 0x18; 0x18; 0x18; 0x18; 0x18; 0x18; 0; 0; 0; 0; 0; 0; 0];
   [0x66; 0x66; 0x66; 0x66; 0x66; 0x66; 0x66; 0x66; 0x3C; 0; 0; 0; 0; 0; 0; 0];
   [0x66; 0x66; 0x66; 0x66; 0x66; 0x66; 0x66; 0x3C; 0x18; 0; 0; 0; 0; 0; 0; 0];
   [0x63; 0x63; 0x63; 0x6B; 0x6B; 0x7F; 0x77; 0x63; 0x63; 0; 0; 0; 0; 0; 0; 0];
   [0x66; 0x66; 0x3C; 0x18; 0x18; 0x3C; 0x66; 0x66; 0x66; 0; 0; 0; 0; 0; 0; 0];
   [0x66; 0x66; 0x66; 0x3C; 0x18; 0x18; 0x18; 0x18; 0x18; 0; 0; 0; 0; 0; 0; 0];
   [0x7E; 6; 0x0C; 0x18; 0x30; 0x60; 0x60; 0x60; 0x7E; 0; 0; 0; 0; 0; 0; 0];
   [0x3C; 0x0C; 0x0C; 0x0C; 0x0C; 0x0C; 0x0C; 0x0C; 0x3C; 0; 0; 0; 0; 0; 0; 0];
   [0x60; 0x60; 0x30; 0x18; 0x0C; 6; 3; 0; 0; 0; 0; 0; 0; 0; 0; 0];
   [0x3C; 0x0C; 0x0C; 0x0C; 0x0C; 0x0C; 0x0C; 0x0C; 0x3C; 0; 0; 0; 0; 0; 0; 0];
   [0x10; 0x38; 0x6C; 0xC6; 0; 0; 0; 0; 0; 0; 0; 0; 0; 0; 0; 0];
   [0; 0; 0; 0; 0; 0; 0; 0; 0; 0; 0; 0; 0; 0xFF; 0; 0];
   [0x30; 0x18; 0x0C; 0; 0; 0; 0; 0; 0; 0; 0; 0; 0; 0; 0; 0];
   [0; 0; 0; 0x3C; 6; 0x3E; 0x66; 0x3E; 0; 0; 0; 0; 0; 0; 0; 0];
   [0x60; 0x60; 0x7C; 0x66; 0x66; 0x66; 0x66; 0x7C; 0x60; 0x60; 0; 0; 0; 0; 0; 0];
   [0; 0; 0x3C; 0x66; 0x60; 0x60; 0x66; 0x3C; 0; 0; 0; 0; 0; 0; 0; 0];
   [6; 6; 0x3E; 0x66; 0x66; 0x66; 0x66; 0x3E; 6; 6; 0; 0; 0; 0; 0; 0];
   [0; 0; 0x3C; 0x66; 0x7E; 0x60; 0x66; 0x3C; 0; 0; 0; 0; 0; 0; 0; 0];
   [0x1C; 0x30; 0x30; 0x7C; 0x30; 0x30; 0x30; 0x30; 0; 0; 0; 0; 0; 0; 0; 0];
   [0; 0; 0x3E; 0x66; 0x66; 0x3E; 6; 0x66; 0x3C; 0; 0; 0; 0; 0; 0; 0];
   [0x60; 0x60; 0x7C; 0x66; 0x66; 0x66; 0x66; 0x66; 0; 0; 0; 0; 0; 0; 0; 0];
   [0x18; 0; 0x38; 0x18; 0x18; 0x18; 0x18; 0x3C; 0; 0; 0; 0; 0; 0; 0; 0];
   [0x0C; 0; 0x1C; 0x0C; 0x0C; 0x0C; 0xCC; 0xCC; 0x78; 0; 0; 0; 0; 0; 0; 0];
   [0x60; 0x60; 0x66; 0x6C; 0x78; 0x78; 0x6C; 0x66; 0; 0; 0; 0; 0; 0; 0; 0];
   [0x38; 0x18; 0x18; 0x18; 0x18; 0x18; 0x18; 0x3C; 0; 0; 0; 0; 0; 0; 0; 0];
   [0; 0; 0x76; 0x7F; 0x6B; 0x6B; 0x63; 0x63; 0; 0; 0; 0; 0; 0; 0; 0];
   [0; 0; 0x7C; 0x66; 0x66; 0x66; 0x66; 0x66; 0; 0; 0; 0; 0; 0; 0; 0];
   [0; 0; 0x3C; 0x66; 0x66; 0x66; 0x66; 0x3C; 0; 0; 0; 0; 0; 0; 0; 0];
   [0; 0; 0x7C; 0x66; 0x66; 0x7C; 0x60; 0x60; 0; 0; 0; 0; 0; 0; 0; 0];
   [0; 0; 0x3E; 0x66; 0x66; 0x66; 0x3E; 6; 6; 0; 0; 0; 0; 0; 0; 0];
   [0; 0; 0x6E; 0x76; 0x60; 0x60; 0x60; 0; 0; 0; 0; 0; 0; 0; 0; 0];
   [0; 0; 0x3E; 0x60; 0x3C; 6; 0x7C; 0; 0; 0; 0; 0; 0; 0; 0; 0];
   [0x30; 0x30; 0x7C; 0x30; 0x30; 0x30; 0x1C; 0; 0; 0; 0; 0; 0; 0; 0; 0];
   [0; 0; 0x66; 0x66; 0x66; 0x66; 0x3E; 6; 0x3C; 0; 0; 0; 0; 0; 0; 0];
   [0; 0; 0x66; 0x66; 0x66; 0x66; 0x3C; 0x18; 0x18; 0; 0; 0; 0; 0; 0; 0];
   [0; 0; 0x63; 0x6B; 0x6B; 0x7F; 0x36; 0; 0; 0; 0; 0; 0; 0; 0; 0];
   [0; 0; 0x66; 0x3C; 0x18; 0x3C; 0x66; 0; 0; 0; 0; 0; 0; 0; 0; 0];
   [0; 0; 0x66; 0x66; 0x66; 0x3E; 6; 0x66; 0x3C; 0; 0; 0; 0; 0; 0; 0];
   [0; 0; 0x7E; 0x0C; 0x18; 0x30; 0x7E; 0; 0; 0; 0; 0; 0; 0; 0; 0];
   [0x0E; 0x18; 0x18; 0x70; 0x18; 0x18; 0x18; 0x0E; 0; 0; 0; 0; 0; 0; 0; 0];
   [0x18; 0x18; 0x18; 0; 0x18; 0x18; 0x18; 0; 0; 0; 0; 0; 0; 0; 0; 0];
   [0x70; 0x18; 0x18; 0x0E; 0x18; 0x18; 0x18; 0x70; 0; 0; 0; 0; 0; 0; 0; 0];
   [0x6C; 0x92; 0; 0; 0; 0; 0; 0; 0; 0; 0; 0; 0; 0; 0; 0]].

Definition default_font : font_t :=
  mkFont 8 16 ((λ rows, mkGlyph 8 16 (Some rows)) <$> default_font_data ++ [replicate 16 0]).

(** The variables of text.c: the font, its width and its height. *)
Record text_state := mkText { current_font : option font_t; current_font_width : Z; current_font_height : Z }.
Definition text_start : text_state := mkText None 8 16.
Definition text_set_font (f : option font_t) (t : text_state) : text_state :=
  match f with
  | Some g => mkText f (default_width g) (default_height g)
  | None => t
  end.
Definition text_init (t : text_state) : text_state := text_set_font (Some default_font) t.
Definition text_get_font (t : text_state) : option font_t := current_font t.

(** ** Drawing text *)

Section text_code.
Context {OS : Type} `{!PageSource OS}.
Local Abbreviation display := (display OS).

(** The square of a pixel of a glyph. *)
Definition draw_dot (x y scale color : Z) : M display unit :=
  for_range 0 scale (λ sy, for_range 0 scale (λ sx, fb_put_pixel (u32 (x + sx)) (u32 (y + sy)) color)).

Definition text_draw_glyph (x y : Z) (glyph : font_glyph_t) (fg bg scale : Z) : M display unit :=
  match g_data glyph with
  | None => ret tt
  | Some data =>
      if scale =? 0 then ret tt
      else
        for_range 0 (g_height glyph) (λ row, for_range 0 (g_width glyph) (λ col,
          let byte_idx := u32 (row * ((g_width glyph + 7) / 8) + col / 8) in
          bits <-- of_option (aget data byte_idx) ;;
          if truth (Z.land bits (Z.shiftr 0x80 (col mod 8))) then draw_dot (u32 (x + col * scale)) (u32 (y + row * scale)) scale fg
          else if bg =? 0xFFFFFFFF then ret tt
          else draw_dot (u32 (x + col * scale)) (u32 (y + row * scale)) scale bg))
  end.

Definition text_draw_char_scaled (t : text_state) (x y c fg bg scale : Z) : M display unit :=
  if (s8 c <? 32) || (127 <? s8 c) then ret tt
  else
    f <-- of_option (current_font t) ;;
    glyph <-- of_option (aget (glyphs f) (s8 c - 32)) ;;
    text_draw_glyph x y glyph fg bg scale.
Definition text_draw_char (t : text_state) (x y c fg bg : Z) : M display unit := text_draw_char_scaled t x y c fg bg 1.

Fixpoint draw_scaled_loop (t : text_state) (l : list Z) (x cx cy fg bg scale : Z) : M display unit :=
  match l with
  | [] => ret tt
  | c :: r =>
      if c =? 10 then draw_scaled_loop t r x x (u32 (cy + current_font_height t * scale)) fg bg scale
      else
        text_draw_char_scaled t cx cy c fg bg scale ;;;
        draw_scaled_loop t r x (u32 (cx + current_font_width t * scale)) cy fg bg scale
  end.
Definition text_draw_scaled (t : text_state) (x y : Z) (l : list Z) (fg bg scale : Z) : M display unit := draw_scaled_loop t l x x y fg bg scale.
Definition text_draw (t : text_state) (x y : Z) (l : list Z) (fg bg : Z) : M display unit := text_draw_scaled t x y l fg bg 1.

Fixpoint draw_wrapped_loop (t : text_state) (l : list Z) (x max_width cx cy fg bg : Z) : M display unit :=
  match l with
  | [] => ret tt
  | c :: r =>
      if c =? 10 then draw_wrapped_loop t r x max_width x (u32 (cy + current_font_height t)) fg bg
      else
        let wrap := u32 (x + max_width) <? u32 (cx + current_font_width t) in
        let cy := if wrap then u32 (cy + current_font_height t) else cy in
        let cx := if wrap then x else cx in
        text_draw_char_scaled t cx cy c fg bg 1 ;;;
        draw_wrapped_loop t r x max_width (u32 (cx + current_font_width t)) cy fg bg
  end.
Definition text_draw_wrapped (t : text_state) (x y max_width : Z) (l : list Z) (fg bg : Z) : M display unit :=
  draw_wrapped_loop t l x max_width x y fg bg.
End text_code.

(** [while (str[n] && str[n] != 10) n++;] *)
Fixpoint line_length (l : list Z) : Z :=
  match l with
  | c :: r => if c =? 10 then 0 else 1 + line_length r
  | [] => 0
  end.
Definition text_width (t : text_state) (l : list Z) : Z := u64 (line_length l * current_font_width t).
Definition text_width_char (t : text_state) (c : Z) : Z := if (s8 c <? 32) || (127 <? s8 c) then 0 else current_font_width t.
Definition text_height (t : text_state) : Z := current_font_height t.

(** ** Widgets *)

Record ui_panel_t := mkPanel { p_bounds : ui_rect_t; p_fill : Z; p_border : Z; p_title_bg : Z; p_title : option (list Z) }.
Record ui_button_t := mkButton { b_bounds : ui_rect_t; b_fill : Z; b_border : Z; b_text_color : Z; b_label : option (list Z); pressed : bool }.
Record ui_textfield_t := mkField {
  f_bounds : ui_rect_t; f_fill : Z; f_border : Z; f_text_color : Z; f_buffer : option (list Z); f_len : Z; f_focused : bool
}.

Section widget_code.
Context {OS : Type} `{!PageSource OS}.
Local Abbreviation display := (display OS).

Definition ui_panel_draw (t : text_state) (p : ui_panel_t) : M display unit :=
  let b := p_bounds p in
  gfx_draw_rect (r_x b) (r_y b) (r_w b) (r_h b) (p_fill p) ;;;
  gfx_draw_rect_outline (r_x b) (r_y b) (r_w b) (r_h b) (p_border p) 2 ;;;
  match p_title p with
  | Some title =>
      gfx_draw_rect (u32 (r_x b + 2)) (u32 (r_y b + 2)) (u32 (r_w b - 4)) 22 (p_title_bg p) ;;;
      text_draw t (u32 (r_x b + 10)) (u32 (r_y b + 6)) title 0xFFFFFF (p_title_bg p)
  | None => ret tt
  end.

Definition ui_button_draw (t : text_state) (btn : ui_button_t) : M display unit :=
  let b := b_bounds btn in
  let fill := if pressed btn then 0x0F3460 else b_fill btn in
  gfx_draw_rect (r_x b) (r_y b) (r_w b) (r_h b) fill ;;;
  gfx_draw_rect_outline (r_x b) (r_y b) (r_w b) (r_h b) (b_border btn) 2 ;;;
  match b_label btn with
  | Some label =>
      let tx := u32 (r_x b + 12) in
      let ty := u32 (r_y b + (if 16 <? r_h b then (r_h b - 16) / 2 else 4)) in
      text_draw t tx ty label (b_text_color btn) fill
  | None => ret tt
  end.

Definition ui_textfield_draw (t : text_state) (f : ui_textfield_t) : M display unit :=
  let b := f_bounds f in
  let fill := f_fill f in
  let border := if f_focused f then 0x53D8FB else f_border f in
  gfx_draw_rect (r_x b) (r_y b) (r_w b) (r_h b) fill ;;;
  gfx_draw_rect_outline (r_x b) (r_y b) (r_w b) (r_h b) border 2 ;;;
  match f_buffer f with
  | Some buffer => text_draw t (u32 (r_x b + 8)) (u32 (r_y b + 8)) buffer (f_text_color f) fill
  | None => ret tt
  end ;;;
  if f_focused f then
    let cx := u32 (r_x b + 8 + u32 (f_len f) * 8) in
    gfx_draw_rect cx (u32 (r_y b + 6)) 2 16 (f_text_color f)
  else ret tt.

(** One round of [window_render]. *)
Definition draw_window (t : text_state) (w : ui_window_t) : M display unit :=
  if negb (visible w) then ret tt
  else
    let b := bounds w in
    gfx_draw_rect (r_x b) (r_y b) (r_w b) (r_h b) (w_fill w) ;;;
    gfx_draw_rect_outline (r_x b) (r_y b) (r_w b) (r_h b) (w_border w) 2 ;;;
    match w_title w with
    | Some title =>
        gfx_draw_rect (u32 (r_x b + 2)) (u32 (r_y b + 2)) (u32 (r_w b - 4)) 24 (w_title_bg w) ;;;
        text_draw t (u32 (r_x b + 10)) (u32 (r_y b + 6)) title 0xFFFFFF (w_title_bg w)
    | None => ret tt
    end.
Fixpoint render_loop (t : text_state) (l : list ui_window_t) : M display unit :=
  match l with
  | [] => ret tt
  | w :: r => draw_window t w ;;; render_loop t r
  end.
Definition window_render (t : text_state) (s : desktop) : M display unit :=
  ready <-- fb_ready ;;
  if negb ready then ret tt else render_loop t (take (Z.to_nat (num_windows s)) (windows s)).
End widget_code.

(** ** Pictures *)

Section pictures.
Context {OS : Type} `{!PageSource OS}.
Local Abbreviation display := (display OS).
Implicit Types (d : display) (mm : mem).

(** A colour for each pixel, or none. *)
Definition picture : Type := Z -> Z -> option Z.
Definition blank : picture := λ _ _, None.
(** [F] over [G]. *)
Definition over (F G : picture) : picture := λ x y, match F x y with Some c => Some c | None => G x y end.
Definition filled (P : Z -> Z -> bool) (c : Z) : picture := λ x y, if P x y then Some c else None.

(** [m] draws the picture [F] on the screen and changes nothing else. *)
Definition shades d (F : picture) (m : M display unit) : Prop :=
  forall mm, mapped mm (scr_base d) (scr_size d) ->
  exists mm', m (at_mem mm d) = Ret tt (at_mem mm' d) /\ mapped mm' (scr_base d) (scr_size d) /\
    forall a, mm' !! a = match (if on_screen d a then F (a_col d a) (a_row d a) else None) with
                         | Some c => Some (c / 256 ^ ((a - scr_base d) mod 4) mod 256)
                         | None => mm !! a
                         end.

Lemma shades_paints d c P m : paints d c P m -> shades d (filled P c) m.
Proof.
  intros Hp mm Hmm. destruct (Hp mm Hmm) as (mm' & E & Hm & Ha). exists mm'. split; [done|]. split; [done|]. intros a. rewrite (Ha a).
  unfold filled. by destruct (on_screen d a), (P (a_col d a) (a_row d a)).
Qed.

Lemma shades_ret d : shades d blank (ret tt).
Proof. intros mm Hmm. exists mm. split; [done|]. split; [done|]. intros a. by destruct (on_screen d a). Qed.

Lemma shades_seq d F G m1 m2 : shades d F m1 -> shades d G m2 -> shades d (over G F) (m1 ;;; m2).
Proof.
  intros H1 H2 mm Hmm. destruct (H1 mm Hmm) as (m' & E1 & Hm1 & Ha1). destruct (H2 m' Hm1) as (m'' & E2 & Hm2 & Ha2).
  exists m''. rewrite (bind_Ret _ _ _ _ _ E1). split; [done|]. split; [done|]. intros a. rewrite (Ha2 a), (Ha1 a). unfold over.
  destruct (on_screen d a); [|done]. by destruct (G (a_col d a) (a_row d a)).
Qed.

Lemma shades_ext d F G m :
  display_wf d -> (forall x y, 0 <= x < fb_width (fb d) -> 0 <= y < fb_height (fb d) -> F x y = G x y) -> shades d F m -> shades d G m.
Proof.
  intros Hw H Hp mm Hmm. destruct (Hp mm Hmm) as (mm' & E & Hm' & Hpt). exists mm'. split; [done|]. split; [done|].
  intros a. rewrite (Hpt a). destruct (on_screen d a) eqn:Ea; [|done]. rewrite H; [done| |].
  - unfold on_screen in Ea. apply andb_prop in Ea as [Ea Ec]. apply andb_prop in Ea as [Ea Eb].
    split; [|lia]. apply Z.div_pos; [|lia]. apply Z.mod_pos_bound. unfold scr_size in *. pose proof (dw_height _ Hw). nia.
  - unfold on_screen in Ea. apply andb_prop in Ea as [Ea Ec]. apply andb_prop in Ea as [Ea Eb].
    unfold a_row, scr_size in *. pose proof (dw_height _ Hw). assert (0 < fb_pitch (fb d)) by nia.
    split; [apply Z.div_pos; lia|apply Z.div_lt_upper_bound; lia].
Qed.

Lemma shades_gets {A} d F (g : display -> A) (k : A -> M display unit) :
  (forall mm, g (at_mem mm d) = g d) -> shades d F (k (g d)) -> shades d F (bind (gets g) k).
Proof. intros Hg Hk mm Hmm. rewrite bind_gets, Hg. by apply Hk. Qed.

Lemma shades_option {A} d F (a : A) (k : A -> M display unit) : shades d F (k a) -> shades d F (bind (of_option (Some a)) k).
Proof. intros Hk mm Hmm. rewrite bind_option. by apply Hk. Qed.

(** Rounds that draw at different places: [sel x y] is the round of the pixel. *)
Lemma shades_for_n d (F : Z -> picture) (sel : Z -> Z -> Z) (body : Z -> M display unit) n i :
  (forall j, i <= j < i + Z.of_nat n -> shades d (λ x y, if sel x y =? j then F j x y else None) (body j)) ->
  shades d (λ x y, if (i <=? sel x y) && (sel x y <? i + Z.of_nat n) then F (sel x y) x y else None) (for_n n i body).
Proof.
  revert i. induction n as [|n IH]; intros i H mm Hmm; cbn [for_n].
  - destruct (shades_ret d mm Hmm) as (mm' & E & Hm & Ha). exists mm'. split; [done|]. split; [done|]. intros a. rewrite (Ha a).
    destruct (Z.leb_spec i (sel (a_col d a) (a_row d a))), (Z.ltb_spec (sel (a_col d a) (a_row d a)) (i + Z.of_nat 0)); try lia; cbn; by destruct (on_screen d a).
  - pose proof (shades_seq d _ _ _ _ (H i ltac:(lia)) (IH (i + 1) ltac:(intros; apply H; lia))) as Hs.
    destruct (Hs mm Hmm) as (mm' & E & Hm & Ha). exists mm'. split; [done|]. split; [done|]. intros a. rewrite (Ha a).
    destruct (on_screen d a); [|done]. unfold over. set (x := a_col d a). set (y := a_row d a).
    destruct (Z.eqb_spec (sel x y) i) as [Hs'|Hne].
    + rewrite !Hs'.
      destruct (Z.leb_spec (i + 1) i), (Z.leb_spec i i), (Z.ltb_spec i (i + Z.of_nat (S n))); try lia. cbn. by destruct (F i x y).
    + destruct (Z.leb_spec (i + 1) (sel x y)), (Z.leb_spec i (sel x y)), (Z.ltb_spec (sel x y) (i + Z.of_nat (S n))),
        (Z.ltb_spec (sel x y) (i + 1 + Z.of_nat n)); try lia; cbn; by destruct (F (sel x y) x y).
Qed.

Lemma shades_for d (F : Z -> picture) (sel : Z -> Z -> Z) (body : Z -> M display unit) n :
  0 <= n -> (forall j, 0 <= j < n -> shades d (λ x y, if sel x y =? j then F j x y else None) (body j)) ->
  shades d (λ x y, if (0 <=? sel x y) && (sel x y <? n) then F (sel x y) x y else None) (for_range 0 n body).
Proof.
  intros Hn H. unfold for_range. pose proof (shades_for_n d F sel body (Z.to_nat (n - 0)) 0) as Hs. rewrite Z2Nat.id in Hs by lia.
  replace (0 + (n - 0)) with n in Hs by lia. by apply Hs.
Qed.
End pictures.

(** ** What text looks like *)

Section looks.
Context {OS : Type} `{!PageSource OS}.
Local Abbreviation display := (display OS).
Implicit Types (d : display).

(** The pixel in column [col] and row [row] of the glyph of [c]. *)
Definition glyph_bit (c col row : Z) : bool :=
  match default_font_data !! Z.to_nat (c - 32) ≫= λ rows, rows !! Z.to_nat row with
  | Some bits => Z.testbit bits (7 - col)
  | None => false
  end.
Definition printable (c : Z) : bool := (32 <=? c) && (c <=? 127).

(** The colour of a pixel of a character, by column and row. *)
Definition char_colour (c fg bg col row : Z) : option Z :=
  if printable c then if glyph_bit c col row then Some fg else if bg =? 0xFFFFFFFF then None else Some bg else None.
(** A character with its corner at [x] and [y]. *)
Definition char_picture (x y c fg bg : Z) : picture := λ px py,
  if in_rect x y 8 16 px py then char_colour c fg bg (px - x) (py - y) else None.

Fixpoint split_lines (l : list Z) : list (list Z) :=
  match l with
  | [] => [[]]
  | c :: r => if c =? 10 then [] :: split_lines r else match split_lines r with h :: t => (c :: h) :: t | [] => [[c]] end
  end.

(** A text with its corner at [x] and [y]: the pixel is in the line [k] and its character [j]. *)
Definition text_picture (x y : Z) (l : list Z) (fg bg : Z) : picture := λ px py,
  if (x <=? px) && (y <=? py) then
    match split_lines l !! Z.to_nat ((py - y) / 16) ≫= λ line, line !! Z.to_nat ((px - x) / 8) with
    | Some c => char_colour c fg bg ((px - x) mod 8) ((py - y) mod 16)
    | None => None
    end
  else None.

Lemma draw_dot_shades d x y c :
  display_wf d -> 0 <= x < 2 ^ 32 -> 0 <= y < 2 ^ 32 ->
  shades d (filled (λ px py, (px =? x) && (py =? y)) c) (draw_dot x y 1 c).
Proof.
  intros Hw Hx Hy. unfold draw_dot, for_range. change (Z.to_nat (1 - 0)) with 1%nat. cbn [for_n].
  rewrite !Z.add_0_r, !wrap_small by lia. eapply shades_ext; [done| |].
  2: { apply shades_seq; [|apply shades_ret]. apply shades_seq; [|apply shades_ret]. apply shades_paints, put_pixel_paints; [done|lia|lia]. }
  intros px py _ _. unfold over, blank. done.
Qed.

Lemma land_bit a k : 0 <= k -> truth (Z.land a (2 ^ k)) = Z.testbit a k.
Proof.
  intros Hk. assert (Z.land a (2 ^ k) = if Z.testbit a k then 2 ^ k else 0) as ->.
  { apply Z.bits_inj'. intros i Hi. rewrite Z.land_spec, Z.pow2_bits_eqb by done.
    destruct (Z.eqb_spec k i) as [<-|Hne].
    - rewrite andb_true_r. destruct (Z.testbit a k); [by rewrite Z.pow2_bits_true|by rewrite Z.bits_0].
    - rewrite andb_false_r. destruct (Z.testbit a k); [by rewrite Z.pow2_bits_false|by rewrite Z.bits_0]. }
  unfold truth. destruct (Z.testbit a k); [|done]. pose proof (Z.pow_pos_nonneg 2 k ltac:(lia) Hk).
  destruct (Z.eqb_spec (2 ^ k) 0); [lia|done].
Qed.

Lemma column_bit a col : 0 <= col < 8 -> truth (Z.land a (Z.shiftr 0x80 (col mod 8))) = Z.testbit a (7 - col).
Proof.
  intros Hc. rewrite Z.mod_small by lia. rewrite <- land_bit by lia. do 2 f_equal. change 0x80 with (2 ^ 7).
  rewrite Z.shiftr_div_pow2 by lia. rewrite <- Z.pow_sub_r by lia. done.
Qed.

(** Every glyph of the font has its sixteen rows. *)
Lemma font_rows c : printable c = true ->
  exists rows, aget (glyphs default_font) (c - 32) = Some (mkGlyph 8 16 (Some rows)) /\ length rows = 16%nat /\
    forall col row, 0 <= row < 16 -> glyph_bit c col row = match rows !! Z.to_nat row with Some b => Z.testbit b (7 - col) | None => false end.
Proof.
  intros Hc. unfold printable in Hc. unfold aget. destruct (Z.ltb_spec (c - 32) 0); [lia|]. unfold glyph_bit, default_font. cbn [glyphs].
  assert (Z.to_nat (c - 32) < 96)%nat as Hn by lia. revert Hn. generalize (Z.to_nat (c - 32)). intros n Hn.
  rewrite list_lookup_fmap.
  assert (Forall (λ rows : list Z, length rows = 16%nat) default_font_data) as Hall.
  { apply Forall_forall. intros r Hr. unfold default_font_data in Hr. repeat (apply elem_of_cons in Hr as [->|Hr]; [done|]). by apply elem_of_nil in Hr. }
  destruct (decide (n < 95)%nat) as [Hlt|Hge].
  - destruct (lookup_lt_is_Some_2 default_font_data n) as [rows Hrows]; [done|].
    rewrite lookup_app_l, Hrows by done. exists rows. split; [done|]. split; [by apply (Forall_lookup_1 _ _ _ _ Hall Hrows)|].
    intros col row _. done.
  - replace n with 95%nat by lia. exists (replicate 16 0). split; [done|]. split; [done|]. intros col row Hrow.
    rewrite (lookup_ge_None_2 default_font_data) by (cbn; lia). cbn [mbind option_bind].
    rewrite lookup_replicate_2 by lia. by rewrite Z.testbit_0_l.
Qed.

(** One pixel of a glyph. *)
Lemma glyph_dot_shades d x y c fg bg row col bits :
  display_wf d -> printable c = true -> 0 <= x -> 0 <= y -> x + 8 < 2 ^ 32 -> y + 16 < 2 ^ 32 -> 0 <= row < 16 -> 0 <= col < 8 ->
  glyph_bit c col row = Z.testbit bits (7 - col) ->
  shades d (λ px py, if px - x =? col then if py - y =? row then char_colour c fg bg col row else None else None)
    (if truth (Z.land bits (Z.shiftr 0x80 (col mod 8))) then draw_dot (u32 (x + col)) (u32 (y + row)) 1 fg
     else if bg =? 0xFFFFFFFF then ret tt else draw_dot (u32 (x + col)) (u32 (y + row)) 1 bg).
Proof.
  intros Hw Hc Hx Hy Hx' Hy' Hr Hcol Hb. rewrite column_bit by done. rewrite <- Hb. rewrite !wrap_small by lia.
  unfold char_colour. rewrite Hc. destruct (glyph_bit c col row).
  2: destruct (bg =? 0xFFFFFFFF).
  2: { eapply shades_ext; [done| |apply shades_ret]. intros px py _ _. unfold blank. by destruct (px - x =? col), (py - y =? row). }
  all: eapply shades_ext; [done| |apply draw_dot_shades; [done|lia|lia]]; intros px py _ _; unfold filled;
    destruct (Z.eqb_spec (px - x) col), (Z.eqb_spec px (x + col)), (Z.eqb_spec (py - y) row), (Z.eqb_spec py (y + row)); try lia; done.
Qed.

Lemma glyph_shades d x y c fg bg rows :
  display_wf d -> printable c = true -> 0 <= x -> 0 <= y -> x + 8 < 2 ^ 32 -> y + 16 < 2 ^ 32 -> length rows = 16%nat ->
  (forall col row, 0 <= row < 16 -> glyph_bit c col row = match rows !! Z.to_nat row with Some b => Z.testbit b (7 - col) | None => false end) ->
  shades d (char_picture x y c fg bg) (text_draw_glyph x y (mkGlyph 8 16 (Some rows)) fg bg 1).
Proof.
  intros Hw Hc Hx Hy Hx' Hy' Hl Hb. unfold text_draw_glyph. cbn [g_data g_height g_width]. change (1 =? 0) with false.
  eapply shades_ext; [done| |eapply (shades_for d
    (λ row px py, if (0 <=? px - x) && (px - x <? 8) then if py - y =? row then char_colour c fg bg (px - x) row else None else None)
    (λ px py, py - y)); [lia|]].
  - intros px py _ _. unfold char_picture, in_rect. rewrite Z.eqb_refl.
    destruct (Z.leb_spec 0 (py - y)), (Z.ltb_spec (py - y) 16), (Z.leb_spec 0 (px - x)), (Z.ltb_spec (px - x) 8), (Z.leb_spec x px),
      (Z.ltb_spec px (x + 8)), (Z.leb_spec y py), (Z.ltb_spec py (y + 16)); try lia; done.
  - intros row Hrow. eapply shades_ext; [done| |eapply (shades_for d
      (λ col px py, if py - y =? row then char_colour c fg bg col row else None) (λ px py, px - x)); [lia|]].
    + intros px py _ _. cbn beta. destruct (Z.eqb_spec (py - y) row); [done|]. by destruct ((0 <=? px - x) && (px - x <? 8)).
    + intros col Hcol. change (u32 (row * ((8 + 7) / 8) + col / 8)) with (u32 (row * 1 + col / 8)).
      rewrite (Z.div_small col 8), !Z.mul_1_r, Z.add_0_r, (wrap_small 32 row) by lia. unfold aget. destruct (Z.ltb_spec row 0); [lia|].
      destruct (lookup_lt_is_Some_2 rows (Z.to_nat row)) as [bits Hbits]; [lia|]. rewrite Hbits. apply shades_option.
      apply glyph_dot_shades; [done..|]. by rewrite Hb, Hbits by lia.
Qed.

(** The state of text.c after its start. *)
Definition text_ready : text_state := text_init text_start.

Lemma char_shades d x y c fg bg :
  display_wf d -> 0 <= c < 256 -> 0 <= x -> 0 <= y -> x + 8 < 2 ^ 32 -> y + 16 < 2 ^ 32 ->
  shades d (char_picture x y c fg bg) (text_draw_char_scaled text_ready x y c fg bg 1).
Proof.
  intros Hw Hc Hx Hy Hx' Hy'. unfold text_draw_char_scaled. destruct (printable c) eqn:Ep.
  - pose proof Ep as Ep'. unfold printable in Ep'. assert (s8 c = c) as -> by (apply signed_small; lia).
    destruct (Z.ltb_spec c 32), (Z.ltb_spec 127 c); try lia. cbn [orb]. change (current_font text_ready) with (Some default_font).
    apply shades_option. destruct (font_rows c Ep) as (rows & Hr & Hl & Hb). rewrite Hr. apply shades_option. by apply glyph_shades.
  - assert ((s8 c <? 32) || (127 <? s8 c) = true) as ->.
    { unfold printable in Ep. apply andb_false_iff in Ep. unfold signed. rewrite wrap_small by lia.
      change (2 ^ 8) with 256. change (2 ^ (8 - 1)) with 128. destruct (Z.ltb_spec c 128); apply orb_true_iff; lia. }
    eapply shades_ext; [done| |apply shades_ret]. intros px py _ _. unfold blank, char_picture, char_colour. rewrite Ep. by destruct (in_rect _ _ _ _ _ _).
Qed.

(** One line of text, and a list of lines. *)
Definition line_picture (x y : Z) (line : list Z) (fg bg : Z) : picture := λ px py,
  if (x <=? px) && (y <=? py) && (py <? y + 16) then
    match line !! Z.to_nat ((px - x) / 8) with Some c => char_colour c fg bg ((px - x) mod 8) (py - y) | None => None end
  else None.
Fixpoint lines_picture (x y : Z) (lines : list (list Z)) (fg bg : Z) : picture :=
  match lines with
  | [] => blank
  | h :: t => over (line_picture x y h fg bg) (lines_picture x (y + 16) t fg bg)
  end.

Lemma lines_below x y lines fg bg px py : py < y -> lines_picture x y lines fg bg px py = None.
Proof.
  revert y. induction lines as [|h t IH]; intros y Hy; [done|]. cbn [lines_picture]. unfold over, line_picture.
  rewrite IH by lia. destruct (Z.leb_spec y py); [lia|]. by rewrite andb_false_r.
Qed.

Lemma line_nil x y fg bg px py : line_picture x y [] fg bg px py = None.
Proof. unfold line_picture. by destruct ((x <=? px) && (y <=? py) && (py <? y + 16)). Qed.

(** A line is its first character and the rest of it. *)
Lemma line_cons x y c r fg bg px py :
  line_picture x y (c :: r) fg bg px py =
  if in_rect x y 8 16 px py then char_colour c fg bg (px - x) (py - y) else line_picture (x + 8) y r fg bg px py.
Proof.
  unfold line_picture, in_rect. destruct (Z.leb_spec y py), (Z.ltb_spec py (y + 16)); rewrite ?andb_false_r, ?andb_true_r; try done.
  destruct (Z.leb_spec x px), (Z.leb_spec (x + 8) px), (Z.ltb_spec px (x + 8)); try lia; cbn [andb].
  - replace ((px - x) / 8) with ((px - (x + 8)) / 8 + 1).
    2: { rewrite <- Z.div_add by lia. f_equal. lia. }
    pose proof (Z.div_pos (px - (x + 8)) 8 ltac:(lia) ltac:(lia)). rewrite Z2Nat.inj_add by lia. rewrite Nat.add_1_r. cbn [lookup list_lookup].
    replace ((px - x) mod 8) with ((px - (x + 8)) mod 8); [done|]. rewrite <- (Z.mod_add (px - (x + 8)) 1) by lia. f_equal. lia.
  - rewrite Z.div_small, Z.mod_small by lia. done.
  - done.
Qed.

Lemma split_lines_cons l : split_lines l <> [].
Proof. destruct l as [|c r]; cbn [split_lines]; [done|]. destruct (c =? 10); [done|]. by destruct (split_lines r). Qed.

Lemma text_loop_shades d l x cx cy fg bg :
  display_wf d -> Forall (λ c, 0 <= c < 256) l -> 0 <= x -> 0 <= cx -> 0 <= cy ->
  x + 8 * Z.of_nat (length l) < 2 ^ 32 -> cx + 8 * Z.of_nat (length l) < 2 ^ 32 -> cy + 16 * Z.of_nat (length l) < 2 ^ 32 ->
  shades d (match split_lines l with
            | h :: t => over (line_picture cx cy h fg bg) (lines_picture x (cy + 16) t fg bg)
            | [] => blank
            end) (draw_scaled_loop text_ready l x cx cy fg bg 1).
Proof.
  intros Hw Hl Hx. revert cx cy. induction Hl as [|c r Hc Hr IH]; intros cx cy Hcx Hcy Bx Bcx Bcy; cbn [draw_scaled_loop split_lines].
  { eapply shades_ext; [done| |apply shades_ret]. intros px py _ _. unfold over. by rewrite line_nil. }
  cbn [length] in *. change (current_font_height text_ready) with 16. change (current_font_width text_ready) with 8. rewrite !Z.mul_1_r.
  destruct (Z.eqb_spec c 10) as [->|Hne].
  - rewrite (wrap_small 32 (cy + 16)) by lia.
    eapply shades_ext; [done| |apply IH; lia]. intros px py _ _. unfold over at 2. rewrite line_nil. by destruct (split_lines r).
  - rewrite (wrap_small 32 (cx + 8)) by lia.
    eapply shades_ext; [done| |apply shades_seq; [apply char_shades; (done || lia)|apply IH; lia]]. intros px py _ _.
    destruct (split_lines r) as [|h t] eqn:Es; [by apply split_lines_cons in Es|]. unfold over. rewrite line_cons. unfold char_picture.
    destruct (in_rect cx cy 8 16 px py) eqn:Ei; [|by destruct (line_picture (cx + 8) cy h fg bg px py), (lines_picture x (cy + 16) t fg bg px py)].
    unfold in_rect in Ei. rewrite !andb_true_iff in Ei.
    rewrite (lines_below x (cy + 16)) by lia. unfold line_picture. destruct (Z.leb_spec (cx + 8) px); [lia|]. cbn [andb].
    by destruct (char_colour c fg bg (px - cx) (py - cy)).
Qed.

Lemma lines_text x y lines fg bg px py :
  lines_picture x y lines fg bg px py =
  if (x <=? px) && (y <=? py) then
    match lines !! Z.to_nat ((py - y) / 16) ≫= λ line, line !! Z.to_nat ((px - x) / 8) with
    | Some c => char_colour c fg bg ((px - x) mod 8) ((py - y) mod 16)
    | None => None
    end
  else None.
Proof.
  revert y. induction lines as [|h t IH]; intros y; cbn [lines_picture]; [by destruct ((x <=? px) && (y <=? py))|].
  unfold over. destruct (Z.ltb_spec py (y + 16)).
  - rewrite lines_below by lia. unfold line_picture. destruct (Z.leb_spec y py), (Z.ltb_spec py (y + 16)); try lia; rewrite ?andb_false_r, ?andb_true_r; [|done].
    rewrite (Z.div_small (py - y)), (Z.mod_small (py - y)) by lia. destruct (x <=? px); [|done].
    change ((h :: t) !! Z.to_nat 0 ≫= (λ line : list Z, line !! Z.to_nat ((px - x) / 8))) with (h !! Z.to_nat ((px - x) / 8)).
    destruct (h !! Z.to_nat ((px - x) / 8)) as [c|]; [|done]. by destruct (char_colour c fg bg ((px - x) mod 8) (py - y)).
  - rewrite IH. unfold line_picture. destruct (Z.ltb_spec py (y + 16)), (Z.leb_spec y py), (Z.leb_spec (y + 16) py); try lia. rewrite !andb_false_r, !andb_true_r.
    destruct (x <=? px); [|done].
    replace ((py - y) / 16) with ((py - (y + 16)) / 16 + 1) by (rewrite <- Z.div_add by lia; f_equal; lia).
    pose proof (Z.div_pos (py - (y + 16)) 16 ltac:(lia) ltac:(lia)). rewrite Z2Nat.inj_add, Nat.add_1_r by lia. cbn [lookup list_lookup].
    replace ((py - y) mod 16) with ((py - (y + 16)) mod 16) by (rewrite <- (Z.mod_add (py - (y + 16)) 1) by lia; f_equal; lia).
    done.
Qed.

Lemma text_draw_shades d l x y fg bg :
  display_wf d -> Forall (λ c, 0 <= c < 256) l -> 0 <= x -> 0 <= y ->
  x + 8 * Z.of_nat (length l) < 2 ^ 32 -> y + 16 * Z.of_nat (length l) < 2 ^ 32 ->
  shades d (text_picture x y l fg bg) (text_draw text_ready x y l fg bg).
Proof.
  intros Hw Hl Hx Hy Bx By. eapply shades_ext; [done| |by apply text_loop_shades]. intros px py _ _.
  change (text_picture x y l fg bg px py) with (if (x <=? px) && (y <=? py) then
    match split_lines l !! Z.to_nat ((py - y) / 16) ≫= λ line, line !! Z.to_nat ((px - x) / 8) with
    | Some c => char_colour c fg bg ((px - x) mod 8) ((py - y) mod 16)
    | None => None
    end
  else None).
  rewrite <- lines_text. destruct (split_lines l) eqn:El; [by apply split_lines_cons in El|]. unfold over. cbn [lines_picture]. unfold over.
  destruct (Z.ltb_spec py (y + 16)); [by rewrite lines_below|].
  unfold line_picture. destruct (Z.ltb_spec py (y + 16)); [lia|]. rewrite andb_false_r. by destruct (lines_picture _ _ _ _ _ _ _).
Qed.
End looks.

(** ** Drawing that stays on the screen *)

Section drawing.
Context {OS : Type} `{!PageSource OS}.
Local Abbreviation display := (display OS).
Implicit Types (d : display) (mm : mem).

(** [m] ends and changes only pixels of the screen. *)
Definition drawn d (m : M display unit) : Prop := exists F, shades d F m.

Lemma drawn_ret d : drawn d (ret tt).
Proof. eexists. apply shades_ret. Qed.
Lemma drawn_seq d m1 m2 : drawn d m1 -> drawn d m2 -> drawn d (m1 ;;; m2).
Proof. intros [F HF] [G HG]. eexists. by apply shades_seq. Qed.
Lemma drawn_option {A} d (a : A) (k : A -> M display unit) : drawn d (k a) -> drawn d (bind (of_option (Some a)) k).
Proof. intros [F HF]. eexists. by apply shades_option. Qed.
Lemma drawn_paints d c P m : paints d c P m -> drawn d m.
Proof. intros Hp. eexists. by apply shades_paints. Qed.
Lemma drawn_fill d x y w h c :
  display_wf d -> 0 <= x -> 0 <= y -> 0 <= w -> 0 <= h -> fb_width (fb d) <= x \/ fb_height (fb d) <= y \/ x + w < 2 ^ 32 /\ y + h < 2 ^ 32 ->
  drawn d (fb_fill_rect x y w h c).
Proof. intros. by eapply drawn_paints, fill_rect_paints. Qed.
Lemma drawn_outline d x y w h c :
  display_wf d -> 0 <= x -> 0 <= y -> 4 <= w -> 4 <= h -> x + w < 2 ^ 32 -> y + h < 2 ^ 32 -> drawn d (gfx_draw_rect_outline x y w h c 2).
Proof. intros. eapply drawn_paints, outline_paints; (done || lia). Qed.
Lemma drawn_text d x y l fg bg :
  display_wf d -> Forall (λ c, 0 <= c < 256) l -> 0 <= x -> 0 <= y -> x + 8 * Z.of_nat (length l) < 2 ^ 32 -> y + 16 * Z.of_nat (length l) < 2 ^ 32 ->
  drawn d (text_draw text_ready x y l fg bg).
Proof. intros. eexists. by apply text_draw_shades. Qed.

Lemma drawn_run d m mm : drawn d m -> mapped mm (scr_base d) (scr_size d) ->
  exists mm', m (at_mem mm d) = Ret tt (at_mem mm' d) /\ mapped mm' (scr_base d) (scr_size d) /\ forall a, on_screen d a = false -> mm' !! a = mm !! a.
Proof.
  intros [F HF] Hm. destruct (HF mm Hm) as (mm' & E & Hm' & Ha). exists mm'. split; [done|]. split; [done|].
  intros a Hoff. by rewrite (Ha a), Hoff.
Qed.

(** ** The two buffers *)

(** With double buffering the frame buffer is a second range of memory; it only changes when
    [fb_swap_buffers] copies the back buffer to it. *)
Definition in_front d (a : Z) : bool := use_double_buffer d && (fb_addr (fb d) <=? a) && (a <? fb_addr (fb d) + scr_size d).
Definition touched d (a : Z) : bool := on_screen d a || in_front d a.
Record buffers_ok d : Prop := {
  bo_back : use_double_buffer d = true -> back_buffer d <> 0;
  bo_apart : use_double_buffer d = true ->
    fb_addr (fb d) + scr_size d <= back_buffer d \/ back_buffer d + scr_size d <= fb_addr (fb d)
}.
Record display_mem d mm : Prop := {
  dm_screen : mapped mm (scr_base d) (scr_size d);
  dm_front : use_double_buffer d = true -> mapped mm (fb_addr (fb d)) (scr_size d)
}.
(** What was drawn is on the monitor. *)
Definition front_shown d mm : Prop :=
  use_double_buffer d = true -> forall i, 0 <= i < scr_size d -> mm !! (fb_addr (fb d) + i) = u8 <$> mm !! (back_buffer d + i).

(** [m] ends and leaves what it drew on the monitor. *)
Definition presents d (m : M display unit) : Prop :=
  forall mm, display_mem d mm -> exists mm', m (at_mem mm d) = Ret tt (at_mem mm' d) /\ display_mem d mm' /\
    (forall a, touched d a = false -> mm' !! a = mm !! a) /\ front_shown d mm'.

Lemma touched_off d a : touched d a = false -> on_screen d a = false.
Proof. unfold touched. by destruct (on_screen d a). Qed.

Lemma display_mem_drawn d mm mm' : display_mem d mm -> mapped mm' (scr_base d) (scr_size d) ->
  (forall a, on_screen d a = false -> mm' !! a = mm !! a) -> display_mem d mm'.
Proof.
  intros [_ Hf] Hm Ho. split; [done|]. intros Hd a Ha. destruct (on_screen d a) eqn:E; [|rewrite Ho by done; by apply (Hf Hd)].
  unfold on_screen in E. rewrite !andb_true_iff, Z.leb_le, !Z.ltb_lt in E. apply Hm. lia.
Qed.

Lemma presents_seq d m k : drawn d m -> presents d k -> presents d (m ;;; k).
Proof.
  intros Hm Hk mm Hmm. destruct (drawn_run d m mm Hm (dm_screen _ _ Hmm)) as (m1 & E1 & M1 & O1).
  destruct (Hk m1 (display_mem_drawn _ _ _ Hmm M1 O1)) as (m2 & E2 & M2 & O2 & F2). exists m2. rewrite (bind_Ret _ _ _ _ _ E1). split; [done|].
  split; [done|]. split; [|done]. intros a Ha. by rewrite O2, O1 by auto using touched_off.
Qed.

Lemma presents_swap d : display_wf d -> buffers_ok d -> presents d fb_swap_buffers.
Proof.
  intros Hw [Hb Ha] mm [Hs Hf]. unfold fb_swap_buffers, presents. rewrite bind_get. cbn [at_mem d_with_heap use_double_buffer back_buffer fb].
  destruct (use_double_buffer d) eqn:Ed; cbn [negb orb]; [|exists mm; split; [done|split; [split; [done|by rewrite Ed]|split; [done|unfold front_shown; by rewrite Ed]]]].
  specialize (Hb eq_refl). specialize (Ha eq_refl). specialize (Hf eq_refl). destruct (Z.eqb_spec (back_buffer d) 0) as [|_]; [done|].
  assert (scr_base d = back_buffer d) as Eb by (unfold scr_base; by rewrite Ed). rewrite Eb in Hs.
  pose proof (dw_size _ Hw) as Hz. destruct (dw_pitch _ Hw) as [_ Hp]. pose proof (dw_width _ Hw). pose proof (dw_height _ Hw).
  assert (0 <= scr_size d) as Hz0 by (unfold scr_size; nia). change (fb_height (fb d) * fb_pitch (fb d)) with (scr_size d). rewrite wrap_small by lia.
  destruct (copy_up_apart (Z.to_nat (scr_size d)) mm (fb_addr (fb d)) (back_buffer d) 0) as (mm' & E & Hm');
    [rewrite Z.add_0_r, Z2Nat.id by lia; done|rewrite Z.add_0_r, Z2Nat.id by lia; done|lia|].
  rewrite Z.add_0_r, Z2Nat.id in Hm' by lia. exists mm'. split; [by apply on_mem_run|].
  assert (forall a, back_buffer d <= a < back_buffer d + scr_size d -> mm' !! a = mm !! a) as Hback by (intros a Ha'; rewrite Hm', decide_False by lia; done).
  split; [|split].
  - split; [rewrite Eb; intros a Ha'; rewrite Hback by done; by apply Hs|]. intros _ a Ha'. rewrite Hm', decide_True by done.
    destruct (Hs (back_buffer d + (a - fb_addr (fb d)))) as [b ->]; [lia|]. by eexists.
  - intros a Ht. rewrite Hm'. apply decide_False. unfold touched, in_front in Ht. rewrite Ed in Ht. lia.
  - intros _ i Hi. rewrite (Hback (back_buffer d + i)), Hm', decide_True by lia. do 2 f_equal. lia.
Qed.
End drawing.

(** ** What a window looks like *)

Section window_looks.
Context {OS : Type} `{!PageSource OS}.
Local Abbreviation display := (display OS).
Implicit Types (d : display) (mm : mem) (w : ui_window_t).

(** Reading back a pixel of a picture. *)
Lemma shades_pixel d F m mm :
  display_wf d -> shades d F m -> mapped mm (scr_base d) (scr_size d) ->
  (forall x y c, F x y = Some c -> 0 <= c < 2 ^ 32) ->
  exists mm', m (at_mem mm d) = Ret tt (at_mem mm' d) /\ (forall a, on_screen d a = false -> mm' !! a = mm !! a) /\
    forall x y, 0 <= x < fb_width (fb d) -> 0 <= y < fb_height (fb d) ->
      pixel d mm' x y = match F x y with Some c => Some c | None => pixel d mm x y end.
Proof.
  intros Hw Hs Hm Hc. destruct (Hs mm Hm) as (mm' & E & _ & Ha). exists mm'. split; [done|].
  split; [intros a Ea; by rewrite (Ha a), Ea|]. intros x y Hx Hy. unfold pixel. set (p := scr_base d + y * fb_pitch (fb d) + 4 * x).
  assert (forall a, p <= a < p + 4 -> on_screen d a = true /\ a_col d a = x /\ a_row d a = y /\ (a - scr_base d) mod 4 = a - p) as Hat.
  { intros a Hr. destruct (pixel_bytes d x y a Hw Hx Hy) as (_ & _ & Hi & Hmod). fold p in Hi, Hmod.
    apply Hi in Hr as Hb. apply andb_prop in Hb as [Hs' Hb]. apply andb_prop in Hb as [Hcol Hrow].
    split; [done|]. split; [lia|]. split; [lia|]. by apply Hmod. }
  destruct (F x y) as [c|] eqn:EF.
  - specialize (Hc x y c EF). rewrite (load_bytes 4 mm' p c); [by rewrite Z.mod_small by (simpl; lia)|lia|].
    intros a Hr. destruct (Hat a Hr) as (E1 & E2 & E3 & E4). by rewrite (Ha a), E1, E2, E3, EF, E4.
  - apply load_ext. intros a Hr. destruct (Hat a Hr) as (E1 & E2 & E3 & E4). by rewrite (Ha a), E1, E2, E3, EF.
Qed.

(** A window that does not wrap around the 32-bit plane and has room for its title. *)
Record window_fits w : Prop := {
  wf_x : 0 <= r_x (bounds w);
  wf_y : 0 <= r_y (bounds w);
  wf_w : 4 <= r_w (bounds w) /\ r_x (bounds w) + r_w (bounds w) < 2 ^ 32;
  wf_h : 4 <= r_h (bounds w) /\ r_y (bounds w) + r_h (bounds w) < 2 ^ 32;
  wf_colours : 0 <= w_fill w < 2 ^ 32 /\ 0 <= w_border w < 2 ^ 32 /\ 0 <= w_title_bg w < 2 ^ 32;
  wf_title : match w_title w with
             | None => True
             | Some l => Forall (λ c, 0 <= c < 256 /\ c <> 10) l /\ 26 <= r_h (bounds w) /\
                         10 + 8 * Z.of_nat (length l) <= r_w (bounds w) /\ r_y (bounds w) + 6 + 16 * Z.of_nat (length l) < 2 ^ 32
             end
}.

(** The colour a window has at one of its points. *)
Definition window_colour w (px py : Z) : Z :=
  let b := bounds w in
  let body := if frame (r_x b) (r_y b) (r_w b) (r_h b) 2 px py then w_border w else w_fill w in
  match w_title w with
  | None => body
  | Some l =>
      match text_picture (r_x b + 10) (r_y b + 6) l 0xFFFFFF (w_title_bg w) px py with
      | Some c => c
      | None => if in_rect (r_x b + 2) (r_y b + 2) (r_w b - 4) 24 px py then w_title_bg w else body
      end
  end.
Definition window_picture w : picture := λ px py, if hit px py w then Some (window_colour w px py) else None.

Lemma one_line l : Forall (λ c, 0 <= c < 256 /\ c <> 10) l -> split_lines l = [l].
Proof. induction 1 as [|c r [_ Hc] _ IH]; [done|]. cbn [split_lines]. destruct (Z.eqb_spec c 10); [done|]. by rewrite IH. Qed.

(** A text of one line stays in its box. *)
Lemma text_in_box x y l fg bg px py :
  Forall (λ c, 0 <= c < 256 /\ c <> 10) l -> in_rect x y (8 * Z.of_nat (length l)) 16 px py = false -> text_picture x y l fg bg px py = None.
Proof.
  intros Hl Hb. unfold text_picture. rewrite (one_line l Hl). destruct (Z.leb_spec x px), (Z.leb_spec y py); try done. cbn [andb].
  unfold in_rect in Hb. destruct (Z.ltb_spec py (y + 16)).
  - rewrite (Z.div_small (py - y)) by lia. change ([l] !! Z.to_nat 0 ≫= (λ line : list Z, line !! Z.to_nat ((px - x) / 8))) with (l !! Z.to_nat ((px - x) / 8)).
    rewrite lookup_ge_None_2; [done|]. destruct (Z.leb_spec x px), (Z.leb_spec y py), (Z.ltb_spec py (y + 16)); try lia. cbn [andb] in Hb. rewrite andb_true_r in Hb.
    assert (Z.of_nat (length l) <= (px - x) / 8) by (apply Z.div_le_lower_bound; lia). lia.
  - assert (1 <= (py - y) / 16) by (apply Z.div_le_lower_bound; lia). rewrite lookup_ge_None_2 by (cbn; lia). done.
Qed.

Lemma text_colours x y l fg bg px py c : text_picture x y l fg bg px py = Some c -> c = fg \/ c = bg.
Proof.
  unfold text_picture. destruct ((x <=? px) && (y <=? py)); [|done]. destruct (split_lines l !! _ ≫= _) as [ch|]; [|done].
  unfold char_colour. generalize (glyph_bit ch ((px - x) mod 8) ((py - y) mod 16)). intros g. destruct (printable ch), g, (bg =? 0xFFFFFFFF); intros [= <-]; auto.
Qed.

Lemma hit_rect w px py : window_fits w -> visible w = true ->
  hit px py w = in_rect (r_x (bounds w)) (r_y (bounds w)) (r_w (bounds w)) (r_h (bounds w)) px py.
Proof.
  intros [] Hv. unfold hit, ui_rect_contains, in_rect. rewrite Hv, !wrap_small by lia. done.
Qed.

Lemma draw_window_shades d w : display_wf d -> window_fits w -> shades d (window_picture w) (draw_window text_ready w).
Proof.
  intros Hd Hf. unfold draw_window. destruct (visible w) eqn:Hv; cbn [negb].
  2: { eapply shades_ext; [done| |apply shades_ret]. intros px py _ _. unfold window_picture, hit. by rewrite Hv. }
  pose proof (hit_rect w) as Hh. destruct (Hf) as [Hx Hy [Hw0 Hw1] [Hh0 Hh1] _ Ht].
  set (b := bounds w) in *.
  destruct (w_title w) as [l|] eqn:El.
  - destruct Ht as (Hl & H26 & Hlen & Hlb). rewrite !(wrap_small 32) by lia.
    eapply shades_ext; [done| |apply shades_seq; [apply shades_paints, fill_rect_paints; (done || lia)|apply shades_seq;
      [apply shades_paints, outline_paints; (done || lia)|apply shades_seq; [apply shades_paints, fill_rect_paints; (done || lia)|
        apply text_draw_shades; [done|eapply Forall_impl; [exact Hl|by intros ? [? _]]|lia..]]]]].
    intros px py _ _. unfold window_picture. rewrite Hh by done. fold b. unfold over, filled, window_colour. rewrite El. fold b.
    set (T := text_picture _ _ _ _ _ px py). assert (in_rect (r_x b) (r_y b) (r_w b) (r_h b) px py = false -> T = None) as HT.
    { intros Hn. apply text_in_box; [done|]. unfold in_rect in *. apply not_true_iff_false. apply not_true_iff_false in Hn. rewrite !andb_true_iff in *. lia. }
    destruct T as [c|]; [destruct (in_rect _ _ _ _ px py); [done|by specialize (HT eq_refl)]|].
    set (Bar := in_rect (r_x b + 2) (r_y b + 2) (r_w b - 4) 24 px py).
    assert (in_rect (r_x b) (r_y b) (r_w b) (r_h b) px py = false -> Bar = false) as HB.
    { intros Hn. subst Bar. unfold in_rect in *. apply not_true_iff_false. apply not_true_iff_false in Hn. rewrite !andb_true_iff in *. lia. }
    unfold frame. destruct (in_rect (r_x b) (r_y b) (r_w b) (r_h b) px py); [|by rewrite HB].
    destruct Bar; [done|]. cbn [andb]. by destruct (negb (in_rect _ _ _ _ px py)).
  - eapply shades_ext; [done| |apply shades_seq; [apply shades_paints, fill_rect_paints; (done || lia)|apply shades_seq;
      [apply shades_paints, outline_paints; (done || lia)|apply shades_ret]]].
    intros px py _ _. unfold window_picture. rewrite Hh by done. fold b. unfold over, filled, blank, window_colour. rewrite El. fold b.
    unfold frame. by destruct (in_rect (r_x b) (r_y b) (r_w b) (r_h b) px py), (in_rect _ _ _ _ px py).
Qed.

(** The windows of a stack, the last on top. *)
Fixpoint stack_picture (l : list ui_window_t) : picture :=
  match l with
  | [] => blank
  | w :: r => over (stack_picture r) (window_picture w)
  end.

Lemma render_shades d l : display_wf d -> Forall window_fits l -> shades d (stack_picture l) (render_loop text_ready l).
Proof.
  intros Hd. induction 1 as [|w r Hf _ IH]; cbn [render_loop stack_picture]; [apply shades_ret|].
  apply shades_seq; [by apply draw_window_shades|done].
Qed.

Lemma stack_top l x y :
  stack_picture l x y = match top_at l x y ≫= (λ i, l !! i) with Some w => Some (window_colour w x y) | None => None end.
Proof.
  induction l as [|w r IH]; [done|]. cbn [stack_picture top_at]. unfold over. rewrite IH. destruct (top_at r x y) as [i|] eqn:Ei.
  - change (Some (S i) ≫= (λ i : nat, (w :: r) !! i)) with (r !! i). change (Some i ≫= (λ i : nat, r !! i)) with (r !! i).
    destruct (top_at_hit r x y i Ei) as (v & Ev & _). by rewrite Ev.
  - unfold window_picture. by destruct (hit x y w).
Qed.

Lemma window_colour_bound w x y : window_fits w -> 0 <= window_colour w x y < 2 ^ 32.
Proof.
  intros [_ _ _ _ (Hf & Hb & Ht) _]. unfold window_colour.
  assert (forall b : bool, 0 <= (if b then w_border w else w_fill w) < 2 ^ 32) as Hbody by (by intros []).
  destruct (w_title w) as [l|]; [|apply Hbody]. destruct (text_picture _ _ _ _ _ x y) as [c|] eqn:Ec.
  - apply text_colours in Ec as [->| ->]; [lia|done].
  - destruct (in_rect _ _ _ _ x y); [done|apply Hbody].
Qed.

(** ** Properties *)

(** C32. [text_draw] with the built-in font: the pixel of column [i] and row [j] of the [k]th
    character of a line takes the foreground where the glyph has its bit set and the background
    elsewhere (unless that is 0xFFFFFFFF, transparent); lines are 16 pixels apart and start at
    the same column, codes that are not printable leave 8 pixels blank, and all is clipped to
    the screen: no other byte of memory changes. *)
Theorem text_draw_spec d mm l x y fg bg :
  display_wf d -> mapped mm (scr_base d) (scr_size d) -> Forall (λ c, 0 <= c < 256) l -> 0 <= fg < 2 ^ 32 -> 0 <= bg < 2 ^ 32 ->
  0 <= x -> 0 <= y -> x + 8 * Z.of_nat (length l) < 2 ^ 32 -> y + 16 * Z.of_nat (length l) < 2 ^ 32 ->
  exists mm', text_draw (text_init text_start) x y l fg bg (at_mem mm d) = Ret tt (at_mem mm' d) /\
    (forall a, on_screen d a = false -> mm' !! a = mm !! a) /\
    forall px py, 0 <= px < fb_width (fb d) -> 0 <= py < fb_height (fb d) ->
      pixel d mm' px py = match text_picture x y l fg bg px py with Some c => Some c | None => pixel d mm px py end.
Proof.
  intros Hd Hm Hl Hfg Hbg Hx Hy Bx By. eapply shades_pixel; [done|by apply text_draw_shades|done|].
  intros px py c Hc. by apply text_colours in Hc as [->| ->].
Qed.

(** After [window_render] every pixel of the screen shows the colour of the last visible
    window of the array that has the point, the one a click there is given to; the other pixels
    and bytes are as before. *)
Theorem window_render_spec d mm s :
  display_wf d -> mapped mm (scr_base d) (scr_size d) -> Forall window_fits (shown s) ->
  exists mm', window_render (text_init text_start) s (at_mem mm d) = Ret tt (at_mem mm' d) /\
    (forall a, on_screen d a = false -> mm' !! a = mm !! a) /\
    forall px py, 0 <= px < fb_width (fb d) -> 0 <= py < fb_height (fb d) ->
      pixel d mm' px py = match top_at (shown s) px py ≫= (λ i, shown s !! i) with
                          | Some w => Some (window_colour w px py)
                          | None => pixel d mm px py
                          end.
Proof.
  intros Hd Hm Hf.
  assert (shades d (stack_picture (shown s)) (window_render text_ready s)) as Hs.
  { apply shades_gets; [done|]. rewrite (dw_ready _ Hd). by apply render_shades. }
  destruct (shades_pixel d _ _ mm Hd Hs Hm) as (mm' & E & Ho & Hp).
  { intros x y c. rewrite stack_top. destruct (top_at (shown s) x y ≫= _) as [w|] eqn:Ew; [|done]. intros [= <-].
    apply window_colour_bound. destruct (top_at (shown s) x y) as [i|]; [|done]. by apply (Forall_lookup_1 _ _ _ _ Hf Ew). }
  exists mm'. split; [done|]. split; [done|]. intros px py Hx Hy. rewrite (Hp px py Hx Hy), stack_top.
  by destruct (top_at (shown s) px py ≫= _).
Qed.
End window_looks.

(** ** A concrete screen *)

Section text_witnesses.

(** Sixteen pixels by sixteen. *)
Definition screen16 : display nat := mkDisplay (mkHeap O ∅ 0 0 0 []) (mkFb 0x1000 64 16 16 32) 0 false.
Definition mem16 : mem := bytes_at 0x1000 (replicate 1024 7).

Lemma screen16_wf : display_wf screen16.
Proof. split; simpl; try done; lia. Qed.

Lemma screen16_mapped : mapped mem16 (scr_base screen16) (scr_size screen16).
Proof. apply mappedb_spec. vm_compute. reflexivity. Qed.

(** An exclamation mark after a control code. *)
Lemma text_draw_spec_witness :
  exists mm', text_draw (text_init text_start) 0 0 [9; 33] 1 2 (at_mem mem16 screen16) = Ret tt (at_mem mm' screen16) /\
    pixel screen16 mm' 11 2 = Some 1 /\ pixel screen16 mm' 8 2 = Some 2 /\ pixel screen16 mm' 3 2 = Some 0x07070707.
Proof.
  destruct (text_draw_spec screen16 mem16 [9; 33] 0 0 1 2 screen16_wf screen16_mapped) as (mm' & E & _ & Hp);
    [repeat constructor; discriminate|split; [discriminate|reflexivity]|split; [discriminate|reflexivity]|discriminate|discriminate|reflexivity|reflexivity|].
  exists mm'. split; [exact E|]. split; [exact (Hp 11 2 ltac:(simpl; lia) ltac:(simpl; lia))|].
  split; [exact (Hp 8 2 ltac:(simpl; lia) ltac:(simpl; lia))|exact (Hp 3 2 ltac:(simpl; lia) ltac:(simpl; lia))].
Defined.

Definition win16 (x : Z) (f : Z) : ui_window_t := mkWindow (mkRect x 0 8 8) f 9 0 None true false false 0 0.
Definition desk16 : desktop := mkDesktop (win16 0 1 :: win16 4 2 :: replicate 6 (win16 0 0)) 2 0 (-1).

Lemma win16_fits x f : 0 <= x < 8 -> 0 <= f < 16 -> window_fits (win16 x f).
Proof. intros Hx Hf. split; simpl; repeat split; lia. Qed.

Lemma window_render_spec_witness :
  exists mm', window_render (text_init text_start) desk16 (at_mem mem16 screen16) = Ret tt (at_mem mm' screen16) /\
    pixel screen16 mm' 3 3 = Some 1 /\ pixel screen16 mm' 6 3 = Some 2 /\ pixel screen16 mm' 4 3 = Some 9 /\
    pixel screen16 mm' 12 3 = Some 0x07070707.
Proof.
  destruct (window_render_spec screen16 mem16 desk16 screen16_wf screen16_mapped) as (mm' & E & _ & Hp).
  { exact (Forall_cons_2 _ _ _ (win16_fits 0 1 ltac:(lia) ltac:(lia)) (Forall_cons_2 _ _ _ (win16_fits 4 2 ltac:(lia) ltac:(lia)) (Forall_nil_2 _))). }
  exists mm'. split; [exact E|]. split; [exact (Hp 3 3 ltac:(simpl; lia) ltac:(simpl; lia))|].
  split; [exact (Hp 6 3 ltac:(simpl; lia) ltac:(simpl; lia))|].
  split; [exact (Hp 4 3 ltac:(simpl; lia) ltac:(simpl; lia))|exact (Hp 12 3 ltac:(simpl; lia) ltac:(simpl; lia))].
Defined.
End text_witnesses.
