(* ===== verification/Widgets.v ===== *)
(** * The widget tree (ui/ui.c)

    Widgets are records at their addresses, linked through [parent], [children], [next] and
    [prev]; an access to a widget that is not in the table is undefined behaviour.  The
    handlers a widget has are function pointers; what they do is an argument of the code, and
    they run on the whole state, with [ui_screen] as the rest of the program. *)

From S2P Require Import Prelude Vfs Windows.

Inductive ui_event_type_t :=
  | UI_EVENT_NONE | UI_EVENT_MOUSE_MOVE | UI_EVENT_MOUSE_DOWN | UI_EVENT_MOUSE_UP
  | UI_EVENT_KEY_DOWN | UI_EVENT_KEY_UP | UI_EVENT_FOCUS | UI_EVENT_BLUR.
Record ui_event_t := mkEvent { e_type : ui_event_type_t; e_x : Z; e_y : Z; e_button : Z; e_keycode : Z; e_handled : bool }.

Record ui_widget_t := mkWidget {
  u_bounds : ui_rect_t; absolute_bounds : ui_rect_t;
  u_parent : Z; u_children : Z; u_next : Z; u_prev : Z;
  u_visible : bool; u_enabled : bool; u_focused : bool;
  user_data : Z; on_paint : Z; on_event : Z; on_focus : Z
}.
Definition WIDGET_SIZE : Z := 104.

Record ui (H D : Type) := mkUi {
  ui_alloc : H; widgets : gmap Z ui_widget_t; root_widget : Z; focused_widget : Z; ui_dirty_flag : bool; ui_screen : D
}.
Arguments mkUi {H D}.
Arguments ui_alloc {H D}.
Arguments widgets {H D}.
Arguments root_widget {H D}.
Arguments focused_widget {H D}.
Arguments ui_dirty_flag {H D}.
Arguments ui_screen {H D}.

Implicit Types w : ui_widget_t.
Definition w_bounds_at (b : ui_rect_t) w : ui_widget_t :=
  mkWidget (u_bounds w) b (u_parent w) (u_children w) (u_next w) (u_prev w) (u_visible w) (u_enabled w) (u_focused w)
    (user_data w) (on_paint w) (on_event w) (on_focus w).
Definition w_links (p c n v : Z) w : ui_widget_t :=
  mkWidget (u_bounds w) (absolute_bounds w) p c n v (u_visible w) (u_enabled w) (u_focused w)
    (user_data w) (on_paint w) (on_event w) (on_focus w).
Definition w_parent (p : Z) w : ui_widget_t := w_links p (u_children w) (u_next w) (u_prev w) w.
Definition w_children (c : Z) w : ui_widget_t := w_links (u_parent w) c (u_next w) (u_prev w) w.
Definition w_next (n : Z) w : ui_widget_t := w_links (u_parent w) (u_children w) n (u_prev w) w.
Definition w_prev (v : Z) w : ui_widget_t := w_links (u_parent w) (u_children w) (u_next w) v w.
Definition w_show (v e : bool) w : ui_widget_t :=
  mkWidget (u_bounds w) (absolute_bounds w) (u_parent w) (u_children w) (u_next w) (u_prev w) v e (u_focused w)
    (user_data w) (on_paint w) (on_event w) (on_focus w).

Section widget_code.
Context {H D : Type} `{!Allocator H}.
Local Abbreviation ui := (ui H D).
Implicit Types s : ui.

Definition set_ui_alloc (h : H) s : ui := mkUi h (widgets s) (root_widget s) (focused_widget s) (ui_dirty_flag s) (ui_screen s).
Definition set_widgets (t : gmap Z ui_widget_t) s : ui := mkUi (ui_alloc s) t (root_widget s) (focused_widget s) (ui_dirty_flag s) (ui_screen s).
Definition set_root (a : Z) s : ui := mkUi (ui_alloc s) (widgets s) a (focused_widget s) (ui_dirty_flag s) (ui_screen s).
Definition set_ui_focus (a : Z) s : ui := mkUi (ui_alloc s) (widgets s) (root_widget s) a (ui_dirty_flag s) (ui_screen s).
Definition set_ui_dirty (b : bool) s : ui := mkUi (ui_alloc s) (widgets s) (root_widget s) (focused_widget s) b (ui_screen s).
Definition set_screen (d : D) s : ui := mkUi (ui_alloc s) (widgets s) (root_widget s) (focused_widget s) (ui_dirty_flag s) d.

Definition wid_get (a : Z) : M ui ui_widget_t := s <-- get ;; of_option (widgets s !! a).
Definition wid_put (a : Z) w : M ui unit := modify (λ s, set_widgets (<[a := w]> (widgets s)) s).
Definition wid_upd (a : Z) (f : ui_widget_t -> ui_widget_t) : M ui unit := w <-- wid_get a ;; wid_put a (f w).
Definition ui_malloc (n : Z) : M ui Z := zoom ui_alloc set_ui_alloc (malloc n).
(** [kfree] of a widget: it is gone. *)
Definition ui_free (a : Z) : M ui unit := modify (λ s, set_widgets (delete a (widgets s)) s) ;;; zoom ui_alloc set_ui_alloc (free a).

(** ** The tree *)

Definition rect_shift (b c : ui_rect_t) : ui_rect_t := mkRect (u32 (r_x b + r_x c)) (u32 (r_y b + r_y c)) (r_w b) (r_h b).

(** [while (ancestor) ... ancestor = ancestor->parent;] *)
Fixpoint ancestor_loop (fuel : nat) (child ancestor : Z) : M ui unit :=
  match fuel with
  | O => nofuel
  | S fuel' =>
      if ancestor =? 0 then ret tt
      else
        a <-- wid_get ancestor ;;
        wid_upd child (λ w, w_bounds_at (rect_shift (absolute_bounds w) (u_bounds a)) w) ;;;
        a <-- wid_get ancestor ;;
        ancestor_loop fuel' child (u_parent a)
  end.

Definition ui_add_child (fuel : nat) (parent child : Z) : M ui unit :=
  if (parent =? 0) || (child =? 0) then ret tt
  else
    wid_upd child (w_parent parent) ;;;
    p <-- wid_get parent ;;
    wid_upd child (w_next (u_children p)) ;;;
    wid_upd child (w_prev 0) ;;;
    p <-- wid_get parent ;;
    (if truth (u_children p) then wid_upd (u_children p) (w_prev child) else ret tt) ;;;
    wid_upd parent (w_children child) ;;;
    ancestor_loop fuel child parent.

Definition ui_remove_child (parent child : Z) : M ui unit :=
  if (parent =? 0) || (child =? 0) then ret tt
  else
    c <-- wid_get child ;;
    if negb (u_parent c =? parent) then ret tt
    else
      (if truth (u_prev c) then wid_upd (u_prev c) (w_next (u_next c)) else wid_upd parent (w_children (u_next c))) ;;;
      c <-- wid_get child ;;
      (if truth (u_next c) then wid_upd (u_next c) (w_prev (u_prev c)) else ret tt) ;;;
      wid_upd child (w_parent 0) ;;;
      wid_upd child (w_next 0) ;;;
      wid_upd child (w_prev 0).

Definition ui_create_widget (fuel : nat) (parent : Z) (b : ui_rect_t) : M ui Z :=
  widget <-- ui_malloc WIDGET_SIZE ;;
  if widget =? 0 then ret 0
  else
    wid_put widget (mkWidget b b parent 0 0 0 true true false 0 0 0 0) ;;;
    (if truth parent then ui_add_child fuel parent widget else ret tt) ;;;
    ret widget.

(** [while (widget->children) ui_destroy_widget(widget->children);] *)
Fixpoint destroy_children (destroy : Z -> M ui unit) (fuel : nat) (widget : Z) : M ui unit :=
  match fuel with
  | O => nofuel
  | S fuel' =>
      w <-- wid_get widget ;;
      if u_children w =? 0 then ret tt
      else destroy (u_children w) ;;; destroy_children destroy fuel' widget
  end.
Fixpoint ui_destroy_widget (fuel : nat) (widget : Z) : M ui unit :=
  match fuel with
  | O => nofuel
  | S fuel' =>
      if widget =? 0 then ret tt
      else
        w <-- wid_get widget ;;
        (if truth (u_parent w) then ui_remove_child (u_parent w) widget else ret tt) ;;;
        destroy_children (ui_destroy_widget fuel') fuel' widget ;;;
        ui_free widget
  end.

Definition ui_set_visible (widget : Z) (b : bool) : M ui unit :=
  if truth widget then wid_upd widget (λ w, w_show b (u_enabled w) w) else ret tt.
Definition ui_set_enabled (widget : Z) (b : bool) : M ui unit :=
  if truth widget then wid_upd widget (λ w, w_show (u_visible w) b w) else ret tt.
Definition ui_get_focus : M ui Z := gets focused_widget.
Definition ui_dirty : M ui bool := gets ui_dirty_flag.
Definition ui_clear_dirty : M ui unit := modify (set_ui_dirty false).

(** ** Handlers: what the function at an address does with its arguments *)

Variable call_paint : Z -> Z -> M ui unit.
Variable call_event : Z -> Z -> ui_event_t -> M ui bool.
Variable call_focus : Z -> Z -> bool -> M ui unit.

(** [while (child) { paint(child); child = child->next; }] *)
Fixpoint paint_children (paint : Z -> M ui unit) (fuel : nat) (child : Z) : M ui unit :=
  match fuel with
  | O => nofuel
  | S fuel' =>
      if child =? 0 then ret tt
      else
        paint child ;;;
        c <-- wid_get child ;;
        paint_children paint fuel' (u_next c)
  end.
Fixpoint ui_paint_widget (fuel : nat) (widget : Z) : M ui unit :=
  match fuel with
  | O => nofuel
  | S fuel' =>
      if widget =? 0 then ret tt
      else
        w <-- wid_get widget ;;
        if negb (u_visible w) then ret tt
        else
          paint_children (ui_paint_widget fuel') fuel' (u_children w) ;;;
          w <-- wid_get widget ;;
          if truth (on_paint w) then call_paint (on_paint w) widget else ret tt
  end.

(** The first of the siblings from [child] on that has the point, or 0. *)
Fixpoint child_at (fuel : nat) (child x y : Z) : M ui Z :=
  match fuel with
  | O => nofuel
  | S fuel' =>
      if child =? 0 then ret 0
      else
        c <-- wid_get child ;;
        if ui_rect_contains (absolute_bounds c) x y then ret child else child_at fuel' (u_next c) x y
  end.
Fixpoint event_loop (fuel : nat) (target : Z) (e : ui_event_t) : M ui bool :=
  match fuel with
  | O => nofuel
  | S fuel' =>
      if target =? 0 then ret false
      else
        t <-- wid_get target ;;
        if ui_rect_contains (absolute_bounds t) (e_x e) (e_y e) then
          c <-- child_at fuel' (u_children t) (e_x e) (e_y e) ;;
          let target := if c =? 0 then target else c in
          t <-- wid_get target ;;
          done <-- (if truth (on_event t) then call_event (on_event t) target e else ret false) ;;
          if done then ret true
          else
            t <-- wid_get target ;;
            event_loop fuel' (u_next t) e
        else event_loop fuel' (u_next t) e
  end.
Definition ui_post_event (fuel : nat) (event : option ui_event_t) : M ui bool :=
  match event with
  | None => ret false
  | Some e => s <-- get ;; event_loop fuel (root_widget s) e
  end.

(** [if (focused_widget && focused_widget->on_focus) focused_widget->on_focus(focused_widget, gained);] *)
Definition tell_focus (gained : bool) : M ui unit :=
  s <-- get ;;
  if truth (focused_widget s) then
    w <-- wid_get (focused_widget s) ;;
    if truth (on_focus w) then call_focus (on_focus w) (focused_widget s) gained else ret tt
  else ret tt.
Definition ui_set_focus (widget : Z) : M ui unit :=
  s <-- get ;;
  if focused_widget s =? widget then ret tt
  else
    tell_focus false ;;;
    modify (set_ui_focus widget) ;;;
    tell_focus true ;;;
    modify (set_ui_dirty true).
End widget_code.

(** ** The shape of the tree *)

(** [l] are siblings under [p], in the order of their links, after [v] and before [n]. *)
Fixpoint linked (t : gmap Z ui_widget_t) (p v : Z) (l : list Z) (n : Z) : Prop :=
  match l with
  | [] => True
  | c :: r => (exists w, t !! c = Some w /\ u_parent w = p /\ u_prev w = v /\ u_next w = hd n r) /\ linked t p c r n
  end.

(** The widgets from [a] up to its root. *)
Inductive path (t : gmap Z ui_widget_t) : Z -> list Z -> Prop :=
  | path_root : path t 0 []
  | path_step a w l : a <> 0 -> t !! a = Some w -> path t (u_parent w) l -> path t a (a :: l).

(** [x] is [a] or a widget below it. *)
Inductive below (t : gmap Z ui_widget_t) (a : Z) : Z -> Prop :=
  | below_self : is_Some (t !! a) -> below t a a
  | below_step x w : t !! x = Some w -> below t a (u_parent w) -> below t a x.

(** A widget without its links. *)
Definition core : ui_widget_t -> ui_widget_t := w_links 0 0 0 0.

Section shape.
Implicit Types t : gmap Z ui_widget_t.

Lemma linked_app t p v l1 l2 n : linked t p v (l1 ++ l2) n <-> linked t p v l1 (hd n l2) /\ linked t p (List.last l1 v) l2 n.
Proof.
  revert v. induction l1 as [|c l1 IH]; intros v; [cbn; tauto|]. cbn [app linked]. rewrite IH.
  replace (hd n (l1 ++ l2)) with (hd (hd n l2) l1) by (by destruct l1).
  replace (List.last (c :: l1) v) with (List.last l1 c).
  { tauto. }
  clear. revert c v. induction l1 as [|d l1 IH]; intros c v; [done|]. cbn [List.last] in *. destruct l1; [done|]. apply IH.
Qed.

Lemma linked_ext t t' p v l n :
  (forall c w, c ∈ l -> t !! c = Some w -> exists w', t' !! c = Some w' /\ u_parent w' = u_parent w /\ u_prev w' = u_prev w /\ u_next w' = u_next w) ->
  linked t p v l n -> linked t' p v l n.
Proof.
  revert v. induction l as [|c l IH]; intros v Hs; [done|]. cbn [linked]. intros [(w & E & E1 & E2 & E3) Hl].
  destruct (Hs c w ltac:(set_solver) E) as (w' & E' & E1' & E2' & E3'). split; [exists w'; by rewrite E1', E2', E3'|].
  apply IH; [|done]. intros. apply (Hs c0); [set_solver|done].
Qed.

Lemma linked_lookup t p v l n c : linked t p v l n -> c ∈ l -> exists w, t !! c = Some w /\ u_parent w = p.
Proof.
  revert v. induction l as [|d l IH]; intros v; [set_solver|]. cbn [linked]. intros [(w & E & E1 & _) Hl] [->|Hc]%elem_of_cons; eauto.
Qed.

(** Another first neighbour, or another last one. *)
Lemma linked_start t p v v' l n w c r :
  l = c :: r -> c ∉ r -> t !! c = Some w -> linked t p v l n -> linked (<[c := w_prev v' w]> t) p v' l n.
Proof.
  intros -> Hc Ew [(w1 & E1 & Hp & Hv & Hn) Hl]. assert (w1 = w) as -> by congruence. split.
  - exists (w_prev v' w). by rewrite lookup_insert_eq.
  - eapply linked_ext; [|exact Hl]. intros d wd Hd Ed. exists wd. by rewrite lookup_insert_ne by set_solver.
Qed.

Lemma linked_end t p v l n n' w c :
  c ∉ l -> t !! c = Some w -> linked t p v (l ++ [c]) n -> linked (<[c := w_next n' w]> t) p v (l ++ [c]) n'.
Proof.
  intros Hc Ew. rewrite !linked_app. intros [H1 [(w1 & E1 & Hp & Hv & Hn) _]]. assert (w1 = w) as -> by congruence. split.
  - eapply linked_ext; [|exact H1]. intros d wd Hd Ed. exists wd. by rewrite lookup_insert_ne by set_solver.
  - split; [|done]. exists (w_next n' w). by rewrite lookup_insert_eq.
Qed.

Lemma path_nz t a l : path t a l -> a <> 0 -> exists w r, t !! a = Some w /\ l = a :: r /\ path t (u_parent w) r.
Proof. intros [|b w r Hb Ew Hr]; [done|]. by exists w, r. Qed.

Lemma path_ext t t' a l :
  (forall x w, x ∈ l -> t !! x = Some w -> exists w', t' !! x = Some w' /\ u_parent w' = u_parent w) -> path t a l -> path t' a l.
Proof.
  intros Hs Hp. induction Hp as [|a w l Ha Ew Hp IH]; [constructor|].
  destruct (Hs a w ltac:(set_solver) Ew) as (w' & E' & Epar). apply path_step with w'; [done|done|]. rewrite Epar. apply IH.
  intros x wx Hx. apply Hs. set_solver.
Qed.

(** Giving [c] another parent leaves every path finite. *)
Lemma path_graft t t' c q r x l :
  (forall y w, t !! y = Some w -> exists w', t' !! y = Some w' /\ u_parent w' = if decide (y = c) then q else u_parent w) ->
  path t' q r -> path t x l -> exists l', path t' x l'.
Proof.
  intros Hs Hq Hp. induction Hp as [|a w l Ha Ew Hp (l' & IH)]; [exists []; constructor|].
  destruct (Hs a w Ew) as (w' & E' & Epar). case_decide.
  - exists (a :: r). apply path_step with w'; [done|done|by rewrite Epar].
  - exists (a :: l'). apply path_step with w'; [done|done|by rewrite Epar].
Qed.

Lemma below_is_Some t a x : below t a x -> is_Some (t !! x).
Proof. intros [?|x' w E _]; [done|by eexists]. Qed.

Lemma below_ext t t' a x :
  (forall y w, t !! y = Some w -> exists w', t' !! y = Some w' /\ (y = a \/ u_parent w' = u_parent w)) -> below t a x -> below t' a x.
Proof.
  intros Hs Hb. induction Hb as [[w Hw]|x w Ex Hb IH].
  - destruct (Hs a w Hw) as (w' & E' & _). apply below_self. by eexists.
  - destruct (Hs x w Ex) as (w' & E' & [->|Ep]); [apply below_self; by eexists|]. apply below_step with w'; [done|by rewrite Ep].
Qed.

(** What is below [a] is [a] or below one of its children. *)
Lemma below_kid t a x : below t a x -> x = a \/ exists k w, t !! k = Some w /\ u_parent w = a /\ below t k x.
Proof.
  induction 1 as [_|x w Ex Hb IH]; [by left|]. right. destruct IH as [E|(k & wk & Ek & Hk & Hbk)].
  - exists x, w. split; [done|]. split; [done|]. apply below_self. by eexists.
  - exists k, wk. split; [done|]. split; [done|]. by apply below_step with w.
Qed.
End shape.

Section tree.
Context {H D : Type} `{!Allocator H}.
Local Abbreviation ui := (ui H D).
Implicit Types (s : ui) (K : gmap Z (list Z)) (l : list Z).

(** The widgets form a forest; [K] gives the children of each, the newest first. *)
Record tree_inv s K : Prop := {
  ti_dom : forall a, is_Some (K !! a) <-> is_Some (widgets s !! a);
  ti_nz : K !! 0 = None;
  ti_live : forall a, is_Some (K !! a) -> a ∈ live (ui_alloc s);
  ti_kids : forall p l, K !! p = Some l ->
    NoDup l /\ linked (widgets s) p 0 l 0 /\ exists w, widgets s !! p = Some w /\ u_children w = hd 0 l;
  ti_up : forall c w, widgets s !! c = Some w ->
    if decide (u_parent w = 0) then u_next w = 0 /\ u_prev w = 0 else exists l, K !! u_parent w = Some l /\ c ∈ l;
  ti_path : forall c, is_Some (K !! c) -> exists l, path (widgets s) c l
}.

(** [s'] has the links of some widgets changed and nothing else. *)
Definition relinked s s' : Prop :=
  ui_alloc s' = ui_alloc s /\ root_widget s' = root_widget s /\ focused_widget s' = focused_widget s /\
  ui_dirty_flag s' = ui_dirty_flag s /\ ui_screen s' = ui_screen s /\
  forall x, core <$> (widgets s' !! x) = core <$> (widgets s !! x).

Lemma wid_get_run s a w : widgets s !! a = Some w -> wid_get a s = Ret w s.
Proof. intros E. unfold wid_get. by rewrite bind_get, E. Qed.
Lemma wid_upd_run s a w f : widgets s !! a = Some w -> wid_upd a f s = Ret tt (set_widgets (<[a := f w]> (widgets s)) s).
Proof. intros E. unfold wid_upd. by rewrite (bind_Ret _ _ _ _ _ (wid_get_run s a w E)). Qed.

Lemma get_at t s a w : t !! a = Some w -> wid_get a (set_widgets t s) = Ret w (set_widgets t s).
Proof. exact (wid_get_run (set_widgets t s) a w). Qed.
Lemma upd_at t s a w f : t !! a = Some w -> wid_upd a f (set_widgets t s) = Ret tt (set_widgets (<[a := f w]> t) s).
Proof. exact (wid_upd_run (set_widgets t s) a w f). Qed.

Lemma wid_upd3_run s a w f g h :
  widgets s !! a = Some w ->
  (wid_upd a f ;;; wid_upd a g ;;; wid_upd a h) s = Ret tt (set_widgets (<[a := h (g (f w))]> (widgets s)) s).
Proof.
  intros E. rewrite (bind_Ret _ _ _ _ _ (wid_upd_run s a w f E)), (bind_Ret _ _ _ _ _ (upd_at _ s a _ g (lookup_insert_eq _ _ _))).
  rewrite insert_insert_eq, (upd_at _ s a _ h (lookup_insert_eq _ _ _)). by rewrite insert_insert_eq.
Qed.

(** A child is in the list of its parent only, and is not its own parent. *)
Lemma kid_parent s K p l c : tree_inv s K -> K !! p = Some l -> c ∈ l -> c <> 0 /\ c <> p /\ exists w, widgets s !! c = Some w /\ u_parent w = p.
Proof.
  intros Hi Ep Hc. destruct (ti_kids _ _ Hi p l Ep) as (_ & Hl & _). destruct (linked_lookup _ _ _ _ _ c Hl Hc) as (w & Ew & Hp).
  assert (c <> 0) as Hnz. { intros ->. pose proof (proj2 (ti_dom _ _ Hi 0) ltac:(by eexists)) as [? E]. by rewrite (ti_nz _ _ Hi) in E. }
  split; [done|]. split; [|by exists w]. intros ->. destruct (ti_path _ _ Hi p ltac:(by eexists)) as (r & Hr).
  assert (forall r a, path (widgets s) a r -> a = p -> False) as Hno; [|by eapply Hno].
  clear -Ew Hp Hnz. induction r as [|b r IH]; intros a Ha; inversion Ha; subst; [done|]. intros ->.
  simplify_eq. eapply IH; [eassumption|done].
Qed.

Lemma kid_once s K p q l k c : tree_inv s K -> K !! p = Some l -> K !! q = Some k -> c ∈ l -> c ∈ k -> p = q.
Proof.
  intros Hi Ep Eq Hc Hk. destruct (kid_parent s K p l c Hi Ep Hc) as (_ & _ & w & Ew & Hw).
  destruct (kid_parent s K q k c Hi Eq Hk) as (_ & _ & w' & Ew' & Hw'). congruence.
Qed.

(** What [ui_remove_child] does to the widget at [x]. *)
Definition unlinked (p : Z) l1 (c : Z) l2 (x : Z) w : ui_widget_t :=
  if decide (x = c) then w_links 0 (u_children w) 0 0 w
  else if decide (x = p) then (if decide (l1 = []) then w_children (hd 0 l2) w else w)
  else if decide (l1 <> [] /\ x = List.last l1 0) then w_next (hd 0 l2) w
  else if decide (l2 <> [] /\ x = hd 0 l2) then w_prev (List.last l1 0) w
  else w.

Lemma last_elem l d : l <> [] -> List.last l d ∈ l.
Proof. intros Hl. apply list_elem_of_In. destruct (exists_last Hl) as (r & x & ->). rewrite last_last. apply in_or_app. right. by left. Qed.
Lemma hd_elem l d : l <> [] -> hd d l ∈ l.
Proof. destruct l; [done|]. set_solver. Qed.

Ltac dec := cbn [fmap option_fmap option_map]; repeat case_decide; try done; first [congruence | naive_solver].

Lemma remove_links s K p l1 c l2 :
  tree_inv s K -> K !! p = Some (l1 ++ c :: l2) ->
  exists t', ui_remove_child p c s = Ret tt (set_widgets t' s) /\ forall x, t' !! x = unlinked p l1 c l2 x <$> (widgets s !! x).
Proof.
  intros Hi Ep. pose proof Hi as [_ Hnz _ Hk _ _]. destruct (Hk p _ Ep) as (Hnd & Hl & pw & Epw & Hpc).
  apply linked_app in Hl as [Hl1 [(cw & Ecw & Hpar & Hprev & Hnext) Hl2]].
  destruct (kid_parent s K p _ c Hi Ep ltac:(set_solver)) as (Hc0 & Hcp & _).
  assert (p <> 0) as Hp0 by (intros ->; congruence).
  apply NoDup_app in Hnd as (Hnd1 & Hdis & Hnd2). apply NoDup_cons in Hnd2 as [Hcl2 Hnd2].
  unfold ui_remove_child. destruct (Z.eqb_spec p 0), (Z.eqb_spec c 0); try done. cbn [orb].
  rewrite (bind_Ret _ _ _ _ _ (wid_get_run s c cw Ecw)). rewrite Hpar, Z.eqb_refl. cbn [negb]. rewrite Hprev, Hnext.
  (* the neighbour before *)
  assert (exists t1, (if truth (List.last l1 0) then wid_upd (List.last l1 0) (w_next (hd 0 l2)) else wid_upd p (w_children (hd 0 l2))) s =
    Ret tt (set_widgets t1 s) /\ forall x, t1 !! x = (λ w, if decide (l1 = []) then if decide (x = p) then w_children (hd 0 l2) w else w
                                              else if decide (x = List.last l1 0) then w_next (hd 0 l2) w else w) <$> (widgets s !! x)) as (t1 & E1 & H1).
  { destruct (decide (l1 = [])) as [->|Hne].
    - cbn [List.last]. eexists. split; [by apply wid_upd_run|]. intros x. rewrite lookup_insert.
      destruct (decide (p = x)) as [<-|Hx]; [rewrite Epw; cbn; dec|].
      destruct (widgets s !! x); [cbn|done]. dec.
    - pose proof (last_elem l1 0 Hne) as Hin. destruct (kid_parent s K p _ (List.last l1 0) Hi Ep ltac:(set_solver)) as (Hd0 & _ & dw & Edw & _).
      unfold truth. destruct (Z.eqb_spec (List.last l1 0) 0); [done|]. cbn [negb]. eexists. split; [by apply wid_upd_run|]. intros x. rewrite lookup_insert.
      destruct (decide (List.last l1 0 = x)) as [<-|Hx]; [rewrite Edw; cbn; dec|].
      destruct (widgets s !! x); [cbn|done]. dec. }
  rewrite (bind_Ret _ _ _ _ _ E1).
  assert (List.last l1 0 <> c) as Hdc.
  { destruct (decide (l1 = [])) as [->|Hne]; [by intros <-|]. intros E. apply (Hdis c); [rewrite <- E; by apply last_elem|set_solver]. }
  assert (t1 !! c = Some cw) as Ecw1.
  { rewrite H1, Ecw. cbn. destruct (decide (l1 = [])), (decide (c = p)), (decide (c = List.last l1 0)); congruence. }
  rewrite (bind_Ret _ _ _ _ _ (wid_get_run (set_widgets t1 s) c cw Ecw1)). rewrite Hprev, Hnext.
  (* the neighbour behind *)
  assert (exists t2, (if truth (hd 0 l2) then wid_upd (hd 0 l2) (w_prev (List.last l1 0)) else ret tt) (set_widgets t1 s) =
    Ret tt (set_widgets t2 s) /\ forall x, t2 !! x = (λ w, if decide (l2 <> [] /\ x = hd 0 l2) then w_prev (List.last l1 0) w else w) <$> (t1 !! x)) as (t2 & E2 & H2).
  { destruct (decide (l2 = [])) as [->|Hne].
    - exists t1. split; [done|]. intros x. destruct (t1 !! x); [cbn|done]. dec.
    - pose proof (hd_elem l2 0 Hne) as Hin. destruct (kid_parent s K p _ (hd 0 l2) Hi Ep ltac:(set_solver)) as (Hd0 & _ & dw & Edw & _).
      unfold truth. destruct (Z.eqb_spec (hd 0 l2) 0); [done|]. cbn [negb].
      assert (is_Some (t1 !! hd 0 l2)) as [dw1 Edw1] by (rewrite H1, Edw; by eexists).
      eexists. split; [by apply (wid_upd_run (set_widgets t1 s))|]. intros x. cbn [widgets set_widgets]. rewrite lookup_insert.
      destruct (decide (hd 0 l2 = x)) as [<-|Hx]; [rewrite Edw1; cbn; dec|].
      destruct (t1 !! x); [cbn|done]. dec. }
  rewrite (bind_Ret _ _ _ _ _ E2).
  assert (t2 !! c = Some cw) as Ecw2.
  { rewrite H2, Ecw1. cbn. rewrite decide_False; [done|]. intros [Hne E]. apply Hcl2. rewrite E. by apply hd_elem. }
  rewrite (wid_upd3_run (set_widgets t2 s) c cw _ _ _ Ecw2).
  eexists. split; [reflexivity|]. intros x. cbn [widgets set_widgets]. rewrite lookup_insert. unfold unlinked. destruct (decide (c = x)) as [<-|Hx].
  - rewrite Ecw. cbn [fmap option_fmap option_map]. dec.
  - rewrite H2, H1. destruct (widgets s !! x) as [w|] eqn:Ew; [|done]. cbn [fmap option_fmap option_map].
    assert (p ∉ l1 ++ l2) as Hpl.
    { intros Hin. destruct (kid_parent s K p _ p Hi Ep ltac:(set_solver)) as (_ & Hpp & _). done. }
    pose proof (last_elem l1 0) as Hla. pose proof (hd_elem l2 0) as Hhd. f_equal. rewrite (decide_False (P := x = c)) by congruence.
    destruct (decide (x = p)) as [->|Hxp].
    + rewrite (decide_False (P := l2 <> [] /\ p = hd 0 l2)) by (intros [? E]; apply Hpl; rewrite E; set_solver).
      destruct (decide (l1 = [])); [done|]. rewrite decide_False; [done|]. intros E. apply Hpl. rewrite E. set_solver.
    + destruct (decide (l1 = [])) as [Hnil|Hne].
      * rewrite (decide_False (P := l1 <> [] /\ x = List.last l1 0)) by naive_solver. done.
      * destruct (decide (x = List.last l1 0)) as [Ex|Hxl].
        -- rewrite (decide_True (P := l1 <> [] /\ x = List.last l1 0)) by done. rewrite decide_False; [done|].
           intros [Hne2 Ex2]. apply (Hdis x); [rewrite Ex; auto|]. rewrite Ex2. set_solver.
        -- rewrite (decide_False (P := l1 <> [] /\ x = List.last l1 0)) by naive_solver. done.
Qed.

Lemma unlinked_parent p l1 c l2 x w : u_parent (unlinked p l1 c l2 x w) = if decide (x = c) then 0 else u_parent w.
Proof. unfold unlinked. by repeat case_decide. Qed.
Lemma unlinked_core p l1 c l2 x w : core (unlinked p l1 c l2 x w) = core w.
Proof. unfold unlinked. by repeat case_decide. Qed.
Lemma unlinked_children p l1 c l2 x w :
  c <> p -> u_children (unlinked p l1 c l2 x w) = if decide (x = p /\ l1 = []) then hd 0 l2 else u_children w.
Proof. intros Hcp. unfold unlinked. repeat case_decide; try done; naive_solver. Qed.

(** The widgets that are not neighbours of [c] keep their links. *)
Lemma unlinked_other p l1 c l2 x w :
  x <> c -> x ∉ l1 ++ l2 ->
  u_parent (unlinked p l1 c l2 x w) = u_parent w /\ u_prev (unlinked p l1 c l2 x w) = u_prev w /\ u_next (unlinked p l1 c l2 x w) = u_next w.
Proof.
  intros Hx Hn. unfold unlinked. repeat case_decide; try done.
  - match goal with Hd : _ <> [] /\ _ |- _ => destruct Hd as [Hne ->] end. destruct Hn. apply elem_of_app. left. by apply last_elem.
  - match goal with Hd : _ <> [] /\ _ |- _ => destruct Hd as [Hne ->] end. destruct Hn. apply elem_of_app. right. by apply hd_elem.
Qed.

Lemma unlinked_list t t' p l1 c l2 :
  (forall x, t' !! x = unlinked p l1 c l2 x <$> (t !! x)) -> NoDup (l1 ++ c :: l2) -> p ∉ l1 ++ c :: l2 ->
  linked t p 0 (l1 ++ c :: l2) 0 -> linked t' p 0 (l1 ++ l2) 0.
Proof.
  intros Ht Hnd Hp. rewrite !linked_app. intros [Hl1 [_ Hl2]]. apply NoDup_app in Hnd as (Hnd1 & Hdis & Hnd2).
  apply NoDup_cons in Hnd2 as [Hcl2 Hnd2].
  assert (forall x w, x ∈ l1 -> unlinked p l1 c l2 x w = if decide (x = List.last l1 0) then w_next (hd 0 l2) w else w) as H1.
  { intros x w Hx. unfold unlinked. rewrite decide_False by (intros ->; set_solver). rewrite decide_False by (intros ->; set_solver).
    destruct (decide (x = List.last l1 0)) as [E|E]; [rewrite decide_True; [done|split; [by intros ->; set_solver|done]]|].
    rewrite decide_False by naive_solver. rewrite decide_False; [done|]. intros [Hne ->]. pose proof (hd_elem l2 0 Hne). set_solver. }
  assert (forall x w, x ∈ l2 -> unlinked p l1 c l2 x w = if decide (x = hd 0 l2) then w_prev (List.last l1 0) w else w) as H2.
  { intros x w Hx. unfold unlinked. rewrite decide_False by (intros ->; done). rewrite decide_False by (intros ->; set_solver).
    rewrite decide_False. 2: { intros [Hne ->]. pose proof (last_elem l1 0 Hne). set_solver. }
    destruct (decide (x = hd 0 l2)); [rewrite decide_True; [done|split; [by intros ->; set_solver|done]]|]. by rewrite decide_False by naive_solver. }
  split.
  - destruct (decide (l1 = [])) as [->|Hne]; [done|]. destruct (exists_last Hne) as (r & d & ->). rewrite last_last in H1.
    apply NoDup_app in Hnd1 as (_ & Hrd & _). assert (d ∉ r) as Hdr by (intros Hd; apply (Hrd d Hd); set_solver).
    destruct (linked_lookup _ _ _ _ _ d Hl1 ltac:(set_solver)) as (dw & Edw & _).
    eapply linked_ext; [|exact (linked_end _ _ _ _ _ (hd 0 l2) _ _ Hdr Edw Hl1)]. intros x w Hx. rewrite lookup_insert, Ht.
    destruct (decide (d = x)) as [<-|Hdx].
    + intros [= <-]. rewrite Edw. cbn [fmap option_fmap option_map]. rewrite H1, decide_True by done. by eexists.
    + intros ->. cbn [fmap option_fmap option_map]. rewrite H1, decide_False by done. by eexists.
  - destruct l2 as [|d r]; [done|]. cbn [hd] in *. apply NoDup_cons in Hnd2 as [Hdr Hnd2].
    destruct (linked_lookup _ _ _ _ _ d Hl2 ltac:(set_solver)) as (dw & Edw & _).
    eapply linked_ext; [|exact (linked_start _ _ _ (List.last l1 0) _ _ _ _ _ eq_refl Hdr Edw Hl2)]. intros x w Hx. rewrite lookup_insert, Ht.
    destruct (decide (d = x)) as [<-|Hdx].
    + intros [= <-]. rewrite Edw. cbn [fmap option_fmap option_map]. rewrite H2, decide_True by done. by eexists.
    + intros ->. cbn [fmap option_fmap option_map]. rewrite H2, decide_False by done. by eexists.
Qed.

(** The parent of [c] becomes [q], those of the others stay. *)
Definition reparented (c q : Z) s s' : Prop :=
  forall x w, widgets s !! x = Some w -> exists w', widgets s' !! x = Some w' /\ u_parent w' = if decide (x = c) then q else u_parent w.

(** [ui_remove_child] takes the child out of the list, whatever its place. *)
Lemma remove_run s K p l1 c l2 :
  tree_inv s K -> K !! p = Some (l1 ++ c :: l2) ->
  exists s', ui_remove_child p c s = Ret tt s' /\ tree_inv s' (<[p := l1 ++ l2]> K) /\ relinked s s' /\ reparented c 0 s s'.
Proof.
  intros Hi Ep. destruct (remove_links s K p l1 c l2 Hi Ep) as (t' & E & Ht). exists (set_widgets t' s). split; [exact E|].
  destruct (kid_parent s K p _ c Hi Ep ltac:(set_solver)) as (Hc0 & Hcp & _).
  pose proof (λ q k Hq x Hx Hk, kid_once s K p q _ k x Hi Ep Hq Hx Hk) as Honce.
  destruct (ti_kids _ _ Hi p _ Ep) as (Hnd & Hl & pw & Epw & Hpc).
  assert (p ∉ l1 ++ c :: l2) as Hpl by (intros Hin; destruct (kid_parent s K p _ p Hi Ep Hin) as (_ & ? & _); done).
  assert (reparented c 0 s (set_widgets t' s)) as Hre.
  { intros x w Ew. eexists. cbn [widgets set_widgets]. rewrite Ht, Ew. split; [reflexivity|]. apply unlinked_parent. }
  split; [|split; [|exact Hre]].
  2: { do 5 (split; [done|]). intros x. cbn [widgets set_widgets]. rewrite Ht. destruct (widgets s !! x); [|done]. cbn. f_equal. apply unlinked_core. }
  destruct Hi as [Hd Hnz Hlv Hk Hu Hpth]. split; cbn [widgets set_widgets ui_alloc].
  - intros a. rewrite Ht, fmap_is_Some, <- Hd, lookup_insert_is_Some. destruct (decide (p = a)) as [<-|]; [|naive_solver].
    split; [by eexists|]. by left.
  - rewrite lookup_insert_ne; [done|]. intros ->. congruence.
  - intros a Ha. apply Hlv. apply lookup_insert_is_Some in Ha as [<-|[_ Ha]]; [by eexists|done].
  - intros q k. rewrite lookup_insert. destruct (decide (p = q)) as [<-|Hpq].
    + intros [= <-]. split; [|split; [by eapply unlinked_list|]].
      * apply NoDup_app in Hnd as (? & ? & [? ?]%NoDup_cons). apply NoDup_app. set_solver.
      * eexists. rewrite Ht, Epw. split; [reflexivity|]. rewrite unlinked_children by done. destruct l1; [by rewrite decide_True|].
        rewrite decide_False by naive_solver. by rewrite Hpc.
    + intros Eq. destruct (Hk q k Eq) as (Hndk & Hlk & qw & Eqw & Hqc). split; [done|]. split.
      * eapply linked_ext; [|exact Hlk]. intros x w Hx Ew. rewrite Ht, Ew. eexists. split; [reflexivity|].
        assert (x ∉ l1 ++ c :: l2) as Hn by (intros Hin; destruct Hpq; by apply (Honce q k Eq x)).
        apply unlinked_other; set_solver.
      * eexists. rewrite Ht, Eqw. split; [reflexivity|]. rewrite unlinked_children by done. by rewrite decide_False by naive_solver.
  - intros x w'. rewrite Ht. destruct (widgets s !! x) as [w|] eqn:Ew; [|done]. intros [= <-]. rewrite unlinked_parent.
    destruct (decide (x = c)) as [->|Hxc]; [rewrite decide_True by done; unfold unlinked; by rewrite decide_True by done|].
    specialize (Hu x w Ew). destruct (decide (u_parent w = 0)) as [Hp0|Hp0].
    + destruct (unlinked_other p l1 c l2 x w Hxc) as (_ & -> & ->); [|done]. intros Hin.
      destruct (linked_lookup _ _ _ _ _ x Hl ltac:(set_solver)) as (w1 & Ew1 & Hw1). congruence.
    + destruct Hu as (k & Ek & Hxk). destruct (decide (p = u_parent w)) as [Epw'|Hne].
      * exists (l1 ++ l2). rewrite <- Epw', lookup_insert_eq. split; [done|]. rewrite <- Epw', Ep in Ek. injection Ek as <-. set_solver.
      * exists k. by rewrite lookup_insert_ne by done.
  - intros a Ha. assert (is_Some (K !! a)) as Ha' by (apply lookup_insert_is_Some in Ha as [<-|[_ Ha]]; [by eexists|done]).
    destruct (Hpth a Ha') as (r & Hr). eapply path_graft; [|apply path_root|exact Hr]. exact Hre.
Qed.

(** ** Adding a child *)

Definition added (p : Z) l (c : Z) (x : Z) w : ui_widget_t :=
  if decide (x = c) then w_links p (u_children w) (hd 0 l) 0 w
  else if decide (x = p) then w_children c w
  else if decide (l <> [] /\ x = hd 0 l) then w_prev c w
  else w.

(** The bounds [b] moved by the corners of the widgets [r]. *)
Definition shifted_bounds (t : gmap Z ui_widget_t) (r : list Z) (b : ui_rect_t) : ui_rect_t :=
  foldl (λ b a, match t !! a with Some v => rect_shift b (u_bounds v) | None => b end) b r.

Lemma shifted_ext t t' r b : (forall x, x ∈ r -> u_bounds <$> (t' !! x) = u_bounds <$> (t !! x)) -> shifted_bounds t' r b = shifted_bounds t r b.
Proof.
  revert b. induction r as [|x r IH]; intros b Hx; [done|]. unfold shifted_bounds in *. cbn [foldl]. specialize (Hx x ltac:(set_solver)) as Hx0.
  destruct (t' !! x) as [v'|], (t !! x) as [v|]; try done; cbn in Hx0; [injection Hx0 as ->|]; apply IH; set_solver.
Qed.

Lemma ancestor_run fuel t s c a r w :
  path t a r -> c ∉ r -> t !! c = Some w -> (length r < fuel)%nat ->
  ancestor_loop fuel c a (set_widgets t s) = Ret tt (set_widgets (<[c := w_bounds_at (shifted_bounds t r (absolute_bounds w)) w]> t) s).
Proof.
  revert fuel t a w. induction r as [|b r IH]; intros fuel t a w Hp Hcr Ew Hf; (destruct fuel as [|fuel]; [cbn in Hf; lia|]).
  - inversion Hp; subst. cbn [ancestor_loop]. assert (w_bounds_at (absolute_bounds w) w = w) as Hw by by destruct w.
    cbn. by rewrite Hw, insert_id by done.
  - apply not_elem_of_cons in Hcr as [Hcb Hcr]. inversion Hp as [|? v ? Ha Ev Hp']; subst. cbn [ancestor_loop].
    destruct (Z.eqb_spec b 0); [done|]. rewrite (bind_Ret _ _ _ _ _ (get_at t s b v Ev)), (bind_Ret _ _ _ _ _ (upd_at t s c w _ Ew)).
    set (t1 := <[c := _]> t). assert (forall x, x <> c -> t1 !! x = t !! x) as Hsame by (intros x Hx; unfold t1; by rewrite lookup_insert_ne by done).
    assert (t1 !! b = Some v) as Ev1 by by rewrite Hsame. rewrite (bind_Ret _ _ _ _ _ (get_at t1 s b v Ev1)).
    rewrite (IH fuel t1 (u_parent v) (w_bounds_at (rect_shift (absolute_bounds w) (u_bounds v)) w)); [| |done|by apply lookup_insert_eq|cbn in Hf; lia].
    2: { eapply path_ext; [|exact Hp']. intros x wx Hx Ex. exists wx. rewrite Hsame; [done|by intros ->]. }
    rewrite (shifted_ext t t1) by (intros x Hx; rewrite Hsame; [done|by intros ->]). unfold t1. rewrite insert_insert_eq.
    unfold shifted_bounds at 2. cbn [foldl]. by rewrite Ev.
Qed.

Lemma add_links s K p l c r cw fuel :
  tree_inv s K -> K !! p = Some l -> path (widgets s) p r -> c ∉ r -> c <> 0 -> widgets s !! c = Some cw -> u_parent cw = 0 ->
  (length r < fuel)%nat ->
  exists t', ui_add_child fuel p c s = Ret tt (set_widgets (<[c := w_bounds_at (shifted_bounds (widgets s) r (absolute_bounds cw)) (added p l c c cw)]> t') s) /\
    forall x, t' !! x = added p l c x <$> (widgets s !! x).
Proof.
  intros Hi Ep Hr Hcr Hc0 Ecw Hroot Hf. destruct (ti_kids _ _ Hi p l Ep) as (Hnd & Hl & pw & Epw & Hpc).
  assert (p <> 0) as Hp0 by (intros ->; pose proof (ti_nz _ _ Hi); congruence).
  destruct (path_nz _ _ _ Hr Hp0) as (pw' & r' & Epw' & Er & Hr'). assert (c <> p) as Hcp by (intros ->; apply Hcr; rewrite Er; set_solver).
  assert (c ∉ l) as Hcl. { intros Hin. destruct (kid_parent s K p l c Hi Ep Hin) as (_ & _ & w1 & Ew1 & Hw1). congruence. }
  assert (p ∉ l) as Hpl. { intros Hin. destruct (kid_parent s K p l p Hi Ep Hin) as (_ & Hpp & _). done. }
  unfold ui_add_child. destruct (Z.eqb_spec p 0), (Z.eqb_spec c 0); try done. cbn [orb].
  rewrite (bind_Ret _ _ _ _ _ (wid_upd_run s c cw _ Ecw)).
  rewrite (bind_Ret _ _ _ _ _ (get_at _ s p pw ltac:(by rewrite lookup_insert_ne))).
  rewrite (bind_Ret _ _ _ _ _ (upd_at _ s c _ _ (lookup_insert_eq _ _ _))), (bind_Ret _ _ _ _ _ (upd_at _ s c _ _ (lookup_insert_eq _ _ _))).
  rewrite !insert_insert_eq. set (cw1 := w_prev 0 _).
  rewrite (bind_Ret _ _ _ _ _ (get_at _ s p pw ltac:(by rewrite lookup_insert_ne))).
  assert (exists t2, (if truth (u_children pw) then wid_upd (u_children pw) (w_prev c) else ret tt) (set_widgets (<[c := cw1]> (widgets s)) s) = Ret tt (set_widgets t2 s) /\
    forall x, t2 !! x = if decide (x = c) then Some cw1 else (λ w, if decide (l <> [] /\ x = hd 0 l) then w_prev c w else w) <$> (widgets s !! x)) as (t2 & E2 & H2).
  { rewrite Hpc. destruct (decide (l = [])) as [->|Hne].
    - eexists. split; [reflexivity|]. intros x. rewrite lookup_insert. destruct (decide (c = x)) as [<-|]; [by rewrite decide_True|].
      rewrite decide_False by done. destruct (widgets s !! x); dec.
    - pose proof (hd_elem l 0 Hne) as Hin. destruct (kid_parent s K p l _ Hi Ep Hin) as (Hd0 & _ & dw & Edw & _).
      unfold truth. destruct (Z.eqb_spec (hd 0 l) 0); [done|]. cbn [negb]. assert (hd 0 l <> c) as Hdc by by intros E; rewrite E in Hin.
      eexists. split; [apply upd_at; rewrite lookup_insert_ne by done; exact Edw|]. intros x. rewrite !lookup_insert.
      destruct (decide (hd 0 l = x)) as [<-|Hx]; [rewrite decide_False, Edw by done; dec|].
      destruct (decide (c = x)) as [<-|]; [by rewrite decide_True|]. rewrite decide_False by done. destruct (widgets s !! x); dec. }
  rewrite (bind_Ret _ _ _ _ _ E2).
  assert (t2 !! p = Some pw) as Ep2.
  { rewrite H2, decide_False, Epw by done. cbn. rewrite decide_False; [done|]. intros [Hne E]. apply Hpl. rewrite E. by apply hd_elem. }
  rewrite (bind_Ret _ _ _ _ _ (upd_at t2 s p pw _ Ep2)). set (t3 := <[p := _]> t2).
  assert (forall x, t3 !! x = added p l c x <$> (widgets s !! x)) as H3.
  { intros x. unfold t3. rewrite lookup_insert. unfold added. destruct (decide (p = x)) as [<-|Hx].
    - rewrite Epw. dec.
    - rewrite H2. destruct (decide (x = c)) as [->|]; [rewrite Ecw; unfold cw1; by rewrite Hpc|].
      destruct (widgets s !! x); dec. }
  exists t3. split; [|exact H3]. rewrite (ancestor_run fuel t3 s c p r (added p l c c cw)); [| |done| |done].
  - rewrite (shifted_ext (widgets s) t3).
    2: { intros x _. rewrite H3. destruct (widgets s !! x); [|done]. cbn. f_equal. unfold added. by repeat case_decide. }
    do 3 f_equal. unfold added. by rewrite decide_True.
  - eapply path_ext; [|exact Hr]. intros x w Hx Ex. rewrite H3, Ex. eexists. split; [reflexivity|]. unfold added. by repeat case_decide; subst.
  - by rewrite H3, Ecw.
Qed.

Lemma added_parent p l c x w : u_parent (added p l c x w) = if decide (x = c) then p else u_parent w.
Proof. unfold added. by repeat case_decide. Qed.
Lemma added_core p l c x w : core (added p l c x w) = core w.
Proof. unfold added. by repeat case_decide. Qed.
Lemma added_children p l c x w : c <> p -> u_children (added p l c x w) = if decide (x = p) then c else u_children w.
Proof. intros Hcp. unfold added. repeat case_decide; try done; congruence. Qed.
Lemma added_other p l c x w :
  x <> c -> x ∉ l ->
  u_parent (added p l c x w) = u_parent w /\ u_prev (added p l c x w) = u_prev w /\ u_next (added p l c x w) = u_next w.
Proof.
  intros Hx Hn. unfold added. repeat case_decide; try done.
  match goal with Hd : _ <> [] /\ _ |- _ => destruct Hd as [Hne ->] end. destruct Hn. by apply hd_elem.
Qed.

Lemma added_list t t' p l c cw cw' :
  (forall x, x <> c -> t' !! x = added p l c x <$> (t !! x)) -> t !! c = Some cw -> t' !! c = Some cw' ->
  u_parent cw' = p -> u_prev cw' = 0 -> u_next cw' = hd 0 l ->
  c ∉ l -> p ∉ l -> NoDup l -> linked t p 0 l 0 -> linked t' p 0 (c :: l) 0.
Proof.
  intros Ht Ec Ec' H1 H2 H3 Hcl Hpl Hnd Hl. split; [by exists cw'|]. destruct l as [|d r]; [done|].
  apply NoDup_cons in Hnd as [Hdr Hnd]. destruct (linked_lookup _ _ _ _ _ d Hl ltac:(set_solver)) as (dw & Edw & _).
  eapply linked_ext; [|exact (linked_start _ _ _ c _ _ _ _ _ eq_refl Hdr Edw Hl)]. intros x w Hx. rewrite lookup_insert.
  assert (x <> c) as Hxc by (intros ->; done). assert (x <> p) as Hxp by (intros ->; done).
  assert (forall v, added p (d :: r) c x v = if decide (x = d) then w_prev c v else v) as Hadd.
  { intros v. unfold added. rewrite (decide_False (P := x = c)), (decide_False (P := x = p)) by done. cbn [hd]. dec. }
  rewrite Ht by done. destruct (decide (d = x)) as [<-|Hdx].
  - intros [= <-]. rewrite Edw. cbn [fmap option_fmap option_map]. rewrite Hadd, decide_True by done. by eexists.
  - intros ->. cbn [fmap option_fmap option_map]. rewrite Hadd, decide_False by done. by eexists.
Qed.

(** [ui_add_child] puts a widget without a parent in front of the children of [p], which is
    not below it, and moves its absolute bounds by the corners of all its ancestors. *)
Lemma add_run s K p l c r cw fuel :
  tree_inv s K -> K !! p = Some l -> path (widgets s) p r -> c ∉ r -> c <> 0 -> widgets s !! c = Some cw -> u_parent cw = 0 ->
  (length r < fuel)%nat ->
  exists t', ui_add_child fuel p c s = Ret tt (set_widgets t' s) /\ tree_inv (set_widgets t' s) (<[p := c :: l]> K) /\
    reparented c p s (set_widgets t' s) /\
    forall x, core <$> (t' !! x) = core <$> (if decide (x = c) then Some (w_bounds_at (shifted_bounds (widgets s) r (absolute_bounds cw)) cw) else widgets s !! x).
Proof.
  intros Hi Ep Hr Hcr Hc0 Ecw Hroot Hf. destruct (add_links s K p l c r cw fuel) as (t & E & Ht); [done..|].
  set (cw' := w_bounds_at _ _) in E. exists (<[c := cw']> t). split; [exact E|].
  assert (cw' = w_bounds_at (shifted_bounds (widgets s) r (absolute_bounds cw)) (w_links p (u_children cw) (hd 0 l) 0 cw)) as Ecw'.
  { unfold cw', added. by rewrite decide_True. }
  clearbody cw'. assert (forall x, x <> c -> <[c := cw']> t !! x = added p l c x <$> (widgets s !! x)) as Hx.
  { intros x Hxc. by rewrite lookup_insert_ne, Ht by done. }
  assert (<[c := cw']> t !! c = Some cw') as Hc by apply lookup_insert_eq.
  revert Hx Hc. generalize (<[c := cw']> t). clear t E Ht. intros t' Hx Hc.
  destruct (ti_kids _ _ Hi p l Ep) as (Hnd & Hl & pw & Epw & Hpc).
  assert (p <> 0) as Hp0 by (intros ->; pose proof (ti_nz _ _ Hi); congruence).
  destruct (path_nz _ _ _ Hr Hp0) as (pw' & r' & Epw' & Er & Hr'). assert (c <> p) as Hcp by (intros ->; apply Hcr; rewrite Er; set_solver).
  assert (c ∉ l) as Hcl. { intros Hin. destruct (kid_parent s K p l c Hi Ep Hin) as (_ & _ & w1 & Ew1 & Hw1). congruence. }
  assert (p ∉ l) as Hpl. { intros Hin. destruct (kid_parent s K p l p Hi Ep Hin) as (_ & Hpp & _). done. }
  assert (reparented c p s (set_widgets t' s)) as Hre.
  { intros x w Ew. cbn [widgets set_widgets]. destruct (decide (x = c)) as [->|Hxc]; [exists cw'; split; [done|by rewrite Ecw']|].
    eexists. rewrite Hx, Ew by done. split; [reflexivity|]. rewrite added_parent. by rewrite decide_False. }
  split; [|split; [exact Hre|]].
  2: { intros x. destruct (decide (x = c)) as [->|Hxc]; [rewrite Hc; cbn; by rewrite Ecw'|]. rewrite Hx by done.
    destruct (widgets s !! x); [|done]. cbn. f_equal. apply added_core. }
  assert (forall q k x, K !! q = Some k -> q <> p -> x ∈ k -> x <> c /\ x ∉ l) as Hother.
  { intros q k x Eq Hqp Hxk. destruct (kid_parent s K q k x Hi Eq Hxk) as (_ & _ & xw & Exw & Hxw). split.
    - intros ->. assert (xw = cw) as -> by congruence. pose proof (ti_nz _ _ Hi). congruence.
    - intros Hin. apply Hqp. by apply (kid_once s K q p k l x). }
  pose proof (added_list (widgets s) t' p l c cw cw' Hx Ecw Hc ltac:(by rewrite Ecw') ltac:(by rewrite Ecw') ltac:(by rewrite Ecw') Hcl Hpl Hnd Hl) as Hlist.
  destruct Hi as [Hd Hnz Hlv Hk Hu Hpth]. split; cbn [widgets set_widgets ui_alloc].
  - intros a. rewrite lookup_insert_is_Some. destruct (decide (a = c)) as [->|Hac]; [rewrite Hc, Hd, Ecw; split; [by eexists|by right]|].
    rewrite Hx, fmap_is_Some, <- Hd by done. destruct (decide (p = a)) as [<-|]; [|naive_solver]. split; [by eexists|by left].
  - rewrite lookup_insert_ne by done. done.
  - intros a Ha. apply Hlv. apply lookup_insert_is_Some in Ha as [<-|[_ Ha]]; [by eexists|done].
  - intros q k. rewrite lookup_insert. destruct (decide (p = q)) as [<-|Hpq].
    + intros [= <-]. split; [by apply NoDup_cons|]. split; [exact Hlist|]. eexists. rewrite Hx, Epw by done. split; [reflexivity|].
      rewrite added_children by done. by rewrite decide_True.
    + intros Eq. destruct (Hk q k Eq) as (Hndk & Hlk & qw & Eqw & Hqc). split; [done|]. split.
      * eapply linked_ext; [|exact Hlk]. intros x w Hxk Ew. destruct (Hother q k x Eq ltac:(done) Hxk) as [Hxc Hxl].
        rewrite Hx, Ew by done. eexists. split; [reflexivity|]. by apply added_other.
      * destruct (decide (q = c)) as [->|Hqc']; [exists cw'; split; [done|]; rewrite Ecw'; cbn; congruence|].
        eexists. rewrite Hx, Eqw by done. split; [reflexivity|]. rewrite added_children by done. by rewrite decide_False.
  - intros x w'. destruct (decide (x = c)) as [->|Hxc].
    + rewrite Hc. intros [= <-]. rewrite Ecw'. cbn [u_parent w_bounds_at w_links]. rewrite decide_False by done.
      exists (c :: l). rewrite lookup_insert_eq. set_solver.
    + rewrite Hx by done. destruct (widgets s !! x) as [w|] eqn:Ew; [|done]. intros [= <-]. rewrite added_parent, (decide_False (P := x = c)) by done.
      specialize (Hu x w Ew). destruct (decide (u_parent w = 0)) as [Hw0|Hw0].
      * destruct (added_other p l c x w Hxc) as (_ & -> & ->); [|done]. intros Hin.
        destruct (linked_lookup _ _ _ _ _ x Hl Hin) as (w1 & Ew1 & Hw1). congruence.
      * destruct Hu as (k & Ek & Hxk). destruct (decide (p = u_parent w)) as [Epw2|Hne].
        -- exists (c :: l). rewrite <- Epw2, lookup_insert_eq. rewrite <- Epw2, Ep in Ek. injection Ek as <-. set_solver.
        -- exists k. by rewrite lookup_insert_ne by done.
  - intros a Ha. assert (is_Some (K !! a)) as Ha' by (apply lookup_insert_is_Some in Ha as [<-|[_ Ha]]; [by eexists|done]).
    destruct (Hpth a Ha') as (ra & Hra). eapply path_graft; [exact Hre| |exact Hra].
    eapply path_ext; [|exact Hr]. intros x w Hxr Ew. destruct (Hre x w Ew) as (w' & Ew' & Hw'). exists w'. split; [done|].
    rewrite Hw', decide_False; [done|]. by intros ->.
Qed.

(** ** Destroying a widget *)

(** The widgets [P] are gone and the others are as before, in the same order. *)
Record pruned (P : Z -> Prop) s K s' K' : Prop := {
  pr_inv : tree_inv s' K';
  pr_dom : forall x, is_Some (K' !! x) <-> is_Some (K !! x) /\ ~ P x;
  pr_live : forall x, x ∈ live (ui_alloc s') <-> x ∈ live (ui_alloc s) /\ ~ P x;
  pr_same : forall x w', widgets s' !! x = Some w' ->
    exists w, widgets s !! x = Some w /\ core w' = core w /\ u_parent w' = u_parent w;
  pr_kids : forall q k', K' !! q = Some k' ->
    exists k, K !! q = Some k /\ sublist k' k /\ forall x, x ∈ k' <-> x ∈ k /\ ~ P x;
  pr_rest : root_widget s' = root_widget s /\ focused_widget s' = focused_widget s /\
    ui_dirty_flag s' = ui_dirty_flag s /\ ui_screen s' = ui_screen s
}.

Lemma pruned_none s K (P : Z -> Prop) : tree_inv s K -> (forall x, ~ P x) -> pruned P s K s K.
Proof. intros Hi HP. split; try done; try naive_solver. Qed.

Lemma pruned_trans (P Q R : Z -> Prop) s K s1 K1 s2 K2 :
  pruned P s K s1 K1 -> pruned Q s1 K1 s2 K2 -> (forall x, ~ R x <-> ~ P x /\ ~ Q x) -> pruned R s K s2 K2.
Proof.
  intros [_ A1 B1 C1 E1 F1] [Hi A2 B2 C2 E2 F2] HR. split; [done| | | | |].
  - intros x. rewrite A2, A1, HR. tauto.
  - intros x. rewrite B2, B1, HR. tauto.
  - intros x w2 H2. destruct (C2 x w2 H2) as (w1 & H1 & Hc & Hp). destruct (C1 x w1 H1) as (w & Hw & Hc1 & Hp1). exists w. split; [done|]. split; congruence.
  - intros q k2 H2. destruct (E2 q k2 H2) as (k1 & H1 & Hs & Hm). destruct (E1 q k1 H1) as (k & Hk & Hs1 & Hm1). exists k.
    split; [done|]. split; [by etrans|]. intros x. rewrite Hm, Hm1, HR. tauto.
  - destruct F1 as (? & ? & ? & ?), F2 as (? & ? & ? & ?). repeat split; congruence.
Qed.

Lemma pruned_ext (P Q : Z -> Prop) s K s' K' :
  (forall x, P x -> is_Some (K !! x)) -> (forall x, Q x -> is_Some (K !! x)) -> (forall x, is_Some (K !! x) -> P x <-> Q x) ->
  pruned P s K s' K' -> pruned Q s K s' K'.
Proof.
  intros HP HQ HPQ [Hi A B C E F]. assert (forall x, P x <-> Q x) as Hiff by (intros x; split; intros Hx; apply HPQ; auto).
  split; try done; [intros x; rewrite A, Hiff; done|intros x; rewrite B, Hiff; done|].
  intros q k' Hk. destruct (E q k' Hk) as (k & Hk' & Hs & Hm). exists k. split; [done|]. split; [done|]. intros x. by rewrite Hm, Hiff.
Qed.

(** A widget goes up to its root: it is below itself only through its own path. *)
Lemma below_dom s K a x : tree_inv s K -> below (widgets s) a x -> is_Some (K !! x).
Proof. intros Hi Hb. apply (ti_dom _ _ Hi). by eapply below_is_Some. Qed.

Lemma below_root s a k w : tree_inv s a -> widgets s !! k = Some w -> u_parent w = 0 -> forall c, below (widgets s) c k -> c = k.
Proof.
  intros Hi Ek Hw c Hb. inversion Hb as [|? w' Ew' Hb']; subst; [done|]. assert (w' = w) as -> by congruence. rewrite Hw in Hb'.
  apply (below_dom s _ _ _ Hi) in Hb' as [? E]. by rewrite (ti_nz _ _ Hi) in E.
Qed.

(** What survives is below the same widgets as before. *)
Lemma below_pruned (P : Z -> Prop) s K s' K' k x :
  tree_inv s K -> pruned P s K s' K' -> (forall y w, widgets s !! y = Some w -> P (u_parent w) -> P y) -> is_Some (K' !! x) ->
  below (widgets s) k x <-> below (widgets s') k x.
Proof.
  intros Hi Hp Hup Hx. pose proof (ti_dom _ _ (pr_inv _ _ _ _ _ Hp)) as Hd'. split.
  - intros Hb. induction Hb as [Hk|x w Ex Hb IH]; [apply below_self; by apply Hd'|].
    apply Hd' in Hx as Hx'. destruct Hx' as [w' Ew'].
    destruct (pr_same _ _ _ _ _ Hp x w' Ew') as (w1 & Ew1 & _ & Hpar). assert (w1 = w) as -> by congruence.
    apply below_step with w'; [done|]. rewrite Hpar. apply IH. apply (pr_dom _ _ _ _ _ Hp) in Hx as [_ Hnx]. apply (pr_dom _ _ _ _ _ Hp).
    split; [by eapply below_dom|]. intros HP. apply Hnx. by eapply Hup.
  - intros Hb. clear Hx. induction Hb as [[w' Ew']|x w' Ew' Hb IH]; destruct (pr_same _ _ _ _ _ Hp _ w' Ew') as (w & Ew & _ & Hpar).
    + apply below_self. by eexists.
    + apply below_step with w; [done|]. by rewrite <- Hpar.
Qed.

Lemma free_run_ui s K a :
  tree_inv s K -> K !! a = Some [] -> (forall w, widgets s !! a = Some w -> u_parent w = 0) ->
  exists s', ui_free a s = Ret tt s' /\ pruned (λ x, x = a) s K s' (delete a K).
Proof.
  intros Hi Ea Hroot. pose proof Hi as [Hd Hnz Hlv Hk Hu Hp]. destruct (free_law a (ui_alloc s)) as (h & E & Hh); [apply Hlv; by eexists|].
  exists (set_ui_alloc h (set_widgets (delete a (widgets s)) s)). split.
  { unfold ui_free. rewrite bind_modify. unfold zoom. cbn [ui_alloc set_widgets]. by rewrite E. }
  assert (forall q k, K !! q = Some k -> a ∉ k) as Hno.
  { intros q k Eq Hin. destruct (kid_parent s K q k a Hi Eq Hin) as (_ & _ & w & Ew & Hw). rewrite (Hroot w Ew) in Hw. congruence. }
  split; cbn [widgets set_widgets ui_alloc set_ui_alloc].
  - split; cbn [widgets set_widgets ui_alloc set_ui_alloc].
    + intros x. rewrite !lookup_delete_is_Some, Hd. done.
    + rewrite lookup_delete. by case_decide.
    + intros x [Hx Hs]%lookup_delete_is_Some. rewrite Hh. specialize (Hlv x Hs). set_solver.
    + intros q k [Hq Eq]%lookup_delete_Some. destruct (Hk q k Eq) as (Hnd & Hl & w & Ew & Hc). split; [done|]. split.
      * eapply linked_ext; [|exact Hl]. intros c cw Hc' Ec. exists cw. rewrite lookup_delete_ne; [done|]. intros ->. by eapply Hno.
      * exists w. by rewrite lookup_delete_ne.
    + intros c w [Hc Ec]%lookup_delete_Some. specialize (Hu c w Ec). destruct (decide (u_parent w = 0)); [done|].
      destruct Hu as (k & Ek & Hin). exists k. rewrite lookup_delete_ne; [done|]. intros E1. rewrite <- E1, Ea in Ek. injection Ek as <-. set_solver.
    + intros c [Hc Hs]%lookup_delete_is_Some. destruct (Hp c Hs) as (r & Hr). exists r. revert Hc Hr. clear -Hno Hu Hnz Ea.
      intros Hc Hr. induction Hr as [|c w r Hc0 Ew Hr IH]; [constructor|]. apply path_step with w; [done|by rewrite lookup_delete_ne|]. apply IH.
      intros E1. specialize (Hu c w Ew). rewrite <- E1 in Hu. destruct (decide (a = 0)) as [->|]; [congruence|]. destruct Hu as (k & Ek & Hin).
      rewrite Ea in Ek. injection Ek as <-. set_solver.
  - intros x. rewrite lookup_delete_is_Some. naive_solver.
  - intros x. rewrite Hh. set_solver.
  - intros x w' [_ Ex]%lookup_delete_Some. by exists w'.
  - intros q k' [_ Eq]%lookup_delete_Some. exists k'. split; [done|]. split; [done|]. intros x. split; [|naive_solver].
    intros Hx. split; [done|]. intros ->. by eapply Hno.
  - done.
Qed.

(** Before a widget dies it leaves its parent. *)
Lemma detach_run s K a w :
  tree_inv s K -> widgets s !! a = Some w ->
  exists s1 K1, (if truth (u_parent w) then ui_remove_child (u_parent w) a else ret tt) s = Ret tt s1 /\ tree_inv s1 K1 /\
    relinked s s1 /\ reparented a 0 s s1 /\ (forall x, is_Some (K1 !! x) <-> is_Some (K !! x)) /\
    forall q k', K1 !! q = Some k' -> exists k, K !! q = Some k /\ sublist k' k /\ forall x, x ∈ k' <-> x ∈ k /\ x <> a.
Proof.
  intros Hi Ew. pose proof (ti_up _ _ Hi a w Ew) as Hu. unfold truth. destruct (Z.eqb_spec (u_parent w) 0) as [E0|E0]; cbn [negb].
  - exists s, K. split; [done|]. split; [done|]. split; [done|]. split.
    { intros x v Ev. exists v. split; [done|]. destruct (decide (x = a)) as [->|]; congruence. }
    split; [done|]. intros q k' Eq. exists k'. split; [done|]. split; [done|]. intros x. split; [|naive_solver]. intros Hx. split; [done|].
    intros ->. destruct (kid_parent s K q k' a Hi Eq Hx) as (_ & _ & v & Ev & Hv). assert (v = w) as -> by congruence.
    pose proof (ti_nz _ _ Hi). congruence.
  - rewrite decide_False in Hu by done. destruct Hu as (l & El & Hin). apply list_elem_of_split in Hin as (l1 & l2 & ->).
    destruct (remove_run s K _ l1 a l2 Hi El) as (s1 & E & Hi1 & Hr & Hre). exists s1, (<[u_parent w := l1 ++ l2]> K).
    split; [done|]. split; [done|]. split; [done|]. split; [done|]. split.
    { intros x. rewrite lookup_insert_is_Some. destruct (decide (u_parent w = x)) as [<-|]; [|naive_solver]. split; [by eexists|by left]. }
    intros q k'. rewrite lookup_insert. destruct (decide (u_parent w = q)) as [<-|Hq].
    + intros [= <-]. exists (l1 ++ a :: l2). split; [done|]. split; [apply sublist_app; [done|by apply sublist_cons]|].
      destruct (ti_kids _ _ Hi _ _ El) as (Hnd & _). apply NoDup_app in Hnd as (_ & Hd & [Hn _]%NoDup_cons). intros x. rewrite !elem_of_app, elem_of_cons.
      split; [|tauto]. intros [Hx|Hx]; [|split; [tauto|]; by intros ->]. split; [by left|]. intros ->. apply (Hd a Hx). set_solver.
    + intros Eq. exists k'. split; [done|]. split; [done|]. intros x. split; [|naive_solver]. intros Hx. split; [done|]. intros ->.
      apply Hq. apply (kid_once s K (u_parent w) q (l1 ++ a :: l2) k' a Hi El Eq); [set_solver|done].
Qed.

Lemma sublist_full {A} (k l : list A) : sublist k l -> NoDup l -> (forall x, x ∈ l -> x ∈ k) -> k = l.
Proof.
  induction 1 as [|x k l Hs IH|x k l Hs IH]; intros Hnd Hx; [done| |]; apply NoDup_cons in Hnd as [Hn Hnd].
  - f_equal. apply IH; [done|]. intros y Hy. specialize (Hx y ltac:(set_solver)). set_solver.
  - destruct Hn. apply (elem_of_sublist k l x); [apply Hx; set_solver|done].
Qed.

(** [destroy] removes what is below a widget when that is in [X]. *)
Definition destroys (destroy : Z -> M ui unit) (n : nat) : Prop := forall s K a (X : gset Z),
  tree_inv s K -> is_Some (K !! a) -> (forall x, below (widgets s) a x -> x ∈ X) -> (size X < n)%nat ->
  exists s' K', destroy a s = Ret tt s' /\ pruned (below (widgets s) a) s K s' K'.

(** The loop over the children of a root. *)
Lemma destroy_children_run destroy n a (X : gset Z) l : destroys destroy n -> (size X < n)%nat ->
  forall fuel s K w, (length l < fuel)%nat -> tree_inv s K -> K !! a = Some l -> widgets s !! a = Some w -> u_parent w = 0 ->
  (forall x k, k ∈ l -> below (widgets s) k x -> x ∈ X) ->
  exists s' K', destroy_children destroy fuel a s = Ret tt s' /\
    pruned (λ x, exists k, k ∈ l /\ below (widgets s) k x) s K s' K' /\ K' !! a = Some [].
Proof.
  intros Hdes HX. induction l as [|c l IH]; intros fuel s K w Hf Hi Ea Ew Hw Hb; (destruct fuel as [|fuel]; [cbn in Hf; lia|]);
    cbn [destroy_children]; rewrite (bind_Ret _ _ _ _ _ (wid_get_run s a w Ew)); destruct (ti_kids _ _ Hi a _ Ea) as (Hnd & _ & w1 & Ew1 & Hc);
    (assert (w1 = w) as -> by congruence); rewrite Hc; cbn [hd].
  - exists s, K. split; [done|]. split; [|done]. apply pruned_none; [done|]. intros x (k & Hk & _). set_solver.
  - destruct (kid_parent s K a _ c Hi Ea ltac:(set_solver)) as (Hc0 & Hca & cw & Ecw & Hcp). destruct (Z.eqb_spec c 0); [done|].
    destruct (Hdes s K c X Hi) as (s1 & K1 & E1 & Hp1); [apply (ti_dom _ _ Hi); by eexists|intros x; apply Hb; set_solver|done|].
    rewrite (bind_Ret _ _ _ _ _ E1). apply NoDup_cons in Hnd as [Hcl Hnd]. pose proof (pr_inv _ _ _ _ _ Hp1) as Hi1.
    assert (forall y v, widgets s !! y = Some v -> below (widgets s) c (u_parent v) -> below (widgets s) c y) as Hup by (intros y v Ey; by apply below_step).
    assert (forall k, k ∈ a :: l -> ~ below (widgets s) c k) as Hnb.
    { intros k Hk Hbk. destruct (decide (k = a)) as [->|Hka]; [by apply Hca, (below_root s K a w Hi Ew Hw)|].
      destruct (kid_parent s K a _ k Hi Ea ltac:(set_solver)) as (_ & _ & kw & Ekw & Hkp).
      inversion Hbk as [|? v Ev Hbv]; subst; [set_solver|]. assert (v = kw) as -> by congruence. rewrite Hkp in Hbv.
      apply Hca. symmetry. symmetry. by apply (below_root s K _ w Hi Ew Hw). }
    assert (K1 !! a = Some l) as Ea1.
    { destruct (proj2 (pr_dom _ _ _ _ _ Hp1 a)) as [k1 Ek1]; [split; [by eexists|apply Hnb; set_solver]|].
      destruct (pr_kids _ _ _ _ _ Hp1 a k1 Ek1) as (k & Ek & Hs & Hm). assert (k = c :: l) as -> by congruence. rewrite Ek1. f_equal.
      assert (c ∉ k1) as Hc1. { rewrite Hm. intros [_ Hn]. apply Hn, below_self. by eexists. }
      inversion Hs as [|? ? ? Hs'|? ? ? Hs']; subst; [set_solver|].
      apply sublist_full; [done|done|]. intros x Hx. apply Hm. split; [set_solver|]. apply Hnb. set_solver. }
    destruct (proj1 (ti_dom _ _ Hi1 a) ltac:(by eexists)) as [v Ev].
    destruct (pr_same _ _ _ _ _ Hp1 a v Ev) as (w2 & Ew2 & _ & Hv). assert (w2 = w) as -> by congruence.
    assert (forall k x, is_Some (K1 !! x) -> below (widgets s) k x <-> below (widgets s1) k x) as Hbl.
    { intros k x. by apply (below_pruned _ s K s1 K1 k x Hi Hp1 Hup). }
    destruct (IH fuel s1 K1 v) as (s2 & K2 & E2 & Hp2 & Ea2); [cbn in Hf; lia|done|done|done|congruence| |].
    { intros x k Hk Hbk. apply (Hb x k); [set_solver|]. apply Hbl; [|done]. by eapply below_dom. }
    exists s2, K2. split; [exact E2|]. split; [|done].
    assert (forall x, (exists k, k ∈ l /\ below (widgets s1) k x) -> is_Some (K1 !! x)) as Hd1 by (intros x (k & _ & Hk); by eapply below_dom).
    eapply pruned_trans; [exact Hp1|exact Hp2|]. intros x. split.
    + intros Hn. split; [intros Hx; apply Hn; exists c; split; [set_solver|done]|].
      intros (k & Hk & Hbk). apply Hn. exists k. split; [set_solver|]. apply Hbl; [|done]. by eapply below_dom.
    + intros [Hn1 Hn2] (k & [->|Hk]%elem_of_cons & Hbk); [done|]. apply Hn2. exists k. split; [done|]. apply Hbl; [|done].
      apply (pr_dom _ _ _ _ _ Hp1). split; [by eapply below_dom|done].
Qed.

(** [ui_destroy_widget] frees the widget and all below it, each once, and nothing else. *)
Lemma destroy_run fuel : destroys (ui_destroy_widget fuel) fuel.
Proof.
  induction fuel as [|fuel IH]; intros s K a X Hi Ha HX Hf; [lia|]. cbn [ui_destroy_widget].
  assert (a <> 0) as Ha0 by (intros ->; destruct Ha as [? E]; by rewrite (ti_nz _ _ Hi) in E). destruct (Z.eqb_spec a 0); [done|].
  destruct (proj1 (ti_dom _ _ Hi a) Ha) as [w Ew]. rewrite (bind_Ret _ _ _ _ _ (wid_get_run s a w Ew)).
  destruct (detach_run s K a w Hi Ew) as (s1 & K1 & E1 & Hi1 & (Al & R1 & R2 & R3 & R4 & Hcore) & Hre & Hd1 & Hk1). rewrite (bind_Ret _ _ _ _ _ E1).
  destruct (proj2 (Hd1 a) Ha) as [l El]. destruct (Hre a w Ew) as (w1 & Ew1 & Hw1). rewrite decide_True in Hw1 by done.
  assert (forall x w', widgets s1 !! x = Some w' -> exists w0, widgets s !! x = Some w0 /\ core w' = core w0 /\ (x = a \/ u_parent w' = u_parent w0)) as Hback.
  { intros x w' Ex. specialize (Hcore x). rewrite Ex in Hcore. destruct (widgets s !! x) as [w0|] eqn:Ex0; [|done]. exists w0. split; [done|].
    injection Hcore as Hc. split; [unfold core, w_links; congruence|]. destruct (Hre x w0 Ex0) as (w2 & Ew2 & Hw2). assert (w2 = w') as -> by congruence.
    destruct (decide (x = a)); [by left|by right]. }
  assert (forall x, below (widgets s) a x <-> below (widgets s1) a x) as Hbl.
  { intros x. split; apply below_ext.
    - intros y v Ey. destruct (Hre y v Ey) as (v' & Ey' & Hv'). exists v'. split; [done|]. destruct (decide (y = a)); [by left|by right].
    - intros y v' Ey'. destruct (Hback y v' Ey') as (v & Ey & _ & [->|Hv]); exists v; (split; [done|]); [by left|by right]. }
  assert (forall x k, k ∈ l -> below (widgets s1) k x -> below (widgets s1) a x /\ x <> a) as Hkids.
  { intros x k Hk Hb. destruct (kid_parent s1 K1 a l k Hi1 El Hk) as (_ & Hka & kw & Ekw & Hkp). split.
    - induction Hb as [_|x v Ex _ IHb]; [apply below_step with kw; [done|]; rewrite Hkp; apply below_self; by eexists|by apply below_step with v].
    - intros ->. apply Hka. by apply (below_root s1 K1 a w1 Hi1 Ew1 Hw1). }
  assert (size (X ∖ {[a]}) < fuel)%nat as Hsz.
  { assert (a ∈ X) as HaX by (apply HX, below_self; by eexists). rewrite size_difference by set_solver. rewrite size_singleton.
    assert (size X <> 0)%nat; [|lia]. intros Hz. apply size_empty_inv in Hz. set_solver. }
  destruct (ti_kids _ _ Hi1 a l El) as (Hnd & _ & _).
  destruct (destroy_children_run _ fuel a (X ∖ {[a]}) l IH Hsz fuel s1 K1 w1) as (s2 & K2 & E2 & Hp2 & Ea2); [|done..| |].
  { assert (list_to_set l ⊆ X ∖ {[a]}) as Hsub.
    { intros k Hk%elem_of_list_to_set. destruct (kid_parent s1 K1 a l k Hi1 El Hk) as (_ & _ & kw & Ekw & _).
      destruct (Hkids k k Hk) as [Hka Hne]; [apply below_self; by eexists|]. apply Hbl, HX in Hka. set_solver. }
    apply subseteq_size in Hsub. rewrite size_list_to_set in Hsub by done. lia. }
  { intros x k Hk Hb. destruct (Hkids x k Hk Hb) as [Hx Hne]. apply Hbl, HX in Hx. set_solver. }
  rewrite (bind_Ret _ _ _ _ _ E2).
  destruct (free_run_ui s2 K2 a (pr_inv _ _ _ _ _ Hp2) Ea2) as (s3 & E3 & Hp3).
  { intros v Ev. destruct (pr_same _ _ _ _ _ Hp2 a v Ev) as (v1 & Ev1 & _ & Hv). congruence. }
  exists s3, (delete a K2). split; [exact E3|].
  assert (pruned (below (widgets s) a) s1 K1 s3 (delete a K2)) as [Hi3 A B C E F].
  { eapply pruned_trans; [exact Hp2|exact Hp3|]. intros x. split.
    - intros Hn. split; [intros (k & Hk & Hb); apply Hn, Hbl; by apply (Hkids x k)|]. intros ->. apply Hn, below_self. by eexists.
    - intros [Hn1 Hn2] Hb. apply Hbl in Hb. destruct (below_kid _ _ _ Hb) as [->|(k & kw & Ek & Hkp & Hbk)]; [done|]. apply Hn1. exists k. split; [|done].
      pose proof (ti_up _ _ Hi1 k kw Ek) as Hu. rewrite Hkp, decide_False in Hu by done. destruct Hu as (l' & El' & Hin). congruence. }
  split; [done| | | | |].
  - intros x. by rewrite A, Hd1.
  - intros x. by rewrite B, Al.
  - intros x w' Ex. destruct (C x w' Ex) as (v & Ev & Hc & Hp). destruct (Hback x v Ev) as (v0 & Ev0 & Hc0 & [->|Hp0]).
    + exfalso. assert (is_Some (widgets s3 !! a)) as Hs by (by eexists). apply (ti_dom _ _ Hi3) in Hs.
      apply A in Hs as [_ Hn]. apply Hn, below_self. by eexists.
    + exists v0. split; [done|]. split; congruence.
  - intros q k' Eq. destruct (E q k' Eq) as (k & Ek & Hs & Hm). destruct (Hk1 q k Ek) as (k0 & Ek0 & Hs0 & Hm0). exists k0. split; [done|].
    split; [by etrans|]. intros x. rewrite Hm, Hm0. split; [naive_solver|]. intros [Hx Hn]. split; [|done]. split; [done|]. intros ->. apply Hn, below_self. by eexists.
  - destruct F as (? & ? & ? & ?). repeat split; congruence.
Qed.

(** ** Creating a widget *)

(** The sum of the corners of the widgets [r], by coordinate. *)
Definition offset (f : ui_rect_t -> Z) (t : gmap Z ui_widget_t) (r : list Z) : Z :=
  foldr (λ a z, match t !! a with Some v => f (u_bounds v) + z | None => z end) 0 r.

Lemma shifted_offset t r b :
  0 <= r_x b < 2 ^ 32 -> 0 <= r_y b < 2 ^ 32 ->
  shifted_bounds t r b = mkRect (u32 (r_x b + offset r_x t r)) (u32 (r_y b + offset r_y t r)) (r_w b) (r_h b).
Proof.
  revert b. induction r as [|a r IH]; intros [x y w h] Hx Hy; cbn [r_x r_y] in *; unfold shifted_bounds in *; cbn [foldl offset foldr].
  - cbn. by rewrite !Z.add_0_r, !wrap_small by lia.
  - fold (offset r_x t r). fold (offset r_y t r). destruct (t !! a) as [v|]; [|by apply IH].
    rewrite IH by (cbn [rect_shift r_x r_y]; apply wrap_bound; lia). unfold rect_shift. cbn [r_x r_y r_w r_h]. f_equal; unfold wrap;
      rewrite Zplus_mod_idemp_l; f_equal; lia.
Qed.

Definition new_kid (p a : Z) K : gmap Z (list Z) := <[a := []]> (match K !! p with Some l => <[p := a :: l]> K | None => K end).
Definition fresh_widget (p : Z) (b : ui_rect_t) : ui_widget_t := mkWidget b b p 0 0 0 true true false 0 0 0 0.

Lemma new_root_inv s K h a b :
  tree_inv s K -> a <> 0 -> a ∉ live (ui_alloc s) -> live h = {[a]} ∪ live (ui_alloc s) ->
  tree_inv (set_widgets (<[a := fresh_widget 0 b]> (widgets s)) (set_ui_alloc h s)) (<[a := []]> K).
Proof.
  intros Hi Ha Hfr Hh. assert (K !! a = None) as Hnone.
  { destruct (K !! a) eqn:E; [|done]. destruct Hfr. apply (ti_live _ _ Hi). by eexists. }
  assert (widgets s !! a = None) as Hnw.
  { destruct (widgets s !! a) eqn:E; [|done]. pose proof (proj2 (ti_dom _ _ Hi a) ltac:(by eexists)) as [? E']. congruence. }
  destruct Hi as [Hd Hnz Hlv Hk Hu Hp]. split; cbn [widgets set_widgets ui_alloc set_ui_alloc].
  - intros x. rewrite !lookup_insert_is_Some, Hd. done.
  - by rewrite lookup_insert_ne.
  - intros x [<-|[_ Hx]]%lookup_insert_is_Some; rewrite Hh; [set_solver|]. specialize (Hlv x Hx). set_solver.
  - intros q k. rewrite lookup_insert. destruct (decide (a = q)) as [<-|Hq].
    + intros [= <-]. split; [apply NoDup_nil_2|]. split; [done|]. eexists. by rewrite lookup_insert_eq.
    + intros Eq. destruct (Hk q k Eq) as (Hnd & Hl & w & Ew & Hc). split; [done|]. split; [|exists w; by rewrite lookup_insert_ne].
      eapply linked_ext; [|exact Hl]. intros c cw _ Ec. exists cw. rewrite lookup_insert_ne; [done|]. intros ->. congruence.
  - intros c w. rewrite lookup_insert. destruct (decide (a = c)) as [<-|Hc]; [by intros [= <-]|]. intros Ew. specialize (Hu c w Ew).
    destruct (decide (u_parent w = 0)); [done|]. destruct Hu as (k & Ek & Hin). exists k. rewrite lookup_insert_ne; [done|]. intros E1. congruence.
  - intros c [<-|[Hc Hs]]%lookup_insert_is_Some.
    + exists [a]. apply path_step with (fresh_widget 0 b); [done|apply lookup_insert_eq|constructor].
    + destruct (Hp c Hs) as (r & Hr). exists r. eapply path_ext; [|exact Hr]. intros x w _ Ex. exists w. rewrite lookup_insert_ne; [done|]. intros ->. congruence.
Qed.

(** [ui_add_child] does not look at the old parent of the child. *)
Lemma add_child_parent fuel p c q w t s :
  p <> 0 -> c <> 0 ->
  ui_add_child fuel p c (set_widgets (<[c := w_parent q w]> t) s) = ui_add_child fuel p c (set_widgets (<[c := w]> t) s).
Proof.
  intros Hp Hc. unfold ui_add_child. destruct (Z.eqb_spec p 0), (Z.eqb_spec c 0); try done. cbn [orb].
  rewrite !(bind_Ret _ _ _ _ _ (upd_at _ s c _ _ (lookup_insert_eq _ _ _))). by rewrite !insert_insert_eq.
Qed.

(** A widget is created with the bounds given and the absolute bounds moved by the corners
    of its ancestors, as the first child of its parent; otherwise nothing changes. *)
Definition created_widget p b r K s (o : outcome ui Z) : Prop :=
  (exists msg t, o = Panic msg t) \/
  (exists s', o = Ret 0 s' /\ tree_inv s' K /\ widgets s' = widgets s) \/
  (exists a s' w, o = Ret a s' /\ a <> 0 /\ K !! a = None /\ tree_inv s' (new_kid p a K) /\ widgets s' !! a = Some w /\
    u_parent w = p /\ u_bounds w = b /\ u_visible w = true /\ u_enabled w = true /\ on_event w = 0 /\
    absolute_bounds w = mkRect (u32 (r_x b + offset r_x (widgets s) r)) (u32 (r_y b + offset r_y (widgets s) r)) (r_w b) (r_h b) /\
    (forall x, x <> a -> core <$> (widgets s' !! x) = core <$> (widgets s !! x)) /\
    focused_widget s' = focused_widget s /\ root_widget s' = root_widget s).

Lemma create_widget_run s K p b r fuel :
  tree_inv s K -> path (widgets s) p r -> (length r < fuel)%nat -> 0 <= r_x b < 2 ^ 32 -> 0 <= r_y b < 2 ^ 32 ->
  created_widget p b r K s (ui_create_widget fuel p b s).
Proof.
  intros Hi Hr Hf Hx Hy. unfold ui_create_widget, ui_malloc, zoom.
  destruct (malloc_law WIDGET_SIZE (ui_alloc s)) as [(msg & h & E)|(a & h & E & Ha)].
  { left. eexists msg, _. unfold bind. by rewrite E. }
  rewrite (bind_Ret _ _ s a (set_ui_alloc h s)) by by rewrite E. right. destruct Ha as [[-> Hh]|(Ha0 & Hfr & Hh)].
  { left. eexists. split; [done|]. split; [|done]. destruct Hi as [? ? Hlv ? ? ?]. split; try done. intros x Hs. cbn. rewrite Hh. auto. }
  right. destruct (Z.eqb_spec a 0); [done|]. unfold wid_put. rewrite bind_modify. cbn [widgets set_ui_alloc].
  pose proof (new_root_inv s K h a b Hi Ha0 ltac:(set_solver) Hh) as Hi1.
  assert (K !! a = None) as Hnone.
  { destruct (K !! a) eqn:Ea; [|done]. assert (a ∈ live (ui_alloc s)); [apply (ti_live _ _ Hi); by eexists|set_solver]. }
  set (s1 := set_widgets (<[a := fresh_widget 0 b]> (widgets s)) (set_ui_alloc h s)) in *. unfold truth, new_kid.
  destruct (Z.eqb_spec p 0) as [->|Hp0]; cbn [negb].
  - rewrite bind_ret. inversion Hr; subst; [|done]. exists a, s1, (fresh_widget 0 b). rewrite (ti_nz _ _ Hi).
    split; [done|]. split; [done|]. split; [done|]. split; [done|]. split; [apply lookup_insert_eq|]. do 5 (split; [done|]).
    split; [cbn [offset foldr]; rewrite !Z.add_0_r, !wrap_small by lia; by destruct b|].
    split; [|done]. intros x Hxa. unfold s1. cbn [widgets set_widgets]. by rewrite lookup_insert_ne.
  - destruct (path_nz _ _ _ Hr Hp0) as (pw & r' & Epw & Er & Hr'). destruct (proj2 (ti_dom _ _ Hi p) ltac:(by eexists)) as [l El].
    assert (forall x, is_Some (widgets s !! x) -> x <> a) as Hxa.
    { intros x Hs ->. apply (ti_dom _ _ Hi) in Hs as [? Hs]. congruence. }
    assert (forall y ry, path (widgets s) y ry -> forall x, x ∈ ry -> x <> a) as Hpa.
    { clear -Hxa. intros y ry Hp. induction Hp as [|y w ry Hy Ey Hp IH]; intros x; [set_solver|]. intros [->|Hxr]%elem_of_cons; [apply Hxa; by eexists|auto]. }
    assert (path (widgets s1) p r) as Hr1.
    { eapply path_ext; [|exact Hr]. intros x w Hxr Ex. exists w. unfold s1. cbn [widgets set_widgets]. rewrite lookup_insert_ne; [done|].
      intros <-. by apply (Hpa p r Hr a Hxr). }
    destruct (add_run s1 (<[a := []]> K) p l a r (fresh_widget 0 b) fuel Hi1) as (t' & E2 & Hi2 & Hre & Hcore); try done.
    { rewrite lookup_insert_ne; [done|]. intros ->. congruence. }
    { intros Hin. by apply (Hpa p r Hr a Hin). }
    { apply lookup_insert_eq. }
    rewrite (bind_Ret _ _ _ tt (set_widgets t' s1)).
    2: { rewrite <- E2. exact (add_child_parent fuel p a p (fresh_widget 0 b) (widgets s) (set_ui_alloc h s) Hp0 Ha0). }
    destruct (Hre a (fresh_widget 0 b) ltac:(apply lookup_insert_eq)) as (w & Ew & Hw). rewrite decide_True in Hw by done.
    pose proof (Hcore a) as Hca. cbn [widgets set_widgets] in Ew. rewrite Ew, decide_True in Hca by done.
    cbn [fmap option_fmap option_map] in Hca. apply (inj Some) in Hca.
    exists a, (set_widgets t' s1), w. rewrite El. split; [done|]. split; [done|]. split; [done|].
    split; [rewrite insert_insert_ne; [done|intros ->; congruence]|]. split; [done|].
    assert (shifted_bounds (widgets s1) r b = shifted_bounds (widgets s) r b) as Hsh.
    { apply shifted_ext. intros x Hxr. unfold s1. cbn [widgets set_widgets]. rewrite lookup_insert_ne; [done|]. intros <-. by apply (Hpa p r Hr a Hxr). }
    rewrite (shifted_offset (widgets s)) in Hsh by done. unfold core, w_links in Hca. cbn in Hca, Hsh. rewrite Hsh in Hca. repeat (split; [congruence|]).
    split; [|done]. intros x Hne. cbn [widgets set_widgets]. rewrite Hcore, decide_False by done. unfold s1. cbn [widgets set_widgets].
    by rewrite lookup_insert_ne.
Qed.

(** ** Painting *)

Lemma path_det t a r1 r2 : path t a r1 -> path t a r2 -> r1 = r2.
Proof.
  intros H1. revert r2. induction H1 as [|a w r Ha Ew _ IH]; intros r2 H2; [by inversion H2|].
  destruct (path_nz _ _ _ H2 Ha) as (w' & r' & Ew' & -> & Hp). assert (w' = w) as -> by congruence. f_equal. by apply IH.
Qed.

(** The widgets below a child are below its parent, which is not one of them. *)
Lemma kids_below s K a l k x :
  tree_inv s K -> K !! a = Some l -> k ∈ l -> below (widgets s) k x -> below (widgets s) a x /\ x <> a.
Proof.
  intros Hi Ea Hk Hb. destruct (kid_parent s K a l k Hi Ea Hk) as (Hk0 & _ & w & Ew & Hw). split.
  - induction Hb as [_|x v Ex _ IH]; [|by apply below_step with v]. apply below_step with w; [done|]. rewrite Hw. apply below_self.
    apply (ti_dom _ _ Hi). by eexists.
  - intros ->. destruct (ti_path _ _ Hi a ltac:(by eexists)) as (r & Hr).
    assert (path (widgets s) k (k :: r)) as Hkr by (apply path_step with w; [done|done|by rewrite Hw]).
    assert (forall x rx, path (widgets s) x rx -> below (widgets s) k x -> exists rk, path (widgets s) k rk /\ (length rk <= length rx)%nat) as Hgo.
    { clear -Hi. intros x rx Hp. induction Hp as [|x v rx Hx Ex Hp IH]; intros Hb.
      - apply (below_dom s K _ _ Hi) in Hb as [? E]. by rewrite (ti_nz _ _ Hi) in E.
      - inversion Hb as [|? v' Ex' Hb']; subst.
        + exists (x :: rx). split; [by apply path_step with v|done].
        + assert (v' = v) as -> by congruence. destruct (IH Hb') as (rk & Hrk & Hl). exists rk. split; [done|]. cbn. lia. }
    destruct (Hgo a r Hr Hb) as (rk & Hrk & Hl). assert (rk = k :: r) as -> by by eapply path_det. cbn in Hl. lia.
Qed.

(** The visible widgets below [a], the newest child first and every parent behind its children. *)
Fixpoint post_order (fuel : nat) K (t : gmap Z ui_widget_t) (a : Z) : list Z :=
  match fuel with
  | O => []
  | S fuel' =>
      match t !! a with
      | Some w => if u_visible w then flat_map (post_order fuel' K t) (default [] (K !! a)) ++ [a] else []
      | None => []
      end
  end.

Section painters.
Variable call_paint : Z -> Z -> M ui unit.
(** The painters only draw, on a screen that is as they need it, and leave it so. *)
Variable Q : D -> Prop.
Hypothesis painters_draw : forall f a s, Q (ui_screen s) -> exists d, Q d /\ call_paint f a s = Ret tt (set_screen d s).

Definition paint_at (a : Z) : M ui unit := w <-- wid_get a ;; if truth (on_paint w) then call_paint (on_paint w) a else ret tt.
Fixpoint paint_all (l : list Z) : M ui unit :=
  match l with
  | [] => ret tt
  | a :: r => paint_at a ;;; paint_all r
  end.

Lemma paint_all_app l1 l2 s : paint_all (l1 ++ l2) s = (paint_all l1 ;;; paint_all l2) s.
Proof.
  revert s. induction l1 as [|a l1 IH]; intros s; cbn [app paint_all]; [done|]. rewrite bind_assoc. unfold bind at 1 2.
  destruct (paint_at a s); [apply IH|done..].
Qed.

Lemma inv_screen s K d : tree_inv s K -> tree_inv (set_screen d s) K.
Proof. intros []. split; assumption. Qed.

Lemma paint_one s a w : widgets s !! a = Some w -> Q (ui_screen s) ->
  exists d, Q d /\ paint_at a s = Ret tt (set_screen d s).
Proof.
  intros Ew HQ. unfold paint_at. rewrite (bind_Ret _ _ _ _ _ (wid_get_run s a w Ew)). destruct (truth (on_paint w)); [by apply painters_draw|].
  exists (ui_screen s). by destruct s.
Qed.

(** The paint of [a] is that of its list, and ends. *)
Definition paints_as (fuel : nat) s K a : Prop :=
  exists d, Q d /\ ui_paint_widget call_paint fuel a s = Ret tt (set_screen d s) /\
    paint_all (post_order fuel K (widgets s) a) s = Ret tt (set_screen d s).

Lemma paint_children_run n K a l s :
  tree_inv s K -> K !! a = Some l -> (forall k d, k ∈ l -> Q d -> paints_as n (set_screen d s) K k) ->
  forall k v fuel d, Q d -> linked (widgets s) a v k 0 -> k ⊆ l -> (length k < fuel)%nat ->
  exists d', Q d' /\ paint_children (ui_paint_widget call_paint n) fuel (hd 0 k) (set_screen d s) = Ret tt (set_screen d' s) /\
    paint_all (flat_map (post_order n K (widgets s)) k) (set_screen d s) = Ret tt (set_screen d' s).
Proof.
  intros Hi Ea Hk k. induction k as [|c k IH]; intros v fuel d HQ Hl Hsub Hf; (destruct fuel as [|fuel]; [cbn in Hf; lia|]); cbn [paint_children hd].
  { exists d. done. }
  destruct (kid_parent s K a l c Hi Ea ltac:(set_solver)) as (Hc0 & _). destruct (Z.eqb_spec c 0); [done|].
  destruct Hl as [(w & Ew & _ & _ & Hn) Hl]. destruct (Hk c d ltac:(set_solver) HQ) as (d1 & HQ1 & E1 & P1).
  change (set_screen d1 (set_screen d s)) with (set_screen d1 s) in *. rewrite (bind_Ret _ _ _ _ _ E1).
  rewrite (bind_Ret _ _ _ _ _ (wid_get_run (set_screen d1 s) c w Ew)), Hn.
  destruct (IH c fuel d1 HQ1 Hl ltac:(set_solver) ltac:(cbn in Hf; lia)) as (d' & HQ' & E' & P'). exists d'. split; [done|]. split; [exact E'|].
  cbn [flat_map]. rewrite paint_all_app. cbn [widgets set_screen] in P1. by rewrite (bind_Ret _ _ _ _ _ P1).
Qed.

Lemma paint_run fuel : forall s K a (X : gset Z),
  tree_inv s K -> is_Some (K !! a) -> (forall x, below (widgets s) a x -> x ∈ X) -> (size X < fuel)%nat -> Q (ui_screen s) -> paints_as fuel s K a.
Proof.
  induction fuel as [|fuel IH]; intros s K a X Hi Ha HX Hf HQ; [lia|]. unfold paints_as. cbn [ui_paint_widget post_order].
  assert (a <> 0) as Ha0 by (intros ->; destruct Ha as [? E]; by rewrite (ti_nz _ _ Hi) in E). destruct (Z.eqb_spec a 0); [done|].
  destruct (proj1 (ti_dom _ _ Hi a) Ha) as [w Ew]. rewrite (bind_Ret _ _ _ _ _ (wid_get_run s a w Ew)), Ew.
  destruct (u_visible w); cbn [negb]; [|exists (ui_screen s); by destruct s]. destruct Ha as [l El]. rewrite El. cbn [default from_option id].
  destruct (ti_kids _ _ Hi a l El) as (Hnd & Hl & w1 & Ew1 & Hc). assert (w1 = w) as -> by congruence. rewrite Hc.
  assert (a ∈ X) as HaX by (apply HX, below_self; by eexists).
  assert (size (X ∖ {[a]}) < fuel)%nat as Hsz.
  { rewrite size_difference, size_singleton by set_solver. assert (size X <> 0)%nat; [|lia]. intros Hz. apply size_empty_inv in Hz. set_solver. }
  assert (length l <= size (X ∖ {[a]}))%nat as Hlen.
  { rewrite <- (size_list_to_set (C := gset Z) l) by done. apply subseteq_size. intros k Hk%elem_of_list_to_set.
    destruct (kid_parent s K a l k Hi El Hk) as (_ & _ & kw & Ekw & _).
    destruct (kids_below s K a l k k Hi El Hk) as [Hb Hne]; [apply below_self; by eexists|]. apply HX in Hb. set_solver. }
  destruct (paint_children_run fuel K a l s Hi El) with (k := l) (v := 0) (fuel := fuel) (d := ui_screen s) as (d & HQd & E & P); [|done|done|done|lia|].
  { intros k d Hk HQk. apply (IH (set_screen d s) K k (X ∖ {[a]})); [by apply inv_screen| | |done|done].
    - destruct (kid_parent s K a l k Hi El Hk) as (_ & _ & kw & Ekw & _). apply (ti_dom _ _ Hi). by eexists.
    - intros x Hb. destruct (kids_below s K a l k x Hi El Hk Hb) as [Hx Hne]. apply HX in Hx. set_solver. }
  assert (set_screen (ui_screen s) s = s) as Hs by by destruct s. rewrite Hs in E, P.
  destruct (paint_one (set_screen d s) a w Ew HQd) as (d' & HQ' & E'). exists d'. split; [done|]. split; [rewrite (bind_Ret _ _ _ _ _ E); exact E'|].
  rewrite paint_all_app, (bind_Ret _ _ _ _ _ P). cbn [paint_all]. by rewrite (bind_Ret _ _ _ _ _ E').
Qed.
End painters.

(** ** Events *)

(** The absolute bounds of [c] have the point. *)
Definition has s (x y c : Z) : bool :=
  match widgets s !! c with Some w => ui_rect_contains (absolute_bounds w) x y | None => false end.

Lemma child_at_run s a l x y v fuel :
  linked (widgets s) a v l 0 -> (forall c, c ∈ l -> c <> 0) -> (length l < fuel)%nat ->
  child_at fuel (hd 0 l) x y s = Ret (default 0 (find (has s x y) l)) s.
Proof.
  revert v fuel. induction l as [|c l IH]; intros v fuel Hl Hz Hf; (destruct fuel as [|fuel]; [cbn in Hf; lia|]); cbn [child_at hd find]; [done|].
  destruct (Z.eqb_spec c 0); [by specialize (Hz c ltac:(set_solver))|]. destruct Hl as [(w & Ew & _ & _ & Hn) Hl].
  rewrite (bind_Ret _ _ _ _ _ (wid_get_run s c w Ew)). unfold has at 1. rewrite Ew. destruct (ui_rect_contains (absolute_bounds w) x y); [done|].
  rewrite Hn. apply (IH c); [done|set_solver|cbn in Hf; lia].
Qed.

Section handlers.
Variable call_event : Z -> Z -> ui_event_t -> M ui bool.
Variable accepts : Z -> Z -> ui_event_t -> bool.
(** A handler takes the event or not, and at most draws. *)
Hypothesis handlers_draw : forall f a e s, exists d, call_event f a e s = Ret (accepts f a e) (set_screen d s).

Definition takes s (c : Z) (e : ui_event_t) : bool :=
  match widgets s !! c with Some w => truth (on_event w) && accepts (on_event w) c e | None => false end.

Lemma ask_run s c w e : widgets s !! c = Some w ->
  exists d, (if truth (on_event w) then call_event (on_event w) c e else ret false) s = Ret (takes s c e) (set_screen d s).
Proof.
  intros Ew. unfold takes. rewrite Ew. destruct (truth (on_event w)); [apply handlers_draw|]. exists (ui_screen s). by destruct s.
Qed.

(** One round of the loop at a widget without a sibling behind it. *)
Lemma event_round s K r l e fuel :
  tree_inv s K -> K !! r = Some l -> root_widget s = r -> (forall w, widgets s !! r = Some w -> u_parent w = 0) -> (S (length l) < fuel)%nat ->
  exists d, ui_post_event call_event fuel (Some e) s =
    if has s (e_x e) (e_y e) r then
      let c := default r (find (has s (e_x e) (e_y e)) l) in
      if takes s c e then Ret true (set_screen d s)
      else (t <-- wid_get c ;; event_loop call_event (pred fuel) (u_next t) e) (set_screen d s)
    else Ret false s.
Proof.
  intros Hi El Hroot Hr Hf. destruct fuel as [|fuel]; [lia|]. destruct (ti_kids _ _ Hi r l El) as (_ & Hl & w & Ew & Hc).
  assert (r <> 0) as Hr0 by (intros ->; pose proof (ti_nz _ _ Hi); congruence).
  unfold ui_post_event. rewrite bind_get, Hroot. cbn [event_loop pred]. destruct (Z.eqb_spec r 0); [done|].
  rewrite (bind_Ret _ _ _ _ _ (wid_get_run s r w Ew)). unfold has at 1. rewrite Ew.
  destruct (ui_rect_contains (absolute_bounds w) (e_x e) (e_y e)).
  2: { exists (ui_screen s). pose proof (ti_up _ _ Hi r w Ew) as Hu. rewrite (Hr w Ew), decide_True in Hu by done. destruct Hu as [-> _].
    destruct fuel; [lia|done]. }
  assert (forall c, c ∈ l -> c <> 0) as Hnz by (intros c Hin; by destruct (kid_parent s K r l c Hi El Hin)).
  rewrite Hc, (bind_Ret _ _ _ _ _ (child_at_run s r l _ _ 0 fuel Hl Hnz ltac:(lia))).
  assert ((if default 0 (find (has s (e_x e) (e_y e)) l) =? 0 then r else default 0 (find (has s (e_x e) (e_y e)) l)) =
    default r (find (has s (e_x e) (e_y e)) l)) as ->.
  { destruct (find _ l) as [c|] eqn:Ef; [|done]. apply find_some in Ef as [Hin _]. apply list_elem_of_In in Hin. cbn.
    destruct (Z.eqb_spec c 0); [by destruct (Hnz c Hin)|done]. }
  set (c := default r _). assert (is_Some (widgets s !! c)) as [cw Ecw].
  { unfold c. destruct (find _ l) as [k|] eqn:Ef; [|by eexists]. apply find_some in Ef as [Hin _]. apply list_elem_of_In in Hin.
    destruct (kid_parent s K r l k Hi El Hin) as (_ & _ & kw & Ekw & _). by eexists. }
  rewrite (bind_Ret _ _ _ _ _ (wid_get_run s c cw Ecw)). destruct (ask_run s c cw e Ecw) as (d & E). exists d.
  rewrite (bind_Ret _ _ _ _ _ E). by destruct (takes s c e).
Qed.
End handlers.

(** ** Focus *)

Lemma focus_stuck call_focus s a b : focused_widget s = a -> a <> 0 -> a <> b -> widgets s !! a = None -> ui_set_focus call_focus b s = Stuck.
Proof.
  intros Ef Ha Hab Hn. unfold ui_set_focus. rewrite bind_get, Ef. destruct (Z.eqb_spec a b); [done|].
  unfold bind at 1, tell_focus. rewrite bind_get, Ef. unfold truth. destruct (Z.eqb_spec a 0); [done|]. cbn [negb].
  unfold wid_get. unfold bind. cbn. by rewrite Hn.
Qed.
End tree.

(** ** Properties *)

Section widget_properties.
Context {H D : Type} `{!Allocator H}.
Local Abbreviation ui := (ui H D).
Implicit Types (s : ui) (K : gmap Z (list Z)).

(** C23. [ui_create_widget] keeps the widgets a forest: the new widget is the first child of its
    parent and its absolute bounds are its bounds moved by the corners of all its ancestors,
    modulo 2^32; without memory nothing changes. *)
Theorem create_widget_spec s K p b r fuel :
  tree_inv s K -> path (widgets s) p r -> (length r < fuel)%nat -> 0 <= r_x b < 2 ^ 32 -> 0 <= r_y b < 2 ^ 32 ->
  created_widget p b r K s (ui_create_widget fuel p b s).
Proof. apply create_widget_run. Qed.

(** C22. [ui_destroy_widget] ends, frees the widget and all the widgets below it and no other
    memory, and the widgets that are left are a forest with the same children in the same order. *)
Theorem destroy_widget_spec s K a (X : gset Z) fuel :
  tree_inv s K -> is_Some (K !! a) -> (forall x, below (widgets s) a x -> x ∈ X) -> (size X < fuel)%nat ->
  exists s' K', ui_destroy_widget fuel a s = Ret tt s' /\ pruned (below (widgets s) a) s K s' K'.
Proof. intros. by apply (destroy_run fuel s K a X). Qed.

(** A child that is added and removed again leaves the links of all widgets as they were, but
    its absolute bounds stay moved: adding it once more moves them again. *)
Theorem add_remove_child s K p l c r cw fuel :
  tree_inv s K -> K !! p = Some l -> path (widgets s) p r -> c ∉ r -> c <> 0 -> widgets s !! c = Some cw -> u_parent cw = 0 ->
  (length r < fuel)%nat ->
  exists s1 s2 w, ui_add_child fuel p c s = Ret tt s1 /\ ui_remove_child p c s1 = Ret tt s2 /\ tree_inv s2 K /\
    widgets s2 !! c = Some w /\ u_parent w = 0 /\ absolute_bounds w = shifted_bounds (widgets s) r (absolute_bounds cw) /\
    (forall x, x <> c -> core <$> (widgets s2 !! x) = core <$> (widgets s !! x)).
Proof.
  intros Hi Ep Hr Hcr Hc0 Ecw Hw Hf. destruct (add_run s K p l c r cw fuel) as (t1 & E1 & Hi1 & Hre1 & Hcore1); [done..|].
  destruct (remove_run (set_widgets t1 s) (<[p := c :: l]> K) p [] c l Hi1) as (s2 & E2 & Hi2 & Hrel & Hre2); [by rewrite lookup_insert_eq|].
  destruct (Hre1 c cw Ecw) as (w1 & Ew1 & _). destruct (Hre2 c w1 Ew1) as (w2 & Ew2 & Hw2). rewrite decide_True in Hw2 by done.
  destruct Hrel as (_ & _ & _ & _ & _ & Hcore2). exists (set_widgets t1 s), s2, w2. split; [done|]. split; [done|].
  rewrite insert_insert_eq in Hi2. cbn [app] in Hi2. rewrite insert_id in Hi2 by done. split; [done|]. split; [done|]. split; [done|]. split.
  - specialize (Hcore2 c). cbn [widgets set_widgets] in Hcore2. rewrite Hcore1, decide_True, Ew2 in Hcore2 by done.
    cbn [fmap option_fmap option_map] in Hcore2. apply (inj Some) in Hcore2. unfold core, w_links in Hcore2. cbn in Hcore2. congruence.
  - intros x Hx. rewrite Hcore2. cbn [widgets set_widgets]. rewrite Hcore1. by rewrite decide_False.
Qed.

(** [ui_paint_widget] ends and paints the visible widgets in post-order: the newest child
    first and every widget after, and so over, the widgets below it; what is under a hidden
    widget is not painted.  What the painters keep true of the screen ([Q]) stays true. *)
Theorem paint_order call_paint (Q : D -> Prop) s K a (X : gset Z) fuel :
  (forall f x s, Q (ui_screen s) -> exists d, Q d /\ call_paint f x s = Ret tt (set_screen d s)) ->
  tree_inv s K -> is_Some (K !! a) -> (forall x, below (widgets s) a x -> x ∈ X) -> (size X < fuel)%nat -> Q (ui_screen s) ->
  exists d, Q d /\ ui_paint_widget call_paint fuel a s = Ret tt (set_screen d s) /\
    paint_all call_paint (post_order fuel K (widgets s) a) s = Ret tt (set_screen d s).
Proof. intros Hd Hi Ha HX Hf HQ. exact (paint_run call_paint Q Hd fuel s K a X Hi Ha HX Hf HQ). Qed.

(** [ui_post_event] offers an event to the first child of the root that has the point, shown or
    hidden, enabled or not; if that is the last child, its answer is the answer: no widget
    below it and not the root are asked.  Only when no child has the point is the root asked. *)
Theorem event_not_deeper call_event accepts s K r l e fuel :
  (forall f a e s, exists d, call_event f a e s = Ret (accepts f a e) (set_screen d s)) ->
  tree_inv s K -> K !! r = Some l -> root_widget s = r -> (forall w, widgets s !! r = Some w -> u_parent w = 0) -> (S (length l) < fuel)%nat ->
  has s (e_x e) (e_y e) r = true ->
  (forall l1 c, l = l1 ++ [c] -> (forall k, k ∈ l1 -> has s (e_x e) (e_y e) k = false) -> has s (e_x e) (e_y e) c = true ->
     exists d, ui_post_event call_event fuel (Some e) s = Ret (takes accepts s c e) (set_screen d s)) /\
  ((forall k, k ∈ l -> has s (e_x e) (e_y e) k = false) ->
     exists d, ui_post_event call_event fuel (Some e) s = Ret (takes accepts s r e) (set_screen d s)).
Proof.
  intros Hh Hi El Hroot Hr Hf Hhas. destruct (event_round call_event accepts Hh s K r l e fuel Hi El Hroot Hr Hf) as (d & ->). rewrite Hhas.
  destruct (ti_kids _ _ Hi r l El) as (_ & Hl & w & Ew & _). destruct fuel as [|[|fuel]]; [lia|lia|]. cbn [pred]. split.
  - intros l1 c -> Hl1 Hc. assert (find (has s (e_x e) (e_y e)) (l1 ++ [c]) = Some c) as ->.
    { clear -Hl1 Hc. induction l1 as [|k l1 IH]; cbn [app find]; [by rewrite Hc|]. rewrite Hl1 by set_solver. apply IH. intros. apply Hl1. set_solver. }
    exists d. cbn [default from_option id]. destruct (takes accepts s c e); [done|]. apply linked_app in Hl as [_ [(cw & Ecw & _ & _ & Hn) _]].
    rewrite (bind_Ret _ _ _ _ _ (wid_get_run (set_screen d s) c cw Ecw)), Hn. done.
  - intros Hno. assert (find (has s (e_x e) (e_y e)) l = None) as ->.
    { clear -Hno. induction l as [|k l IH]; cbn [find]; [done|]. rewrite Hno by set_solver. apply IH. intros. apply Hno. set_solver. }
    exists d. cbn [default from_option id]. destruct (takes accepts s r e); [done|].
    rewrite (bind_Ret _ _ _ _ _ (wid_get_run (set_screen d s) r w Ew)). pose proof (ti_up _ _ Hi r w Ew) as Hu.
    rewrite (Hr w Ew), decide_True in Hu by done. by destruct Hu as [-> _].
Qed.

(** The focus is not taken from a widget that is destroyed: after [ui_destroy_widget] of the
    focused widget the next [ui_set_focus] reads the memory that was freed. *)
Theorem focus_dangles call_focus s K a b (X : gset Z) fuel :
  tree_inv s K -> is_Some (K !! a) -> (forall x, below (widgets s) a x -> x ∈ X) -> (size X < fuel)%nat ->
  focused_widget s = a -> a <> b ->
  exists s', ui_destroy_widget fuel a s = Ret tt s' /\ ui_set_focus call_focus b s' = Stuck.
Proof.
  intros Hi Ha HX Hf Hfoc Hab. destruct (destroy_run fuel s K a X Hi Ha HX Hf) as (s' & K' & E & [Hi' Hd _ _ _ (_ & Hfo & _ & _)]).
  exists s'. split; [done|]. apply (focus_stuck call_focus s' a b); [congruence| |done|].
  - intros ->. destruct Ha as [? Ea]. by rewrite (ti_nz _ _ Hi) in Ea.
  - destruct (widgets s' !! a) as [w|] eqn:Ew; [|done]. pose proof (proj2 (ti_dom _ _ Hi' a) ltac:(by eexists)) as [_ Hn]%Hd.
    destruct Hn. apply below_self. by apply (ti_dom _ _ Hi).
Qed.
End widget_properties.

(** ** A concrete tree *)

Section widget_witnesses.
#[local] Existing Instance bump_allocator.

Definition widget0 (x y p c ev : Z) (b : ui_rect_t) : ui_widget_t := mkWidget b (mkRect x y (r_w b) (r_h b)) p c 0 0 true true false 0 0 ev 0.
(** A root with one child, which has one child with a handler. *)
Definition tree0 : gmap Z ui_widget_t :=
  {[ 8 := widget0 5 5 0 24 0 (mkRect 5 5 100 100); 24 := widget0 15 15 8 40 0 (mkRect 10 10 50 50);
     40 := widget0 16 16 24 0 7 (mkRect 1 1 9 9) ]}.
Definition kids0 : gmap Z (list Z) := {[ 8 := [24]; 24 := [40]; 40 := [] ]}.
Definition ui0 : ui (gset Z) (list Z) := mkUi {[8; 24; 40]} tree0 8 24 false [].

Lemma path0_8 : path tree0 8 [8].
Proof. eapply path_step; [done|reflexivity|constructor]. Qed.
Lemma path0_24 : path tree0 24 [24; 8].
Proof. eapply path_step; [done|reflexivity|exact path0_8]. Qed.

Lemma ui0_inv : tree_inv ui0 kids0.
Proof.
  split.
  - intros a. rewrite <- !elem_of_dom. change (dom kids0) with (dom tree0). done.
  - reflexivity.
  - intros a Ha. apply elem_of_dom in Ha. change (dom kids0) with ({[8; 24; 40]} : gset Z) in Ha. done.
  - intros p l Hp. unfold kids0 in Hp. repeat (apply lookup_insert_Some in Hp as [[<- <-]|[_ Hp]]); [..|apply lookup_singleton_Some in Hp as [<- <-]].
    all: split; [apply (bool_decide_unpack _); vm_compute; exact I|]; split; [|eexists; split; reflexivity].
    all: cbn [linked]; repeat split; eexists; split; reflexivity || (repeat split; reflexivity).
  - intros c w Hc. cbn [widgets ui0] in Hc. unfold tree0 in Hc.
    repeat (apply lookup_insert_Some in Hc as [[<- <-]|[_ Hc]]); [..|apply lookup_singleton_Some in Hc as [<- <-]]; cbn.
    1: done. all: eexists; split; [reflexivity|set_solver].
  - intros c Hc. apply elem_of_dom in Hc. change (dom kids0) with ({[8; 24; 40]} : gset Z) in Hc. cbn [widgets ui0].
    assert (c = 8 \/ c = 24 \/ c = 40) as [->|[->| ->]] by set_solver.
    + exists [8]. exact path0_8.
    + exists [24; 8]. exact path0_24.
    + exists [40; 24; 8]. eapply path_step; [done|reflexivity|exact path0_24].
Qed.

Lemma below0_24 x : below tree0 24 x -> x ∈ ({[24; 40]} : gset Z).
Proof.
  intros Hb. assert (x = 8 \/ x = 24 \/ x = 40) as [->|[->| ->]]; [|exfalso|set_solver..].
  - apply below_is_Some in Hb. apply elem_of_dom in Hb. change (dom tree0) with ({[8; 24; 40]} : gset Z) in Hb. set_solver.
  - inversion Hb as [|? w Ew Hb']; subst. injection Ew as <-. apply below_is_Some in Hb' as [? E]. discriminate E.
Qed.

Definition rect0 : ui_rect_t := mkRect 2 3 4 4.

Lemma create_widget_spec_witness :
  created_widget 24 rect0 [24; 8] kids0 ui0 (ui_create_widget 5 24 rect0 ui0) /\
  exists a s', ui_create_widget 5 24 rect0 ui0 = Ret a s' /\ absolute_bounds <$> (widgets s' !! a) = Some (mkRect 17 18 4 4).
Proof.
  split; [apply (create_widget_spec ui0 kids0 24 rect0 [24; 8] 5 ui0_inv path0_24); [cbn; lia|cbn; lia|cbn; lia]|].
  eexists _, _. split; [vm_compute; reflexivity|vm_compute; reflexivity].
Defined.

Lemma destroy_widget_spec_witness :
  exists s' K', ui_destroy_widget 3 24 ui0 = Ret tt s' /\ tree_inv s' K' /\ K' !! 24 = None.
Proof.
  destruct (destroy_widget_spec ui0 kids0 24 {[24; 40]} 3 ui0_inv (mk_is_Some _ _ eq_refl) below0_24) as (s' & K' & E & [Hi Hd _ _ _ _]); [apply Nat.ltb_lt; reflexivity|].
  exists s', K'. split; [exact E|]. split; [exact Hi|]. destruct (K' !! 24) eqn:E1; [|reflexivity]. exfalso.
  destruct (proj1 (Hd 24) (mk_is_Some _ _ E1)) as [_ Hn]. apply Hn, below_self. by eexists.
Defined.

(** A root of its own, 56, is added under 24. *)
Definition ui1 : ui (gset Z) (list Z) :=
  set_widgets (<[56 := fresh_widget 0 rect0]> tree0) (set_ui_alloc {[56; 8; 24; 40]} ui0).
Lemma ui1_inv : tree_inv ui1 (<[56 := []]> kids0).
Proof. apply (new_root_inv ui0 kids0 {[56; 8; 24; 40]} 56 rect0 ui0_inv); [done|apply (bool_decide_unpack _); vm_compute; exact I|cbn; set_solver]. Qed.

Lemma add_remove_child_witness :
  exists s1 s2 w, ui_add_child 3 24 56 ui1 = Ret tt s1 /\ ui_remove_child 24 56 s1 = Ret tt s2 /\ tree_inv s2 (<[56 := []]> kids0) /\
    widgets s2 !! 56 = Some w /\ absolute_bounds w = mkRect 17 18 4 4.
Proof.
  destruct (add_remove_child ui1 (<[56 := []]> kids0) 24 [40] 56 [24; 8] (fresh_widget 0 rect0) 3 ui1_inv) as (s1 & s2 & w & E1 & E2 & Hi & Ew & _ & Hb & _).
  - reflexivity.
  - eapply path_step; [done|reflexivity|]. eapply path_step; [done|reflexivity|constructor].
  - set_solver.
  - done.
  - reflexivity.
  - reflexivity.
  - cbn. lia.
  - exists s1, s2, w. split; [exact E1|]. split; [exact E2|]. split; [exact Hi|]. split; [exact Ew|]. rewrite Hb. reflexivity.
Defined.

(** A painter that notes the widget, a handler that wants the events of widget 40. *)
Definition note_paint (f x : Z) : M (ui (gset Z) (list Z)) unit := modify (λ s, set_screen (x :: ui_screen s) s).
Definition wants_40 (f a : Z) (e : ui_event_t) : bool := a =? 40.
Definition answer_40 (f a : Z) (e : ui_event_t) : M (ui (gset Z) (list Z)) bool := ret (wants_40 f a e).

Lemma paint_order_witness :
  exists d, ui_paint_widget note_paint 3 24 ui0 = Ret tt (set_screen d ui0) /\ post_order 3 kids0 tree0 24 = [40; 24].
Proof.
  destruct (paint_order note_paint (λ _, True) ui0 kids0 24 {[24; 40]} 3) as (d & _ & E & _).
  - intros f x s _. by exists (x :: ui_screen s).
  - exact ui0_inv.
  - by eexists.
  - exact below0_24.
  - apply Nat.ltb_lt; reflexivity.
  - exact I.
  - exists d. split; [exact E|reflexivity].
Defined.

(** The event is inside of 40, which wants it, but only 24 is asked. *)
Lemma event_not_deeper_witness :
  exists d, ui_post_event answer_40 5 (Some (mkEvent UI_EVENT_MOUSE_DOWN 17 17 0 0 false)) ui0 = Ret false (set_screen d ui0).
Proof.
  destruct (event_not_deeper answer_40 wants_40 ui0 kids0 8 [24] (mkEvent UI_EVENT_MOUSE_DOWN 17 17 0 0 false) 5) as [Hc _].
  - intros f a e s. exists (ui_screen s). by destruct s.
  - exact ui0_inv.
  - reflexivity.
  - reflexivity.
  - by intros w [= <-].
  - cbn. lia.
  - reflexivity.
  - exact (Hc [] 24 eq_refl ltac:(set_solver) eq_refl).
Defined.

Lemma focus_dangles_witness :
  exists s', ui_destroy_widget 3 24 ui0 = Ret tt s' /\ ui_set_focus (λ _ _ _, ret tt) 8 s' = Stuck.
Proof.
  apply (focus_dangles (λ _ _ _, ret tt) ui0 kids0 24 8 {[24; 40]} 3 ui0_inv (mk_is_Some _ _ eq_refl) below0_24); [apply Nat.ltb_lt; reflexivity|reflexivity|discriminate].
Defined.
End widget_witnesses.
