(* ===== verification/Safemode.v ===== *)
(** * Safe mode (kernel/safemode.c)

    The strings are char arrays with their capacity; an access outside one is undefined.  The
    screen is a [display] behind the state of safe mode, the files are read from the nodes of
    the file system, and the tick counter and the mouse are arguments. *)

From S2P Require Import Prelude CMem CString Vfs PageSource Heap Framebuffer Windows ShellState Text.

Definition SM_BG : Z := 0x0A0A0A.
Definition SM_HEADER_BG : Z := 0x1A0000.
Definition SM_HEADER_FG : Z := 0xFF4444.
Definition SM_TEXT_FG : Z := 0xCCCCCC.
Definition SM_DIM_FG : Z := 0x666666.
Definition SM_GREEN_FG : Z := 0x44FF88.
Definition SM_BTN_BG : Z := 0x1E1E1E.
Definition SM_BTN_BG_HOVER : Z := 0x2A2A2A.
Definition SM_BTN_BORDER : Z := 0x444444.
Definition SM_BTN_BORDER_HOVER : Z := 0x888888.
Definition SM_BTN_TEXT : Z := 0xFFFFFF.
Definition SM_FONT_W : Z := 8.
Definition SM_FONT_H : Z := 16.
Definition SM_HEADER_H : Z := 48.
Definition SM_STATUS_H : Z := 24.
Definition SM_MAX_LINES : Z := 64.
Definition SM_LINE_LEN : Z := 256.
Definition SM_BTN_W : Z := 220.
Definition SM_BTN_H : Z := 48.
Definition SM_BTN_GAP : Z := 24.

(** What a button does: reset the machine, or write the ports of the power management and halt. *)
Inductive sm_action := sm_action_restart | sm_action_shutdown (ports : list (Z * Z)).
Record sm_button_t := mkButton { sb_label : list Z; sb_x : Z; sb_y : Z; sb_w : Z; sb_h : Z; sb_action : sm_action }.

Record safemode := mkSafe {
  sm_active : bool; sm_reason : list Z; sm_lines : list (list Z); sm_line_colors : list Z; sm_line_count : Z;
  sm_buttons : list sm_button_t
}.
Definition power_off : sm_action := sm_action_shutdown [(0x604, 0x2000); (0xB004, 0x2000)].
Definition sm_buttons_start : list sm_button_t :=
  [mkButton (str "Restart MiraOS") 0 0 SM_BTN_W SM_BTN_H sm_action_restart;
   mkButton (str "Shutdown MiraOS") 0 0 SM_BTN_W SM_BTN_H power_off].
Definition SM_BUTTON_COUNT : Z := 2.
Definition safemode_start : safemode :=
  mkSafe false (replicate 128 0) (replicate 64 (replicate 256 0)) (replicate 64 0) 0 sm_buttons_start.

Definition set_reason (r : list Z) (s : safemode) : safemode := mkSafe (sm_active s) r (sm_lines s) (sm_line_colors s) (sm_line_count s) (sm_buttons s).
Definition set_log (l : list (list Z)) (c : list Z) (n : Z) (s : safemode) : safemode := mkSafe (sm_active s) (sm_reason s) l c n (sm_buttons s).
Definition set_buttons (b : list sm_button_t) (s : safemode) : safemode :=
  mkSafe (sm_active s) (sm_reason s) (sm_lines s) (sm_line_colors s) (sm_line_count s) b.
Definition set_active (b : bool) (s : safemode) : safemode := mkSafe b (sm_reason s) (sm_lines s) (sm_line_colors s) (sm_line_count s) (sm_buttons s).

(** ** Strings *)

(** [while (src[i] && i < max - 1) { dst[i] = src[i]; i++; } dst[i] = 0;], the rest of [src] in hand. *)
Fixpoint sm_copy_loop (dst src : list Z) (i max : Z) : option (list Z) :=
  match src with
  | [] => None
  | c :: r => if truth c && (i <? max - 1) then aset dst i c ≫= λ dst, sm_copy_loop dst r (i + 1) max else aset dst i 0
  end.
Definition sm_str_copy (dst src : list Z) (max : Z) : option (list Z) := sm_copy_loop dst src 0 max.
Definition sm_str_len (s : list Z) : option Z := strlen s.
Fixpoint sm_cat_loop (dst src : list Z) (dlen i max : Z) : option (list Z) :=
  match src with
  | [] => None
  | c :: r =>
      if truth c && (dlen + i <? max - 1) then aset dst (dlen + i) c ≫= λ dst, sm_cat_loop dst r dlen (i + 1) max
      else aset dst (dlen + i) 0
  end.
Definition sm_str_cat (dst src : list Z) (max : Z) : option (list Z) :=
  sm_str_len dst ≫= λ dlen, sm_cat_loop dst src dlen 0 max.
(** The characters [l] and a terminator, from [i] on. *)
Fixpoint put_chars (buf l : list Z) (i : Z) : option (list Z) :=
  match l with
  | [] => aset buf i 0
  | c :: r => aset buf i c ≫= λ buf, put_chars buf r (i + 1)
  end.
Definition sm_uint_to_str (v : Z) (buf : list Z) : option (list Z) := put_chars buf (uint64_to_str v) 0.
(** A literal, with its terminator. *)
Definition lit (s : string) : list Z := ShellState.str s ++ [0].

Definition sm_point_in_rect (px py x y w h : Z) : bool :=
  (s32 x <=? px) && (px <? s32 (u32 (x + w))) && (s32 y <=? py) && (py <? s32 (u32 (y + h))).

Section log_code.
Variable uninit : nat -> list Z.

Definition sm_print (msg : list Z) (color : Z) : M safemode unit :=
  s <-- get ;;
  if SM_MAX_LINES <=? sm_line_count s then ret tt
  else
    line <-- of_option (aget (sm_lines s) (sm_line_count s)) ;;
    line <-- of_option (sm_str_copy line msg SM_LINE_LEN) ;;
    lines <-- of_option (aset (sm_lines s) (sm_line_count s) line) ;;
    colors <-- of_option (aset (sm_line_colors s) (sm_line_count s) color) ;;
    put (set_log lines colors (sm_line_count s + 1) s).

(** [while (child) { ... child = child->next_sibling; }] *)
Fixpoint list_loop (fuel : nat) (nodes : gmap Z vfs_node) (child : Z) : M safemode unit :=
  match fuel with
  | O => nofuel
  | S fuel' =>
      if child =? 0 then ret tt
      else
        line <-- of_option (sm_str_copy (uninit 256) (lit "    ") SM_LINE_LEN) ;;
        n <-- of_option (nodes !! child) ;;
        line <-- of_option (sm_str_cat line (n_name n ++ [0]) SM_LINE_LEN) ;;
        line <-- (if n_type n =? VFS_TYPE_DIR then of_option (sm_str_cat line (lit "/") SM_LINE_LEN) else ret line) ;;
        sm_print line SM_TEXT_FG ;;;
        list_loop fuel' nodes (n_next n)
  end.

(** [fb], [ticks] and the nodes of the file system are only read. *)
Definition sm_collect_diagnostics (fuel : nat) (ticks : Z) (f : framebuffer_t) (nodes : gmap Z vfs_node) (root : Z) : M safemode unit :=
  sm_print (lit "  System diagnostics") SM_GREEN_FG ;;;
  buf <-- of_option (sm_str_copy (uninit 128) (lit "  Uptime : ") 128) ;;
  tmp <-- of_option (sm_uint_to_str (ticks / 100) (uninit 24)) ;;
  buf <-- of_option (sm_str_cat buf tmp 128) ;;
  buf <-- of_option (sm_str_cat buf (lit " seconds") 128) ;;
  sm_print buf SM_TEXT_FG ;;;
  buf <--
    (if ready f then
       buf <-- of_option (sm_str_copy buf (lit "  Display: ") 128) ;;
       wbuf <-- of_option (sm_uint_to_str (fb_width f) (uninit 12)) ;;
       hbuf <-- of_option (sm_uint_to_str (fb_height f) (uninit 12)) ;;
       buf <-- of_option (sm_str_cat buf wbuf 128) ;;
       buf <-- of_option (sm_str_cat buf (lit "x") 128) ;;
       buf <-- of_option (sm_str_cat buf hbuf 128) ;;
       buf <-- of_option (sm_str_cat buf (lit " 32bpp") 128) ;;
       sm_print buf SM_TEXT_FG ;;;
       ret buf
     else sm_print (lit "  Display: not available") SM_HEADER_FG ;;; ret buf) ;;
  buf <-- of_option (sm_str_copy buf (lit "  Reason : ") 128) ;;
  s <-- get ;;
  buf <-- of_option (sm_str_cat buf (sm_reason s) 128) ;;
  sm_print buf SM_HEADER_FG ;;;
  if root =? 0 then ret tt
  else
    sm_print (lit "") SM_TEXT_FG ;;;
    sm_print (lit "  Files in /:") SM_GREEN_FG ;;;
    n <-- of_option (nodes !! root) ;;
    (if n_children n =? 0 then sm_print (lit "    (empty)") SM_DIM_FG else ret tt) ;;;
    list_loop fuel nodes (n_children n).

(** The start of [safemode_enter], before its loop. *)
Definition safemode_begin (fuel : nat) (reason : option (list Z)) (ticks : Z) (f : framebuffer_t) (nodes : gmap Z vfs_node) (root : Z) : M safemode unit :=
  modify (set_active true) ;;;
  s <-- get ;;
  r <-- of_option (sm_str_copy (sm_reason s) (match reason with Some (c :: l) => (c :: l) ++ [0] | _ => lit "unknown" end) 128) ;;
  modify (set_reason r) ;;;
  modify (λ s, set_log (sm_lines s) (sm_line_colors s) 0 s) ;;;
  sm_collect_diagnostics fuel ticks f nodes root.
End log_code.

(** ** What the strings hold *)

Section strings.
Implicit Types (l s d buf : list Z).

Lemma aset_mid (pre tail : list Z) x c i : i = Z.of_nat (length pre) -> aset (pre ++ x :: tail) i c = Some (pre ++ c :: tail).
Proof.
  intros ->. rewrite aset_in by (rewrite length_app; cbn; lia). rewrite Nat2Z.id. f_equal.
  rewrite insert_app_r_alt by lia. by rewrite Nat.sub_diag.
Qed.

Lemma copy_loop_spec pre tail s rest i max :
  chars s -> i = Z.of_nat (length pre) -> i <= max - 1 -> max <= Z.of_nat (length (pre ++ tail)) ->
  exists tail', sm_copy_loop (pre ++ tail) (s ++ 0 :: rest) i max = Some (pre ++ take (Z.to_nat (max - 1 - i)) s ++ 0 :: tail') /\
    length (pre ++ take (Z.to_nat (max - 1 - i)) s ++ 0 :: tail') = length (pre ++ tail).
Proof.
  revert pre tail i. induction s as [|c s IH]; intros pre tail i Hs Hi Hm Hlen.
  - destruct tail as [|x tail]; [rewrite app_nil_r in Hlen; lia|]. exists tail. cbn [app sm_copy_loop]. change (truth 0) with false. cbn [andb].
    rewrite (aset_mid pre tail x 0 i Hi). rewrite take_nil. split; [done|]. by rewrite !length_app.
  - apply chars_cons in Hs as [Hc Hs]. cbn [app sm_copy_loop]. rewrite truth_char by done. cbn [andb].
    destruct tail as [|x tail]; [rewrite app_nil_r in Hlen; lia|]. destruct (Z.ltb_spec i (max - 1)).
    + rewrite (aset_mid pre tail x c i Hi). cbn [mbind option_bind].
      destruct (IH (pre ++ [c]) tail (i + 1) Hs) as (tail' & E & El); [rewrite length_app; cbn; lia|lia|rewrite <- app_assoc; rewrite !length_app in *; cbn in *; lia|].
      exists tail'. replace (Z.to_nat (max - 1 - i)) with (S (Z.to_nat (max - 1 - (i + 1)))) by lia. cbn [take].
      rewrite <- !app_assoc in E, El. cbn [app] in E, El. split; [exact E|]. etrans; [exact El|]. by rewrite !length_app.
    + exists tail. rewrite (aset_mid pre tail x 0 i Hi). replace (Z.to_nat (max - 1 - i)) with 0%nat by lia. split; [done|]. by rewrite !length_app.
Qed.

(** [sm_str_copy] cuts the string to [max] - 1 characters. *)
Lemma sm_copy_run dst src s max :
  cstr src s -> 1 <= max <= Z.of_nat (length dst) ->
  exists buf, sm_str_copy dst src max = Some buf /\ length buf = length dst /\ cstr buf (take (Z.to_nat (max - 1)) s).
Proof.
  intros [Hs [rest ->]] Hm. destruct (copy_loop_spec [] dst s rest 0 max Hs) as (tail & E & El); [done|lia|cbn [app]; lia|].
  rewrite Z.sub_0_r in E, El. cbn [app] in E, El. eexists. split; [exact E|]. split; [exact El|]. apply cstr_app. by apply Forall_take.
Qed.

Lemma cat_copy dst src dlen i max : sm_cat_loop dst src dlen i max = sm_copy_loop dst src (dlen + i) max.
Proof.
  revert dst i. induction src as [|c src IH]; intros dst i; [done|]. cbn [sm_cat_loop sm_copy_loop]. destruct (truth c && (dlen + i <? max - 1)); [|done].
  destruct (aset dst (dlen + i) c); [|done]. cbn [mbind option_bind]. rewrite IH. f_equal. lia.
Qed.

(** [sm_str_cat] appends and cuts the result to [max] - 1 characters. *)
Lemma sm_cat_run dst d src s max :
  cstr dst d -> cstr src s -> Z.of_nat (length d) < max <= Z.of_nat (length dst) ->
  exists buf, sm_str_cat dst src max = Some buf /\ length buf = length dst /\ cstr buf (take (Z.to_nat (max - 1)) (d ++ s)).
Proof.
  intros Hd [Hs [rest ->]] Hm. unfold sm_str_cat, sm_str_len. rewrite (strlen_spec dst d Hd). cbn [mbind option_bind]. rewrite cat_copy, Z.add_0_r.
  destruct Hd as [Hd [tail ->]].
  destruct (copy_loop_spec d (0 :: tail) s rest (Z.of_nat (length d)) max Hs) as (tail' & E & El); [done|lia|lia|].
  eexists. split; [exact E|]. split; [exact El|]. rewrite take_app. replace (take (Z.to_nat (max - 1)) d) with d by (symmetry; apply take_ge; lia).
  replace (Z.to_nat (max - 1) - length d)%nat with (Z.to_nat (max - 1 - Z.of_nat (length d))) by lia.
  rewrite app_assoc. apply cstr_app. apply Forall_app. split; [done|by apply Forall_take].
Qed.

Lemma put_chars_spec pre tail l i :
  i = Z.of_nat (length pre) -> (length l < length tail)%nat ->
  exists tail', put_chars (pre ++ tail) l i = Some (pre ++ l ++ 0 :: tail') /\ length (pre ++ l ++ 0 :: tail') = length (pre ++ tail).
Proof.
  revert pre tail i. induction l as [|c l IH]; intros pre tail i Hi Hlen; (destruct tail as [|x tail]; [cbn in Hlen; lia|]); cbn [put_chars].
  - exists tail. rewrite (aset_mid pre tail x 0 i Hi). split; [done|]. by rewrite !length_app.
  - rewrite (aset_mid pre tail x c i Hi). cbn [mbind option_bind]. destruct (IH (pre ++ [c]) tail (i + 1)) as (tail' & E & El);
      [rewrite length_app; cbn; lia|cbn in Hlen; lia|]. exists tail'. rewrite <- !app_assoc in E, El. cbn [app] in E, El. split; [exact E|]. etrans; [exact El|]. by rewrite !length_app.
Qed.

(** A number of at most [n] digits, in decimal. *)
Lemma uint_digits v n : 0 <= v < 10 ^ Z.of_nat n -> (n <= 20)%nat -> (0 < n)%nat -> (length (uint64_to_str v) <= n)%nat /\ chars (uint64_to_str v).
Proof.
  intros Hv Hn Hn0. unfold uint64_to_str. destruct (Z.eqb_spec v 0); [split; [cbn; lia|repeat constructor; lia]|].
  assert (forall fuel w tmp m, 0 <= w < 10 ^ Z.of_nat m -> chars tmp -> (length (digits_loop fuel w tmp) <= length tmp + m)%nat /\ chars (digits_loop fuel w tmp)) as Hgo.
  { clear. induction fuel as [|fuel IH]; intros w tmp m Hw Ht; cbn [digits_loop]; [split; [lia|done]|]. destruct (Z.ltb_spec 0 w); [|split; [lia|done]].
    destruct m as [|m]; [cbn in Hw; lia|]. rewrite Nat2Z.inj_succ, Z.pow_succ_r in Hw by lia.
    destruct (IH (w / 10) (tmp ++ [48 + w mod 10]) m) as [E1 E2].
    - split; [apply Z.div_pos; lia|apply Z.div_lt_upper_bound; lia].
    - apply Forall_app. split; [done|]. constructor; [|constructor]. pose proof (Z.mod_pos_bound w 10). lia.
    - rewrite length_app in E1. cbn in E1. split; [lia|done]. }
  destruct (Hgo 20%nat v [] n Hv ltac:(constructor)) as [H1 H2]. rewrite length_rev. cbn [length] in H1. split; [lia|]. by apply Forall_rev.
Qed.

Lemma sm_uint_run v n buf : 0 <= v < 10 ^ Z.of_nat n -> (n <= 20)%nat -> (0 < n)%nat -> (n < length buf)%nat ->
  exists buf', sm_uint_to_str v buf = Some buf' /\ cstr buf' (uint64_to_str v).
Proof.
  intros Hv Hn Hn0 Hb. destruct (uint_digits v n Hv Hn Hn0) as [Hl Hc]. unfold sm_uint_to_str.
  destruct (put_chars_spec [] buf (uint64_to_str v) 0 eq_refl ltac:(lia)) as (tail & E & _). eexists. split; [exact E|]. by apply cstr_app.
Qed.

Lemma lit_cstr (s : string) : chars (ShellState.str s) -> cstr (lit s) (ShellState.str s).
Proof. intros Hs. by apply cstr_app. Qed.
End strings.

(** ** The log *)

Section log.
Variable uninit : nat -> list Z.
Hypothesis uninit_length : forall n, length (uninit n) = n.
Implicit Types (s : safemode) (L : list (list Z * Z)).

(** The log of safe mode holds the lines [L]. *)
Record logged s L : Prop := {
  lg_lines : length (sm_lines s) = 64%nat /\ Forall (λ l, length l = 256%nat) (sm_lines s);
  lg_colors : length (sm_line_colors s) = 64%nat;
  lg_count : sm_line_count s = Z.of_nat (length L) /\ (length L <= 64)%nat;
  lg_text : forall i t c, L !! i = Some (t, c) -> exists buf, sm_lines s !! i = Some buf /\ cstr buf t /\ sm_line_colors s !! i = Some c
}.

(** One more line, cut to its room; when there are 64 it is dropped. *)
Definition log_line L (t : list Z) (c : Z) : list (list Z * Z) := take 64 (L ++ [(take 255 t, c)]).

(** Only the log changes. *)
Definition same_but_log s s' : Prop := sm_active s' = sm_active s /\ sm_reason s' = sm_reason s /\ sm_buttons s' = sm_buttons s.

Lemma sm_print_run s L msg t c :
  logged s L -> cstr msg t -> exists s', sm_print msg c s = Ret tt s' /\ logged s' (log_line L t c) /\ same_but_log s s'.
Proof.
  intros [[Hl Hll] Hc [Hn Hn64] Ht] Hm. unfold sm_print, SM_MAX_LINES. rewrite bind_get, Hn. unfold log_line.
  destruct (Z.leb_spec 64 (Z.of_nat (length L))).
  - exists s. split; [done|]. split; [|done]. rewrite take_app_le by lia. rewrite take_ge by lia. by split.
  - destruct (lookup_lt_is_Some_2 (sm_lines s) (length L)) as [line El]; [lia|].
    pose proof (Forall_lookup_1 _ _ _ _ Hll El) as Hline. cbn beta in Hline.
    unfold aget. destruct (Z.ltb_spec (Z.of_nat (length L)) 0); [lia|]. rewrite Nat2Z.id, El, bind_option.
    destruct (sm_copy_run line msg t 256 Hm ltac:(lia)) as (buf & Eb & Hb & Hcs). unfold SM_LINE_LEN. rewrite Eb, bind_option.
    rewrite !aset_in by lia. rewrite !bind_option, Nat2Z.id. eexists. split; [reflexivity|]. split; [|done].
    rewrite take_ge by (rewrite length_app; cbn; lia). split; cbn [sm_lines sm_line_colors sm_line_count set_log].
    + rewrite length_insert. split; [done|]. apply Forall_insert; [done|]. by rewrite Hb.
    + by rewrite length_insert.
    + rewrite length_app. cbn. lia.
    + intros i ti ci Hi. apply lookup_app_Some in Hi as [Hi|[Hge Hi]].
      * apply lookup_lt_Some in Hi as Hlt. rewrite !list_lookup_insert_ne by lia. by apply Ht.
      * apply list_lookup_singleton_Some in Hi as [Hi [= <- <-]]. replace i with (length L) by lia. exists buf.
        rewrite !list_lookup_insert_eq by lia. split; [done|]. split; [|done]. exact Hcs.
Qed.

Lemma log_line_take X t c : log_line (take 64 X) t c = take 64 (X ++ [(take 255 t, c)]).
Proof.
  unfold log_line. destruct (decide (length X <= 64)%nat); [by rewrite (take_ge X) by done|].
  rewrite !take_app_le by (rewrite ?length_take; lia). by rewrite take_take, Nat.min_id.
Qed.

(** A line for a file of the root. *)
Definition entry (n : vfs_node) : list Z :=
  take 255 (take 255 (ShellState.str "    " ++ n_name n) ++ (if n_type n =? VFS_TYPE_DIR then ShellState.str "/" else [])).

Lemma entry_run n line :
  chars (n_name n) -> sm_str_copy (uninit 256) (lit "    ") SM_LINE_LEN = Some line ->
  exists a b, sm_str_cat line (n_name n ++ [0]) SM_LINE_LEN = Some a /\
    (forall s, (if n_type n =? VFS_TYPE_DIR then of_option (sm_str_cat a (lit "/") SM_LINE_LEN) else ret a) s = Ret b s) /\ cstr b (entry n).
Proof.
  intros Hn El. unfold SM_LINE_LEN in *.
  destruct (sm_copy_run (uninit 256) (lit "    ") (ShellState.str "    ") 256) as (line' & El' & Hl & Hc); [apply lit_cstr; repeat constructor; lia|rewrite uninit_length; lia|].
  assert (line' = line) as -> by congruence. rewrite uninit_length in Hl. rewrite take_ge in Hc by (cbn; lia).
  destruct (sm_cat_run line (ShellState.str "    ") (n_name n ++ [0]) (n_name n) 256 Hc) as (a & Ea & Ha & Hca); [by apply cstr_app|cbn; lia|].
  rewrite Hl in Ha. change (Z.to_nat (256 - 1)) with 255%nat in *. unfold entry. destruct (n_type n =? VFS_TYPE_DIR).
  - assert (length (take 255 (ShellState.str "    " ++ n_name n)) <= 255)%nat by (rewrite length_take; lia).
    destruct (sm_cat_run a _ (lit "/") (ShellState.str "/") 256 Hca) as (b & Eb & Hb & Hcb); [apply lit_cstr; repeat constructor; lia|lia|].
    exists a, b. split; [done|]. split; [intros s; by rewrite Eb|exact Hcb].
  - exists a, a. split; [done|]. split; [done|]. rewrite app_nil_r, take_take. by rewrite Nat.min_id.
Qed.

Lemma list_loop_run fuel nodes child l s X :
  sibs nodes child l -> (forall x n, x ∈ l -> nodes !! x = Some n -> chars (n_name n)) -> (length l < fuel)%nat -> logged s (take 64 X) ->
  exists s' ns, list_loop uninit fuel nodes child s = Ret tt s' /\ Forall2 (λ x n, nodes !! x = Some n) l ns /\
    logged s' (take 64 (X ++ ((λ n, (take 255 (entry n), SM_TEXT_FG)) <$> ns))) /\ same_but_log s s'.
Proof.
  revert child s X fuel. induction l as [|x l IH]; intros child s X fuel Hs Hn Hf HX; (destruct fuel as [|fuel]; [cbn in Hf; lia|]); cbn [list_loop sibs] in *.
  - subst child. exists s, []. split; [done|]. split; [constructor|]. by rewrite app_nil_r.
  - destruct Hs as (-> & Hx & n & En & Hs). destruct (Z.eqb_spec x 0); [done|].
    destruct (sm_copy_run (uninit 256) (lit "    ") (ShellState.str "    ") 256) as (line & El & _); [apply lit_cstr; repeat constructor; lia|rewrite uninit_length; lia|].
    unfold SM_LINE_LEN in *. rewrite El, bind_option, En, bind_option.
    destruct (entry_run n line (Hn x n ltac:(set_solver) En) El) as (a & b & Ea & Eb & Hb). unfold SM_LINE_LEN in *.
    rewrite Ea, bind_option, (bind_Ret _ _ _ _ _ (Eb s)). destruct (sm_print_run s _ b _ SM_TEXT_FG HX Hb) as (s1 & E1 & H1 & Hs1).
    rewrite (bind_Ret _ _ _ _ _ E1). rewrite log_line_take in H1.
    destruct (IH (n_next n) s1 _ fuel Hs ltac:(intros y m Hy; apply Hn; by apply elem_of_cons; right) ltac:(cbn in Hf; lia) H1) as (s' & ns & E' & Hns & H' & Hs').
    exists s', (n :: ns). split; [exact E'|]. split; [by constructor|]. rewrite <- app_assoc in H'. split; [exact H'|].
    destruct Hs1 as (? & ? & ?), Hs' as (? & ? & ?). repeat split; congruence.
Qed.

(** What the log says. *)
Definition uptime_text (ticks : Z) : list Z := ShellState.str "  Uptime : " ++ uint64_to_str (ticks / 100) ++ ShellState.str " seconds".
Definition display_text (f : framebuffer_t) : list Z :=
  ShellState.str "  Display: " ++ uint64_to_str (fb_width f) ++ ShellState.str "x" ++ uint64_to_str (fb_height f) ++ ShellState.str " 32bpp".
Definition report (ticks : Z) (f : framebuffer_t) (reason : list Z) (files : option (list vfs_node)) : list (list Z * Z) :=
  [(ShellState.str "  System diagnostics", SM_GREEN_FG);
   (uptime_text ticks, SM_TEXT_FG);
   (if ready f then (display_text f, SM_TEXT_FG) else (ShellState.str "  Display: not available", SM_HEADER_FG));
   (take 127 (ShellState.str "  Reason : " ++ reason), SM_HEADER_FG)] ++
  match files with
  | None => []
  | Some ns => [([], SM_TEXT_FG); (ShellState.str "  Files in /:", SM_GREEN_FG)] ++
               (if decide (ns = []) then [(ShellState.str "    (empty)", SM_DIM_FG)] else []) ++ ((λ n, (entry n, SM_TEXT_FG)) <$> ns)
  end.

Ltac lit_chars := apply lit_cstr; repeat constructor; lia.

(** [sm_str_cat] of a string that fits. *)
Lemma cat_fits dst d src t max :
  cstr dst d -> cstr src t -> Z.of_nat (length d) + Z.of_nat (length t) < max <= Z.of_nat (length dst) ->
  exists buf, sm_str_cat dst src max = Some buf /\ length buf = length dst /\ cstr buf (d ++ t).
Proof.
  intros Hd Ht Hm. destruct (sm_cat_run dst d src t max Hd Ht ltac:(lia)) as (buf & E & Hl & Hc). exists buf. split; [done|]. split; [done|].
  rewrite take_ge in Hc; [done|]. rewrite length_app. lia.
Qed.

Lemma copy_fits dst src t max :
  cstr src t -> Z.of_nat (length t) < max <= Z.of_nat (length dst) -> exists buf, sm_str_copy dst src max = Some buf /\ length buf = length dst /\ cstr buf t.
Proof.
  intros Ht Hm. destruct (sm_copy_run dst src t max Ht ltac:(lia)) as (buf & E & Hl & Hc). exists buf. split; [done|]. split; [done|].
  by rewrite take_ge in Hc by lia.
Qed.

Lemma print_fits s X msg t c :
  logged s (take 64 X) -> cstr msg t -> (length t <= 255)%nat ->
  exists s', sm_print msg c s = Ret tt s' /\ logged s' (take 64 (X ++ [(t, c)])) /\ same_but_log s s'.
Proof.
  intros HX Hm Hl. destruct (sm_print_run s _ msg t c HX Hm) as (s' & E & H & Hs). exists s'. split; [done|]. split; [|done].
  rewrite log_line_take in H. by rewrite (take_ge t) in H by done.
Qed.

Lemma entry_cut n : take 255 (entry n) = entry n.
Proof. unfold entry. by rewrite take_take. Qed.

Lemma but_log_trans s1 s2 s3 : same_but_log s1 s2 -> same_but_log s2 s3 -> same_but_log s1 s3.
Proof. intros (? & ? & ?) (? & ? & ?). repeat split; congruence. Qed.

(** The two lines of the machine. *)
Lemma uptime_run ticks : 0 <= ticks < 2 ^ 64 ->
  exists b0 tmp b1 b2, sm_str_copy (uninit 128) (lit "  Uptime : ") 128 = Some b0 /\ sm_uint_to_str (ticks / 100) (uninit 24) = Some tmp /\
    sm_str_cat b0 tmp 128 = Some b1 /\ sm_str_cat b1 (lit " seconds") 128 = Some b2 /\ length b2 = 128%nat /\ cstr b2 (uptime_text ticks) /\
    (length (uptime_text ticks) <= 255)%nat.
Proof.
  intros Ht. assert (0 <= ticks / 100 < 10 ^ Z.of_nat 18) as Hv by (split; [apply Z.div_pos; lia|apply Z.div_lt_upper_bound; cbn; lia]).
  destruct (uint_digits (ticks / 100) 18 Hv) as [Hd _]; [lia|lia|].
  destruct (copy_fits (uninit 128) (lit "  Uptime : ") (ShellState.str "  Uptime : ") 128) as (b0 & E0 & L0 & C0); [lit_chars|rewrite uninit_length; cbn; lia|].
  rewrite uninit_length in L0. destruct (sm_uint_run (ticks / 100) 18 (uninit 24) Hv) as (tmp & Et & Ct); [lia|lia|rewrite uninit_length; lia|].
  destruct (cat_fits b0 _ tmp _ 128 C0 Ct) as (b1 & E1 & L1 & C1); [cbn [length ShellState.str]; cbn; lia|].
  destruct (cat_fits b1 _ (lit " seconds") (ShellState.str " seconds") 128 C1) as (b2 & E2 & L2 & C2); [lit_chars|rewrite length_app; cbn; lia|].
  rewrite <- app_assoc in C2. exists b0, tmp, b1, b2. repeat (split; [done|]). split; [congruence|]. split; [exact C2|].
  unfold uptime_text. rewrite !length_app. cbn. lia.
Qed.

Lemma display_run f buf : 0 <= fb_width f < 2 ^ 32 -> 0 <= fb_height f < 2 ^ 32 -> length buf = 128%nat ->
  exists b0 wbuf hbuf b1 b2 b3 b4, sm_str_copy buf (lit "  Display: ") 128 = Some b0 /\ sm_uint_to_str (fb_width f) (uninit 12) = Some wbuf /\
    sm_uint_to_str (fb_height f) (uninit 12) = Some hbuf /\ sm_str_cat b0 wbuf 128 = Some b1 /\ sm_str_cat b1 (lit "x") 128 = Some b2 /\
    sm_str_cat b2 hbuf 128 = Some b3 /\ sm_str_cat b3 (lit " 32bpp") 128 = Some b4 /\ length b4 = 128%nat /\ cstr b4 (display_text f) /\
    (length (display_text f) <= 255)%nat.
Proof.
  intros Hw Hh Hb. assert (forall v, 0 <= v < 2 ^ 32 -> 0 <= v < 10 ^ Z.of_nat 10) as Hv by (intros v; cbn; lia).
  destruct (uint_digits _ 10 (Hv _ Hw)) as [Hdw _]; [lia|lia|]. destruct (uint_digits _ 10 (Hv _ Hh)) as [Hdh _]; [lia|lia|].
  destruct (copy_fits buf (lit "  Display: ") (ShellState.str "  Display: ") 128) as (b0 & E0 & L0 & C0); [lit_chars|rewrite Hb; cbn; lia|].
  destruct (sm_uint_run _ 10 (uninit 12) (Hv _ Hw)) as (wb & Ew & Cw); [lia|lia|rewrite uninit_length; lia|].
  destruct (sm_uint_run _ 10 (uninit 12) (Hv _ Hh)) as (hb & Eh & Ch); [lia|lia|rewrite uninit_length; lia|].
  destruct (cat_fits b0 _ wb _ 128 C0 Cw) as (b1 & E1 & L1 & C1); [cbn; lia|].
  destruct (cat_fits b1 _ (lit "x") (ShellState.str "x") 128 C1) as (b2 & E2 & L2 & C2); [lit_chars|rewrite length_app; cbn; lia|].
  destruct (cat_fits b2 _ hb _ 128 C2 Ch) as (b3 & E3 & L3 & C3); [rewrite !length_app; cbn; lia|].
  destruct (cat_fits b3 _ (lit " 32bpp") (ShellState.str " 32bpp") 128 C3) as (b4 & E4 & L4 & C4); [lit_chars|rewrite !length_app; cbn; lia|].
  rewrite <- !app_assoc in C4. exists b0, wb, hb, b1, b2, b3, b4. repeat (split; [done|]). split; [congruence|]. split; [exact C4|].
  unfold display_text. rewrite !length_app. cbn. lia.
Qed.

(** The files in the root directory, by the links of the nodes. *)
Definition root_files (fuel : nat) (nodes : gmap Z vfs_node) (root : Z) (files : option (list vfs_node)) : Prop :=
  match files with
  | None => root = 0
  | Some ns =>
      exists n l, root <> 0 /\ nodes !! root = Some n /\ sibs nodes (n_children n) l /\ (length l < fuel)%nat /\
        Forall2 (λ x n, nodes !! x = Some n) l ns /\ Forall (λ n, chars (n_name n)) ns
  end.

(** The listing of the root. *)
Lemma files_run fuel nodes root files s X :
  root_files fuel nodes root files -> logged s (take 64 X) ->
  exists s', (if root =? 0 then ret tt
     else sm_print (lit "") SM_TEXT_FG ;;; sm_print (lit "  Files in /:") SM_GREEN_FG ;;; n <-- of_option (nodes !! root) ;;
       (if n_children n =? 0 then sm_print (lit "    (empty)") SM_DIM_FG else ret tt) ;;; list_loop uninit fuel nodes (n_children n)) s = Ret tt s' /\
    same_but_log s s' /\ logged s' (take 64 (X ++ match files with None => [] | Some ns => [([], SM_TEXT_FG); (ShellState.str "  Files in /:", SM_GREEN_FG)] ++
      (if decide (ns = []) then [(ShellState.str "    (empty)", SM_DIM_FG)] else []) ++ ((λ n, (entry n, SM_TEXT_FG)) <$> ns) end)).
Proof.
  intros Hf HX. destruct files as [ns|]; cbn [root_files] in Hf; [|subst root; exists s; rewrite app_nil_r; done].
  destruct Hf as (n & l & Hr & En & Hs & Hfuel & Hns & Hc). destruct (Z.eqb_spec root 0); [done|].
  destruct (print_fits s X (lit "") [] SM_TEXT_FG HX) as (s1 & E1 & H1 & S1); [lit_chars|cbn; lia|]. rewrite (bind_Ret _ _ _ _ _ E1).
  destruct (print_fits s1 _ (lit "  Files in /:") (ShellState.str "  Files in /:") SM_GREEN_FG H1) as (s2 & E2 & H2 & S2); [lit_chars|cbn; lia|].
  rewrite (bind_Ret _ _ _ _ _ E2), En, bind_option.
  assert (exists s3, (if n_children n =? 0 then sm_print (lit "    (empty)") SM_DIM_FG else ret tt) s2 = Ret tt s3 /\ same_but_log s2 s3 /\
    logged s3 (take 64 (((X ++ [([], SM_TEXT_FG)]) ++ [(ShellState.str "  Files in /:", SM_GREEN_FG)]) ++ (if decide (ns = []) then [(ShellState.str "    (empty)", SM_DIM_FG)] else [])))) as (s3 & E3 & S3 & H3).
  { destruct l as [|x l]; cbn [sibs] in Hs.
    - inversion Hns; subst. rewrite Hs, Z.eqb_refl. destruct (print_fits s2 _ (lit "    (empty)") (ShellState.str "    (empty)") SM_DIM_FG H2) as (s3 & E3 & H3 & S3);
        [lit_chars|cbn; lia|]. exists s3. split; [exact E3|]. split; [exact S3|exact H3].
    - destruct Hs as (-> & Hx & _). destruct (Z.eqb_spec x 0); [done|]. exists s2. split; [done|]. split; [done|].
      rewrite decide_False by (intros ->; inversion Hns). by rewrite app_nil_r. }
  rewrite (bind_Ret _ _ _ _ _ E3).
  destruct (list_loop_run fuel nodes (n_children n) l s3 (((X ++ [([], SM_TEXT_FG)]) ++ [(ShellState.str "  Files in /:", SM_GREEN_FG)]) ++
    (if decide (ns = []) then [(ShellState.str "    (empty)", SM_DIM_FG)] else [])) Hs) as (s4 & ns' & E4 & Hns' & H4 & S4); [|done|done|].
  { intros x m Hx Em. apply list_elem_of_lookup in Hx as [i Hi]. destruct (Forall2_lookup_l _ _ _ _ _ Hns Hi) as (m' & Hm' & Em').
    assert (m' = m) as -> by congruence. by apply (Forall_lookup_1 _ _ _ _ Hc Hm'). }
  assert (ns' = ns) as ->.
  { clear -Hns Hns'. revert ns' Hns'. induction Hns as [|x m l ns Hm _ IH]; intros ns' Hns'; inversion Hns' as [|? m' ? ? Hm']; subst; [done|].
    f_equal; [congruence|by apply IH]. }
  exists s4. split; [exact E4|]. split; [by eapply but_log_trans; [exact S1|eapply but_log_trans; [exact S2|eapply but_log_trans; [exact S3|exact S4]]]|].
  rewrite <- !app_assoc in H4. cbn [app] in *. rewrite (list_fmap_ext _ (λ n, (entry n, SM_TEXT_FG)) ns) in H4; [exact H4|]. intros. by rewrite entry_cut.
Qed.

Lemma collect_run fuel ticks f nodes root files reason s :
  logged s [] -> cstr (sm_reason s) reason -> 0 <= ticks < 2 ^ 64 -> 0 <= fb_width f < 2 ^ 32 -> 0 <= fb_height f < 2 ^ 32 ->
  root_files fuel nodes root files ->
  exists s', sm_collect_diagnostics uninit fuel ticks f nodes root s = Ret tt s' /\ same_but_log s s' /\ logged s' (take 64 (report ticks f reason files)).
Proof.
  intros H0 Hr Ht Hw Hh Hf. unfold sm_collect_diagnostics.
  destruct (print_fits s [] (lit "  System diagnostics") (ShellState.str "  System diagnostics") SM_GREEN_FG) as (s1 & E1 & H1 & S1); [by rewrite take_nil|lit_chars|cbn; lia|].
  rewrite (bind_Ret _ _ _ _ _ E1). destruct (uptime_run ticks Ht) as (b0 & tmp & b1 & b2 & Eb0 & Et & Eb1 & Eb2 & L2 & C2 & N2).
  rewrite Eb0, bind_option, Et, bind_option, Eb1, bind_option, Eb2, bind_option.
  destruct (print_fits s1 _ b2 _ SM_TEXT_FG H1 C2 N2) as (s2 & E2 & H2 & S2). rewrite (bind_Ret _ _ _ _ _ E2).
  match goal with |- context [bind (if ready f then ?a else ?b) ?k] => set (m := if ready f then a else b) end.
  assert (exists s3 buf, m s2 = Ret buf s3 /\ length buf = 128%nat /\ same_but_log s2 s3 /\
    logged s3 (take 64 ((([] ++ [(ShellState.str "  System diagnostics", SM_GREEN_FG)]) ++ [(uptime_text ticks, SM_TEXT_FG)]) ++
      [if ready f then (display_text f, SM_TEXT_FG) else (ShellState.str "  Display: not available", SM_HEADER_FG)]))) as (s3 & buf & E3 & L3 & S3 & H3).
  { unfold m. destruct (ready f).
    - destruct (display_run f b2 Hw Hh L2) as (c0 & wb & hb & c1 & c2 & c3 & c4 & F0 & Fw & Fh & F1 & F2 & F3 & F4 & M4 & D4 & K4).
      rewrite F0, bind_option, Fw, bind_option, Fh, bind_option, F1, bind_option, F2, bind_option, F3, bind_option, F4, bind_option.
      destruct (print_fits s2 _ c4 _ SM_TEXT_FG H2 D4 K4) as (s3 & E3 & H3 & S3). exists s3, c4. rewrite (bind_Ret _ _ _ _ _ E3). done.
    - destruct (print_fits s2 _ (lit "  Display: not available") (ShellState.str "  Display: not available") SM_HEADER_FG H2) as (s3 & E3 & H3 & S3);
        [lit_chars|cbn; lia|]. exists s3, b2. rewrite (bind_Ret _ _ _ _ _ E3). done. }
  rewrite (bind_Ret _ _ _ _ _ E3). clear m E3.
  destruct (copy_fits buf (lit "  Reason : ") (ShellState.str "  Reason : ") 128) as (b3 & Eb3 & L3' & C3); [lit_chars|rewrite L3; cbn; lia|].
  rewrite Eb3, bind_option, bind_get. destruct S1 as (A1 & R1 & U1), S2 as (A2 & R2 & U2), S3 as (A3 & R3 & U3).
  destruct (sm_cat_run b3 _ (sm_reason s3) reason 128 C3) as (b4 & Eb4 & L4 & C4); [by rewrite R3, R2, R1|rewrite L3', L3; cbn; lia|].
  rewrite Eb4, bind_option. change (Z.to_nat (128 - 1)) with 127%nat in C4.
  destruct (print_fits s3 _ b4 _ SM_HEADER_FG H3 C4) as (s4 & E4 & H4 & S4); [rewrite length_take; lia|]. rewrite (bind_Ret _ _ _ _ _ E4).
  destruct (files_run fuel nodes root files s4 _ Hf H4) as (s5 & E5 & S5 & H5). exists s5. split; [exact E5|].
  split; [|unfold report; rewrite <- !app_assoc in H5; exact H5].
  destruct S4 as (A4 & R4 & U4), S5 as (A5 & R5 & U5). repeat split; congruence.
Qed.
End log.

(** ** The screen and the mouse *)

Section screen_code.
Context {OS : Type} `{!PageSource OS}.
Local Abbreviation display := (display OS).
Local Abbreviation sm := (safemode * display)%type.
Variable font : text_state.

Definition on_display {A} (m : M display A) : M sm A := zoom snd (λ d s, (s.1, d)) m.
Definition on_state {A} (m : M safemode A) : M sm A := zoom fst (λ x s, (x, s.2)) m.
(** The string in a char array. *)
Definition string_of (buf : list Z) : option (list Z) := n ← strlen buf; Some (take (Z.to_nat n) buf).

Definition layout_button (start_x y : Z) (i : Z) (b : sm_button_t) : sm_button_t :=
  mkButton (sb_label b) (u32 (start_x + i * (SM_BTN_W + SM_BTN_GAP))) y (sb_w b) (sb_h b) (sb_action b).
Definition sm_layout_buttons (sw sh : Z) : M safemode unit :=
  let total_w := u32 (SM_BUTTON_COUNT * SM_BTN_W + (SM_BUTTON_COUNT - 1) * SM_BTN_GAP) in
  let start_x := if total_w <? sw then (sw - total_w) / 2 else 0 in
  let y := u32 (sh - SM_STATUS_H - SM_BTN_H - 24) in
  modify (λ s, set_buttons (imap (λ i b, layout_button start_x y (Z.of_nat i) b) (sm_buttons s)) s).

(** The lines of the log from [i] on, until they would meet the buttons. *)
Fixpoint draw_log (n : nat) (s : safemode) (sh i : Z) : M display unit :=
  match n with
  | O => ret tt
  | S n' =>
      let y := u32 (SM_HEADER_H + 12 + i * SM_FONT_H) in
      if u32 (sh - SM_STATUS_H - SM_BTN_H - 40) <? u32 (y + SM_FONT_H) then ret tt
      else
        line <-- of_option (aget (sm_lines s) i ≫= string_of) ;;
        color <-- of_option (aget (sm_line_colors s) i) ;;
        text_draw font 8 y line color SM_BG ;;;
        draw_log n' s sh (i + 1)
  end.

Definition draw_button (mouse_x mouse_y : Z) (b : sm_button_t) : M display unit :=
  let hover := sm_point_in_rect mouse_x mouse_y (sb_x b) (sb_y b) (sb_w b) (sb_h b) in
  fb_fill_rect (sb_x b) (sb_y b) (sb_w b) (sb_h b) (if hover then SM_BTN_BG_HOVER else SM_BTN_BG) ;;;
  gfx_draw_rect_outline (sb_x b) (sb_y b) (sb_w b) (sb_h b) (if hover then SM_BTN_BORDER_HOVER else SM_BTN_BORDER) 2 ;;;
  let label_w := u32 (u32 (text_width font (sb_label b)) * SM_FONT_W) in
  let tx := u32 (sb_x b + (if label_w <? sb_w b then (sb_w b - label_w) / 2 else 0)) in
  let ty := u32 (sb_y b + u32 (sb_h b - SM_FONT_H) / 2) in
  text_draw font tx ty (sb_label b) SM_BTN_TEXT (if hover then SM_BTN_BG_HOVER else SM_BTN_BG).
Fixpoint draw_buttons (mouse_x mouse_y : Z) (l : list sm_button_t) : M display unit :=
  match l with
  | [] => ret tt
  | b :: r => draw_button mouse_x mouse_y b ;;; draw_buttons mouse_x mouse_y r
  end.

(** The header and the log. *)
Definition draw_top (s : safemode) (sw sh : Z) : M display unit :=
  fb_fill_rect 0 0 sw sh SM_BG ;;;
  fb_fill_rect 0 0 sw SM_HEADER_H SM_HEADER_BG ;;;
  text_draw font 16 8 (str "MiraOS  SAFE MODE") SM_HEADER_FG SM_HEADER_BG ;;;
  reason <-- of_option (string_of (sm_reason s)) ;;
  text_draw font 16 26 reason SM_DIM_FG SM_HEADER_BG ;;;
  draw_log (Z.to_nat (sm_line_count s)) s sh 0.
(** The cursor, the status bar and the swap. *)
Definition draw_bottom (mouse_x mouse_y sw sh : Z) : M display unit :=
  fb_fill_rect (u32 mouse_x) (u32 mouse_y) 3 12 0xFFFFFF ;;;
  fb_fill_rect (u32 mouse_x) (u32 mouse_y) 12 3 0xFFFFFF ;;;
  fb_fill_rect 0 (u32 (sh - SM_STATUS_H)) sw SM_STATUS_H 0x110000 ;;;
  text_draw font 8 (u32 (sh - SM_STATUS_H + 4)) (str "Click a button to continue  |  safe mode  |  no apps loaded") SM_DIM_FG 0x110000 ;;;
  fb_swap_buffers.

Definition sm_render (mouse_x mouse_y : Z) : M sm unit :=
  ready <-- on_display fb_ready ;;
  if negb ready then ret tt
  else
    f <-- on_display fb_info ;;
    s <-- on_state get ;;
    on_display (draw_top s (fb_width f) (fb_height f)) ;;;
    on_state (sm_layout_buttons (fb_width f) (fb_height f)) ;;;
    s <-- on_state get ;;
    on_display (draw_buttons mouse_x mouse_y (sm_buttons s)) ;;;
    on_display (draw_bottom mouse_x mouse_y (fb_width f) (fb_height f)).

(** What the mouse says in one round. *)
Record sm_input := mkInput { in_x : Z; in_y : Z; in_down : bool }.
Definition in_button (i : sm_input) (b : sm_button_t) : bool := sm_point_in_rect (in_x i) (in_y i) (sb_x b) (sb_y b) (sb_w b) (sb_h b).

(** The loop of [safemode_enter] for the rounds [l]; an action does not return. *)
Fixpoint sm_loop (l : list sm_input) (prev_button_down : bool) : M sm (option sm_action) :=
  match l with
  | [] => ret None
  | i :: r =>
      s <-- on_state get ;;
      match (if in_down i && negb prev_button_down then find (in_button i) (sm_buttons s) else None) with
      | Some b => ret (Some (sb_action b))
      | None => sm_render (in_x i) (in_y i) ;;; sm_loop r (in_down i)
      end
  end.
Definition safemode_is_active : M sm bool := s <-- on_state get ;; ret (sm_active s).
Definition safemode_enter (uninit : nat -> list Z) (fuel : nat) (reason : option (list Z)) (ticks : Z) (nodes : gmap Z vfs_node) (root : Z) (l : list sm_input) : M sm (option sm_action) :=
  f <-- on_display fb_info ;;
  on_state (safemode_begin uninit fuel reason ticks f nodes root) ;;;
  sm_loop l false.
End screen_code.

(** ** What is drawn stays on the screen *)

Section drawing.
Context {OS : Type} `{!PageSource OS}.
Local Abbreviation display := (display OS).
Implicit Types (d : display) (mm : mem) (s : safemode).

Lemma string_of_run buf t : cstr buf t -> string_of buf = Some t.
Proof.
  intros Hc. unfold string_of. rewrite (strlen_spec buf t Hc). cbn [mbind option_bind]. destruct Hc as [_ [r ->]].
  by rewrite Nat2Z.id, take_app_length.
Qed.
Lemma chars_bytes t : chars t -> Forall (λ c, 0 <= c < 256) t.
Proof. intros Hc. eapply Forall_impl; [exact Hc|]. cbn. lia. Qed.

(** A screen that safe mode can draw on. *)
Record sm_screen d : Prop := {
  ss_wf : display_wf d;
  ss_size : 1 <= fb_width (fb d) /\ 96 <= fb_height (fb d);
  ss_buffers : buffers_ok d
}.

Lemma sm_screen_small d : sm_screen d -> fb_width (fb d) < 2 ^ 30 /\ fb_height (fb d) < 2 ^ 30.
Proof. intros [Hw [H1 H2] _]. pose proof (dw_size _ Hw). destruct (dw_pitch _ Hw) as [_ ?]. unfold scr_size in *. nia. Qed.

Lemma draw_log_drawn d s L n i :
  sm_screen d -> logged s L -> (i + n <= length L)%nat -> Forall (λ x, (length x.1 <= 255)%nat) L ->
  drawn d (draw_log text_ready n s (fb_height (fb d)) (Z.of_nat i)).
Proof.
  intros Hd Hl. revert i. induction n as [|n IH]; intros i Hn HL; cbn [draw_log]; [apply drawn_ret|].
  destruct (_ <? _); [apply drawn_ret|]. destruct (lookup_lt_is_Some_2 L i) as [[t c] Ei]; [lia|].
  destruct (lg_text _ _ Hl i t c Ei) as (buf & Eb & Hc & Ec). pose proof (proj2 (lg_count _ _ Hl)).
  unfold aget. destruct (Z.ltb_spec (Z.of_nat i) 0); [lia|]. rewrite Nat2Z.id, Eb. cbn [mbind option_bind]. rewrite (string_of_run buf t Hc), Ec.
  apply drawn_option, drawn_option. pose proof (Forall_lookup_1 _ _ _ _ HL Ei) as Ht. cbn in Ht.
  unfold SM_HEADER_H, SM_FONT_H. rewrite wrap_small by lia.
  apply drawn_seq; [apply drawn_text; [apply (ss_wf _ Hd)|by apply chars_bytes, Hc|lia..]|].
  replace (Z.of_nat i + 1) with (Z.of_nat (S i)) by lia. apply IH; [lia|done].
Qed.

(** A button that fits into the 32-bit plane. *)
Definition button_fits (b : sm_button_t) : Prop :=
  Forall (λ c, 0 <= c < 256) (sb_label b) /\ (length (sb_label b) <= 255)%nat /\ sb_w b = SM_BTN_W /\ sb_h b = SM_BTN_H /\
  0 <= sb_x b < 2 ^ 31 /\ 0 <= sb_y b < 2 ^ 31.

Lemma draw_button_drawn d mx my b : sm_screen d -> button_fits b -> drawn d (draw_button text_ready mx my b).
Proof.
  intros Hd (Hl & Hn & Hw & Hh & Hx & Hy). unfold draw_button. rewrite Hw, Hh. unfold SM_BTN_W, SM_BTN_H, SM_FONT_H, SM_FONT_W.
  set (tx := if _ <? 220 then _ else 0).
  assert (0 <= tx <= 110) as Htx.
  { unfold tx. destruct (Z.ltb_spec (u32 (u32 (text_width text_ready (sb_label b)) * 8)) 220); [|lia].
    pose proof (wrap_bound 32 (u32 (text_width text_ready (sb_label b)) * 8) ltac:(lia)).
    split; [apply Z.div_pos; lia|]. apply Z.div_le_upper_bound; lia. }
  change (u32 (48 - 16) / 2) with 16. rewrite !wrap_small by lia.
  apply drawn_seq; [apply drawn_fill; [apply (ss_wf _ Hd)|lia..]|]. apply drawn_seq; [apply drawn_outline; [apply (ss_wf _ Hd)|lia..]|].
  apply drawn_text; [apply (ss_wf _ Hd)|done|lia..].
Qed.

Lemma draw_buttons_drawn d mx my l : sm_screen d -> Forall button_fits l -> drawn d (draw_buttons text_ready mx my l).
Proof.
  intros Hd. induction 1 as [|b l Hb _ IH]; cbn [draw_buttons]; [apply drawn_ret|]. apply drawn_seq; [by apply draw_button_drawn|done].
Qed.

Lemma draw_top_drawn d s L reason :
  sm_screen d -> logged s L -> cstr (sm_reason s) reason -> (length reason <= 127)%nat -> Forall (λ x, (length x.1 <= 255)%nat) L ->
  drawn d (draw_top text_ready s (fb_width (fb d)) (fb_height (fb d))).
Proof.
  intros Hd Hl Hr Hn HL. pose proof (sm_screen_small d Hd) as [? ?]. pose proof (ss_wf _ Hd) as Hwf. pose proof (ss_size _ Hd).
  unfold draw_top, SM_HEADER_H. apply drawn_seq; [apply drawn_fill; (done || lia)|]. apply drawn_seq; [apply drawn_fill; (done || lia)|].
  apply drawn_seq; [apply drawn_text; [done|repeat constructor; lia|cbn; lia..]|]. rewrite (string_of_run _ _ Hr). apply drawn_option.
  apply drawn_seq; [apply drawn_text; [done|by apply chars_bytes, Hr|lia..]|].
  destruct (lg_count _ _ Hl) as [-> Hc]. rewrite Nat2Z.id. apply (draw_log_drawn d s L (length L) 0); (done || lia).
Qed.

Lemma draw_bottom_presents d mx my :
  sm_screen d -> - 2 ^ 31 <= mx < 2 ^ 31 -> - 2 ^ 31 <= my < 2 ^ 31 -> presents d (draw_bottom text_ready mx my (fb_width (fb d)) (fb_height (fb d))).
Proof.
  intros Hd Hx Hy. pose proof (sm_screen_small d Hd) as [? ?]. pose proof (ss_wf _ Hd) as Hwf. pose proof (ss_size _ Hd).
  assert (forall z, - 2 ^ 31 <= z < 2 ^ 31 -> 0 <= u32 z /\ (2 ^ 31 <= u32 z \/ u32 z < 2 ^ 31)) as Hu by (intros z Hz; pose proof (wrap_bound 32 z); lia).
  destruct (Hu mx Hx) as [? ?], (Hu my Hy) as [? ?]. unfold draw_bottom, SM_STATUS_H. rewrite !(wrap_small 32 (fb_height (fb d) - 24)), !(wrap_small 32 (fb_height (fb d) - 24 + 4)) by lia.
  do 3 (apply presents_seq; [apply drawn_fill; (done || lia)|]).
  apply presents_seq; [apply drawn_text; [done|repeat constructor; lia|cbn; lia..]|].
  apply presents_swap; [done|apply (ss_buffers _ Hd)].
Qed.
End drawing.

(** ** The loop *)

Section loop.
Context {OS : Type} `{!PageSource OS}.
Local Abbreviation display := (display OS).
Implicit Types (d : display) (mm : mem) (s : safemode).

(** The buttons side by side in the middle, over the status bar. *)
Definition laid_out d (bs : list sm_button_t) : list sm_button_t :=
  imap (λ i b, layout_button (if 464 <? fb_width (fb d) then (fb_width (fb d) - 464) / 2 else 0) (fb_height (fb d) - 96) (Z.of_nat i) b) bs.

Lemma laid_out_idem d bs : laid_out d (laid_out d bs) = laid_out d bs.
Proof. apply list_eq. intros i. unfold laid_out. rewrite !list_lookup_imap. by destruct (bs !! i). Qed.

(** The action of the first press on a button.  In the first round the buttons are at [bs0], after
    a round at [bs]; a button that stays down presses once. *)
Fixpoint clicks (bs0 bs : list sm_button_t) (l : list sm_input) (prev : bool) : option sm_action :=
  match l with
  | [] => None
  | i :: r =>
      match (if in_down i && negb prev then find (in_button i) bs0 else None) with
      | Some b => Some (sb_action b)
      | None => clicks bs bs r (in_down i)
      end
  end.

Definition button_ok (b : sm_button_t) : Prop :=
  Forall (λ c, 0 <= c < 256) (sb_label b) /\ (length (sb_label b) <= 255)%nat /\ sb_w b = SM_BTN_W /\ sb_h b = SM_BTN_H.

(** What the loop needs of safe mode. *)
Record ready_to_draw s : Prop := {
  rd_log : exists L, logged s L /\ Forall (λ x, (length x.1 <= 255)%nat) L;
  rd_reason : exists reason, cstr (sm_reason s) reason /\ (length reason <= 127)%nat;
  rd_buttons : Forall button_ok (sm_buttons s) /\ length (sm_buttons s) = 2%nat
}.

Lemma laid_out_ok d bs : Forall button_ok bs -> Forall button_ok (laid_out d bs).
Proof.
  rewrite !Forall_forall. intros Hb x Hx. apply elem_of_lookup_imap in Hx as (i & b & -> & Hi). apply list_elem_of_lookup_2 in Hi.
  by destruct (Hb b Hi).
Qed.

Lemma laid_out_fits d bs : sm_screen d -> Forall button_ok bs -> length bs = 2%nat -> Forall button_fits (laid_out d bs).
Proof.
  intros Hd Hb Hl. pose proof (sm_screen_small d Hd) as [? ?]. pose proof (ss_size _ Hd). rewrite Forall_forall in *. intros x Hx.
  apply elem_of_lookup_imap in Hx as (i & b & -> & Hi). apply lookup_lt_Some in Hi as Hlt. apply list_elem_of_lookup_2 in Hi.
  destruct (Hb b Hi) as (B1 & B2 & B3 & B4). unfold button_fits, layout_button, SM_BTN_W, SM_BTN_GAP. cbn [sb_label sb_w sb_h sb_x sb_y].
  assert (0 <= (if 464 <? fb_width (fb d) then (fb_width (fb d) - 464) / 2 else 0) < 2 ^ 30).
  { destruct (Z.ltb_spec 464 (fb_width (fb d))); [|lia]. split; [apply Z.div_pos; lia|apply Z.div_lt_upper_bound; lia]. }
  rewrite wrap_small by lia. repeat split; try done; lia.
Qed.

Lemma on_display_run {A} (m : M display A) s d d' a : m d = Ret a d' -> on_display m (s, d) = Ret a (s, d').
Proof. intros E. unfold on_display, zoom. cbn [snd]. by rewrite E. Qed.
Lemma on_state_run {A} (m : M safemode A) s s' d a : m s = Ret a s' -> on_state m (s, d) = Ret a (s', d).
Proof. intros E. unfold on_state, zoom. cbn [fst]. by rewrite E. Qed.

Lemma sm_render_run s d mm mx my :
  sm_screen d -> ready_to_draw s -> display_mem d mm -> - 2 ^ 31 <= mx < 2 ^ 31 -> - 2 ^ 31 <= my < 2 ^ 31 ->
  exists mm', sm_render text_ready mx my (s, at_mem mm d) = Ret tt (set_buttons (laid_out d (sm_buttons s)) s, at_mem mm' d) /\
    display_mem d mm' /\ (forall a, touched d a = false -> mm' !! a = mm !! a) /\ front_shown d mm'.
Proof.
  intros Hd [(L & HL & HLt) (reason & Hr & Hrn) [Hb Hbl]] Hm Hx Hy. pose proof (sm_screen_small d Hd) as [? ?]. pose proof (ss_size _ Hd).
  unfold sm_render. assert (fb_ready (at_mem mm d) = Ret true (at_mem mm d)) as Er.
  { unfold fb_ready, gets. change (fb (at_mem mm d)) with (fb d). by rewrite (dw_ready _ (ss_wf _ Hd)). }
  rewrite (bind_Ret _ _ _ _ _ (on_display_run _ s _ _ _ Er)). cbn [negb].
  rewrite (bind_Ret _ _ _ _ _ (on_display_run fb_info s (at_mem mm d) (at_mem mm d) (fb d) eq_refl)).
  rewrite (bind_Ret _ _ _ _ _ (on_state_run get s s (at_mem mm d) s eq_refl)).
  destruct (drawn_run d _ mm (draw_top_drawn d s L reason Hd HL Hr Hrn HLt) (dm_screen _ _ Hm)) as (m1 & E1 & M1 & O1).
  rewrite (bind_Ret _ _ _ _ _ (on_display_run _ s _ _ _ E1)).
  set (s1 := set_buttons (laid_out d (sm_buttons s)) s).
  assert (sm_layout_buttons (fb_width (fb d)) (fb_height (fb d)) s = Ret tt s1) as El.
  { unfold sm_layout_buttons, modify, s1, laid_out. change (u32 (SM_BUTTON_COUNT * SM_BTN_W + (SM_BUTTON_COUNT - 1) * SM_BTN_GAP)) with 464.
    unfold SM_STATUS_H, SM_BTN_H. rewrite wrap_small by lia. by replace (fb_height (fb d) - 24 - 48 - 24) with (fb_height (fb d) - 96) by lia. }
  rewrite (bind_Ret _ _ _ _ _ (on_state_run _ s s1 (at_mem m1 d) tt El)), (bind_Ret _ _ _ _ _ (on_state_run get s1 s1 (at_mem m1 d) s1 eq_refl)).
  destruct (drawn_run d _ m1 (draw_buttons_drawn d mx my (sm_buttons s1) Hd (laid_out_fits d _ Hd Hb Hbl)) M1) as (m2 & E2 & M2 & O2).
  rewrite (bind_Ret _ _ _ _ _ (on_display_run _ s1 _ _ _ E2)).
  destruct (draw_bottom_presents d mx my Hd Hx Hy m2) as (m3 & E3 & M3 & O3 & F3).
  { apply (display_mem_drawn _ m1); [by apply (display_mem_drawn _ mm)|done|done]. }
  exists m3. rewrite (on_display_run _ s1 _ _ _ E3). split; [done|]. split; [done|]. split; [|done].
  intros a Ha. by rewrite O3, O2, O1 by auto using touched_off.
Qed.

Lemma ready_laid_out d s : ready_to_draw s -> ready_to_draw (set_buttons (laid_out d (sm_buttons s)) s).
Proof.
  intros [(L & [A B C E] & HL) Hr [Hb Hbl]]. split; [exists L; by split|done|]. cbn [sm_buttons set_buttons]. split; [by apply laid_out_ok|].
  unfold laid_out. by rewrite length_imap.
Qed.

Lemma sm_loop_run d l : sm_screen d -> Forall (λ i, - 2 ^ 31 <= in_x i < 2 ^ 31 /\ - 2 ^ 31 <= in_y i < 2 ^ 31) l ->
  forall s mm prev, ready_to_draw s -> display_mem d mm ->
  exists s' mm', sm_loop text_ready l prev (s, at_mem mm d) =
      Ret (clicks (sm_buttons s) (laid_out d (sm_buttons s)) l prev) (s', at_mem mm' d) /\
    (forall a, touched d a = false -> mm' !! a = mm !! a) /\ (front_shown d mm -> front_shown d mm') /\
    sm_lines s' = sm_lines s /\ sm_reason s' = sm_reason s.
Proof.
  intros Hd. induction 1 as [|i l [Hx Hy] _ IH]; intros s mm prev Hr Hm; cbn [sm_loop clicks]; [by exists s, mm|].
  rewrite (bind_Ret _ _ _ _ _ (on_state_run get s s (at_mem mm d) s eq_refl)).
  destruct (if in_down i && negb prev then find (in_button i) (sm_buttons s) else None) as [b|]; [by exists s, mm|].
  destruct (sm_render_run s d mm (in_x i) (in_y i) Hd Hr Hm Hx Hy) as (m1 & E1 & M1 & O1 & F1). rewrite (bind_Ret _ _ _ _ _ E1).
  destruct (IH _ m1 (in_down i) (ready_laid_out d s Hr) M1) as (s' & mm' & E & O & F & Hl & Hrs). exists s', mm'. rewrite E. cbn [sm_buttons set_buttons].
  rewrite laid_out_idem. split; [done|]. split; [intros a Ha; by rewrite O, O1|]. split; [auto|done].
Qed.

Lemma report_short ticks f reason files : 0 <= ticks < 2 ^ 64 -> 0 <= fb_width f < 2 ^ 32 -> 0 <= fb_height f < 2 ^ 32 ->
  Forall (λ x, (length x.1 <= 255)%nat) (report ticks f reason files).
Proof.
  intros Ht Hw Hh. destruct (uptime_run (λ n, replicate n 0) (λ n, length_replicate n 0) ticks Ht) as (_ & _ & _ & _ & _ & _ & _ & _ & _ & _ & Hu).
  destruct (display_run (λ n, replicate n 0) (λ n, length_replicate n 0) f (replicate 128 0) Hw Hh) as (? & ? & ? & ? & ? & ? & ? & _ & _ & _ & _ & _ & _ & _ & _ & _ & Hdt); [done|].
  unfold report. apply Forall_app. split.
  - constructor; [cbn; lia|]. constructor; [exact Hu|]. constructor; [destruct (ready f); [exact Hdt|cbn; lia]|].
    constructor; [cbn [fst]; rewrite length_take; lia|constructor].
  - destruct files as [ns|]; [|constructor]. cbn [app]. constructor; [cbn; lia|]. constructor; [cbn; lia|]. apply Forall_app. split.
    + destruct (decide (ns = [])); [constructor; [cbn; lia|constructor]|constructor].
    + apply Forall_fmap, Forall_true. intros n. change (length (entry n) <= 255)%nat. unfold entry. rewrite length_take. lia.
Qed.
End loop.

(** ** Properties *)

Section safemode_properties.
Context {OS : Type} `{!PageSource OS}.
Local Abbreviation display := (display OS).
Implicit Types (d : display) (mm : mem) (s : safemode).
Variable uninit : nat -> list Z.
Hypothesis uninit_length : forall n, length (uninit n) = n.

(** The text of a reason. *)
Definition reason_text (reason : option (list Z)) : list Z := match reason with Some (c :: l) => c :: l | _ => str "unknown" end.

Lemma begin_run fuel reason ticks f nodes root files s L0 :
  logged s L0 -> length (sm_reason s) = 128%nat -> chars (reason_text reason) ->
  0 <= ticks < 2 ^ 64 -> 0 <= fb_width f < 2 ^ 32 -> 0 <= fb_height f < 2 ^ 32 -> root_files fuel nodes root files ->
  exists s', safemode_begin uninit fuel reason ticks f nodes root s = Ret tt s' /\ sm_buttons s' = sm_buttons s /\ sm_active s' = true /\
    cstr (sm_reason s') (take 127 (reason_text reason)) /\ logged s' (take 64 (report ticks f (take 127 (reason_text reason)) files)).
Proof.
  intros [A B _ _] Hr Hc Ht Hw Hh Hf. unfold safemode_begin. rewrite bind_modify, bind_get. cbn [sm_reason set_active].
  assert ((match reason with Some (c :: l) => (c :: l) ++ [0] | _ => lit "unknown" end) = reason_text reason ++ [0]) as -> by by destruct reason as [[|c l]|].
  destruct (sm_copy_run (sm_reason s) (reason_text reason ++ [0]) (reason_text reason) 128) as (r & Er & _ & Cr); [by apply cstr_app|rewrite Hr; lia|].
  rewrite Er, bind_option, !bind_modify.
  destruct (collect_run uninit uninit_length fuel ticks f nodes root files (take 127 (reason_text reason))
    (set_log (sm_lines s) (sm_line_colors s) 0 (set_reason r (set_active true s)))) as (s' & E & (Sa & Sr & Sb) & Hl); [|exact Cr|done..|].
  { split; [done|done|cbn; lia|by intros i t c Hi]. }
  exists s'. split; [exact E|]. split; [by rewrite Sb|]. split; [by rewrite Sa|]. split; [by rewrite Sr|done].
Qed.

(** C40. The strings of safe mode never leave their arrays: [sm_str_copy] and [sm_str_cat] keep what
    fits before the terminator, for every source and every capacity. *)
Theorem sm_strings_fit (dst d src s : list Z) max :
  cstr src s -> 1 <= max <= Z.of_nat (length dst) ->
  (exists buf, sm_str_copy dst src max = Some buf /\ length buf = length dst /\ cstr buf (take (Z.to_nat (max - 1)) s)) /\
  (cstr dst d -> Z.of_nat (length d) < max ->
   exists buf, sm_str_cat dst src max = Some buf /\ length buf = length dst /\ cstr buf (take (Z.to_nat (max - 1)) (d ++ s))).
Proof. intros Hs Hm. split; [by apply sm_copy_run|]. intros Hd Hl. apply sm_cat_run; [done|done|lia]. Qed.

(** C29. [safemode_enter] logs the report - uptime, screen, reason, the files of the root - of at
    most 64 lines in arrays it never leaves, and runs its loop to the first press on a button.  With
    one buffer it changes no memory but the pixels of the screen; with two, none but the pixels of
    the back buffer and the bytes of the frame buffer, and after each round the frame buffer
    holds what was drawn.  The screen is at least 96 pixels high; the two buffers do not
    overlap.  A press counts when the mouse button goes down, in the first round at the places
    the buttons have from before they were laid out. *)
Theorem safemode_enter_spec d mm fuel reason ticks nodes root files s L0 l :
  sm_screen d -> display_mem d mm -> logged s L0 -> length (sm_reason s) = 128%nat ->
  Forall button_ok (sm_buttons s) /\ length (sm_buttons s) = 2%nat -> chars (reason_text reason) -> 0 <= ticks < 2 ^ 64 ->
  root_files fuel nodes root files -> Forall (λ i, - 2 ^ 31 <= in_x i < 2 ^ 31 /\ - 2 ^ 31 <= in_y i < 2 ^ 31) l ->
  exists s' mm', safemode_enter (text_init text_start) uninit fuel reason ticks nodes root l (s, at_mem mm d) =
      Ret (clicks (sm_buttons s) (laid_out d (sm_buttons s)) l false) (s', at_mem mm' d) /\
    (forall a, touched d a = false -> mm' !! a = mm !! a) /\ (front_shown d mm -> front_shown d mm') /\
    forall i t c, take 64 (report ticks (fb d) (take 127 (reason_text reason)) files) !! i = Some (t, c) ->
      exists buf, sm_lines s' !! i = Some buf /\ cstr buf t.
Proof.
  intros Hd Hm Hl Hlen Hb Hc Ht Hf Hin. pose proof (sm_screen_small d Hd) as [? ?]. pose proof (ss_size _ Hd).
  destruct (begin_run fuel reason ticks (fb d) nodes root files s L0) as (s1 & E1 & Hb1 & _ & Hr1 & Hl1); [done|done|done|done|lia|lia|done|].
  assert (ready_to_draw s1) as Hrd.
  { split; [eexists; split; [exact Hl1|]|exists (take 127 (reason_text reason)); split; [done|rewrite length_take; lia]|by rewrite Hb1].
    apply Forall_take, report_short; (done || lia). }
  destruct (sm_loop_run d l Hd Hin s1 mm false Hrd Hm) as (s' & mm' & E & O & F & Hlines & _). rewrite Hb1 in E.
  exists s', mm'. split; [|split; [done|split; [done|]]].
  - unfold safemode_enter. rewrite (bind_Ret _ _ _ _ _ (on_display_run fb_info s (at_mem mm d) (at_mem mm d) (fb d) eq_refl)).
    rewrite (bind_Ret _ _ _ _ _ (on_state_run _ s s1 (at_mem mm d) tt E1)). exact E.
  - intros i t c Hi. destruct (lg_text _ _ Hl1 i t c Hi) as (buf & Eb & Hcs & _). exists buf. by rewrite Hlines.
Qed.

(** At the start both buttons are at the corner of the screen, so that a button of the mouse that is down
    there in the first round restarts the machine before anything is drawn. *)
Theorem first_press_restarts font s d i l :
  sm_buttons s = sm_buttons_start -> in_down i = true -> 0 <= in_x i < 220 -> 0 <= in_y i < 48 ->
  sm_loop (OS := OS) font (i :: l) false (s, d) = Ret (Some sm_action_restart) (s, d).
Proof.
  intros Hb Hd Hx Hy. cbn [sm_loop]. rewrite (bind_Ret _ _ _ _ _ (on_state_run get s s d s eq_refl)). rewrite Hb, Hd. cbn [andb negb].
  assert (in_button i (mkButton (str "Restart MiraOS") 0 0 SM_BTN_W SM_BTN_H sm_action_restart) = true) as Hin.
  { unfold in_button, sm_point_in_rect. cbn [sb_x sb_y sb_w sb_h]. change (s32 0) with 0. change (s32 (u32 (0 + SM_BTN_W))) with 220.
    change (s32 (u32 (0 + SM_BTN_H))) with 48. rewrite !andb_true_iff. lia. }
  unfold sm_buttons_start. cbn [find]. by rewrite Hin.
Qed.
End safemode_properties.

(** ** A concrete safe mode *)

Section safemode_witnesses.

(** One pixel by 96, with a back buffer. *)
Definition slit : display nat := mkDisplay (mkHeap O ∅ 0 0 0 []) (mkFb 0x1000 4 1 96 32) 0x2000 true.
Definition slit_mem : mem := bytes_at 0x1000 (replicate 384 7) ∪ bytes_at 0x2000 (replicate 384 7).

Lemma slit_ok : sm_screen slit.
Proof. split; [split; simpl; try done; lia|simpl; lia|split; [done|intros _; unfold scr_size; simpl; lia]]. Qed.
Lemma slit_mapped : display_mem slit slit_mem.
Proof. split; [|intros _]; apply mappedb_spec; vm_compute; reflexivity. Qed.

Lemma start_logged : logged safemode_start [].
Proof. split; [split; [done|by repeat constructor]|done|split; [done|cbn; lia]|by intros i t c Hi]. Qed.
Lemma start_buttons : Forall button_ok sm_buttons_start /\ length sm_buttons_start = 2%nat.
Proof. split; [|done]. repeat constructor; cbn; lia. Qed.

Lemma sm_strings_fit_witness :
  exists buf, sm_str_cat [65; 0; 0; 0] [66; 67; 68; 69; 0] 4 = Some buf /\ cstr buf [65; 66; 67].
Proof.
  destruct (sm_strings_fit [65; 0; 0; 0] [65] [66; 67; 68; 69; 0] [66; 67; 68; 69] 4) as [_ Hcat].
  - apply (cstr_app [66; 67; 68; 69] []). repeat constructor; lia.
  - cbn. lia.
  - destruct Hcat as (buf & E & _ & Hc); [apply (cstr_app [65] [0; 0]); repeat constructor; lia|cbn; lia|]. exists buf. split; [exact E|exact Hc].
Defined.

(** A file system with one directory in its root; the mouse presses Shutdown in the second round. *)
Definition files0 : gmap Z vfs_node := {[ 8 := mkNode [] 2 0 0 0 0 16 0 1; 16 := mkNode (str "etc") 2 0 0 0 8 0 0 0 ]}.
Lemma files0_root : root_files 2 files0 8 (Some [mkNode (str "etc") 2 0 0 0 8 0 0 0]).
Proof.
  exists (mkNode [] 2 0 0 0 0 16 0 1), [16]. split; [done|]. split; [reflexivity|]. split; [split; [done|]; split; [done|]; eexists; split; reflexivity|].
  split; [cbn; lia|]. split; [repeat constructor|]. constructor; [cbn; repeat constructor; lia|constructor].
Qed.

Lemma safemode_enter_spec_witness :
  exists s' mm', safemode_enter (text_init text_start) (λ n, replicate n 0) 2 None 100 files0 8 [mkInput 300 10 false; mkInput 300 10 true]
      (safemode_start, at_mem slit_mem slit) = Ret (Some power_off) (s', at_mem mm' slit) /\
    exists buf, sm_lines s' !! 6%nat = Some buf /\ cstr buf (str "    etc/").
Proof.
  destruct (safemode_enter_spec (λ n, replicate n 0) (λ n, length_replicate n 0) slit slit_mem 2 None 100 files0 8
    (Some [mkNode (str "etc") 2 0 0 0 8 0 0 0]) safemode_start [] [mkInput 300 10 false; mkInput 300 10 true] slit_ok slit_mapped start_logged eq_refl start_buttons)
    as (s' & mm' & E & _ & _ & Ht).
  - cbn. repeat constructor; lia.
  - lia.
  - exact files0_root.
  - repeat constructor; cbn; lia.
  - exists s', mm'. split; [exact E|]. exact (Ht 6%nat _ _ eq_refl).
Defined.

Lemma first_press_restarts_witness :
  sm_loop text_start [mkInput 5 5 true] false (safemode_start, slit) = Ret (Some sm_action_restart) (safemode_start, slit).
Proof. apply (first_press_restarts text_start safemode_start slit (mkInput 5 5 true) []); [reflexivity|reflexivity|cbn; lia|cbn; lia]. Defined.
End safemode_witnesses.
