(* ===== verification/Screen.v ===== *)
(** * The screen of the desktop (ui/shell.c, ui/ui.c)

    The terminal output of the shell, the drawing of its panels, the cursor of the mouse and
    [ui_render], which puts them together with the widget tree.  The values [timer_ticks] returns
    are arguments. *)

From S2P Require Import Prelude CMem Vfs PageSource Heap Framebuffer Windows ShellState Text Widgets.

Definition SHELL_SIDEBAR_W : Z := 212.
Definition SHELL_DOCK_H : Z := 58.
Definition SHELL_TOP_H : Z := 46.

(** ** The terminal: the static variables of [shell_draw_char] *)

Record console_state := mkConsole { cursor_x : Z; cursor_y : Z; max_x : Z; max_y : Z; needs_layout : bool }.
Definition console_start : console_state := mkConsole 0 0 0 0 true.

Section console_code.
Context {OS : Type} `{!PageSource OS}.
Local Abbreviation display := (display OS).
Local Abbreviation screen := (console_state * display)%type.
Variable font : text_state.

(** [if (needs_layout) { ... }] *)
Definition console_layout (f : framebuffer_t) (c : console_state) : console_state :=
  if needs_layout c then mkConsole (cursor_x c) (cursor_y c) (s32 (fb_width f / 8)) (s32 (fb_height f / 16)) false else c.
Definition set_cursor (x y : Z) (c : console_state) : console_state := mkConsole x y (max_x c) (max_y c) (needs_layout c).
(** [cursor_y++; if (cursor_y >= max_y) cursor_y = max_y - 1;] *)
Definition next_row (c : console_state) : Z :=
  let y := s32 (cursor_y c + 1) in if max_y c <=? y then s32 (max_y c - 1) else y.

Definition shell_draw_char (ch fg bg : Z) : M screen unit :=
  modify (λ s, (console_layout (fb s.2) s.1, s.2)) ;;;
  s <-- get ;;
  let c := s.1 in
  if ch =? 10 then put (set_cursor 0 (next_row c) c, s.2)
  else if ch =? 13 then put (set_cursor 0 (cursor_y c) c, s.2)
  else if ch =? 9 then put (set_cursor (Z.land (s32 (cursor_x c + 8)) (Z.lnot 7)) (cursor_y c) c, s.2)
  else
    zoom snd (λ d s, (s.1, d)) (text_draw_char font (u32 (cursor_x c * 8)) (u32 (cursor_y c * 16)) ch fg bg) ;;;
    let x := s32 (cursor_x c + 1) in
    modify (λ s, ((if max_x c <=? x then set_cursor 0 (next_row c) c else set_cursor x (cursor_y c) c), s.2)).
Fixpoint shell_draw_string (l : list Z) (fg bg : Z) : M screen unit :=
  match l with
  | [] => ret tt
  | c :: r => shell_draw_char c fg bg ;;; shell_draw_string r fg bg
  end.
End console_code.

(** ** The panels of the shell *)

Record panels := mkPanels {
  main_panel : ui_panel_t; sidebar_panel : ui_panel_t; btn_clear : ui_button_t; btn_about : ui_button_t; btn_files : ui_button_t;
  btn_style : ui_button_t; cmd_field : ui_textfield_t; cmd_buf : list Z; dirty : bool; input_is_dirty : bool
}.
Definition set_dirty (b : bool) (p : panels) : panels :=
  mkPanels (main_panel p) (sidebar_panel p) (btn_clear p) (btn_about p) (btn_files p) (btn_style p) (cmd_field p) (cmd_buf p) b (input_is_dirty p).

(** The four buttons differ in their place and label. *)
Definition side_button (y : Z) (label : string) : ui_button_t :=
  Text.mkButton (mkRect 16 (SHELL_TOP_H + y) (SHELL_SIDEBAR_W - 32) 32) 0xFF75C8 0xFFFFFF 0xFFFFFF (Some (str label)) false.
Definition laid_panels (sw sh : Z) (p : panels) : panels :=
  mkPanels
    (mkPanel (mkRect (SHELL_SIDEBAR_W + 12) (SHELL_TOP_H + 12) (u32 (sw - SHELL_SIDEBAR_W - 24)) (u32 (sh - SHELL_TOP_H - SHELL_DOCK_H - 24)))
       0xFFE3F2 0xFF4FB3 0xFF9EDD (Some (str "Dream Desktop")))
    (mkPanel (mkRect 0 SHELL_TOP_H SHELL_SIDEBAR_W (u32 (sh - SHELL_TOP_H - SHELL_DOCK_H))) 0xFFD1EA 0xFF5DB8 0xFF8AD8 (Some (str "Sweet Apps")))
    (side_button 40 "Clean") (side_button 80 "About") (side_button 120 "Files") (side_button 160 "Style")
    (mkField (mkRect 16 (u32 (sh - SHELL_DOCK_H + 8)) (u32 (sw - 32)) 32) 0xFFF5FB 0xFF75C8 0x9B005D (Some (cmd_buf p)) (f_len (cmd_field p)) true)
    (cmd_buf p) (dirty p) (input_is_dirty p).

Section panel_code.
Context {OS : Type} `{!PageSource OS}.
Local Abbreviation display := (display OS).
Variables (font : text_state) (fuel : nat).

Definition shell_layout (f : framebuffer_t) (p : panels) : panels := if ready f then laid_panels (fb_width f) (fb_height f) p else p.

Definition shell_draw_statusbar (t : Z) : M display unit :=
  f <-- fb_info ;;
  gfx_draw_rect 0 0 (fb_width f) SHELL_TOP_H 0xFF6FBC ;;;
  gfx_draw_rect 0 (SHELL_TOP_H - 6) (fb_width f) 6 0xFFC3E6 ;;;
  text_draw font 16 14 (str "MiraOS  *  Rose Shell") 0xFFFFFF 0xFF6FBC ;;;
  text_draw font (u32 (fb_width f - 116)) 14 (str "t=" ++ uint64_to_str t) 0xFFFFFF 0xFF6FBC.

Definition band_color (y t : Z) : Z :=
  let band := Z.land (u32 (y + Z.land t 63)) 127 in
  if band <? 42 then 0xFFEAF6 else if band <? 84 then 0xFFD4EC else 0xFFF8FC.
Definition shell_draw_fluid_background (t : Z) : M display unit :=
  f <-- fb_info ;;
  for_range 0 (fb_height f) (λ y, gfx_draw_rect 0 y (fb_width f) 1 (band_color y t)) ;;;
  let w := if truth (fb_width f) then fb_width f else 1 in
  let h := if truth (fb_height f) then fb_height f else 1 in
  let a := u32 (t mod w) in
  let b := u32 (u64 (t * 2 + 120) mod w) in
  gfx_draw_circle fuel a (u32 (120 + u32 (t mod (u32 (h / 3 + 1))))) 96 0xFFC1E1 true ;;;
  gfx_draw_circle fuel b (if 160 <? h then u32 (h - 130) else h / 2) 124 0xFF9EDD true ;;;
  gfx_draw_circle fuel (u32 (a + b) / 2) (h / 2) 72 0xFFF7B8 true.

Definition shell_draw_sparkle (x y color : Z) : M display unit :=
  gfx_draw_line fuel x (u32 (y - 6)) x (u32 (y + 6)) color ;;;
  gfx_draw_line fuel (u32 (x - 6)) y (u32 (x + 6)) y color ;;;
  gfx_draw_line fuel (u32 (x - 4)) (u32 (y - 4)) (u32 (x + 4)) (u32 (y + 4)) color ;;;
  gfx_draw_line fuel (u32 (x - 4)) (u32 (y + 4)) (u32 (x + 4)) (u32 (y - 4)) color.

Definition draw_card (cx cy i : Z) (label : string) : M display unit :=
  let x := u32 (cx + i * 154) in
  let y := u32 (cy + 124) in
  let color := if i =? 1 then 0xFFF7B8 else 0xFFF5FB in
  gfx_draw_rect (u32 (x + 4)) (u32 (y + 6)) 136 88 0xECA7CF ;;;
  gfx_draw_rect x y 136 88 color ;;;
  gfx_draw_rect_outline x y 136 88 0xFF75C8 2 ;;;
  gfx_draw_circle fuel (u32 (x + 28)) (u32 (y + 30)) 14 0xFF75C8 true ;;;
  text_draw font (u32 (x + 18)) (u32 (y + 58)) (str label) 0x9B005D color.

Definition shell_draw_main_content (p : panels) (t : Z) : M display unit :=
  let b := p_bounds (main_panel p) in
  let bg := p_fill (main_panel p) in
  let cx := u32 (r_x b + 16) in
  let cy := u32 (r_y b + 32) in
  text_draw font cx cy (str "MiraOS Pink Edition") 0x9B005D bg ;;;
  text_draw font cx (u32 (cy + 24)) (str "A soft desktop shell with fluid motion, dock, apps and sparkle UI.") 0xB8006E bg ;;;
  shell_draw_sparkle (u32 (r_x b + r_w b - 38)) (u32 (cy + 12)) 0xFF4FB3 ;;;
  text_draw font cx (u32 (cy + 56)) (str "Uptime: " ++ uint64_to_str t) 0xE40087 bg ;;;
  f <-- fb_info ;;
  text_draw font cx (u32 (cy + 88)) (str "Framebuffer: " ++ int_to_str (s32 (fb_width f)) ++ str "x" ++ int_to_str (s32 (fb_height f))) 0x9B005D bg ;;;
  draw_card cx cy 0 "Notes" ;;;
  draw_card cx cy 1 "Photos" ;;;
  draw_card cx cy 2 "Terminal".

(** The drawing of [shell_render], with the panels laid out; [t1] to [t3] are the ticks it reads. *)
Definition draw_desktop (p : panels) (t1 t2 t3 : Z) : M display unit :=
  f <-- fb_info ;;
  shell_draw_fluid_background t1 ;;;
  shell_draw_statusbar t2 ;;;
  ui_panel_draw font (sidebar_panel p) ;;;
  ui_panel_draw font (main_panel p) ;;;
  ui_button_draw font (btn_clear p) ;;;
  ui_button_draw font (btn_about p) ;;;
  ui_button_draw font (btn_files p) ;;;
  ui_button_draw font (btn_style p) ;;;
  shell_draw_main_content p t3 ;;;
  ui_textfield_draw font (cmd_field p) ;;;
  gfx_draw_rect 0 (u32 (fb_height f - SHELL_DOCK_H)) (fb_width f) SHELL_DOCK_H 0xFFB6DE ;;;
  gfx_draw_rect 0 (u32 (fb_height f - SHELL_DOCK_H)) (fb_width f) 4 0xFFFFFF ;;;
  text_draw font 16 (u32 (fb_height f - 42)) (str "Type a command, press Enter.  Backspace edits.  Pink dock is always alive.") 0x9B005D 0xFFB6DE.

Definition shell_render (t1 t2 t3 : Z) : M (panels * display) unit :=
  s <-- get ;;
  if negb (ready (fb s.2)) then ret tt
  else
    modify (λ s, (shell_layout (fb s.2) s.1, s.2)) ;;;
    s <-- get ;;
    zoom snd (λ d s, (s.1, d)) (draw_desktop s.1 t1 t2 t3) ;;;
    modify (λ s, (set_dirty false s.1, s.2)).
Definition shell_dirty : M (panels * display) bool := s <-- get ;; ret (dirty s.1 || input_is_dirty s.1).
Definition shell_clear_dirty : M (panels * display) unit :=
  modify (λ s, (mkPanels (main_panel s.1) (sidebar_panel s.1) (btn_clear s.1) (btn_about s.1) (btn_files s.1) (btn_style s.1)
    (cmd_field s.1) (cmd_buf s.1) false false, s.2)).

(** ** The cursor *)

Definition cursor_shape : list Z :=
  [0xFFFF; 0x7FFF; 0x3FFF; 0x1FFF; 0x0FFF; 0x07FF; 0x03FF; 0x01FF; 0x00FF; 0x007F; 0x003F; 0x001F].
(** The pointer kept on the screen: one coordinate. *)
Definition clamp (m size : Z) : Z := let m := if m <? 0 then 0 else m in if size <=? u32 m then s32 (s32 size - 1) else m.
Definition ui_draw_cursor (mouse_x mouse_y : Z) : M display unit :=
  f <-- fb_info ;;
  let mx := clamp mouse_x (fb_width f) in
  let my := clamp mouse_y (fb_height f) in
  for_range 0 12 (λ row, for_range 0 12 (λ col,
    bits <-- of_option (aget cursor_shape row) ;;
    if truth (Z.land bits (Z.shiftr 0x8000 col)) then
      let px := u32 (mx + col) in
      let py := u32 (my + row) in
      if (px <? fb_width f) && (py <? fb_height f) then fb_put_pixel px py 0xFFFFFF else ret tt
    else ret tt)).
End panel_code.

(** ** Where the characters go *)

Section cells.
Context {OS : Type} `{!PageSource OS}.
Local Abbreviation display := (display OS).
Implicit Types (d : display) (l : list Z).

(** A console that was laid out for at least one character. *)
Record console_ok (c : console_state) : Prop := {
  co_layout : needs_layout c = false;
  co_max : 1 <= max_x c < 2 ^ 25 /\ 1 <= max_y c < 2 ^ 25;
  co_cursor : 0 <= cursor_x c < max_x c /\ 0 <= cursor_y c < max_y c
}.

(** The cell of the [k]th character: row by row, and then on in the last row. *)
Definition cell (c : console_state) (k : Z) : Z * Z :=
  ((cursor_x c + k) mod max_x c, Z.min (cursor_y c + (cursor_x c + k) / max_x c) (max_y c - 1)).
Fixpoint draw_cells (font : text_state) (c : console_state) (k : Z) l (fg bg : Z) : M display unit :=
  match l with
  | [] => ret tt
  | ch :: r => text_draw_char font ((cell c k).1 * 8) ((cell c k).2 * 16) ch fg bg ;;; draw_cells font c (k + 1) r fg bg
  end.

Definition plain (ch : Z) : Prop := ch <> 10 /\ ch <> 13 /\ ch <> 9.

(** The cursor after [k] characters. *)
Definition moved (c : console_state) (k : Z) : console_state := set_cursor (cell c k).1 (cell c k).2 c.

Lemma moved_ok c k : console_ok c -> 0 <= k -> console_ok (moved c k).
Proof.
  intros [Hl [Hmx Hmy] [Hx Hy]] Hk. split; [done|done|]. unfold moved, cell, set_cursor. cbn [fst snd cursor_x cursor_y max_x max_y].
  pose proof (Z.mod_pos_bound (cursor_x c + k) (max_x c) ltac:(lia)). pose proof (Z.div_pos (cursor_x c + k) (max_x c) ltac:(lia) ltac:(lia)). lia.
Qed.

Lemma moved_0 c : console_ok c -> moved c 0 = c.
Proof.
  intros [Hl [Hmx Hmy] [Hx Hy]]. unfold moved, cell, set_cursor. cbn [fst snd]. rewrite Z.add_0_r, Z.mod_small, Z.div_small by lia.
  rewrite Z.add_0_r, Z.min_l by lia. by destruct c.
Qed.

(** One character further. *)
Lemma moved_step c k :
  console_ok c -> 0 <= k ->
  moved c (k + 1) = let m := moved c k in
    if max_x c <=? cursor_x m + 1 then set_cursor 0 (Z.min (cursor_y m + 1) (max_y c - 1)) c else set_cursor (cursor_x m + 1) (cursor_y m) c.
Proof.
  intros [Hl [Hmx Hmy] [Hx Hy]] Hk. unfold moved, cell. cbn [fst snd cursor_x cursor_y max_x max_y set_cursor].
  set (n := cursor_x c + k). replace (cursor_x c + (k + 1)) with (n + 1) by lia. set (m := max_x c) in *.
  pose proof (Z.mod_pos_bound n m ltac:(lia)). pose proof (Z.div_mod n m ltac:(lia)) as Hd. pose proof (Z.div_pos n m ltac:(lia) ltac:(lia)).
  destruct (Z.leb_spec m (n mod m + 1)).
  - assert ((n + 1) / m = n / m + 1 /\ (n + 1) mod m = 0) as [-> ->].
    { assert (n + 1 = (n / m + 1) * m) as -> by nia. by rewrite Z.div_mul, Z.mod_mul by lia. }
    unfold set_cursor. f_equal. lia.
  - assert ((n + 1) / m = n / m) as -> by (symmetry; apply (Z.div_unique_pos _ _ _ (n mod m + 1)); lia).
    assert ((n + 1) mod m = n mod m + 1) as -> by (symmetry; apply (Z.mod_unique_pos _ _ (n / m)); lia). done.
Qed.

Lemma next_row_min c : console_ok c -> next_row c = Z.min (cursor_y c + 1) (max_y c - 1).
Proof.
  intros [Hl [Hmx Hmy] [Hx Hy]]. unfold next_row. rewrite !signed_small by (simpl; lia). destruct (Z.leb_spec (max_y c) (cursor_y c + 1)); lia.
Qed.

(** One plain character. *)
Lemma draw_char_run font c ch fg bg d d' :
  console_ok c -> plain ch -> text_draw_char font (cursor_x c * 8) (cursor_y c * 16) ch fg bg d = Ret tt d' ->
  shell_draw_char font ch fg bg (c, d) = Ret tt (moved c 1, d').
Proof.
  intros Hc (H1 & H2 & H3) E. pose proof (moved_step c 0 Hc ltac:(lia)) as Hs. rewrite moved_0 in Hs by done.
  rewrite Z.add_0_l in Hs. pose proof Hc as [Hl [Hmx Hmy] [Hx Hy]]. unfold shell_draw_char. rewrite bind_modify, bind_get. cbn [fst snd].
  assert (console_layout (fb d) c = c) as -> by (unfold console_layout; by rewrite Hl).
  destruct (Z.eqb_spec ch 10), (Z.eqb_spec ch 13), (Z.eqb_spec ch 9); try done.
  rewrite !(wrap_small 32) by lia. unfold zoom at 1, bind at 1. cbn [fst snd]. rewrite E. unfold modify. cbn [fst snd].
  rewrite signed_small by (simpl; lia). rewrite next_row_min by done. rewrite Hs. cbv zeta. by destruct (max_x c <=? cursor_x c + 1).
Qed.

Lemma moved_moved c k j : console_ok c -> 0 <= k -> 0 <= j -> moved (moved c k) j = moved c (k + j).
Proof.
  intros Hc Hk Hj. unfold moved, cell, set_cursor. cbn [fst snd cursor_x cursor_y max_x max_y needs_layout]. destruct Hc as [Hl [Hmx Hmy] [Hx Hy]].
  set (m := max_x c) in *. set (n := cursor_x c + k). replace (cursor_x c + (k + j)) with (n + j) by lia. f_equal.
  - by rewrite Zplus_mod_idemp_l.
  - assert ((n + j) / m = n / m + (n mod m + j) / m) as ->.
    { rewrite <- Z.div_add_l by lia. f_equal. pose proof (Z.div_mod n m ltac:(lia)). lia. }
    pose proof (Z.div_pos (n mod m + j) m). pose proof (Z.mod_pos_bound n m ltac:(lia)). lia.
Qed.

(** The first character lays the console out. *)
Lemma draw_char_layout font ch fg bg c d :
  shell_draw_char font ch fg bg (console_layout (fb d) c, d) = shell_draw_char font ch fg bg (c, d).
Proof.
  unfold shell_draw_char. rewrite !bind_modify. cbn [fst snd]. 
  assert (console_layout (fb d) (console_layout (fb d) c) = console_layout (fb d) c) as ->; [|done].
  unfold console_layout at 2 3. destruct (needs_layout c) eqn:E; [done|]. unfold console_layout. by rewrite E.
Qed.

(** On plain characters [shell_draw_string] is the drawing of the cells. *)
Lemma draw_string_run font l fg bg : Forall plain l -> forall c k d d', console_ok c -> 0 <= k ->
  draw_cells font c k l fg bg d = Ret tt d' ->
  shell_draw_string font l fg bg (moved c k, d) = Ret tt (moved c (k + Z.of_nat (length l)), d').
Proof.
  induction 1 as [|ch l Hch _ IH]; intros c k d d' Hc Hk; cbn [shell_draw_string draw_cells length].
  { intros [= <-]. by rewrite Z.add_0_r. }
  intros E. apply bind_Ret_inv in E as ([] & d1 & E1 & E2).
  rewrite (bind_Ret _ _ _ _ _ (draw_char_run font (moved c k) ch fg bg d d1 (moved_ok c k Hc Hk) Hch E1)).
  rewrite moved_moved by (done || lia). rewrite (IH c (k + 1) d1 d' Hc ltac:(lia) E2). do 3 f_equal. lia.
Qed.

Lemma draw_cells_drawn d c k l fg bg :
  display_wf d -> console_ok c -> 0 <= k -> Forall (λ ch, 0 <= ch < 256) l -> drawn d (draw_cells text_ready c k l fg bg).
Proof.
  intros Hd Hc Hk Hl. revert k Hk. induction Hl as [|ch l Hch _ IH]; intros k Hk; cbn [draw_cells]; [apply drawn_ret|].
  apply drawn_seq; [|apply IH; lia]. eexists. pose proof (moved_ok c k Hc Hk) as [_ [Hmx Hmy] [Hx Hy]].
  unfold moved in Hx, Hy, Hmx, Hmy. cbn [set_cursor cursor_x cursor_y max_x max_y] in Hx, Hy, Hmx, Hmy. apply char_shades; (done || lia).
Qed.
End cells.

(** ** The desktop stays on the screen *)

Section desktop.
Context {OS : Type} `{!PageSource OS}.
Local Abbreviation display := (display OS).
Implicit Types (d : display) (p : panels).

(** A screen with room for the panels. *)
Record desk_screen d : Prop := {
  ds_wf : display_wf d;
  ds_width : 240 <= fb_width (fb d) <= 2 ^ 27;
  ds_height : 132 <= fb_height (fb d) <= 2 ^ 27
}.

Definition bytes_ok (l : list Z) : Prop := Forall (λ c, 0 <= c < 256) l /\ (length l <= 255)%nat.

Lemma drawn_words d x y l fg bg : display_wf d -> bytes_ok l -> 0 <= x < 2 ^ 31 -> 0 <= y < 2 ^ 31 -> drawn d (text_draw text_ready x y l fg bg).
Proof. intros Hd [Hl Hn] Hx Hy. apply drawn_text; (done || lia). Qed.

Lemma drawn_rect d x y w h c : display_wf d -> 0 <= x < 2 ^ 31 -> 0 <= y < 2 ^ 31 -> 0 <= w < 2 ^ 31 -> 0 <= h < 2 ^ 31 -> drawn d (gfx_draw_rect x y w h c).
Proof. intros. apply drawn_fill; (done || lia). Qed.

Lemma drawn_line d fuel x0 y0 x1 y1 c :
  display_wf d -> 0 <= x0 < 2 ^ 28 -> 0 <= y0 < 2 ^ 28 -> 0 <= x1 < 2 ^ 28 -> 0 <= y1 < 2 ^ 28 ->
  Z.abs (x1 - x0) + Z.abs (y1 - y0) < Z.of_nat fuel -> drawn d (gfx_draw_line fuel x0 y0 x1 y1 c).
Proof.
  intros Hd H1 H2 H3 H4 Hf. destruct (draw_line_paints d c x0 y0 x1 y1 fuel Hd H1 H2 H3 H4 Hf) as (sx & sy & l & _ & _ & Hp & _). by eapply drawn_paints.
Qed.

Lemma drawn_circle d fuel cx cy r c b :
  desk_screen d -> 0 <= cx < 2 ^ 28 -> 0 <= cy < 2 ^ 28 -> 0 <= r < 2 ^ 28 -> r + 1 < Z.of_nat fuel -> drawn d (gfx_draw_circle fuel cx cy r c b).
Proof.
  intros Hd H1 H2 H3 Hf. destruct (draw_circle_draws d c cx cy r b fuel) as (P & Hp & _); try done.
  - apply (ds_wf _ Hd).
  - destruct Hd as [_ ? ?]. split; lia.
  - by eapply drawn_paints.
Qed.

Lemma drawn_gets {A} d (g : display -> A) (k : A -> M display unit) : (forall mm, g (at_mem mm d) = g d) -> drawn d (k (g d)) -> drawn d (bind (gets g) k).
Proof. intros Hg [F HF]. eexists. by apply shades_gets. Qed.

Lemma drawn_for_range d n (body : Z -> M display unit) :
  0 <= n -> (forall j, 0 <= j < n -> drawn d (body j)) -> drawn d (for_range 0 n body).
Proof.
  intros Hn Hb. unfold for_range. assert (forall k i, 0 <= i -> i + Z.of_nat k <= n -> drawn d (for_n k i body)) as Hgo; [|apply Hgo; lia].
  induction k as [|k IH]; intros i Hi Hk; cbn [for_n]; [apply drawn_ret|]. apply drawn_seq; [apply Hb; lia|apply IH; lia].
Qed.

(** Bounds of a widget that are safe to draw. *)
Definition rect_ok (b : ui_rect_t) : Prop := 0 <= r_x b < 2 ^ 30 /\ 0 <= r_y b < 2 ^ 30 /\ 4 <= r_w b < 2 ^ 30 /\ 4 <= r_h b < 2 ^ 30.
Definition words_ok (o : option (list Z)) : Prop := match o with Some l => bytes_ok l | None => True end.

Ltac step := apply drawn_seq; [first [apply drawn_rect | apply drawn_outline]; (done || lia)|].

Lemma panel_drawn d q : display_wf d -> rect_ok (p_bounds q) -> words_ok (p_title q) -> drawn d (ui_panel_draw text_ready q).
Proof.
  intros Hd (Hx & Hy & Hw & Hh) Ht. unfold ui_panel_draw. step. step. destruct (p_title q) as [l|]; [|apply drawn_ret].
  rewrite !(wrap_small 32) by lia. step. apply drawn_words; (done || lia).
Qed.

Lemma button_drawn d b : display_wf d -> rect_ok (b_bounds b) -> words_ok (b_label b) -> drawn d (ui_button_draw text_ready b).
Proof.
  intros Hd (Hx & Hy & Hw & Hh) Ht. unfold ui_button_draw. step. step. destruct (b_label b) as [l|]; [|apply drawn_ret].
  assert (0 <= (if 16 <? r_h (b_bounds b) then (r_h (b_bounds b) - 16) / 2 else 4) < 2 ^ 30) as Hq.
  { destruct (Z.ltb_spec 16 (r_h (b_bounds b))); [|lia]. split; [apply Z.div_pos; lia|apply Z.div_lt_upper_bound; lia]. }
  rewrite !(wrap_small 32) by lia. apply drawn_words; (done || lia).
Qed.

Lemma field_drawn d f : display_wf d -> rect_ok (f_bounds f) -> words_ok (f_buffer f) -> 0 <= f_len f < 2 ^ 20 -> drawn d (ui_textfield_draw text_ready f).
Proof.
  intros Hd (Hx & Hy & Hw & Hh) Ht Hl. unfold ui_textfield_draw. step. step.
  rewrite (wrap_small 32 (f_len f)), !(wrap_small 32) by lia. apply drawn_seq.
  - destruct (f_buffer f) as [l|]; [|apply drawn_ret]. apply drawn_words; (done || lia).
  - destruct (f_focused f); [|apply drawn_ret]. apply drawn_rect; (done || lia).
Qed.

Lemma str_ok (s : string) : (String.length s <= 255)%nat -> bytes_ok (str s).
Proof.
  intros Hs. unfold str. split.
  - apply Forall_fmap, Forall_true. intros c. cbn beta. pose proof (Ascii.N_ascii_bounded c). unfold compose. lia.
  - rewrite length_fmap. replace (length (String.list_ascii_of_string s)) with (String.length s); [done|]. clear. induction s as [|c s IH]; cbn; [done|]. by rewrite IH.
Qed.

Lemma bytes_app l k : bytes_ok l -> bytes_ok k -> (length l + length k <= 255)%nat -> bytes_ok (l ++ k).
Proof. intros [H1 _] [H2 _] Hn. split; [by apply Forall_app|]. by rewrite length_app. Qed.

Lemma digits_bytes fuel v tmp : Forall (λ c, 0 <= c < 256) tmp -> Forall (λ c, 0 <= c < 256) (digits_loop fuel v tmp) /\ (length (digits_loop fuel v tmp) <= length tmp + fuel)%nat.
Proof.
  revert v tmp. induction fuel as [|fuel IH]; intros v tmp Ht; cbn [digits_loop]; [split; [done|lia]|]. destruct (0 <? v); [|split; [done|lia]].
  destruct (IH (v / 10) (tmp ++ [48 + v mod 10])) as [H1 H2]; [apply Forall_app; split; [done|constructor; [pose proof (Z.mod_pos_bound v 10); lia|constructor]]|].
  rewrite length_app in H2. cbn in H2. split; [done|lia].
Qed.

Lemma uint64_bytes v : bytes_ok (uint64_to_str v) /\ (length (uint64_to_str v) <= 20)%nat.
Proof.
  unfold uint64_to_str. destruct (v =? 0); [split; [split; [repeat constructor; lia|cbn; lia]|cbn; lia]|].
  destruct (digits_bytes 20 v []) as [H1 H2]; [constructor|]. cbn [length] in H2. split; [split; [by apply Forall_rev|rewrite length_rev; lia]|rewrite length_rev; lia].
Qed.
Lemma int_bytes v : bytes_ok (int_to_str v) /\ (length (int_to_str v) <= 11)%nat.
Proof.
  unfold int_to_str. destruct (v =? 0); [split; [split; [repeat constructor; lia|cbn; lia]|cbn; lia]|]. cbv zeta. set (w := if v <? 0 then s32 (- v) else v).
  destruct (digits_bytes 10 w []) as [H1 H2]; [constructor|]. cbn [length] in H2.
  clearbody w. assert (forall t, bytes_ok t -> (length t <= 11)%nat -> bytes_ok (rev t) /\ (length (rev t) <= 11)%nat) as Hrev.
  { intros t [A1 A2] A3. rewrite length_rev. split; [split; [by apply Forall_rev|by rewrite length_rev]|done]. }
  destruct (v <? 0); apply Hrev; [|rewrite length_app; cbn [length]; lia|split; [done|lia]|lia].
  apply bytes_app; [split; [done|lia]|split; [repeat constructor; lia|cbn; lia]|cbn [length]; lia].
Qed.

Ltac words := apply drawn_words; [done|first [apply str_ok; cbn; lia | idtac]|lia|lia].

Lemma background_drawn d fuel t : desk_screen d -> 0 <= t -> (200 <= fuel)%nat -> drawn d (shell_draw_fluid_background fuel t).
Proof.
  intros Hd Ht Hf. pose proof (ds_wf _ Hd) as Hw. destruct (ds_width _ Hd) as [? ?], (ds_height _ Hd) as [? ?].
  unfold shell_draw_fluid_background. apply drawn_gets; [done|].
  assert (truth (fb_width (fb d)) = true /\ truth (fb_height (fb d)) = true) as [-> ->].
  { unfold truth. destruct (Z.eqb_spec (fb_width (fb d)) 0), (Z.eqb_spec (fb_height (fb d)) 0); (lia || done). }
  apply drawn_seq; [apply drawn_for_range; [lia|]; intros y Hy; apply drawn_rect; (done || lia)|].
  set (w := fb_width (fb d)) in *. set (h := fb_height (fb d)) in *.
  assert (0 <= u32 (t mod w) < 2 ^ 27) as Ha by (pose proof (Z.mod_pos_bound t w ltac:(lia)); rewrite wrap_small by lia; lia).
  assert (0 <= u32 (u64 (t * 2 + 120) mod w) < 2 ^ 27) as Hb.
  { pose proof (Z.mod_pos_bound (u64 (t * 2 + 120)) w ltac:(lia)). rewrite wrap_small by lia. lia. }
  set (a := u32 (t mod w)) in *. set (b := u32 (u64 (t * 2 + 120) mod w)) in *.
  assert (0 <= h / 3 < 2 ^ 27) as Hh3 by (split; [apply Z.div_pos; lia|apply Z.div_lt_upper_bound; lia]).
  assert (0 <= h / 2 < 2 ^ 27) as Hh2 by (split; [apply Z.div_pos; lia|apply Z.div_lt_upper_bound; lia]).
  rewrite (wrap_small 32 (h / 3 + 1)) by lia. pose proof (Z.mod_pos_bound t (h / 3 + 1) ltac:(lia)).
  rewrite (wrap_small 32 (t mod (h / 3 + 1))), (wrap_small 32 (120 + t mod (h / 3 + 1))), (wrap_small 32 (a + b)) by lia.
  assert (0 <= (a + b) / 2 < 2 ^ 27) by (split; [apply Z.div_pos; lia|apply Z.div_lt_upper_bound; lia]).
  apply drawn_seq; [apply drawn_circle; (done || lia)|]. apply drawn_seq; [|apply drawn_circle; (done || lia)].
  apply drawn_circle; try (done || lia). destruct (Z.ltb_spec 160 h); [rewrite wrap_small by lia; lia|lia].
Qed.

Lemma statusbar_drawn d t : desk_screen d -> drawn d (shell_draw_statusbar text_ready t).
Proof.
  intros Hd. pose proof (ds_wf _ Hd) as Hw. destruct (ds_width _ Hd) as [? ?]. destruct (uint64_bytes t) as [Hb Hl].
  unfold shell_draw_statusbar, SHELL_TOP_H. apply drawn_gets; [done|]. rewrite wrap_small by lia. step. step. apply drawn_seq; [words|].
  words. apply bytes_app; [apply str_ok; cbn; lia|done|cbn [length]; cbn; lia].
Qed.

Lemma sparkle_drawn d fuel x y c : desk_screen d -> 6 <= x < 2 ^ 27 -> 6 <= y < 2 ^ 27 -> (200 <= fuel)%nat -> drawn d (shell_draw_sparkle fuel x y c).
Proof.
  intros Hd Hx Hy Hf. pose proof (ds_wf _ Hd) as Hw. unfold shell_draw_sparkle. rewrite !wrap_small by lia.
  repeat (apply drawn_seq; [apply drawn_line; (done || lia)|]). apply drawn_line; (done || lia).
Qed.

Lemma card_drawn d fuel cx cy i label : desk_screen d -> 0 <= cx < 2 ^ 20 -> 0 <= cy < 2 ^ 20 -> 0 <= i < 3 -> (String.length label <= 255)%nat -> (200 <= fuel)%nat ->
  drawn d (draw_card text_ready fuel cx cy i label).
Proof.
  intros Hd Hx Hy Hi Hl Hf. pose proof (ds_wf _ Hd) as Hw. unfold draw_card. rewrite (wrap_small 32 (cx + i * 154)), (wrap_small 32 (cy + 124)), !wrap_small by lia.
  step. step. step. apply drawn_seq; [apply drawn_circle; (done || lia)|]. apply drawn_words; [done|by apply str_ok|lia|lia].
Qed.

Lemma content_drawn d fuel p t : desk_screen d -> (200 <= fuel)%nat ->
  drawn d (shell_draw_main_content text_ready fuel (laid_panels (fb_width (fb d)) (fb_height (fb d)) p) t).
Proof.
  intros Hd Hf. pose proof (ds_wf _ Hd) as Hw. destruct (ds_width _ Hd) as [? ?], (ds_height _ Hd) as [? ?].
  unfold shell_draw_main_content. cbn [main_panel laid_panels p_bounds p_fill r_x r_y r_w r_h]. unfold SHELL_SIDEBAR_W, SHELL_TOP_H, SHELL_DOCK_H.
  change (u32 (212 + 12 + 16)) with 240. change (u32 (46 + 12 + 32)) with 90. change (u32 (90 + 24)) with 114. change (u32 (90 + 12)) with 102.
  change (u32 (90 + 56)) with 146. change (u32 (90 + 88)) with 178. rewrite (wrap_small 32 (fb_width (fb d) - 212 - 24)), (wrap_small 32 (212 + 12 + (fb_width (fb d) - 212 - 24) - 38)) by lia.
  destruct (uint64_bytes t) as [Hb Hl]. destruct (int_bytes (s32 (fb_width (fb d)))) as [Hb1 Hl1], (int_bytes (s32 (fb_height (fb d)))) as [Hb2 Hl2].
  apply drawn_seq; [words|]. apply drawn_seq; [words|]. apply drawn_seq; [apply sparkle_drawn; (done || lia)|].
  apply drawn_seq; [words; apply bytes_app; [apply str_ok; cbn; lia|done|cbn [length]; cbn; lia]|].
  apply drawn_gets; [done|]. apply drawn_seq.
  { words. apply bytes_app; [apply str_ok; cbn; lia|apply bytes_app; [done|apply bytes_app; [apply str_ok; cbn; lia|done|]|]|]; rewrite ?length_app; cbn [length]; cbn; lia. }
  apply drawn_seq; [apply card_drawn; (done || lia || (cbn; lia))|]. apply drawn_seq; apply card_drawn; (done || lia || (cbn; lia)).
Qed.

(** All of the desktop. *)
Lemma desktop_drawn d fuel p t1 t2 t3 :
  desk_screen d -> bytes_ok (cmd_buf p) -> 0 <= f_len (cmd_field p) < 2 ^ 20 -> 0 <= t1 -> (200 <= fuel)%nat ->
  drawn d (draw_desktop text_ready fuel (laid_panels (fb_width (fb d)) (fb_height (fb d)) p) t1 t2 t3).
Proof.
  intros Hd Hbuf Hlen Ht Hf. pose proof (ds_wf _ Hd) as Hw. destruct (ds_width _ Hd) as [? ?], (ds_height _ Hd) as [? ?].
  unfold draw_desktop. apply drawn_gets; [done|].
  apply drawn_seq; [by apply background_drawn|]. apply drawn_seq; [by apply statusbar_drawn|].
  unfold laid_panels, side_button, SHELL_SIDEBAR_W, SHELL_TOP_H, SHELL_DOCK_H. cbn [sidebar_panel main_panel btn_clear btn_about btn_files btn_style cmd_field].
  rewrite !(wrap_small 32 (fb_height (fb d) - 58)), !(wrap_small 32 (fb_height (fb d) - 42)), !(wrap_small 32 (fb_height (fb d) - 46 - 58 - 24)),
    !(wrap_small 32 (fb_height (fb d) - 46 - 58)), !(wrap_small 32 (fb_width (fb d) - 212 - 24)), !(wrap_small 32 (fb_width (fb d) - 32)), !(wrap_small 32 (fb_height (fb d) - 58 + 8)) by lia.
  apply drawn_seq; [apply panel_drawn; [done|unfold rect_ok; cbn; lia|apply str_ok; cbn; lia]|].
  apply drawn_seq; [apply panel_drawn; [done|unfold rect_ok; cbn; lia|apply str_ok; cbn; lia]|].
  do 4 (apply drawn_seq; [apply button_drawn; [done|unfold rect_ok; cbn; lia|apply str_ok; cbn; lia]|]).
  pose proof (content_drawn d fuel p t3 Hd Hf) as Hc. unfold laid_panels, side_button, SHELL_SIDEBAR_W, SHELL_TOP_H, SHELL_DOCK_H in Hc.
  rewrite !(wrap_small 32 (fb_height (fb d) - 46 - 58 - 24)),
    !(wrap_small 32 (fb_height (fb d) - 46 - 58)), !(wrap_small 32 (fb_width (fb d) - 212 - 24)), !(wrap_small 32 (fb_width (fb d) - 32)), !(wrap_small 32 (fb_height (fb d) - 58 + 8)) in Hc by lia.
  apply drawn_seq; [exact Hc|]. apply drawn_seq; [apply field_drawn; [done|unfold rect_ok; cbn; lia|exact Hbuf|exact Hlen]|].
  step. step. words.
Qed.
End desktop.

(** ** The cursor *)

Section cursor.
Context {OS : Type} `{!PageSource OS}.
Local Abbreviation display := (display OS).
Implicit Types (d : display).

(** The arrow has a pixel in column [col] and row [row]. *)
Definition arrow_bit (col row : Z) : bool := match aget cursor_shape row with Some bits => Z.testbit bits (15 - col) | None => false end.
Definition arrow (mx my : Z) : picture := λ px py,
  if in_rect mx my 12 12 px py && arrow_bit (px - mx) (py - my) then Some 0xFFFFFF else None.

Lemma arrow_triangle col row : 0 <= col < 12 -> 0 <= row < 12 -> arrow_bit col row = (row <=? col).
Proof.
  assert (forallb (λ r, forallb (λ c, eqb (arrow_bit c r) (r <=? c)) (seqZ 0 12)) (seqZ 0 12) = true) as Hall by by vm_compute.
  intros Hc Hr. rewrite forallb_forall in Hall. specialize (Hall row). rewrite <- list_elem_of_In, elem_of_seqZ in Hall.
  specialize (Hall ltac:(lia)). rewrite forallb_forall in Hall. specialize (Hall col). rewrite <- list_elem_of_In, elem_of_seqZ in Hall.
  apply eqb_prop, Hall. lia.
Qed.

Lemma clamp_range m size : 1 <= size < 2 ^ 31 -> - 2 ^ 31 <= m < 2 ^ 31 -> clamp m size = Z.max 0 (Z.min m (size - 1)).
Proof.
  intros Hs Hm. unfold clamp. destruct (Z.ltb_spec m 0).
  - rewrite wrap_small by lia. destruct (Z.leb_spec size 0); lia.
  - rewrite wrap_small by lia. destruct (Z.leb_spec size m); [|lia]. rewrite (signed_small 32 size), (signed_small 32 (size - 1)) by (simpl; lia). lia.
Qed.

Lemma cursor_shades d mouse_x mouse_y :
  display_wf d -> 1 <= fb_width (fb d) < 2 ^ 31 -> 1 <= fb_height (fb d) < 2 ^ 31 -> - 2 ^ 31 <= mouse_x < 2 ^ 31 -> - 2 ^ 31 <= mouse_y < 2 ^ 31 ->
  shades d (arrow (Z.max 0 (Z.min mouse_x (fb_width (fb d) - 1))) (Z.max 0 (Z.min mouse_y (fb_height (fb d) - 1)))) (ui_draw_cursor mouse_x mouse_y).
Proof.
  intros Hw Hwd Hht Hx Hy. unfold ui_draw_cursor. apply shades_gets; [done|]. rewrite !clamp_range by done.
  set (mx := Z.max 0 _). set (my := Z.max 0 (Z.min mouse_y _)). assert (0 <= mx < 2 ^ 31 /\ 0 <= my < 2 ^ 31) as [Hmx Hmy] by lia. clearbody mx my.
  eapply shades_ext; [done| |eapply (shades_for d
    (λ row px py, if (0 <=? px - mx) && (px - mx <? 12) then if (py - my =? row) && arrow_bit (px - mx) row then Some 0xFFFFFF else None else None)
    (λ px py, py - my)); [lia|]].
  - intros px py _ _. unfold arrow, in_rect. rewrite Z.eqb_refl. cbn [andb].
    destruct (Z.leb_spec 0 (py - my)), (Z.ltb_spec (py - my) 12), (Z.leb_spec 0 (px - mx)), (Z.ltb_spec (px - mx) 12), (Z.leb_spec mx px),
      (Z.ltb_spec px (mx + 12)), (Z.leb_spec my py), (Z.ltb_spec py (my + 12)); try lia; done.
  - intros row Hrow. eapply shades_ext; [done| |eapply (shades_for d
      (λ col px py, if (py - my =? row) && arrow_bit col row then Some 0xFFFFFF else None) (λ px py, px - mx)); [lia|]].
    + intros px py _ _. cbn beta. destruct (Z.eqb_spec (py - my) row); [done|]. cbn [andb]. by destruct ((0 <=? px - mx) && (px - mx <? 12)).
    + intros col Hcol. destruct (aget_is_Some cursor_shape row) as [bits Hbits]; [cbn; lia|]. rewrite Hbits. apply shades_option.
      assert (truth (Z.land bits (Z.shiftr 0x8000 col)) = arrow_bit col row) as ->.
      { unfold arrow_bit. rewrite Hbits, <- land_bit by lia. do 2 f_equal. change 0x8000 with (2 ^ 15). rewrite Z.shiftr_div_pow2, <- Z.pow_sub_r by lia. done. }
      rewrite !wrap_small by lia. destruct (arrow_bit col row).
      2: { eapply shades_ext; [done| |apply shades_ret]. intros px py _ _. rewrite andb_false_r. by destruct (px - mx =? col). }
      destruct ((mx + col <? fb_width (fb d)) && (my + row <? fb_height (fb d))) eqn:Eg.
      * eapply shades_ext; [done| |apply shades_paints, put_pixel_paints; [done|lia|lia]]. intros px py _ _. unfold filled.
        destruct (Z.eqb_spec (px - mx) col), (Z.eqb_spec px (mx + col)), (Z.eqb_spec (py - my) row), (Z.eqb_spec py (my + row)); try lia; done.
      * eapply shades_ext; [done| |apply shades_ret]. intros px py Hpx Hpy. unfold blank. apply andb_false_iff in Eg.
        destruct (Z.eqb_spec (px - mx) col), (Z.eqb_spec (py - my) row); try done. lia.
Qed.
End cursor.

(** ** [ui_render] *)

Section render.
Context {H OS : Type} `{!Allocator H} `{!PageSource OS}.
Local Abbreviation display := (display OS).
Local Abbreviation gui := (ui H (panels * display)).
Implicit Types (d : display) (mm : mem) (s : gui) (p : panels).
Variable call_paint : Z -> Z -> M gui unit.

Definition on_screen_part {A} (m : M (panels * display) A) : M gui A := zoom ui_screen set_screen m.
Definition on_display_part {A} (m : M display A) : M gui A := on_screen_part (zoom snd (λ d c, (c.1, d)) m).

(** [fuel] is for the shapes, [n] for the widgets. *)
Definition ui_render (font : text_state) (fuel n : nat) (t1 t2 t3 mouse_x mouse_y : Z) : M gui unit :=
  s <-- get ;;
  if negb (ready (fb (ui_screen s).2)) then ret tt
  else
    on_screen_part (shell_render font fuel t1 t2 t3) ;;;
    s <-- get ;;
    ui_paint_widget call_paint n (root_widget s) ;;;
    on_display_part (ui_draw_cursor mouse_x mouse_y) ;;;
    on_display_part fb_swap_buffers ;;;
    ui_clear_dirty ;;;
    on_screen_part shell_clear_dirty.

(** The start of [ui_init] that is its own: the root widget covers the screen, and is used unchecked. *)
Definition ui_init (init_parts : M gui unit) (fuel : nat) : M gui unit :=
  init_parts ;;;
  s <-- get ;;
  let f := fb (ui_screen s).2 in
  root <-- ui_create_widget fuel 0 (mkRect 0 0 (fb_width f) (fb_height f)) ;;
  modify (set_root root) ;;;
  wid_upd root (λ w, w_show true (u_enabled w) w) ;;;
  modify (set_ui_dirty true).

(** The panels are [p], and the display is [d] with a memory that differs from [mm0] in its buffers only. *)
Definition shown_only d mm0 p (c : panels * display) : Prop :=
  exists mm, c = (p, at_mem mm d) /\ display_mem d mm /\ forall a, touched d a = false -> mm !! a = mm0 !! a.

Lemma draw_part d mm0 p s (m : M display unit) : drawn d m -> shown_only d mm0 p (ui_screen s) ->
  exists c, shown_only d mm0 p c /\ on_display_part m s = Ret tt (set_screen c s).
Proof.
  intros Hm (mm & Es & Hmm & Ho). destruct (drawn_run d m mm Hm (dm_screen _ _ Hmm)) as (mm' & E & Hmm' & Ho').
  exists (p, at_mem mm' d). split.
  - exists mm'. split; [done|]. split; [by apply (display_mem_drawn _ mm)|]. intros a Ha. by rewrite Ho', Ho by auto using touched_off.
  - unfold on_display_part, on_screen_part, zoom. rewrite Es. cbn [fst snd]. by rewrite E.
Qed.
End render.

(** ** Lemmas on [ui_render] *)

Section render_runs.
Context {H OS : Type} `{!Allocator H} `{!PageSource OS}.
Local Abbreviation display := (display OS).
Local Abbreviation gui := (ui H (panels * display)).
Implicit Types (d : display) (mm : mem) (s : gui) (p : panels).

(** The painters draw on the screen and nowhere else. *)
Definition painters_ok d (call_paint : Z -> Z -> M gui unit) : Prop :=
  forall f a s p mm0, shown_only d mm0 p (ui_screen s) -> exists c, shown_only d mm0 p c /\ call_paint f a s = Ret tt (set_screen c s).

Lemma render_shell d mm0 p c font fuel t1 t2 t3 :
  ready (fb d) = true -> drawn d (draw_desktop font fuel (laid_panels (fb_width (fb d)) (fb_height (fb d)) p) t1 t2 t3) ->
  shown_only d mm0 p c ->
  exists c', shown_only d mm0 (set_dirty false (laid_panels (fb_width (fb d)) (fb_height (fb d)) p)) c' /\
    shell_render font fuel t1 t2 t3 c = Ret tt c'.
Proof.
  intros Hr Hm (mm & -> & Hmm & Ho). destruct (drawn_run d _ mm Hm (dm_screen _ _ Hmm)) as (mm' & E & Hmm' & Ho').
  exists (set_dirty false (laid_panels (fb_width (fb d)) (fb_height (fb d)) p), at_mem mm' d). split.
  - exists mm'. split; [done|]. split; [by apply (display_mem_drawn _ mm)|]. intros a Ha. by rewrite Ho', Ho by auto using touched_off.
  - unfold shell_render. rewrite bind_get. cbn [fst snd]. change (fb (at_mem mm d)) with (fb d). rewrite Hr. cbn [negb].
    rewrite bind_modify, bind_get. cbn [fst snd]. unfold shell_layout. change (fb (at_mem mm d)) with (fb d). rewrite Hr.
    rewrite (bind_Ret _ _ _ tt (laid_panels (fb_width (fb d)) (fb_height (fb d)) p, at_mem mm' d)); [done|].
    unfold zoom. cbn [fst snd]. by rewrite E.
Qed.

Lemma on_screen_part_run {A} (m : M (panels * display) A) s (v : A) c : m (ui_screen s) = Ret v c -> on_screen_part m s = Ret v (set_screen c s).
Proof. intros E. unfold on_screen_part, zoom. by rewrite E. Qed.

Lemma render_run call_paint d mm p s K (X : gset Z) fuel n t1 t2 t3 mouse_x mouse_y :
  desk_screen d -> buffers_ok d -> display_mem d mm -> ui_screen s = (p, at_mem mm d) ->
  bytes_ok (cmd_buf p) -> 0 <= f_len (cmd_field p) < 2 ^ 20 -> 0 <= t1 -> (200 <= fuel)%nat ->
  - 2 ^ 31 <= mouse_x < 2 ^ 31 -> - 2 ^ 31 <= mouse_y < 2 ^ 31 -> painters_ok d call_paint ->
  tree_inv s K -> is_Some (K !! root_widget s) -> (forall x, below (widgets s) (root_widget s) x -> x ∈ X) -> (size X < n)%nat ->
  exists mm' p', ui_render call_paint text_ready fuel n t1 t2 t3 mouse_x mouse_y s = Ret tt (set_ui_dirty false (set_screen (p', at_mem mm' d) s)) /\
    (forall a, touched d a = false -> mm' !! a = mm !! a) /\ front_shown d mm' /\ dirty p' = false /\ input_is_dirty p' = false /\
    display_mem d mm' /\ cmd_buf p' = cmd_buf p /\ f_len (cmd_field p') = f_len (cmd_field p).
Proof.
  intros Hd Hdb Hmm Es Hbuf Hlen Ht Hf Hmx Hmy Hp Hi Hroot HX Hn. pose proof (ds_wf _ Hd) as Hw.
  destruct (ds_width _ Hd) as [? ?], (ds_height _ Hd) as [? ?]. set (p1 := set_dirty false (laid_panels (fb_width (fb d)) (fb_height (fb d)) p)).
  destruct (render_shell d mm p (ui_screen s) text_ready fuel t1 t2 t3) as (c1 & Hc1 & E1);
    [apply (dw_ready _ Hw)|by apply desktop_drawn|by exists mm|]. fold p1 in Hc1.
  destruct (paint_run call_paint (shown_only d mm p1) (λ f a s', Hp f a s' p1 mm) n (set_screen c1 s) K (root_widget s) X)
    as (c2 & Hc2 & E2 & _); [by apply inv_screen|done|done|done|done|].
  destruct (draw_part d mm p1 (set_screen c2 s) (ui_draw_cursor mouse_x mouse_y)) as (c3 & Hc3 & E3); [eexists; apply cursor_shades; (done || lia)|done|].
  destruct Hc3 as (m3 & -> & Hm3 & O3). destruct (presents_swap d Hw Hdb m3 Hm3) as (mm' & E4 & Hmm' & O4 & F4).
  assert (on_display_part (H := H) fb_swap_buffers (set_screen (p1, at_mem m3 d) s) = Ret tt (set_screen (p1, at_mem mm' d) s)) as E5.
  { unfold on_display_part, on_screen_part, zoom. cbn [ui_screen set_screen fst snd]. by rewrite E4. }
  exists mm', (mkPanels (main_panel p1) (sidebar_panel p1) (btn_clear p1) (btn_about p1) (btn_files p1) (btn_style p1) (cmd_field p1) (cmd_buf p1) false false).
  split; [|by split_and!; try done; intros a Ha; rewrite O4, O3]. unfold ui_render. rewrite bind_get, Es. cbn [snd]. change (fb (at_mem mm d)) with (fb d). rewrite (dw_ready _ Hw). cbn [negb].
  rewrite (bind_Ret _ _ _ _ _ (on_screen_part_run _ s tt c1 E1)), bind_get. cbn [root_widget set_screen].
  rewrite (bind_Ret _ _ _ _ _ E2). change (set_screen c2 (set_screen c1 s)) with (set_screen c2 s). rewrite (bind_Ret _ _ _ _ _ E3).
  change (set_screen (p1, at_mem m3 d) (set_screen c2 s)) with (set_screen (p1, at_mem m3 d) s). rewrite (bind_Ret _ _ _ _ _ E5). unfold ui_clear_dirty. by rewrite bind_modify.
Qed.
End render_runs.

(** ** Properties *)

Section screen_properties.
Context {OS : Type} `{!PageSource OS}.
Local Abbreviation display := (display OS).
Implicit Types (d : display) (mm : mem) (p : panels).

(** A text with no line feed, carriage return or tab is written on the console cell by cell: to
    the right, then from the start of the next row, and in the last row over and over (the
    console does not scroll); the cursor is left after the last character and no byte outside
    of the screen changes. *)
Theorem console_cells d mm c l fg bg :
  display_wf d -> mapped mm (scr_base d) (scr_size d) -> l <> [] -> Forall (λ ch, 0 <= ch < 256 /\ plain ch) l ->
  let c0 := console_layout (fb d) c in
  console_ok c0 ->
  exists mm', draw_cells text_ready c0 0 l fg bg (at_mem mm d) = Ret tt (at_mem mm' d) /\
    shell_draw_string (text_init text_start) l fg bg (c, at_mem mm d) = Ret tt (moved c0 (Z.of_nat (length l)), at_mem mm' d) /\
    forall a, on_screen d a = false -> mm' !! a = mm !! a.
Proof.
  intros Hd Hmm Hne Hl c0 Hc. apply Forall_and in Hl as [Hl Hp].
  destruct (drawn_run d _ mm (draw_cells_drawn d c0 0 l fg bg Hd Hc ltac:(lia) Hl) Hmm) as (mm' & E & _ & Ho).
  exists mm'. split; [done|]. split; [|done]. pose proof (draw_string_run _ _ _ _ Hp c0 0 _ _ Hc ltac:(lia) E) as Hr.
  rewrite moved_0, Z.add_0_l in Hr by done. rewrite <- Hr. clear Hr E. destruct l as [|ch l]; [done|]. cbn [shell_draw_string].
  unfold bind. by rewrite <- (draw_char_layout _ _ _ _ c (at_mem mm d)).
Qed.
(** The pointer is a white triangle of 12 by 12 pixels with its corner at the mouse, which is
    first pulled into the screen; the pixels of it that are off the screen are left out, and
    nothing else changes. *)
Theorem ui_draw_cursor_spec d mm mouse_x mouse_y :
  display_wf d -> 1 <= fb_width (fb d) < 2 ^ 31 -> 1 <= fb_height (fb d) < 2 ^ 31 ->
  - 2 ^ 31 <= mouse_x < 2 ^ 31 -> - 2 ^ 31 <= mouse_y < 2 ^ 31 -> mapped mm (scr_base d) (scr_size d) ->
  let mx := Z.max 0 (Z.min mouse_x (fb_width (fb d) - 1)) in
  let my := Z.max 0 (Z.min mouse_y (fb_height (fb d) - 1)) in
  exists mm', ui_draw_cursor mouse_x mouse_y (at_mem mm d) = Ret tt (at_mem mm' d) /\
    (forall a, on_screen d a = false -> mm' !! a = mm !! a) /\
    forall px py, 0 <= px < fb_width (fb d) -> 0 <= py < fb_height (fb d) ->
      pixel d mm' px py = if in_rect mx my 12 12 px py && (py - my <=? px - mx) then Some 0xFFFFFF else pixel d mm px py.
Proof.
  intros Hd Hw Hh Hx Hy Hmm mx my.
  destruct (shades_pixel d _ _ mm Hd (cursor_shades d mouse_x mouse_y Hd Hw Hh Hx Hy) Hmm) as (mm' & E & Ho & Hp).
  { intros x y c. unfold arrow. by case_match; [intros [= <-]|]. }
  exists mm'. split; [done|]. split; [done|]. intros px py Hpx Hpy. rewrite (Hp px py Hpx Hpy). unfold arrow. fold mx my.
  destruct (in_rect mx my 12 12 px py) eqn:Er; [|done]. unfold in_rect in Er. rewrite arrow_triangle by lia. cbn [andb].
  by destruct (py - my <=? px - mx).
Qed.

(** C21. [ui_render] of a laid-out desktop ends, whatever the panels and widgets show, if the painters
    of the widgets do: it redraws the background, the panels, the visible widgets and the
    pointer, keeps the widget tree and leaves nothing dirty.  With one buffer it writes no byte
    but the pixels of the screen; with two that do not overlap, none but the pixels of the back
    buffer and the bytes of the frame buffer, which at the end holds what was drawn.  (After
    [fb_init] there are two; [fb_init_panics] says on which heaps [fb_init] gets that far.) *)
Theorem ui_render_stays {H : Type} `{!Allocator H} (call_paint : Z -> Z -> M (ui H (panels * display)) unit)
    d mm p s K (X : gset Z) fuel n t1 t2 t3 mouse_x mouse_y :
  desk_screen d -> buffers_ok d -> display_mem d mm -> ui_screen s = (p, at_mem mm d) ->
  bytes_ok (cmd_buf p) -> 0 <= f_len (cmd_field p) < 2 ^ 20 -> 0 <= t1 -> (200 <= fuel)%nat ->
  - 2 ^ 31 <= mouse_x < 2 ^ 31 -> - 2 ^ 31 <= mouse_y < 2 ^ 31 -> painters_ok d call_paint ->
  tree_inv s K -> is_Some (K !! root_widget s) -> (forall x, below (widgets s) (root_widget s) x -> x ∈ X) -> (size X < n)%nat ->
  exists mm' p',
    ui_render call_paint (text_init text_start) fuel n t1 t2 t3 mouse_x mouse_y s = Ret tt (set_ui_dirty false (set_screen (p', at_mem mm' d) s)) /\
    (forall a, touched d a = false -> mm' !! a = mm !! a) /\ front_shown d mm' /\ dirty p' = false /\ input_is_dirty p' = false.
Proof.
  intros Hd Hdb Hmm Es Hb Hl Ht Hf Hx Hy Hp Hi Hr HX Hn.
  destruct (render_run call_paint d mm p s K X fuel n t1 t2 t3 mouse_x mouse_y Hd Hdb Hmm Es Hb Hl Ht Hf Hx Hy Hp Hi Hr HX Hn) as (mm' & p' & E & Ho & Hs & Hc & Hc' & _).
  by exists mm', p'.
Qed.
End screen_properties.

(** ** A concrete desktop *)

Section screen_witnesses.
#[local] Existing Instance bump_allocator.

(** A console of two by one characters. *)
Lemma console_cells_witness :
  exists mm', shell_draw_string (text_init text_start) [65; 66; 67] 1 2 (console_start, at_mem mem16 screen16) =
    Ret tt (mkConsole 1 0 2 1 false, at_mem mm' screen16).
Proof.
  destruct (console_cells screen16 mem16 console_start [65; 66; 67] 1 2 screen16_wf screen16_mapped) as (mm' & _ & E & _).
  - discriminate.
  - repeat constructor; discriminate.
  - change (console_ok (mkConsole 0 0 2 1 false)). split; cbn; [done|lia|lia].
  - exists mm'. exact E.
Defined.

(** The mouse is far to the right, so the pointer is cut to its first column. *)
Lemma ui_draw_cursor_spec_witness :
  exists mm', ui_draw_cursor 300 4 (at_mem mem16 screen16) = Ret tt (at_mem mm' screen16) /\
    pixel screen16 mm' 15 4 = Some 0xFFFFFF /\ pixel screen16 mm' 15 5 = Some 0x07070707.
Proof.
  destruct (ui_draw_cursor_spec screen16 mem16 300 4 screen16_wf) as (mm' & E & _ & Hp); try (cbn; lia); [exact screen16_mapped|].
  exists mm'. split; [exact E|]. split; [exact (Hp 15 4 ltac:(cbn; lia) ltac:(cbn; lia))|exact (Hp 15 5 ltac:(cbn; lia) ltac:(cbn; lia))].
Defined.

Definition desk : display nat := mkDisplay (mkHeap O ∅ 0 0 0 []) (mkFb 0x1000 1024 256 132 32) 0x100000 true.
Definition desk_mem : mem := bytes_at 0x1000 (replicate (Z.to_nat 135168) 0) ∪ bytes_at 0x100000 (replicate (Z.to_nat 135168) 0).
Definition panels0 : panels :=
  mkPanels (mkPanel (mkRect 0 0 0 0) 0 0 0 None) (mkPanel (mkRect 0 0 0 0) 0 0 0 None) (side_button 0 "") (side_button 0 "") (side_button 0 "")
    (side_button 0 "") (mkField (mkRect 0 0 0 0) 0 0 0 None 2 true) (str "ls") true true.
(** One widget, with a painter. *)
Definition tree1 : gmap Z ui_widget_t := {[ 8 := mkWidget (mkRect 0 0 256 132) (mkRect 0 0 256 132) 0 0 0 0 true true false 0 5 0 0 ]}.
Definition gui1 : ui (gset Z) (panels * display nat) := mkUi {[8]} tree1 8 0 true (panels0, at_mem desk_mem desk).
Definition box_painter (f a : Z) : M (ui (gset Z) (panels * display nat)) unit := on_display_part (gfx_draw_rect 10 10 8 8 a).

Lemma desk_ok : desk_screen desk.
Proof. split; [split; cbn; try done; lia|cbn; lia|cbn; lia]. Qed.
Lemma mapped_bytes_at a l : mapped (bytes_at a l) a (Z.of_nat (length l)).
Proof.
  intros i Hi. unfold bytes_at. destruct (lookup_lt_is_Some_2 l (Z.to_nat (i - a))) as [b Hb]; [lia|]. exists b.
  apply elem_of_list_to_map_1.
  - rewrite fst_zip by (rewrite length_seqZ; lia). apply NoDup_seqZ.
  - apply list_elem_of_lookup. exists (Z.to_nat (i - a)). rewrite lookup_zip_with, Hb, lookup_seqZ_lt by lia. cbn. do 2 f_equal. lia.
Qed.
Lemma desk_buffers : buffers_ok desk.
Proof. split; [done|intros _; unfold scr_size; cbn; lia]. Qed.
Lemma desk_mapped : display_mem desk desk_mem.
Proof.
  assert (forall a, mapped (bytes_at a (replicate (Z.to_nat 135168) 0)) a 135168) as Hm.
  { intros a. pose proof (mapped_bytes_at a (replicate (Z.to_nat 135168) 0)) as Hm. rewrite length_replicate, Z2Nat.id in Hm by lia. exact Hm. }
  unfold desk_mem. split; [|intros _]; intros i Hi; apply lookup_union_is_Some; [right|left]; apply Hm; exact Hi.
Qed.
Lemma box_painter_ok : painters_ok desk box_painter.
Proof. intros f a s p mm0 Hs. apply draw_part; [apply drawn_rect; [apply desk_ok|lia..]|done]. Qed.
Lemma gui1_inv : tree_inv gui1 {[8 := []]}.
Proof.
  split; cbn [widgets ui_alloc gui1].
  - intros a. rewrite <- !elem_of_dom. change (dom ({[8 := []]} : gmap Z (list Z))) with (dom tree1). done.
  - reflexivity.
  - intros a Ha%elem_of_dom. change (a ∈ ({[8]} : gset Z)). set_solver.
  - intros p l Hp. apply lookup_singleton_Some in Hp as [<- <-]. split; [constructor|]. split; [done|]. by eexists.
  - intros c w Hc. unfold tree1 in Hc. apply lookup_singleton_Some in Hc as [<- <-]. done.
  - intros c Hc%elem_of_dom. assert (c = 8) as -> by set_solver. exists [8]. eapply path_step; [done|reflexivity|constructor].
Qed.

Lemma ui_render_stays_witness :
  exists mm' p', ui_render box_painter (text_init text_start) 200 2 1 2 3 5 5 gui1 =
      Ret tt (set_ui_dirty false (set_screen (p', at_mem mm' desk) gui1)) /\
    mm' !! 0 = desk_mem !! 0 /\ mm' !! 0x1005 = u8 <$> mm' !! 0x100005 /\ dirty p' = false.
Proof.
  destruct (ui_render_stays box_painter desk desk_mem panels0 gui1 {[8 := []]} {[8]} 200 2 1 2 3 5 5) as (mm' & p' & E & Ho & Hs & Hp & _).
  - exact desk_ok.
  - exact desk_buffers.
  - exact desk_mapped.
  - reflexivity.
  - apply (str_ok "ls"). cbn. lia.
  - cbn. lia.
  - lia.
  - lia.
  - lia.
  - lia.
  - exact box_painter_ok.
  - exact gui1_inv.
  - by eexists.
  - intros x Hb%below_is_Some%elem_of_dom. change (x ∈ ({[8]} : gset Z)) in Hb. exact Hb.
  - rewrite size_singleton. lia.
  - exists mm', p'. split; [exact E|]. split; [exact (Ho 0 eq_refl)|]. split; [|exact Hp].
    apply (Hs eq_refl 5). unfold scr_size. cbn. lia.
Defined.
End screen_witnesses.
