(* ===== verification/Kernel.v ===== *)
(** * The kernel around its parts (kernel/main.c, kernel/syscall.c, kernel/panic.c, ui/ui.c)

    The serial line and the text screen of the boot, the system call registers, the dispatch of the
    system calls to the scheduler, the file system and the screen, and the loop of
    [kernel_idle] over [ui_tick] and [ui_render].  Interrupts are taken at [hlt]. *)

From S2P Require Import Prelude CMem Ports Vfs Process Input Irq Tables PageSource Heap Framebuffer Windows Text Widgets Screen.

(** ** The serial line and the text screen *)

Definition serial_init : M pio unit :=
  outb (0x3F8 + 1) 0x00 ;;; outb (0x3F8 + 3) 0x80 ;;; outb (0x3F8 + 0) 0x03 ;;; outb (0x3F8 + 1) 0x00 ;;;
  outb (0x3F8 + 3) 0x03 ;;; outb (0x3F8 + 2) 0xC7 ;;; outb (0x3F8 + 4) 0x0B.
Definition can_send (v : Z) : bool := truth (Z.land v 0x20).
Definition serial_putc (c : Z) : M pio unit := poll_until (0x3F8 + 5) can_send ;;; outb 0x3F8 (u8 c).
Fixpoint serial_write (s : list Z) : M pio unit :=
  match s with
  | [] => ret tt
  | c :: r => (if c =? 10 then serial_putc 13 else ret tt) ;;; serial_putc c ;;; serial_write r
  end.

(** [cursor] counts cells; a cell is 16 bits wide. *)
Record vga := mkVga { video : list Z; vga_cursor : Z }.
Fixpoint early_vga_write (s : list Z) : M vga unit :=
  match s with
  | [] => ret tt
  | c :: r =>
      g <-- get ;;
      (if c =? 10 then put (mkVga (video g) (u64 ((vga_cursor g / 80 + 1) * 80)))
       else
         let cursor := if 80 * 25 <=? vga_cursor g then 0 else vga_cursor g in
         cells <-- of_option (aset (video g) cursor (Z.lor 0x0F00 (u8 c))) ;;
         put (mkVga cells (cursor + 1))) ;;;
      early_vga_write r
  end.

(** ** The system call registers *)

(** The model specific registers; reading one that is not there is a fault. *)
Abbreviation msrs := (gmap Z Z).
(** [edx:eax] is the value of the register. *)
Definition wrmsr (msr value : Z) : M msrs unit :=
  let low := u32 value in
  let high := u32 (Z.shiftr value 32) in
  modify (λ s, <[msr := Z.lor (Z.shiftl high 32) low]> s).
Definition rdmsr (msr : Z) : M msrs Z :=
  s <-- get ;;
  v <-- of_option (s !! msr) ;;
  let low := u32 v in
  let high := u32 (Z.shiftr v 32) in
  ret (Z.lor (Z.shiftl high 32) low).

Record syscall_cpu := mkCpu { user_rsp : Z; kernel_rsp : Z }.
(** The addresses of [syscall_entry], [syscall_cpu_data] and [syscall_stack] are arguments. *)
Definition syscall_init (entry cpu_data stack : Z) : M msrs syscall_cpu :=
  let cpu := mkCpu 0 (stack + 16384) in
  efer <-- rdmsr 0xC0000080 ;;
  wrmsr 0xC0000080 (Z.lor efer (Z.shiftl 1 0)) ;;;
  wrmsr 0xC0000081 star ;;;
  wrmsr 0xC0000082 entry ;;;
  wrmsr 0xC0000084 (Z.shiftl 1 9) ;;;
  wrmsr 0xC0000101 cpu_data ;;;
  wrmsr 0xC0000102 cpu_data ;;;
  ret cpu.

(** ** The system *)

Definition SYSCALL_EXIT : Z := 0.
Definition SYSCALL_READ : Z := 1.
Definition SYSCALL_WRITE : Z := 2.
Definition SYSCALL_OPEN : Z := 3.
Definition SYSCALL_CLOSE : Z := 4.
Definition SYSCALL_DRAW_RECT : Z := 5.
Definition SYSCALL_DRAW_TEXT : Z := 6.
Definition SYSCALL_GET_TICKS : Z := 7.

(** The bytes of a buffer and the characters of a string in memory. *)
Fixpoint read_bytes (n : nat) (m : mem) (a : Z) : option (list Z) :=
  match n with
  | O => Some []
  | S n' => b ← m !! a; r ← read_bytes n' m (a + 1); Some (b :: r)
  end.
Fixpoint read_string (fuel : nat) (a : Z) : M mem (list Z) :=
  match fuel with
  | O => nofuel
  | S fuel' =>
      m <-- get ;;
      c <-- of_option (m !! a) ;;
      if c =? 0 then ret [] else r <-- read_string fuel' (a + 1) ;; ret (c :: r)
  end.
Fixpoint write_bytes (m : mem) (a : Z) (l : list Z) : option mem :=
  match l with
  | [] => Some m
  | b :: r => m ← put8 m a b; write_bytes m (a + 1) r
  end.

Section system.
Context {K F W OS : Type} `{PA : PageAllocator K} `{!Allocator F} `{!Allocator W} `{!PageSource OS}.
Local Abbreviation display := (display OS).
Local Abbreviation gui := (ui W (panels * display)).

(** The machine with the scheduler, the file system, the line input, and the widgets with the
    panels and the display; the memory of the display's heap is the address space. *)
Record system := mkSystem { sy_machine : machine (kern K); sy_fs : vfs F; sy_line : input; sy_gui : gui }.
Implicit Types s : system.

Definition on_machine {A} (m : M (machine (kern K)) A) : M system A :=
  zoom sy_machine (λ c s, mkSystem c (sy_fs s) (sy_line s) (sy_gui s)) m.
Definition on_fs {A} (m : M (vfs F) A) : M system A := zoom sy_fs (λ c s, mkSystem (sy_machine s) c (sy_line s) (sy_gui s)) m.
Definition on_gui {A} (m : M gui A) : M system A := zoom sy_gui (λ c s, mkSystem (sy_machine s) (sy_fs s) (sy_line s) c) m.
(** The keyboard is a part of the machine. *)
Definition set_keyboard (k : kbd) (c : machine (kern K)) : machine (kern K) :=
  mkMachine (y_io c) k (y_mouse c) (tick_count c) (y_sched c).
Definition set_mouse (m : mouse) (c : machine (kern K)) : machine (kern K) :=
  mkMachine (y_io c) (y_kbd c) m (tick_count c) (y_sched c).
Definition on_terminal {A} (m : M terminal A) : M system A :=
  zoom (λ s, mkTerm (y_kbd (sy_machine s)) (sy_line s))
    (λ t s, mkSystem (set_keyboard (t_kbd t) (sy_machine s)) (sy_fs s) (t_input t) (sy_gui s)) m.
Definition on_screen {A} (m : M display A) : M system A := on_gui (on_display_part m).

Definition memory s : mem := hp_mem (d_heap (ui_screen (sy_gui s)).2).
Definition string_at (fuel : nat) (a : Z) : M system (list Z) :=
  on_screen (on_heap (zoom hp_mem (λ m h, hp_with_mem m h) (read_string fuel a))).

(** ** [syscall_dispatch] *)

(** [asm] is the compiled [process_switch]. *)
Variables (font : text_state) (asm : compiled).

(** The buffer of a write is read only for a descriptor that is open. *)
Definition sys_write (a1 a2 a3 : Z) : M system Z :=
  s <-- get ;;
  buf <-- (match open_entry (sy_fs s) (s32 a1) with
           | Some _ => of_option (read_bytes (Z.to_nat a3) (memory s) a2)
           | None => ret []
           end) ;;
  on_fs (vfs_write (s32 a1) buf).
Definition sys_read (a1 a2 a3 : Z) : M system Z :=
  r <-- on_fs (vfs_read (s32 a1) a3) ;;
  on_screen (on_mem (λ m, write_bytes m a2 r.2)) ;;;
  ret r.1.

Definition syscall_dispatch (fuel : nat) (num a1 a2 a3 a4 a5 : Z) : M system Z :=
  if num =? SYSCALL_EXIT then on_machine (on_sched (sys_exit asm a1))
  else if num =? SYSCALL_READ then sys_read a1 a2 a3
  else if num =? SYSCALL_WRITE then sys_write a1 a2 a3
  else if num =? SYSCALL_OPEN then path <-- string_at fuel a1 ;; on_fs (vfs_open path (s32 a2))
  else if num =? SYSCALL_CLOSE then on_fs (vfs_close (s32 a1))
  else if num =? SYSCALL_DRAW_RECT then on_screen (gfx_draw_rect (u32 a1) (u32 a2) (u32 a3) (u32 a4) (u32 a5)) ;;; ret 0
  else if num =? SYSCALL_DRAW_TEXT then
    text <-- string_at fuel a3 ;;
    on_screen (text_draw font (u32 a1) (u32 a2) text (u32 a4) (u32 a5)) ;;; ret 0
  else if num =? SYSCALL_GET_TICKS then t <-- on_machine timer_ticks ;; ret (s64 t)
  else ret (-1).

(** ** [ui_tick] and [kernel_idle] *)

(** [run_line] executes a line and adds it to the history. *)
Variable run_line : list Z -> M system unit.
Variable call_paint : Z -> Z -> M gui unit.

(** What [shell_tick] leaves in the static variables of the shell; the flag of the line input is the
    one that [shell_dirty] reads. *)
Definition show_line (l : list Z) (line_dirty : bool) (p : panels) : panels :=
  mkPanels (main_panel p) (sidebar_panel p) (btn_clear p) (btn_about p) (btn_files p) (btn_style p)
    (mkField (f_bounds (cmd_field p)) (f_fill (cmd_field p)) (f_border (cmd_field p)) (f_text_color (cmd_field p)) (f_buffer (cmd_field p))
       (Z.of_nat (length l)) (f_focused (cmd_field p)))
    l true line_dirty.
Definition tick_shell : M system unit :=
  r <-- on_terminal shell_tick ;;
  (match r.1 with Some line => run_line line | None => ret tt end) ;;;
  s <-- get ;;
  on_gui (on_screen_part (modify (λ c, (show_line r.2 (input_changed (sy_line s)) c.1, c.2)))).

Definition ui_tick : M system unit :=
  tick_shell ;;;
  s <-- get ;;
  (if mouse_moved (y_mouse (sy_machine s)) then
     on_machine (modify (λ c, set_mouse (mouse_clear_moved (y_mouse c)) c)) ;;; on_gui (modify (set_ui_dirty true))
   else ret tt) ;;;
  d <-- on_gui (on_screen_part shell_dirty) ;;
  if d then on_gui (modify (set_ui_dirty true)) else ret tt.

(** [ui_render] at the present tick and mouse; [shell_clear_dirty] also clears the line input. *)
Definition render_now (fuel n : nat) : M system unit :=
  s <-- get ;;
  let c := sy_machine s in
  on_gui (ui_render call_paint font fuel n (tick_count c) (tick_count c) (tick_count c) (mouse_x (y_mouse c)) (mouse_y (y_mouse c))) ;;;
  f <-- on_screen fb_ready ;;
  if f then modify (λ s, mkSystem (sy_machine s) (sy_fs s) (mkInput (input_buf (sy_line s)) (input_len (sy_line s)) false) (sy_gui s)) else ret tt.

(** One round of [for (;;)], up to [hlt]; the result is [last_tick]. *)
Definition idle_round (fuel n : nat) (last_tick : Z) : M system Z :=
  ui_tick ;;;
  t <-- on_machine timer_ticks ;;
  d <-- on_gui ui_dirty ;;
  if d || negb (t =? last_tick) then render_now fuel n ;;; ret t else ret last_tick.
End system.

(** [panic], up to the halt. *)
Definition panic_screen {OS} `{!PageSource OS} (font : text_state) (msg : list Z) : M (display OS) unit :=
  r <-- fb_ready ;;
  if r then text_draw font 10 10 msg 0xFF0000 0x000000 else ret tt.

(** ** Lemmas on the boot output *)

(** What goes over the line for a text, and the answers a byte waits for. *)
Definition wire (s : list Z) : list Z := flat_map (λ c, if c =? 10 then [13; 10] else [c]) s.
Definition wait_ok (w : list Z) : Prop :=
  exists busy v, w = busy ++ [v] /\ Forall (λ b, 0 <= b < 256 /\ can_send b = false) busy /\ 0 <= v < 256 /\ can_send v = true.
(** The bytes that were sent, the first one first. *)
Definition sent_byte (e : port_event) : option Z := match e with Outb p v => if p =? 0x3F8 then Some v else None | _ => None end.
Definition sent (log : list port_event) : list Z := rev (omap sent_byte log).

Lemma sent_reads p l log : sent (rev (Inb p <$> l) ++ log) = sent log.
Proof.
  unfold sent. f_equal. induction l as [|b l IH] using rev_ind; [done|]. rewrite fmap_app, rev_app_distr. cbn [fmap list_fmap rev app omap list_omap sent_byte]. exact IH.
Qed.

Lemma putc_run c w rest log : 0 <= c < 256 -> wait_ok w ->
  exists log', serial_putc c (mkPio (w ++ rest) log) = Ret tt (mkPio rest log') /\ sent log' = sent log ++ [c].
Proof.
  intros Hc (busy & v & -> & Hb & Hv & Hok). unfold serial_putc. rewrite <- app_assoc. cbn [app].
  rewrite (bind_Ret _ _ _ _ _ (poll_until_run _ can_send busy v rest log Hb Hv Hok)). eexists. split; [reflexivity|].
  cbn [port_log]. rewrite !(wrap_small 8 c) by (simpl; lia). unfold sent at 1. cbn [omap list_omap sent_byte Z.eqb Pos.eqb rev].
  f_equal. exact (sent_reads _ busy log).
Qed.

Lemma wire_cons c s : wire (c :: s) = (if c =? 10 then [13] else []) ++ c :: wire s.
Proof. unfold wire. cbn [flat_map]. destruct (Z.eqb_spec c 10) as [->|]; done. Qed.

Lemma serial_run s : Forall (λ c, 0 <= c < 256) s -> forall waits rest log,
  length waits = length (wire s) -> Forall wait_ok waits ->
  exists log', serial_write s (mkPio (concat waits ++ rest) log) = Ret tt (mkPio rest log') /\ sent log' = sent log ++ wire s.
Proof.
  induction 1 as [|c s Hc _ IH]; intros waits rest log Hlen Hw.
  { destruct waits; [|done]. exists log. by rewrite app_nil_r. }
  rewrite wire_cons in *. cbn [serial_write].
  assert (forall waits rest log, length waits = length (c :: wire s) -> Forall wait_ok waits ->
    exists log', (serial_putc c ;;; serial_write s) (mkPio (concat waits ++ rest) log) = Ret tt (mkPio rest log') /\ sent log' = sent log ++ c :: wire s) as Hgo.
  { clear waits rest log Hlen Hw. intros waits rest log Hlen Hw. destruct Hw as [|w waits Hw Hws]; [done|]. cbn [concat]. rewrite <- app_assoc.
    destruct (putc_run c w (concat waits ++ rest) log Hc Hw) as (log1 & E1 & H1). rewrite (bind_Ret _ _ _ _ _ E1).
    destruct (IH waits rest log1) as (log2 & E2 & H2); [by injection Hlen|done|]. exists log2. split; [exact E2|]. rewrite H2, H1. by rewrite <- app_assoc. }
  destruct (c =? 10); [|by apply Hgo]. destruct Hw as [|w waits Hw Hws]; [done|]. cbn [concat]. rewrite <- app_assoc.
  destruct (putc_run 13 w (concat waits ++ rest) log ltac:(lia) Hw) as (log1 & E1 & H1). rewrite (bind_Ret _ _ _ _ _ E1).
  destruct (Hgo waits rest log1) as (log2 & E2 & H2); [by injection Hlen|done|]. exists log2. split; [exact E2|]. rewrite H2, H1. by rewrite <- app_assoc.
Qed.

(** A cell of the text screen. *)
Definition vga_cell (c : Z) : Z := Z.lor 0x0F00 (u8 c).
Definition vga_ok (g : vga) : Prop := length (video g) = Z.to_nat 2000 /\ 0 <= vga_cursor g.

Lemma vga_run s : forall g, vga_ok g -> exists g', early_vga_write s g = Ret tt g' /\ vga_ok g'.
Proof.
  induction s as [|c s IH]; intros g [Hl Hc]; [by exists g|]. cbn [early_vga_write]. rewrite bind_get.
  destruct (c =? 10).
  - rewrite bind_put. apply IH. split; [done|]. cbn [vga_cursor]. apply Z.mod_pos_bound. lia.
  - set (k := if 80 * 25 <=? vga_cursor g then 0 else vga_cursor g).
    assert (0 <= k < 2000) as Hk by (unfold k; destruct (Z.leb_spec (80 * 25) (vga_cursor g)); lia).
    rewrite aset_in by lia. rewrite bind_assoc, bind_option, bind_put. apply IH. split; [|cbn [vga_cursor]; lia]. cbn [video]. by rewrite length_insert.
Qed.

(** Text without line feeds that fits. *)
Lemma vga_text s : forall g, length (video g) = Z.to_nat 2000 -> 0 <= vga_cursor g -> vga_cursor g + Z.of_nat (length s) <= 2000 -> Forall (λ c, c <> 10) s ->
  early_vga_write s g = Ret tt (mkVga (list_inserts (Z.to_nat (vga_cursor g)) (vga_cell <$> s) (video g)) (vga_cursor g + Z.of_nat (length s))).
Proof.
  induction s as [|c s IH]; intros g Hl Hc Hn Hs; [cbn; rewrite Z.add_0_r; by destruct g|]. inversion_clear Hs as [|? ? Hne Hs']. cbn [early_vga_write length] in *.
  rewrite bind_get. destruct (Z.eqb_spec c 10); [done|]. destruct (Z.leb_spec (80 * 25) (vga_cursor g)); [lia|].
  rewrite aset_in by lia. rewrite bind_assoc, bind_option, bind_put. rewrite IH; cbn [video vga_cursor]; [|by rewrite length_insert|lia|lia|done].
  f_equal. f_equal; [|lia]. cbn [fmap list_fmap list_inserts]. rewrite Z2Nat.inj_add by lia. rewrite Nat.add_1_r. fold (vga_cell c). by rewrite list_insert_inserts_lt by lia.
Qed.

(** ** Lemmas on the system calls *)

Lemma zoom_inv {S T A} (g : S -> T) (p : T -> S -> S) (m : M T A) s v s' :
  zoom g p m s = Ret v s' -> exists t, m (g s) = Ret v t /\ s' = p t s.
Proof. unfold zoom. destruct (m (g s)); naive_solver. Qed.
Lemma zoom_run {S T A} (g : S -> T) (p : T -> S -> S) (m : M T A) s v t : m (g s) = Ret v t -> zoom g p m s = Ret v (p t s).
Proof. unfold zoom. by intros ->. Qed.

Lemma read_string_same fuel a m l m' : read_string fuel a m = Ret l m' -> m' = m.
Proof.
  revert a l m'. induction fuel as [|fuel IH]; intros a l m' E; [done|]. cbn [read_string] in E. rewrite bind_get in E.
  destruct (m !! a) as [c|]; [|done]. rewrite bind_option in E. destruct (c =? 0); [by injection E|].
  apply bind_Ret_inv in E as (r & m1 & E1 & E2). apply IH in E1 as ->. by injection E2.
Qed.

(** A string in memory is read up to its end. *)
Lemma read_string_run l : forall fuel a m, Forall (λ c, c <> 0) l -> (length l < fuel)%nat ->
  (forall i, 0 <= i <= Z.of_nat (length l) -> m !! (a + i) = (l ++ [0]) !! Z.to_nat i) -> read_string fuel a m = Ret l m.
Proof.
  induction l as [|c l IH]; intros [|fuel] a m Hl Hf Hm; try (cbn in Hf; lia); cbn [read_string]; rewrite bind_get.
  - specialize (Hm 0 ltac:(cbn; lia)). rewrite Z.add_0_r in Hm. rewrite Hm. done.
  - inversion_clear Hl as [|? ? Hc Hl']. pose proof (Hm 0 ltac:(cbn; lia)) as H0. rewrite Z.add_0_r in H0. rewrite H0.
    change (((c :: l) ++ [0]) !! Z.to_nat 0) with (Some c).
    rewrite bind_option. destruct (Z.eqb_spec c 0); [done|]. rewrite (bind_Ret _ _ _ l m); [done|]. apply IH; [done|cbn in Hf; lia|].
    intros i Hi. replace (a + 1 + i) with (a + (i + 1)) by lia. rewrite Hm by (cbn [length]; lia). rewrite Z.add_1_r, Z2Nat.inj_succ by lia. done.
Qed.

Lemma write_bytes_run l : forall m a, mapped m a (Z.of_nat (length l)) ->
  exists m', write_bytes m a l = Some m' /\
    forall b, m' !! b = if decide (a <= b < a + Z.of_nat (length l)) then u8 <$> l !! Z.to_nat (b - a) else m !! b.
Proof.
  induction l as [|c l IH]; intros m a Hm; cbn [write_bytes length].
  - exists m. split; [done|]. intros b. by rewrite decide_False by lia.
  - rewrite put8_in by (apply Hm; cbn; lia). cbn [mbind option_bind]. destruct (IH (<[a := u8 c]> m) (a + 1)) as (m' & E & H).
    { apply mapped_insert. intros i Hi. apply Hm. cbn [length]. lia. }
    exists m'. split; [exact E|]. intros b. rewrite H. destruct (decide (b = a)) as [->|Hne].
    + rewrite decide_False, decide_True by lia. by rewrite lookup_insert_eq, Z.sub_diag.
    + rewrite lookup_insert_ne by done. destruct (decide (a + 1 <= b < a + 1 + Z.of_nat (length l))).
      * rewrite decide_True by lia. by assert (Z.to_nat (b - a) = S (Z.to_nat (b - (a + 1)))) as -> by lia.
      * by rewrite decide_False by lia.
Qed.

Section runs.
Context {K F W OS : Type} `{PA : PageAllocator K} `{!Allocator F} `{!Allocator W} `{!PageSource OS}.
Local Abbreviation display := (display OS).
Local Abbreviation system := (@system K F W OS).
Implicit Types (s : system) (d : display) (mm : mem).

Definition screen_of s : display := (ui_screen (sy_gui s)).2.
(** [s] with another display. *)
Definition with_display d s : system :=
  mkSystem (sy_machine s) (sy_fs s) (sy_line s) (set_screen ((ui_screen (sy_gui s)).1, d) (sy_gui s)).

Lemma on_screen_run {A} (m : M display A) s v d : m (screen_of s) = Ret v d -> on_screen m s = Ret v (with_display d s).
Proof. unfold on_screen, on_gui, on_display_part, on_screen_part, zoom, screen_of. intros ->. done. Qed.
Lemma on_screen_inv {A} (m : M display A) s v s' : on_screen m s = Ret v s' -> exists d, m (screen_of s) = Ret v d /\ s' = with_display d s.
Proof.
  unfold on_screen, on_gui, on_display_part, on_screen_part, zoom, screen_of. destruct (m _) eqn:E; try done. intros [= <- <-]. by eexists.
Qed.
Lemma with_display_same s : with_display (screen_of s) s = s.
Proof. by destruct s as [? ? ? [? ? ? ? ? []]]. Qed.

Lemma string_at_inv fuel a s l s' : string_at fuel a s = Ret l s' -> s' = s.
Proof.
  unfold string_at. intros (d & E & ->)%on_screen_inv. assert (d = screen_of s) as ->; [|apply with_display_same].
  unfold on_heap in E. apply zoom_inv in E as (h & (m & Em%read_string_same & ->)%zoom_inv & ->). subst m. by destruct (screen_of s) as [[] ? ? ?].
Qed.
Lemma string_at_run fuel a s l : Forall (λ c, c <> 0) l -> (length l < fuel)%nat ->
  (forall i, 0 <= i <= Z.of_nat (length l) -> memory s !! (a + i) = (l ++ [0]) !! Z.to_nat i) -> string_at fuel a s = Ret l s.
Proof.
  intros Hl Hf Hm. unfold string_at. rewrite (on_screen_run _ s l (screen_of s)); [by rewrite with_display_same|].
  unfold on_heap, zoom. change (hp_mem (d_heap (screen_of s))) with (memory s). rewrite (read_string_run l fuel a _ Hl Hf Hm). unfold memory.
  change (ui_screen (sy_gui s)).2 with (screen_of s). by destruct (screen_of s) as [[] ? ? ?].
Qed.

(** The parts a system call leaves alone. *)
Definition frame (num : Z) s s' : Prop :=
  (num <> SYSCALL_EXIT -> sy_machine s' = sy_machine s) /\
  (~ (SYSCALL_READ <= num <= SYSCALL_CLOSE) -> sy_fs s' = sy_fs s) /\
  sy_line s' = sy_line s /\
  (num <> SYSCALL_READ -> num <> SYSCALL_DRAW_RECT -> num <> SYSCALL_DRAW_TEXT -> sy_gui s' = sy_gui s) /\
  sy_gui s' = set_screen ((ui_screen (sy_gui s)).1, screen_of s') (sy_gui s).

Lemma frame_display num d s : num = SYSCALL_READ \/ num = SYSCALL_DRAW_RECT \/ num = SYSCALL_DRAW_TEXT -> frame num s (with_display d s).
Proof. intros Hn. split; [done|]. split; [done|]. split; [done|]. split; [naive_solver|]. done. Qed.

Lemma gui_same (g : ui W (panels * display)) : set_screen ((ui_screen g).1, (ui_screen g).2) g = g.
Proof. by destruct g as [? ? ? ? ? []]. Qed.

Local Ltac kept := match goal with H : forall n s', n = _ -> _ |- _ => apply H end; (done || (unfold SYSCALL_READ, SYSCALL_WRITE, SYSCALL_OPEN, SYSCALL_CLOSE; lia)).

Lemma dispatch_frame font asm fuel num a1 a2 a3 a4 a5 s v s' :
  syscall_dispatch font asm fuel num a1 a2 a3 a4 a5 s = Ret v s' -> frame num s s'.
Proof.
  unfold syscall_dispatch. assert (forall n s', n = num -> sy_gui s' = sy_gui s -> sy_line s' = sy_line s ->
    (num <> SYSCALL_EXIT -> sy_machine s' = sy_machine s) -> (~ (SYSCALL_READ <= num <= SYSCALL_CLOSE) -> sy_fs s' = sy_fs s) -> frame n s s') as Hkeep.
  { intros n x -> Hg Hl Hm Hf. split; [done|]. split; [done|]. split; [done|]. split; [done|]. unfold screen_of. by rewrite Hg, gui_same. }
  destruct (Z.eqb_spec num SYSCALL_EXIT) as [->|_]; [intros (t & _ & ->)%zoom_inv; kept|].
  destruct (Z.eqb_spec num SYSCALL_READ) as [->|_].
  { intros (r & s1 & (t & _ & ->)%zoom_inv & ([] & s2 & (d & _ & ->)%on_screen_inv & E)%bind_Ret_inv)%bind_Ret_inv. injection E as _ <-.
    split; [done|]. split; [unfold SYSCALL_READ, SYSCALL_CLOSE; lia|]. done. }
  destruct (Z.eqb_spec num SYSCALL_WRITE) as [->|_].
  { unfold sys_write. rewrite bind_get. intros (b & s1 & E1 & (t & _ & ->)%zoom_inv)%bind_Ret_inv.
    assert (s1 = s) as ->. { unfold of_option, ret in E1. destruct (open_entry _ _); [destruct (read_bytes _ _ _)|]; by simplify_eq. }
    kept. }
  destruct (Z.eqb_spec num SYSCALL_OPEN) as [->|_].
  { intros (p & s1 & ->%string_at_inv & (t & _ & ->)%zoom_inv)%bind_Ret_inv. kept. }
  destruct (Z.eqb_spec num SYSCALL_CLOSE) as [->|_]; [intros (t & _ & ->)%zoom_inv; kept|].
  destruct (Z.eqb_spec num SYSCALL_DRAW_RECT) as [->|_].
  { intros ([] & s1 & (d & _ & ->)%on_screen_inv & E)%bind_Ret_inv. injection E as _ <-. apply frame_display. by right; left. }
  destruct (Z.eqb_spec num SYSCALL_DRAW_TEXT) as [->|_].
  { intros (l & s1 & ->%string_at_inv & ([] & s2 & (d & _ & ->)%on_screen_inv & E)%bind_Ret_inv)%bind_Ret_inv. injection E as _ <-.
    apply frame_display. by right; right. }
  destruct (Z.eqb_spec num SYSCALL_GET_TICKS) as [->|_].
  { intros (t & s1 & (c & Ec & ->)%zoom_inv & E)%bind_Ret_inv. injection Ec as <- <-. injection E as _ <-. kept. }
  intros [= <- <-]. kept.
Qed.
End runs.

(** ** A write through one descriptor and a read through another *)

Section descriptors.
Context {F : Type} `{!Allocator F}.
Implicit Types v : vfs F.

Lemma entry_ext v v' fd : open_table v' = open_table v -> open_entry v' fd = open_entry v fd.
Proof. unfold open_entry. by intros ->. Qed.

Lemma set_offset_other v fd fd' f o : fd <> fd' -> open_entry v fd = Some f ->
  exists t, set_offset fd o v = Ret tt (set_table t v) /\ open_entry (set_table t v) fd' = open_entry v fd'.
Proof.
  intros Hne (Hfd & _)%open_entry_inv. eexists. split; [reflexivity|]. unfold open_entry. cbn [open_table set_table].
  destruct (Z.ltb_spec fd' 0), (Z.leb_spec VFS_MAX_OPEN fd'); cbn [orb]; try done. unfold aget. destruct (Z.ltb_spec fd' 0); [lia|].
  by rewrite list_lookup_alter_ne by lia.
Qed.

Lemma write_other v fd fd' a o l bytes :
  fd <> fd' -> open_at v fd a o -> open_at v fd' a o -> file_at v a l -> bytes <> [] -> 0 <= o <= Z.of_nat (length l) -> o + Z.of_nat (length bytes) < 2 ^ 63 ->
  (exists msg t, vfs_write fd bytes v = Panic msg t) \/ (exists v', vfs_write fd bytes v = Ret (-1) v') \/
  (exists v' v'', vfs_write fd bytes v = Ret (Z.of_nat (length bytes)) v' /\
     vfs_read fd' (Z.of_nat (length bytes)) v' = Ret (Z.of_nat (length bytes), bytes) v'').
Proof.
  intros Hne (f & Hf & <- & <-) (f' & Hf' & Ha & Ho') Hfile Hb Ho Hmax. unfold vfs_write. rewrite bind_get, Hf.
  assert (0 < Z.of_nat (length bytes)) by (destruct bytes; simpl; done || lia).
  destruct (default_write_run v (o_node f) l bytes (o_offset f) Hfile Hb Ho Hmax) as [(msg & t & E)|[(v' & E & _ & _)|(v' & E & Hv & Ht)]].
  { left. exists msg, t. by apply bind_Panic. }
  { right; left. rewrite (bind_Ret _ _ _ _ _ E). by exists v'. }
  right; right. rewrite (bind_Ret _ _ _ _ _ E). destruct (Z.ltb_spec 0 (Z.of_nat (length bytes))); [|lia].
  destruct (set_offset_other v' fd fd' f (u64 (o_offset f + Z.of_nat (length bytes))) Hne) as (t1 & E1 & Ho1); [by rewrite (entry_ext v v' fd Ht)|].
  rewrite (bind_Ret _ _ _ _ _ E1). rewrite (entry_ext v v' fd' Ht), Hf' in Ho1 by done.
  pose proof (default_read_run (set_table t1 v') (o_node f') (overwrite l bytes (o_offset f)) (o_offset f) (Z.of_nat (length bytes))) as Er.
  destruct (set_offset_run (set_table t1 v') fd' f' (u64 (o_offset f' + Z.of_nat (length bytes))) Ho1) as (t2 & E2 & _).
  eexists _, _. split; [reflexivity|]. unfold vfs_read. rewrite bind_get, Ho1, Ho'. rewrite Ha in *.
  cbv zeta in Er. rewrite (overwrite_bytes l bytes (o_offset f) Ho) in Er.
  rewrite (bind_Ret _ _ _ _ _ (Er Hv (proj1 Ho) ltac:(lia) ltac:(lia))). cbn [fst].
  destruct (Z.ltb_spec 0 (Z.of_nat (length bytes))); [|lia]. rewrite Ho' in E2. by rewrite (bind_Ret _ _ _ _ _ E2).
Qed.
End descriptors.

Section kernel_runs.
Context {K F W OS : Type} `{PA : PageAllocator K} `{!Allocator F} `{!Allocator W} `{!PageSource OS}.
Local Abbreviation display := (display OS).
Local Abbreviation system := (@system K F W OS).
Implicit Types (s : system) (d : display) (mm : mem).

(** A descriptor is small. *)
Lemma fd_small (v : vfs F) fd f : open_entry v fd = Some f -> s32 fd = fd.
Proof. intros (Hfd & _)%open_entry_inv. unfold VFS_MAX_OPEN in Hfd. apply signed_small; simpl; lia. Qed.

Lemma read_bytes_run n : forall (m : mem) a, mapped m a (Z.of_nat n) ->
  exists l, read_bytes n m a = Some l /\ length l = n /\ forall i, 0 <= i < Z.of_nat n -> l !! Z.to_nat i = m !! (a + i).
Proof.
  induction n as [|n IH]; intros m a Hm; cbn [read_bytes]; [exists []; split; [done|]; split; [done|lia]|].
  destruct (Hm a ltac:(lia)) as [b Hb]. rewrite Hb. cbn [mbind option_bind].
  destruct (IH m (a + 1)) as (l & -> & Hl & Hi); [intros i Hi; apply Hm; lia|]. exists (b :: l). cbn [length]. split; [done|]. split; [lia|].
  intros i Hin. destruct (decide (i = 0)) as [->|]; [by rewrite Z.add_0_r, Hb|].
  replace (Z.to_nat i) with (S (Z.to_nat (i - 1))) by lia. cbn [lookup list_lookup]. change (l !! Z.to_nat (i - 1) = m !! (a + i)). rewrite Hi by lia. f_equal. lia.
Qed.

(** What [sys_read] does with the result of [vfs_read]. *)
Lemma sys_read_run s a1 a2 a3 n bytes fs' :
  vfs_read (s32 a1) a3 (sy_fs s) = Ret (n, bytes) fs' -> mapped (memory s) a2 (Z.of_nat (length bytes)) ->
  exists s', sys_read a1 a2 a3 s = Ret n s' /\ sy_fs s' = fs' /\
    forall b, memory s' !! b = if decide (a2 <= b < a2 + Z.of_nat (length bytes)) then u8 <$> bytes !! Z.to_nat (b - a2) else memory s !! b.
Proof.
  intros E Hm. destruct (write_bytes_run bytes (memory s) a2 Hm) as (m' & Ew & Hb). unfold sys_read, on_fs.
  rewrite (bind_Ret _ _ _ _ _ (zoom_run _ _ _ s _ _ E)).
  set (s1 := mkSystem (sy_machine s) fs' (sy_line s) (sy_gui s)).
  assert (on_mem (λ m, write_bytes m a2 bytes) (screen_of s1) = Ret tt (at_mem m' (screen_of s))) as Eo.
  { unfold on_mem. rewrite bind_get. change (hp_mem (d_heap (screen_of s1))) with (memory s). by rewrite Ew. }
  cbn [fst snd]. rewrite (bind_Ret _ _ _ _ _ (on_screen_run _ s1 tt _ Eo)). eexists. split; [reflexivity|]. split; [done|]. exact Hb.
Qed.

Lemma sys_write_run s a1 a2 a3 f bytes n fs' :
  open_entry (sy_fs s) a1 = Some f -> read_bytes (Z.to_nat a3) (memory s) a2 = Some bytes -> vfs_write a1 bytes (sy_fs s) = Ret n fs' ->
  sys_write a1 a2 a3 s = Ret n (mkSystem (sy_machine s) fs' (sy_line s) (sy_gui s)).
Proof.
  intros Hf Hb E. unfold sys_write. rewrite bind_get, (fd_small _ _ _ Hf), Hf, Hb, bind_option. unfold on_fs. exact (zoom_run _ _ _ s _ _ E).
Qed.

(** After [ui_tick] the desktop is dirty. *)
Lemma tick_dirty run_line s s' : ui_tick run_line s = Ret tt s' -> ui_dirty_flag (sy_gui s') = true.
Proof.
  unfold ui_tick. intros ([] & s1 & E1 & E)%bind_Ret_inv.
  assert (dirty (ui_screen (sy_gui s1)).1 = true) as Hd.
  { unfold tick_shell in E1. apply bind_Ret_inv in E1 as (r & s2 & _ & E1). apply bind_Ret_inv in E1 as ([] & s3 & _ & E1).
    rewrite bind_get in E1. apply zoom_inv in E1 as (g & Eg & ->). apply zoom_inv in Eg as (c & Ec & ->). by injection Ec as <-. }
  rewrite bind_get in E. apply bind_Ret_inv in E as ([] & s2 & E2 & E).
  assert (dirty (ui_screen (sy_gui s2)).1 = true) as Hd2.
  { destruct (mouse_moved _); [|by injection E2 as <-]. apply bind_Ret_inv in E2 as ([] & s3 & (c & Ec & ->)%zoom_inv & E2).
    apply zoom_inv in E2 as (g & Eg & ->). by injection Eg as <-. }
  apply bind_Ret_inv in E as (b & s3 & (g & Eg & ->)%zoom_inv & E). apply zoom_inv in Eg as (c & Ec & ->).
  unfold shell_dirty in Ec. rewrite bind_get in Ec. injection Ec as <- <-. rewrite Hd2 in E. cbn [orb] in E.
  apply zoom_inv in E as (g & Eg & ->). by injection Eg as <-.
Qed.

Lemma idle_round_run font run_line call_paint fuel n last s :
  idle_round font run_line call_paint fuel n last s =
    (ui_tick run_line ;;; t <-- on_machine timer_ticks ;; render_now font call_paint fuel n ;;; ret t) s.
Proof.
  unfold idle_round. destruct (ui_tick run_line s) as [[] s'|msg s'| |] eqn:E; unfold bind at 1 5; rewrite E; try done.
  unfold timer_ticks, on_machine. unfold bind at 1 4. unfold zoom, gets. cbn [fst snd].
  set (s1 := mkSystem _ _ _ _). assert (s1 = s') as -> by by destruct s'.
  unfold on_gui, ui_dirty, gets. unfold bind at 1. unfold zoom at 1. rewrite (tick_dirty _ _ _ E). cbn [orb].
  set (s1 := mkSystem _ _ _ _). by assert (s1 = s') as -> by by destruct s'.
Qed.
End kernel_runs.

(** ** The loop of [kernel_idle] *)

Section running.
Context {K F W OS : Type} `{PA : PageAllocator K} `{!Allocator F} `{!Allocator W} `{!PageSource OS}.
Local Abbreviation display := (display OS).
Local Abbreviation system := (@system K F W OS).
Implicit Types (s : system) (p : panels).
(** The display of the boot with its memory, and the widget tree. *)
Variables (d : display) (mm0 : mem) (T : gmap Z (list Z)) (X : gset Z).






Variable run_line : list Z -> M system unit.






Variables (call_paint : Z -> Z -> M (ui W (panels * display)) unit) (fuel n : nat).
Hypothesis desk_ok : desk_screen d /\ buffers_ok d.
Hypothesis painters : painters_ok d call_paint.
Hypothesis enough : (200 <= fuel)%nat /\ (size X < n)%nat.



Variables (handlers : list (option (M (machine (kern K)) unit))) (asm : compiled).




End running.

(** ** Properties *)

Section boot_properties.

(** [serial_write] ends when the line is at last free before each byte, and sends the text with
    a carriage return before each line feed, byte by byte and nothing else. *)
Theorem serial_write_spec s waits rest log :
  Forall (λ c, 0 <= c < 256) s -> length waits = length (wire s) -> Forall wait_ok waits ->
  exists log', serial_write s (mkPio (concat waits ++ rest) log) = Ret tt (mkPio rest log') /\ sent log' = sent log ++ wire s.
Proof. intros Hs Hl Hw. by apply serial_run. Qed.

(** [early_vga_write] never writes outside of the 25 rows of 80 cells, whatever the text and
    however often it was called; a text without line feeds that fits is put into the next cells,
    white on black. *)
Theorem early_vga_write_spec s g :
  vga_ok g ->
  (exists g', early_vga_write s g = Ret tt g' /\ vga_ok g') /\
  (vga_cursor g + Z.of_nat (length s) <= 2000 -> Forall (λ c, c <> 10) s ->
   early_vga_write s g = Ret tt (mkVga (list_inserts (Z.to_nat (vga_cursor g)) (vga_cell <$> s) (video g)) (vga_cursor g + Z.of_nat (length s)))).
Proof. intros Hg. split; [by apply vga_run|]. destruct Hg as [Hl Hc]. intros Hn Hs. by apply vga_text. Qed.

(** The two halves of a register. *)
Lemma split32 v : 0 <= v < 2 ^ 64 -> Z.lor (Z.shiftl (u32 (Z.shiftr v 32)) 32) (u32 v) = v.
Proof.
  intros Hv. rewrite (wrap_small 32 (Z.shiftr v 32)).
  2: { rewrite Z.shiftr_div_pow2 by lia. split; [apply Z.div_pos; lia|apply Z.div_lt_upper_bound; lia]. }
  apply Z.bits_inj'. intros i Hi. unfold wrap. rewrite Z.lor_spec, Z.shiftl_spec by done. destruct (Z.lt_ge_cases i 32).
  - rewrite Z.testbit_neg_r, Z.mod_pow2_bits_low by lia. done.
  - rewrite Z.shiftr_spec, Z.mod_pow2_bits_high by lia. rewrite orb_false_r. f_equal. lia.
Qed.

Lemma wrmsr_value msr v (s : msrs) : 0 <= v < 2 ^ 64 -> wrmsr msr v s = Ret tt (<[msr := v]> s).
Proof.
  intros Hv. unfold wrmsr, modify. f_equal. f_equal. apply split32; lia.
Qed.

(** After [syscall_init] the system call instruction is on (the other bits of EFER as they were)
    and enters at [syscall_entry] with the interrupts masked, both GS bases are those of the
    stack switch, whose kernel stack starts at its end, and no other register has changed. *)
Theorem syscall_init_spec entry cpu_data stack (s : msrs) efer :
  s !! 0xC0000080 = Some efer -> 0 <= efer < 2 ^ 64 -> 0 <= entry < 2 ^ 64 -> 0 <= cpu_data < 2 ^ 64 ->
  exists s', syscall_init entry cpu_data stack s = Ret (mkCpu 0 (stack + 16384)) s' /\
    s' !! 0xC0000080 = Some (Z.lor efer 1) /\ s' !! 0xC0000081 = Some star /\ s' !! 0xC0000082 = Some entry /\ s' !! 0xC0000084 = Some 0x200 /\
    s' !! 0xC0000101 = Some cpu_data /\ s' !! 0xC0000102 = Some cpu_data /\
    forall r, r ∉ [0xC0000080; 0xC0000081; 0xC0000082; 0xC0000084; 0xC0000101; 0xC0000102] -> s' !! r = s !! r.
Proof.
  intros He Hr Hen Hc. unfold syscall_init, rdmsr. rewrite bind_assoc, bind_get, bind_assoc, He, bind_option, bind_ret, split32 by lia.
  assert (0 <= Z.lor efer (Z.shiftl 1 0) < 2 ^ 64) as Hl.
  { change (Z.shiftl 1 0) with 1. split; [apply Z.lor_nonneg; lia|]. apply Z.log2_lt_cancel. rewrite Z.log2_lor, Z.log2_pow2 by lia.
    apply Z.max_lub_lt; [|done]. destruct (decide (efer = 0)) as [->|]; [done|]. apply Z.log2_lt_pow2; lia. }
  assert (0 <= star < 2 ^ 64) as Hs by (vm_compute; split; [discriminate|reflexivity]).
  assert (0 <= Z.shiftl 1 9 < 2 ^ 64) as Hm by done.
  rewrite (bind_Ret _ _ _ _ _ (wrmsr_value _ _ _ Hl)), (bind_Ret _ _ _ _ _ (wrmsr_value _ _ _ Hs)), (bind_Ret _ _ _ _ _ (wrmsr_value _ _ _ Hen)),
    (bind_Ret _ _ _ _ _ (wrmsr_value _ _ _ Hm)), !(bind_Ret _ _ _ _ _ (wrmsr_value _ _ _ Hc)). eexists. split; [reflexivity|].
  repeat (split; [by repeat (rewrite lookup_insert_eq || rewrite lookup_insert_ne by done)|]).
  intros r Hout. rewrite !lookup_insert_ne by set_solver. done.
Qed.
End boot_properties.

Section kernel_properties.
Context {K F W OS : Type} `{PA : PageAllocator K} `{!Allocator F} `{!Allocator W} `{!PageSource OS}.
Local Abbreviation system := (@system K F W OS).
Implicit Types s : system.
Variables (font : text_state) (asm : compiled) (fuel : nat).

(** A system call changes one part of the system: exit the machine, the calls on files the file
    system, a read and the drawing calls the memory; the panels, the widgets and the line input
    never change. *)
Theorem syscall_frame num a1 a2 a3 a4 a5 s v s' :
  syscall_dispatch font asm fuel num a1 a2 a3 a4 a5 s = Ret v s' -> frame num s s'.
Proof. apply dispatch_frame. Qed.

(** A number that is not one of the eight gives -1 and changes nothing. *)
Theorem syscall_unknown num a1 a2 a3 a4 a5 s :
  num < 0 \/ 7 < num -> syscall_dispatch font asm fuel num a1 a2 a3 a4 a5 s = Ret (-1) s.
Proof.
  intros Hn. unfold syscall_dispatch, SYSCALL_EXIT, SYSCALL_READ, SYSCALL_WRITE, SYSCALL_OPEN, SYSCALL_CLOSE, SYSCALL_DRAW_RECT, SYSCALL_DRAW_TEXT, SYSCALL_GET_TICKS.
  repeat (case_match; [lia|]). done.
Qed.

(** C26. What one descriptor writes, another of the same file at the same offset reads: after a write
    system call of [n] bytes at [src] that did not run out of memory, a read system call puts them at
    [dst], wherever that is, and changes no other byte of memory. *)
Theorem syscall_write_read s fd1 fd2 a o l src dst n a4 a5 b4 b5 :
  fd1 <> fd2 -> open_at (sy_fs s) fd1 a o -> open_at (sy_fs s) fd2 a o -> file_at (sy_fs s) a l -> 0 <= o <= Z.of_nat (length l) ->
  0 < n -> o + n < 2 ^ 63 -> byte_mem (memory s) -> mapped (memory s) src n -> mapped (memory s) dst n ->
  (exists msg t, syscall_dispatch font asm fuel SYSCALL_WRITE fd1 src n a4 a5 s = Panic msg t) \/
  (exists s', syscall_dispatch font asm fuel SYSCALL_WRITE fd1 src n a4 a5 s = Ret (-1) s') \/
  (exists s1 s2, syscall_dispatch font asm fuel SYSCALL_WRITE fd1 src n a4 a5 s = Ret n s1 /\ memory s1 = memory s /\
     syscall_dispatch font asm fuel SYSCALL_READ fd2 dst n b4 b5 s1 = Ret n s2 /\
     forall b, memory s2 !! b = if decide (dst <= b < dst + n) then memory s !! (src + (b - dst)) else memory s !! b).
Proof.
  intros Hne H1 H2 Hfile Ho Hn Hmax Hbm Hsrc Hdst.
  destruct (read_bytes_run (Z.to_nat n) (memory s) src) as (bytes & Hb & Hlen & Hi); [by rewrite Z2Nat.id by lia|].
  assert (Z.of_nat (length bytes) = n) as Hln by lia.
  change (syscall_dispatch font asm fuel SYSCALL_WRITE fd1 src n a4 a5 s) with (sys_write fd1 src n s).
  destruct H1 as (f & Hf & Hfa & Hfo), H2 as (f2 & Hf2 & Hfa2 & Hfo2).
  destruct (write_other (sy_fs s) fd1 fd2 a o l bytes Hne) as [(msg & t & E)|[(v' & E)|(v' & v'' & E & Er)]]; [by eexists|by eexists|done|intros ->; cbn in Hln; lia|done|lia|..].
  - left. unfold sys_write. rewrite bind_get, (fd_small _ _ _ Hf), Hf, Hb, bind_option. unfold on_fs, zoom. rewrite E. by eexists _, _.
  - right; left. eexists. exact (sys_write_run s fd1 src n f bytes (-1) v' Hf Hb E).
  - right; right. rewrite Hln in *. eexists. pose proof (sys_write_run s fd1 src n f bytes n v' Hf Hb E) as Ew.
    destruct (sys_read_run (mkSystem (sy_machine s) v' (sy_line s) (sy_gui s)) fd2 dst n n bytes v'') as (s2 & E2 & _ & Hm).
    { by rewrite (fd_small _ _ _ Hf2). }
    { by rewrite Hln. }
    exists s2. split; [exact Ew|]. split; [done|]. split; [exact E2|]. intros b. rewrite Hm, Hln. case_decide; [|done].
    rewrite Hi by lia. destruct (memory s !! (src + (b - dst))) as [c|] eqn:Ec; [|done]. cbn. f_equal. apply wrap_small. apply (Hbm _ _ Ec).
Qed.

(** C39. The test of [kernel_idle] is always true: [shell_tick] sets the dirty flag of the shell, so
    every round redraws the whole screen, whether anything has changed or not and whatever the
    last tick was. *)
Theorem idle_always_renders run_line call_paint n last s :
  idle_round font run_line call_paint fuel n last s =
    (ui_tick run_line ;;; t <-- on_machine timer_ticks ;; render_now font call_paint fuel n ;;; ret t) s.
Proof. apply idle_round_run. Qed.

End kernel_properties.

(** ** Concrete runs *)

Section kernel_witnesses.
#[local] Existing Instance bump_allocator.
#[local] Existing Instance one_page.

(** The line is busy once before the first byte. *)
Lemma serial_write_spec_witness :
  exists log, serial_write [79; 10] (mkPio [0; 0x20; 0x60; 0x20; 7] []) = Ret tt (mkPio [7] log) /\ sent log = [79; 13; 10].
Proof.
  destruct (serial_write_spec [79; 10] [[0; 0x20]; [0x60]; [0x20]] [7] []) as (log & E & H).
  - repeat constructor; lia.
  - reflexivity.
  - repeat constructor; [exists [0], 0x20|exists [], 0x60|exists [], 0x20]; repeat split; try constructor; try lia; repeat split; (lia || constructor).
  - exists log. split; [exact E|exact H].
Defined.

(** The end of the screen: the next character goes to its start. *)
Lemma early_vga_write_spec_witness :
  exists g, early_vga_write [65; 66; 10; 67] (mkVga (replicate (Z.to_nat 2000) 0) 1999) = Ret tt g /\ vga_ok g.
Proof.
  destruct (early_vga_write_spec [65; 66; 10; 67] (mkVga (replicate (Z.to_nat 2000) 0) 1999)) as [Hg _].
  - split; [apply length_replicate|cbn; lia].
  - exact Hg.
Defined.

Lemma syscall_init_spec_witness :
  exists s', syscall_init 0x101000 0x200000 0x300000 {[0xC0000080 := 0x500]} = Ret (mkCpu 0 0x304000) s' /\ s' !! 0xC0000080 = Some 0x501.
Proof.
  destruct (syscall_init_spec 0x101000 0x200000 0x300000 {[0xC0000080 := 0x500]} 0x500) as (s' & E & He & _); [reflexivity|lia|lia|lia|].
  exists s'. split; [exact E|exact He].
Defined.

(** The file of [vfs_small] with a second descriptor, and six bytes of memory. *)
Definition two_fds : vfs (gset Z) := set_table (<[3%nat := mkOpen 100 1 0 true]> (open_table vfs_small)) vfs_small.
Definition mem6 : mem := bytes_at 0x2000 [1; 2; 3; 4; 5; 6].
Definition system6 : @system (gset Z) (gset Z) (gset Z) nat :=
  mkSystem (mkMachine (mkPio [] []) kbd_back (mkMouse 0 0 0 false 0 [0; 0; 0]) 9 (mkKern ∅ ∅ 0 0 0 0 0 zero_context 0)) two_fds line_oh
    (mkUi ∅ ∅ 0 0 false (panels0, at_mem mem6 desk)).

Lemma syscall_frame_witness : frame SYSCALL_GET_TICKS system6 system6.
Proof. apply (syscall_frame text_start asm0 5 SYSCALL_GET_TICKS 0 0 0 0 0 system6 9 system6). reflexivity. Defined.

Lemma syscall_unknown_witness : syscall_dispatch text_start asm0 5 8 0 0 0 0 0 system6 = Ret (-1) system6.
Proof. apply (syscall_unknown text_start asm0 5 8). right. lia. Defined.

Lemma syscall_write_read_witness :
  exists s1 s2, syscall_dispatch text_start asm0 5 SYSCALL_WRITE 2 0x2000 2 0 0 system6 = Ret 2 s1 /\
    syscall_dispatch text_start asm0 5 SYSCALL_READ 3 0x2003 2 0 0 s1 = Ret 2 s2 /\ memory s2 !! 0x2004 = Some 2.
Proof.
  destruct (syscall_write_read text_start asm0 5 system6 2 3 100 1 [65; 66; 67] 0x2000 0x2003 2 0 0 0 0) as [(msg & t & E)|[(s' & E)|(s1 & s2 & E1 & _ & E2 & Hm)]].
  - lia.
  - by eexists.
  - by eexists.
  - exact vfs_small_file.
  - cbn. lia.
  - lia.
  - lia.
  - apply byte_memb_spec. vm_compute. reflexivity.
  - apply mappedb_spec. vm_compute. reflexivity.
  - apply mappedb_spec. vm_compute. reflexivity.
  - exfalso. revert E. vm_compute. discriminate.
  - exfalso. revert E. vm_compute. discriminate.
  - exists s1, s2. split; [exact E1|]. split; [exact E2|]. exact (Hm 0x2004).
Defined.



End kernel_witnesses.
